(* ===== verification/_CoqProject ===== *)
-Q . S2P
Prelude.v
Scalar.v
Types.v
Filter.v
State.v
Preproc.v
Detector.v
Classify.v
Pipeline.v
Trace.v
Safety.v
Stream.v
Binary32.v
Scenario.v
Text.v
Scanf.v
Adapter.v
Printer.v
