(* ===== verification/Prelude.v ===== *)
(** * Pedometer: a verification development for the step detector

    The program (src/pedometer.c, src/pedometer.h) is an offline pedometer.
    [main] opens an input and an output file, skips two header lines, reads
    one accelerometer row per line with [fgets] and [sscanf], synthesises
    its timestamp, and drives a pipeline one sample at a time, writing one
    output row per line read and a summary at the end:

    - [apply_filter] is a second-order IIR filter step on a [filter_t];
    - [step_algo_preproc] smooths the vertical channel with the 3 Hz low-pass
      instance and stores (sample, timestamp) in the frame buffer [AccBuff];
      every [SAMP_BUFF_LEN]-th call reports a full frame;
    - [step_algo_run] differentiates the frame with the 4 Hz lead-lag
      instance, scans the derivative for zero crossings (a falling crossing
      is a maximum of the smoothed signal, a rising one a minimum), gates the
      candidates by dead time, magnitude and separation, estimates amplitude
      and frequency, ages stale estimates, classifies the motion and adds the
      confirmed minima to the step counters.

    ** Files

    - [Prelude] (this file): 32-bit unsigned arithmetic as [Z] with explicit
      wrap-around ([wrap32], [u32_add]); counted [for] loops ([for_loop]) with
      their unrolling and invariant rules, and the same loops with an
      [unsigned int] counter and fuel ([c_for]); C arrays as lists ([!!!] reads,
      [<[i:=x]>] writes, two-dimensional [arr2_get]/[arr2_set]); the hint
      databases [u32] and [len] and the tactics shared by all files.
    - [Scalar]: the arithmetic interface. The C program computes on [float]
      and compares with [double] constants. The model is written once
      against the operations of class [Scalar], with one literal for each
      of the two types; the class [ExactScalar] states what an exact
      (rounding-free) arithmetic promises, as a homomorphism [toQ] into the
      rationals, and the canonical rationals [Qc] discharge it. Every
      theorem that does not mention [ExactScalar] holds for any arithmetic,
      the binary32 instance of [Binary32] included; the theorems that do
      are statements about the algorithm in exact arithmetic.
    - [Types]: pedometer.h: the configuration constants, [filter_t],
      [motion_type_t], [axis_t], [algo_out_t].
    - [Filter]: [apply_filter], the two coefficient sets and the group-delay
      computation of [main] (pedometer.c lines 112-139, 433-449);
      [filter_run] is [apply_filter] along a list of samples.
    - [State]: the variables that outlive a call, as one record [state]:
      the file-scope variables (lines 62-72), the [static] counter of
      [step_algo_preproc] and the statics of [step_algo_run] (lines
      255-260, record [run_static_t]); a setter per variable assigned; the
      shape of the arrays ([state_wf], [run_ready]).
    - [Preproc]: [step_algo_preproc] and the frame buffer (lines 199-219).
    - [Detector]: the three loops of [step_algo_run]: the
      derivative/extension loop ([derive_loop]), the zero-crossing scan
      ([detect_loop], one sample of it is [detect_sample], with the branches
      [max_search] and [min_search]) and the tail carry ([tail_loop])
      (lines 233-344, 375-379). The locals of the function are the record
      [Loc.t].
    - [Classify]: the amplitude and frequency estimates with their hold
      counters, the decision tree and the counter updates, and the whole
      [step_algo_run] as the composition of these parts (lines 346-424).
    - [Pipeline]: the initialisation of [main], its per-row loop and the
      summary line (lines 112-147, 160-186), on a list of parsed rows.
    - [Trace]: one iteration of the scan as a labelled step relation
      [scan_rel] over the locals, with the events [Idle], [Refused],
      [MaxFound] and [MinFound], and its closure [scan_run]; the tests and
      updates of lines 295-343 under names of their own.
    - [Safety]: every function that indexes an array, a second time, with
      each read and write checked against the declared length
      ([step_algo_preproc_chk], [step_algo_run_chk], [main_loop_chk]); the
      result is [None] at the first index out of range.
    - [Stream]: the filters of [main] run over the input as a whole
      ([smoothed], [derivative]), the reference that the frame-by-frame
      computation is compared with.
    - [Binary32]: the instance of [Scalar] on IEEE 754 binary32 values with
      binary64 constants ([float_scalar]), built on the Standard Library's
      [SpecFloat]: what the compiled program computes when every operation
      rounds to nearest even, [float] expressions are evaluated in binary32
      and no multiplication is fused with an addition.
    - [Scenario]: the recordings of section 8 of the specification
      (constant input, tones) generated inside the development, and the
      program run on them in binary32.
    - [Text]: texts as lists of characters, the character classes of
      ctype.h, [span], and [fgets] on a buffer of a given size, with the
      laws of prefixes and of reading a line.
    - [Scanf]: [sscanf], modelled from the C standard as an interpreter of
      a format given as a list of directives (white space, a literal
      character, [%d], [%[^,]], [%f] with decimal and hexadecimal
      constants, [inf] and [nan]); [line_format] is the format of line 162
      with the variables of line 163. A field that does not fit [date] or
      [time] is the result [Overflow]. The lines that write the fields
      of a row ([csv_row], [render]) are the specification side.
    - [Adapter]: [main] on files (lines 75-106, 149-190), [main_file]: the
      argument check, the two [fopen] calls, the header skip, the loop
      that reads with [fgets] into a buffer of 120 characters and parses
      with [sscanf], the arguments of each [fprintf] and [printf], and the
      exit status. The files are a value, [world]. A write past the end of
      [date] or [time] is the outcome [Undefined].
    - [Printer]: the characters written: [%d] and [%f] of [printf]
      ([print_int], [print_float]), the header of line 158, the row of
      lines 181-183 ([print_line]), the diagnostics and the summary
      ([print_message]), and [main_text], the program from the command
      line and the input file to its exit status, its standard output and
      its output file.

    ** Correspondence

    Each C [struct] is a [Record] with the C field names; each [enum] an
    [Inductive] with the C enumerators; each [static] or global variable a
    field of the state record of the component that owns it; each function a
    [Definition] of the same name taking the state it reads and returning
    the state it writes (a pointer parameter is an in/out value). A C [for]
    loop is [for_loop n body] and the body is a definition of its own.
    [unsigned int] is [Z] reduced by [wrap32] after every addition. An array
    read outside its bounds would be undefined in C; in the model it returns
    the default element, and [Safety] proves that the program with checked
    accesses never fails and computes the same, so the default is never
    read. A call of [exit] is a value of [outcome] with the status, the
    diagnostics printed and the state of the output file; a text is a list
    of characters, and a C string is the buffer up to its first null
    character.

    ** What the theorems show

    - [Prelude], [Scalar]: laws of the shared operations.
    - [Filter]: the history shift; in exact arithmetic, the difference
      equation, superposition along a run, a settled filter stays settled,
      the lead-lag filter answers zero to a constant, and the group delays
      are 8 and 7 samples; in any arithmetic they are at most
      [MAX_TC_SAMPLES].
    - [Preproc]: the buffer fills at [count], signals every
      [SAMP_BUFF_LEN]-th call, and [count] stays inside the buffer; after a
      whole frame the buffer is the low-pass filter run over the inputs.
    - [Detector]: the copy loops in closed form, hence what the scan reads
      at index [i] (the sample [TC_samples] places before the derivative it
      is paired with) and what a frame hands to the next; the scan loop is
      a left fold of [detect_sample]; a sample adds at most one detection;
      in exact arithmetic, the gates every counted minimum and maximum has
      passed, the period contributions lie in (0.2, 1.5], and the clamp of
      the timestamps survives a refused candidate, which lets a swing of
      0.5 be counted after a pause.
    - [Classify]: the decision tree against the table of regions; both
      estimates on every branch, with hold counters that stay within
      [0, BUFF_FACTOR]; the call keeps the shape of the arrays; in exact
      arithmetic a frame that counted a step has a frequency estimate of at
      least 2/3 and is never STATIC, so the total and the per-class counters
      agree modulo 2^32; a frame of a sensor at rest counts nothing; in
      any arithmetic where zero is in the dead band and is classified
      STATIC, a frame without detection that follows [BUFF_FACTOR] such
      frames is STATIC, whatever the estimates were.
    - [Pipeline]: invariants along any input: the arrays keep their lengths
      and [count] is the number of rows modulo [SAMP_BUFF_LEN]; the label
      printed is always the name of a class; the output changes only on
      rows that complete a frame; every sample is processed at most 51
      rows after it is read; the output depends on the vertical
      acceleration only; the hold counters stay within [0, BUFF_FACTOR],
      and while every frame is without detection the estimates age
      ([settling]) until the motion type is STATIC; in exact arithmetic the last step count
      printed equals the total of the summary, row [i] is stamped
      [(i+1)/104], and an input at rest prints 0 steps and STATIONARY
      throughout.

    - [Trace]: [detect_sample] takes the one step [scan_rel] allows, so
      the scan loop of a frame is a run that counts its [MinFound] events;
      by induction on runs, in exact arithmetic: the stored timestamps
      never move back, commits of one kind are more than 0.2 s apart, and
      maxima and minima alternate when the timestamps increase and no
      refusal is clamped, a condition a concrete run shows to be needed.

    - [Detector], [Pipeline], any arithmetic: the gates of a step suffice
      (a sample that passes the three tests of the min branch is counted);
      the three loops, run with an unsigned counter, end after 52, 52 and
      [TC_samples] iterations; the printed step count never decreases and
      is at most the number of rows read, below 2^32 rows.
    - [Safety]: from the initial state of [main], on every input, the
      checked program returns what the unchecked one computes; the checked
      functions fail exactly when [count] has reached [SAMP_BUFF_LEN] or
      [TC_samples] exceeds [MAX_TC_SAMPLES].
    - [Stream]: after any number of rows the filters are in the state
      that running them over the whole input leaves, and [AccDer] holds
      the last frame of the derivative of the smoothed stream: buffering
      a frame at a time loses and reorders nothing.
    - [Binary32]: the group delays are 8 and 7 as in exact arithmetic; the
      accumulated timestamp drifts (0.999999 after 104 rows); detection
      counts are converted to [float] exactly; a NaN in any sample
      freezes the counter from the end of its frame to the end of the run,
      and the label is STATIONARY from three frames later on.
    - [Scenario]: what [main] prints on each recording. The 1.5 Hz tone of
      amplitude 10 is counted right (15 steps) and credited to HOP, not
      WALK; the 2.5 Hz tone of amplitude 20 gives 18 steps for 20 periods;
      a sensor at rest is labelled WALKING for three frames after the
      start; a tone of amplitude 0.5 counts nothing and is labelled WALKING
      three frames out of four.
    - [Text], [Scanf]: [fgets] takes a whole line when it fits and 119
      characters when it does not; each directive on the text its
      conversion accepts; on a line that writes the fields of a row,
      [sscanf] assigns the ten variables the values written; a date of 12
      characters or more overflows [date].
    - [Adapter]: the reading loop ends and loses no character; on a file
      of two header lines and well-formed rows [main_file] is [main] on the
      parsed rows, with exit status 0; white space before a newline (the
      carriage return of a CR LF file) and a missing last newline change
      nothing; a blank line repeats the row before it; the run is undefined exactly when a date or time does not fit;
      the header check fails exactly when the first [fgets] leaves nothing
      to read, and its diagnostic names the output file; a line of 119
      characters or more is read in pieces.
    - [Printer]: the digits written have the value written; the six
      decimals of [%f] are the nearest to the value, ties to even;
      [sscanf] reads back what [printf] wrote, [%d] as the same 32 bits and
      [%f] as the binary32 value nearest to the six decimals, which keeps
      9.81 and loses 1/104; a row of the output file is a line that the
      format of line 162 reads in full; the program writes a definite text
      in every run whose behaviour is defined; the texts of a sample run,
      character by character.

    Theorems whose hypotheses could be vacuous are applied to a concrete
    input in a lemma named after them with the suffix [_witness].

    ** Bounds

    [SENSOR_SAMP_FREQ] is 104, so a frame has 52 samples and the extended
    window 52 + [MAX_TC_SAMPLES] = 72; loops are structural on [seq 0 n] and
    need no fuel, so every function of the model is total. [c_for] takes
    fuel; the termination theorem shows that fuel for the number of
    iterations (52, or [TC_samples]) is enough and that more changes
    nothing. [read_chunks], the sequence of calls of [fgets], takes fuel as
    well; [main_file] gives it one call per character of the file, and the
    theorem on the reading loop shows that this reads the whole file.
    [print_nat] writes [1 + log2 n] digits, which are enough for [n], and
    removes the leading zeros; [%f] is computed on integers, the value in
    millionths, so the largest binary32 value prints its 39 digits.
    Counters wrap at 2^32 as in C; within a frame the detection
    counters are at most 52 and do not wrap, and the step count cannot wrap
    before 2^32 rows have been read. [for_loop] is opaque to proof search
    and transparent to evaluation. The sine of the recordings is a Taylor
    polynomial of ten terms in fixed point with 48 fractional bits, exact
    to 2^-40, far below the spacing of binary32 values near 10; the
    recordings have the lengths the specification gives (five to ten
    seconds).

    ** Not modelled

    Failures of the C library after the files are opened (a read or write
    error, a full disk). [sscanf] on a number outside the range of [long],
    which the C standard leaves undefined, is modelled by wrapping. The
    sign that [%f] of [printf] may write before [nan]: the model has one
    NaN and writes none. Floating-point platforms other than the one
    [Binary32] describes (extended precision, fused multiply-add) are not
    covered by the theorems stated for binary32; the rounding functions of
    [SpecFloat] are used as they are and not proved against a
    specification on the reals. *)

From Stdlib Require Import ZArith Lia List.
From stdpp Require Import base tactics list.

(** ** 32-bit unsigned integers *)

Declare Scope u32_scope.
Delimit Scope u32_scope with u32.

Definition u32_modulus : Z := 2 ^ 32.

Definition wrap32 (z : Z) : Z := z mod u32_modulus.

Definition u32_add (a b : Z) : Z := wrap32 (a + b).

Definition is_u32 (z : Z) : Prop := (0 <= z < u32_modulus)%Z.

Infix "⊞" := u32_add (at level 50, left associativity) : u32_scope.

(** ** Counted loops

    [for (i = 0; i < n; i++) body] over a loop state [S]. *)

Definition for_loop {S : Type} (n : nat) (body : nat -> S -> S) (s : S) : S :=
  fold_left (fun acc i => body i acc) (seq 0 n) s.

(** The same loop as C runs it: [for (i = 0; i < bound; i = i + step)]
    with an [unsigned int] counter that wraps at 2^32, stopped after
    [fuel] iterations; [None] when the fuel runs out before the test
    fails. *)
Fixpoint c_for {S : Type} (fuel : nat) (i bound step : Z)
    (body : nat -> S -> S) (s : S) : option S :=
  if (i <? bound)%Z then
    match fuel with
    | O => None
    | Datatypes.S fuel' =>
        c_for fuel' (u32_add i step) bound step body (body (Z.to_nat i) s)
    end
  else Some s.

(** ** Two-dimensional arrays: [a[r][c]] *)

Definition arr2_get {A : Type} `{Inhabited A} (a : list (list A)) (r c : nat) : A :=
  (a !!! r) !!! c.

Definition arr2_set {A : Type} (a : list (list A)) (r c : nat) (v : A) : list (list A) :=
  <[r := <[c := v]> (a !!! r)]> a.

Definition arr2_wf {A : Type} (rows cols : nat) (a : list (list A)) : Prop :=
  length a = rows /\ Forall (fun row => length row = cols) a.

(** ** Hint databases and tactics *)

Create HintDb u32 discriminated.
Create Rewrite HintDb u32.
Create Rewrite HintDb len.

#[export] Hint Rewrite @length_insert @length_app @length_take @length_drop
  @length_replicate @length_seq @length_fmap : len.

Ltac len := autorewrite with len in *; try lia.

(** Linear arithmetic with the modulus as a number. *)
Ltac u32_lia :=
  unfold is_u32 in *; change u32_modulus with 4294967296%Z in *; lia.

(** Congruences modulo 2^32: every reduction becomes a quotient and a
    remainder, and the rest is linear. *)
Ltac u32_solve :=
  unfold u32_add, wrap32, is_u32 in *;
  change u32_modulus with 4294967296%Z in *;
  Z.div_mod_to_equations; lia.

(** Case analysis on every [if] and [match] of the goal. *)
Ltac case_all := repeat case_match; simplify_eq.

(** ** Laws of [wrap32] *)

Section U32.
Local Open Scope Z_scope.

Lemma u32_modulus_pos : 0 < u32_modulus.
Proof. reflexivity. Qed.

Lemma wrap32_range z : is_u32 (wrap32 z).
Proof. apply Z.mod_pos_bound, u32_modulus_pos. Qed.

Lemma wrap32_small z : is_u32 z -> wrap32 z = z.
Proof. intros Hz. apply Z.mod_small, Hz. Qed.

Lemma wrap32_idemp z : wrap32 (wrap32 z) = wrap32 z.
Proof. apply wrap32_small, wrap32_range. Qed.

Lemma wrap32_add_l a b : wrap32 (wrap32 a + b) = wrap32 (a + b).
Proof. unfold wrap32. apply Zplus_mod_idemp_l. Qed.

Lemma wrap32_add_r a b : wrap32 (a + wrap32 b) = wrap32 (a + b).
Proof. unfold wrap32. apply Zplus_mod_idemp_r. Qed.

Lemma u32_add_range a b : is_u32 (u32_add a b).
Proof. apply wrap32_range. Qed.

Lemma u32_add_0_r a : is_u32 a -> u32_add a 0 = a.
Proof. intros Ha. unfold u32_add. rewrite Z.add_0_r. by apply wrap32_small. Qed.

Lemma u32_add_comm a b : u32_add a b = u32_add b a.
Proof. unfold u32_add. by rewrite Z.add_comm. Qed.

Lemma u32_add_assoc a b c : u32_add (u32_add a b) c = u32_add a (u32_add b c).
Proof. unfold u32_add. by rewrite wrap32_add_l, wrap32_add_r, Z.add_assoc. Qed.

Lemma u32_add_nowrap a b :
  0 <= a -> 0 <= b -> a + b < u32_modulus -> u32_add a b = a + b.
Proof. intros. apply wrap32_small. unfold is_u32. lia. Qed.

(** Adding to both sides of a congruence modulo 2^32. *)
Lemma wrap32_add_congr a b c :
  wrap32 a = wrap32 b -> wrap32 (a + c) = wrap32 (b + c).
Proof.
  intros Hab. by rewrite <-(wrap32_add_l a), <-(wrap32_add_l b), Hab.
Qed.

End U32.

#[export] Hint Resolve wrap32_range u32_add_range : u32.
#[export] Hint Rewrite wrap32_idemp wrap32_add_l wrap32_add_r : u32.

(** ** Laws of [for_loop] *)

Section ForLoop.
Context {S : Type}.
Implicit Types (body : nat -> S -> S) (s : S).

Lemma for_loop_0 body s : for_loop 0 body s = s.
Proof. reflexivity. Qed.

Lemma for_loop_S n body s :
  for_loop (Datatypes.S n) body s = body n (for_loop n body s).
Proof. unfold for_loop. by rewrite seq_S, fold_left_app. Qed.

(** The loop-invariant rule: [P i] holds before iteration [i]. *)
Lemma for_loop_ind (P : nat -> S -> Prop) n body s :
  P 0 s ->
  (forall i acc, i < n -> P i acc -> P (Datatypes.S i) (body i acc)) ->
  P n (for_loop n body s).
Proof.
  intros H0 Hstep. induction n as [|n IH]; [done|].
  rewrite for_loop_S. apply Hstep; [lia|]. apply IH.
  intros i acc Hi. apply Hstep. lia.
Qed.

(** An invariant that does not depend on the index. *)
Lemma for_loop_inv (P : S -> Prop) n body s :
  P s -> (forall i acc, i < n -> P acc -> P (body i acc)) ->
  P (for_loop n body s).
Proof. intros. by apply (for_loop_ind (fun _ => P)). Qed.

Lemma for_loop_ext n body1 body2 s :
  (forall i acc, i < n -> body1 i acc = body2 i acc) ->
  for_loop n body1 s = for_loop n body2 s.
Proof.
  intros Heq. induction n as [|n IH]; [done|].
  rewrite !for_loop_S, IH by (intros; apply Heq; lia). apply Heq. lia.
Qed.

End ForLoop.

(** Two loops running in lockstep on related states. *)
Lemma for_loop_rel {S T : Type} (Rel : S -> T -> Prop) n
    (body : nat -> S -> S) (body' : nat -> T -> T) s t :
  Rel s t ->
  (forall i a b, i < n -> Rel a b -> Rel (body i a) (body' i b)) ->
  Rel (for_loop n body s) (for_loop n body' t).
Proof.
  intros H0 Hstep. induction n as [|n IH]; [done|].
  rewrite (for_loop_S n body), (for_loop_S n body').
  apply Hstep; [lia|]. apply IH. intros i a b Hi. apply Hstep. lia.
Qed.

(** ** Laws of two-dimensional arrays *)

(** ** Termination of counted loops *)

Section CFor.
Context {S : Type}.
Implicit Types (body : nat -> S -> S) (s : S).

Lemma c_for_seq fuel m k n body s :
  (Z.of_nat n < u32_modulus)%Z -> k + m = n -> m <= fuel ->
  c_for fuel (Z.of_nat k) (Z.of_nat n) 1 body s
  = Some (fold_left (fun acc i => body i acc) (seq k m) s).
Proof.
  intros Hn. revert fuel k s. induction m as [|m IH]; intros fuel k s Hk Hf.
  - destruct fuel; cbn [c_for]; by rewrite (proj2 (Z.ltb_ge _ _)) by lia.
  - destruct fuel as [|fuel]; [lia|]. cbn [c_for seq fold_left].
    rewrite (proj2 (Z.ltb_lt _ _)) by lia.
    rewrite u32_add_nowrap, Nat2Z.id by lia.
    replace (Z.of_nat k + 1)%Z with (Z.of_nat (Datatypes.S k)) by lia.
    apply IH; lia.
Qed.

(** With a step of one and fuel for [n] iterations the loop ends, and
    computes [for_loop n]. *)
Lemma c_for_unit n fuel body s :
  (Z.of_nat n < u32_modulus)%Z -> n <= fuel ->
  c_for fuel 0 (Z.of_nat n) 1 body s = Some (for_loop n body s).
Proof. intros Hn Hf. apply (c_for_seq fuel n 0 n); [done|lia|done]. Qed.

(** With a step of zero it never ends. *)
Lemma c_for_stuck fuel bound body s :
  (0 < bound)%Z -> c_for fuel 0 bound 0 body s = None.
Proof.
  intros Hb. revert s. induction fuel as [|fuel IH]; intros s;
    cbn [c_for]; rewrite (proj2 (Z.ltb_lt _ _)) by lia; [done|apply IH].
Qed.

End CFor.

Section Arr2.
Context {A : Type} `{Inhabited A}.
Implicit Types (a : list (list A)).

Lemma arr2_set_length a r c v : length (arr2_set a r c v) = length a.
Proof. unfold arr2_set. by rewrite length_insert. Qed.

Lemma arr2_row_set_same a r c v :
  r < length a -> arr2_set a r c v !!! r = <[c := v]> (a !!! r).
Proof. intros Hr. unfold arr2_set. by rewrite list_lookup_total_insert_eq. Qed.

Lemma arr2_row_set_other a r r' c v :
  r <> r' -> arr2_set a r c v !!! r' = a !!! r'.
Proof. intros Hr. unfold arr2_set. by rewrite list_lookup_total_insert_ne. Qed.

Lemma arr2_get_set_same rows cols a r c v :
  arr2_wf rows cols a -> r < rows -> c < cols ->
  arr2_get (arr2_set a r c v) r c = v.
Proof.
  intros [Hl Hall] Hr Hc. unfold arr2_get.
  rewrite arr2_row_set_same by lia.
  apply list_lookup_total_insert_eq.
  rewrite Forall_lookup_total in Hall. rewrite Hall; lia.
Qed.

Lemma arr2_get_set_other_row a r r' c c' v :
  r <> r' -> arr2_get (arr2_set a r c v) r' c' = arr2_get a r' c'.
Proof. intros. unfold arr2_get. by rewrite arr2_row_set_other. Qed.

Lemma arr2_get_set_other_col a r c c' v :
  c <> c' -> arr2_get (arr2_set a r c v) r c' = arr2_get a r c'.
Proof.
  intros Hc. unfold arr2_get.
  destruct (decide (r < length a)) as [Hr|Hr].
  - rewrite arr2_row_set_same by done. by rewrite list_lookup_total_insert_ne.
  - unfold arr2_set. by rewrite list_insert_ge by lia.
Qed.

Lemma arr2_set_wf rows cols a r c v :
  arr2_wf rows cols a -> arr2_wf rows cols (arr2_set a r c v).
Proof.
  intros [Hl Hall]. split; [by rewrite arr2_set_length|].
  unfold arr2_set. destruct (decide (r < length a)) as [Hr|Hr].
  - apply Forall_insert; [done|]. rewrite length_insert.
    rewrite Forall_lookup_total in Hall. by apply Hall.
  - by rewrite list_insert_ge by lia.
Qed.

End Arr2.

(** ** Writing a run of cells: [a[i] = k[0]; a[i+1] = k[1]; ...] *)

Section Inserts.
Context {A : Type}.
Implicit Types (l k : list A).

Lemma list_inserts_first i x k l :
  list_inserts i (x :: k) l = list_inserts (S i) k (<[i := x]> l).
Proof. cbn. apply list_insert_inserts_lt. lia. Qed.

Lemma list_inserts_snoc i x k l :
  list_inserts i (k ++ [x]) l = <[length k + i := x]> (list_inserts i k l).
Proof. by rewrite list_inserts_app_l. Qed.

Lemma list_inserts_all k l : length k = length l -> list_inserts 0 k l = k.
Proof.
  intros Hl. rewrite <-(app_nil_r k) at 1. by apply list_inserts_0_l.
Qed.

(** The last cell of an array completes it. *)
Lemma list_inserts_snoc_all k x l :
  length l = S (length k) -> <[length k := x]> (list_inserts 0 k l) = k ++ [x].
Proof.
  intros Hl. rewrite <-(list_inserts_all (k ++ [x]) l) by (rewrite length_app; cbn; lia).
  by rewrite list_inserts_snoc, Nat.add_0_r.
Qed.

Lemma take_S_total `{!Inhabited A} l n :
  n < length l -> take (S n) l = take n l ++ [l !!! n].
Proof. intros. by apply take_S_r, list_lookup_lookup_total_lt. Qed.

(** One more cell of a copy: [a[off+n] = k[n]]. *)
Lemma list_inserts_take_S `{!Inhabited A} off n k l :
  n < length k ->
  list_inserts off (take (S n) k) l
  = <[off + n := k !!! n]> (list_inserts off (take n k) l).
Proof.
  intros. rewrite take_S_total, list_inserts_snoc, length_take_le by lia.
  f_equal. lia.
Qed.

(** One more cell of a copy that reads from [d] on: [a[off+n] = k[d+n]]. *)
Lemma list_inserts_take_drop_S `{!Inhabited A} off d n k l :
  d + n < length k ->
  list_inserts off (take (S n) (drop d k)) l
  = <[off + n := k !!! (d + n)]> (list_inserts off (take n (drop d k)) l).
Proof.
  intros. rewrite list_inserts_take_S by (rewrite length_drop; lia).
  by rewrite lookup_total_drop.
Qed.

End Inserts.

(** Loops are reasoned about with the lemmas above; proof search never
    unrolls them. Evaluation still does. *)
#[global] Opaque for_loop.

#[export] Hint Rewrite @arr2_set_length @length_inserts : len.
#[export] Hint Resolve arr2_set_wf : core.
