(* ===== verification/Scalar.v ===== *)
(** * Scalar: the arithmetic of the program as an interface

    pedometer.c computes on [float]. The model is written against the
    operations of [Scalar], one per C operator the program uses:
    [sc_lit] for a literal of type [float] (suffix [f]) or an integer
    converted to [float], [sc_dlit] for a literal of type [double] (no
    suffix: [EPSILON], [CLOSE_TO_ZERO], the thresholds of the classifier),
    [+ - * /], unary minus, [fabs], [<] and [<=] (C's [a > b] is [b < a]),
    and the cast to [unsigned int]. The program adds, multiplies and
    divides values of type [float] only; a [double] is only compared,
    negated or passed to [fabs], all of which are exact, so one carrier
    type holds the values of both C types.

    [ExactScalar] is the contract of an arithmetic without rounding: a map
    [toQ] into the rationals that commutes with every operation. The
    canonical rationals [Qc] implement it. The tactic [sc_lra] turns a goal
    about the operations of an exact arithmetic into linear rational
    arithmetic. *)

From Stdlib Require Import QArith Qcanon Qround Qabs Lqa.
From stdpp Require Import base tactics.
From S2P Require Import Prelude.

Local Open Scope Q_scope.

Declare Scope sc_scope.
Delimit Scope sc_scope with sc.

(** ** The operations *)

Class Scalar (R : Type) : Type := {
  sc_lit : Q -> R;
  sc_dlit : Q -> R;
  sc_add : R -> R -> R;
  sc_sub : R -> R -> R;
  sc_mul : R -> R -> R;
  sc_div : R -> R -> R;
  sc_opp : R -> R;
  sc_abs : R -> R;
  sc_ltb : R -> R -> bool;
  sc_leb : R -> R -> bool;
  sc_trunc : R -> Z
}.

Infix "+" := sc_add : sc_scope.
Infix "-" := sc_sub : sc_scope.
Infix "*" := sc_mul : sc_scope.
Infix "/" := sc_div : sc_scope.
Notation "- x" := (sc_opp x) : sc_scope.
Infix "<?" := sc_ltb (at level 70) : sc_scope.
Infix "<=?" := sc_leb (at level 70) : sc_scope.
Notation "x >? y" := (sc_ltb y x) (at level 70, only parsing) : sc_scope.
Notation "x >=? y" := (sc_leb y x) (at level 70, only parsing) : sc_scope.

(** An [unsigned int] converted to floating type. *)
Definition sc_of_Z {R : Type} `{Scalar R} (z : Z) : R := sc_lit (inject_Z z).

(** The element of a zero-initialised [static] array, and what the model
    reads outside an array. *)
#[export] Instance scalar_inhabited {R : Type} `{Scalar R} : Inhabited R :=
  populate (sc_lit 0).

(** Truncation toward zero, the C conversion of a floating value to an
    integer type. *)
Definition Qtrunc (q : Q) : Z :=
  if Qle_bool 0 q then Qfloor q else Qceiling q.

(** ** The contract of exact arithmetic *)

Class ExactScalar (R : Type) `{Scalar R} : Type := {
  toQ : R -> Q;
  toQ_lit q : toQ (sc_lit q) == q;
  toQ_dlit q : toQ (sc_dlit q) == q;
  toQ_add x y : toQ (x + y)%sc == toQ x + toQ y;
  toQ_sub x y : toQ (x - y)%sc == toQ x - toQ y;
  toQ_mul x y : toQ (x * y)%sc == toQ x * toQ y;
  toQ_div x y : toQ (x / y)%sc == toQ x / toQ y;
  toQ_opp x : toQ (- x)%sc == - toQ x;
  toQ_abs x : toQ (sc_abs x) == Qabs (toQ x);
  sc_ltb_lt x y : (x <? y)%sc = true <-> toQ x < toQ y;
  sc_leb_le x y : (x <=? y)%sc = true <-> toQ x <= toQ y;
  sc_trunc_toQ x : sc_trunc x = Qtrunc (toQ x)
}.

Create Rewrite HintDb toQ.
#[export] Hint Rewrite @toQ_lit @toQ_dlit @toQ_add @toQ_sub @toQ_mul @toQ_div @toQ_opp
  @toQ_abs : toQ.

(** ** The canonical rationals *)

#[export] Instance Qc_scalar : Scalar Qc := {|
  sc_lit := Q2Qc;
  sc_dlit := Q2Qc;
  sc_add := Qcplus;
  sc_sub := Qcminus;
  sc_mul := Qcmult;
  sc_div := Qcdiv;
  sc_opp := Qcopp;
  sc_abs x := Q2Qc (Qabs x);
  sc_ltb x y := negb (Qle_bool y x);
  sc_leb x y := Qle_bool x y;
  sc_trunc x := Qtrunc x
|}.

(** ** Laws *)

#[export] Instance Qtrunc_proper : Proper (Qeq ==> eq) Qtrunc.
Proof.
  intros x y Hxy. unfold Qtrunc.
  rewrite (Qleb_comp 0 0 (Qeq_refl 0) x y Hxy).
  destruct (Qle_bool 0 y); [apply Qfloor_comp | apply Qceiling_comp]; done.
Qed.

Lemma Qtrunc_floor q : 0 <= q -> Qtrunc q = Qfloor q.
Proof. intros Hq. unfold Qtrunc. by rewrite (proj2 (Qle_bool_iff 0 q) Hq). Qed.

Lemma Qle_bool_false x y : Qle_bool x y = false <-> y < x.
Proof.
  destruct (Qle_bool x y) eqn:E; split; try done.
  - intros Hlt. apply Qle_bool_iff in E. lra.
  - intros _. apply Qnot_le_lt. intros Hle. apply Qle_bool_iff in Hle. congruence.
Qed.

Lemma inject_Z_pos z : (0 < z)%Z -> 0 < inject_Z z.
Proof. intros Hz. unfold Qlt. cbn. lia. Qed.

Lemma inject_Z_nonneg z : (0 <= z)%Z -> 0 <= inject_Z z.
Proof. intros Hz. unfold Qle. cbn. lia. Qed.

Lemma Qc_toQ_div (x y : Qc) : (x / y)%Qc == x / y.
Proof.
  unfold Qcdiv, Qcinv. cbn [this Qcmult Q2Qc]. by rewrite !Qred_correct.
Qed.

#[export, refine] Instance Qc_exact : ExactScalar Qc := {| toQ := this |}.
Proof.
  - intros q. apply Qred_correct.
  - intros q. apply Qred_correct.
  - intros x y. apply Qred_correct.
  - intros x y. cbn. unfold Qcminus, Qcopp. cbn. by rewrite !Qred_correct.
  - intros x y. apply Qred_correct.
  - apply Qc_toQ_div.
  - intros x. apply Qred_correct.
  - intros x. apply Qred_correct.
  - intros x y. cbn. rewrite negb_true_iff. apply Qle_bool_false.
  - intros x y. apply Qle_bool_iff.
  - done.
Defined.

Section Exact.
Context {R : Type} `{ExactScalar R}.
Implicit Types x y : R.

Lemma sc_ltb_ge x y : (x <? y)%sc = false <-> toQ y <= toQ x.
Proof.
  rewrite <-not_true_iff_false, sc_ltb_lt. split; [apply Qnot_lt_le | apply Qle_not_lt].
Qed.

Lemma sc_leb_gt x y : (x <=? y)%sc = false <-> toQ y < toQ x.
Proof.
  rewrite <-not_true_iff_false, sc_leb_le. split; [apply Qnot_le_lt | apply Qlt_not_le].
Qed.

Lemma toQ_of_Z z : toQ (sc_of_Z z) == inject_Z z.
Proof. apply toQ_lit. Qed.

Lemma toQ_zero : toQ (sc_lit 0) == 0.
Proof. apply toQ_lit. Qed.

End Exact.

#[export] Hint Rewrite @toQ_of_Z : toQ.

(** ** Automation: from the operations to linear rational arithmetic *)

(** Comparisons of the program, as boolean facts, become order facts on
    the images under [toQ]. *)
Ltac sc_reflect :=
  repeat match goal with
  | H : sc_ltb _ _ = true |- _ => apply sc_ltb_lt in H
  | H : sc_ltb _ _ = false |- _ => apply sc_ltb_ge in H
  | H : sc_leb _ _ = true |- _ => apply sc_leb_le in H
  | H : sc_leb _ _ = false |- _ => apply sc_leb_gt in H
  | |- sc_ltb _ _ = true => apply sc_ltb_lt
  | |- sc_ltb _ _ = false => apply sc_ltb_ge
  | |- sc_leb _ _ = true => apply sc_leb_le
  | |- sc_leb _ _ = false => apply sc_leb_gt
  end.

Ltac sc_push := autorewrite with toQ in *.

(** Integers converted to rationals: sums are split, 0 and 1 are
    the rational constants. *)
Ltac q_norm :=
  rewrite ?inject_Z_plus in *;
  change (inject_Z 0) with 0 in *; change (inject_Z 1) with 1 in *.

Ltac sc_lra := sc_reflect; sc_push; q_norm; lra.

(** ** Laws of the order, for any exact arithmetic *)

Section Order.
Context {R : Type} `{ExactScalar R}.
Implicit Types x y z : R.

Lemma sc_leb_refl x : (x <=? x)%sc = true.
Proof. sc_lra. Qed.

Lemma sc_ltb_irrefl x : (x <? x)%sc = false.
Proof. sc_lra. Qed.

Lemma sc_ltb_leb x y : (x <? y)%sc = negb (y <=? x)%sc.
Proof.
  destruct (y <=? x)%sc eqn:E; cbn; sc_lra.
Qed.

Lemma sc_ltb_trans x y z :
  (x <? y)%sc = true -> (y <? z)%sc = true -> (x <? z)%sc = true.
Proof. intros. sc_lra. Qed.

Lemma sc_sub_gt_iff x y (c : Q) :
  (sc_lit c <? x - y)%sc = true <-> toQ y + c < toQ x.
Proof. rewrite sc_ltb_lt. sc_push. split; lra. Qed.

End Order.
