(* ===== verification/Types.v ===== *)
(** * Types: the declarations of pedometer.h

    The configuration macros, the filter state [filter_t], the enumerations
    [motion_type_t] and [axis_t] with their integer codes, and the output
    structure [algo_out_t]. Integer macros are [Z]; floating macros are
    scalars of the arithmetic in use. *)

From Stdlib Require Import QArith ZArith Lia.
From stdpp Require Import base tactics decidable.
From S2P Require Import Prelude.
From S2P Require Import Scalar.

Local Open Scope Z_scope.

(** ** Integer configuration (pedometer.h lines 11-15) *)

Definition SENSOR_SAMP_FREQ : Z := 104.

Definition BUFF_FACTOR : Z := 2.

(** C integer division truncates; both operands are positive here. *)
Definition SAMP_BUFF_LEN : Z := Z.quot SENSOR_SAMP_FREQ BUFF_FACTOR.

Definition MAX_TC_SAMPLES : Z := 20.

(** The integer configuration as numbers, for [lia]. *)
Ltac cfg :=
  change SAMP_BUFF_LEN with 52%Z in *;
  change MAX_TC_SAMPLES with 20%Z in *;
  change BUFF_FACTOR with 2%Z in *;
  change SENSOR_SAMP_FREQ with 104%Z in *.

(** ** Floating configuration (pedometer.h lines 9, 12) *)

Section Constants.
Context {R : Type} `{Scalar R}.

Definition EPSILON : R := sc_dlit (1 # 1000000).

Definition SENSOR_SAMP_INTVL : R := (sc_lit 1 / sc_of_Z SENSOR_SAMP_FREQ)%sc.

End Constants.

(** ** The filter state (pedometer.h lines 22-33)

    [Y(n) = b0*X(n) + b1*X(n-1) + b2*X(n-2) - a1*Y(n-1) - a2*Y(n-2)] *)

Record filter_t (R : Type) : Type := mk_filter {
  b0 : R;
  b1 : R;
  b2 : R;
  a1 : R;
  a2 : R;
  prev_in : R;
  prev_prev_in : R;
  prev_out : R;
  prev_prev_out : R;
  TC_samples : Z
}.

Arguments mk_filter {R}.
Arguments b0 {R}.
Arguments b1 {R}.
Arguments b2 {R}.
Arguments a1 {R}.
Arguments a2 {R}.
Arguments prev_in {R}.
Arguments prev_prev_in {R}.
Arguments prev_out {R}.
Arguments prev_prev_out {R}.
Arguments TC_samples {R}.

(** ** Motion types (pedometer.h lines 36-42) *)

Inductive motion_type_t : Set :=
  | STATIC
  | WALK
  | HOP
  | RUN
  | NUM_TYPES.

Definition motion_type_code (m : motion_type_t) : Z :=
  match m with
  | STATIC => 0
  | WALK => 1
  | HOP => 2
  | RUN => 3
  | NUM_TYPES => 4
  end.

#[export] Instance motion_type_eq_dec : EqDecision motion_type_t.
Proof. solve_decision. Defined.

(** The four classes the detector can report: every enumerator but the
    count [NUM_TYPES]. *)
Definition is_motion_class (m : motion_type_t) : bool :=
  match m with
  | NUM_TYPES => false
  | _ => true
  end.

(** ** Axes (pedometer.h lines 45-50) *)

Inductive axis_t : Set :=
  | CHX
  | CHY
  | CHZ
  | NUM_DIM.

Definition axis_index (a : axis_t) : nat :=
  match a with
  | CHX => 0
  | CHY => 1
  | CHZ => 2
  | NUM_DIM => 3
  end.

#[export] Instance axis_eq_dec : EqDecision axis_t.
Proof. solve_decision. Defined.

(** ** The algorithm's output (pedometer.h lines 54-61) *)

Record algo_out_t (R : Type) : Type := mk_algo_out {
  step_count : Z;
  step_type : motion_type_t;
  prev_max : R;
  prev_min : R;
  prev_max_ts : R;
  prev_min_ts : R
}.

Arguments mk_algo_out {R}.
Arguments step_count {R}.
Arguments step_type {R}.
Arguments prev_max {R}.
Arguments prev_min {R}.
Arguments prev_max_ts {R}.
Arguments prev_min_ts {R}.

(** ** Facts about the configuration *)

Lemma SAMP_BUFF_LEN_val : SAMP_BUFF_LEN = 52.
Proof. reflexivity. Qed.

Lemma SAMP_BUFF_LEN_pos : 0 < SAMP_BUFF_LEN.
Proof. reflexivity. Qed.

Lemma MAX_TC_SAMPLES_lt_frame : MAX_TC_SAMPLES < SAMP_BUFF_LEN.
Proof. reflexivity. Qed.

Lemma motion_type_code_inj m1 m2 :
  motion_type_code m1 = motion_type_code m2 -> m1 = m2.
Proof. by destruct m1, m2. Qed.

Lemma motion_type_code_range m : 0 <= motion_type_code m <= motion_type_code NUM_TYPES.
Proof. destruct m; cbn; lia. Qed.

Lemma is_motion_class_code m :
  is_motion_class m = true <-> motion_type_code m < motion_type_code NUM_TYPES.
Proof. destruct m; cbn; split; (done || lia). Qed.

Lemma axis_index_inj a1 a2 : axis_index a1 = axis_index a2 -> a1 = a2.
Proof. by destruct a1, a2. Qed.

(** The sampling interval is 1/104 s in exact arithmetic. *)
Lemma SENSOR_SAMP_INTVL_exact {R : Type} `{ExactScalar R} :
  (toQ (SENSOR_SAMP_INTVL (R:=R)) == 1 # 104)%Q.
Proof. unfold SENSOR_SAMP_INTVL. sc_push. reflexivity. Qed.
