(* ===== verification/State.v ===== *)
(** * State: the variables of pedometer.c that outlive a call

    The file-scope variables (pedometer.c lines 62-72), the [static] counter
    of [step_algo_preproc] (line 201) and the [static] variables of
    [step_algo_run] (lines 255-260), as one record [state]; one setter per
    variable the program assigns; the shape of the arrays ([state_wf],
    [run_ready]); the values the C runtime gives them before [main] runs
    ([state_zero]); statics compared by their arrays only ([same_arrays],
    an equivalence the array projections respect). *)

From Stdlib Require Import QArith ZArith Lia List.
From stdpp Require Import base tactics list.
From S2P Require Import Prelude.
From S2P Require Import Scalar.
From S2P Require Import Types.

Local Open Scope Z_scope.

(** ** The statics of [step_algo_run] (lines 255-260) *)

Record run_static_t (R : Type) : Type := mk_run_static {
  prev_amp_est : R;
  prev_freq_est : R;
  amp_est_hold : Z;
  freq_est_hold : Z;
  prevAccDer : R;
  AccFilt : list R;
  TimeStamps : list R;
  AccDer : list R
}.

Arguments mk_run_static {R}.
Arguments prev_amp_est {R}.
Arguments prev_freq_est {R}.
Arguments amp_est_hold {R}.
Arguments freq_est_hold {R}.
Arguments prevAccDer {R}.
Arguments AccFilt {R}.
Arguments TimeStamps {R}.
Arguments AccDer {R}.

(** ** The whole state *)

Record state (R : Type) : Type := mk_state {
  lp_filter_x : filter_t R;
  lp_filter_y : filter_t R;
  lp_filter_z : filter_t R;
  ll_filter_x : filter_t R;
  ll_filter_y : filter_t R;
  ll_filter_z : filter_t R;
  step_algo_output : algo_out_t R;
  AccBuff : list (list R);
  num_steps_walk : Z;
  num_steps_run : Z;
  num_steps_hop : Z;
  count : Z;
  run_static : run_static_t R
}.

Arguments mk_state {R}.
Arguments lp_filter_x {R}.
Arguments lp_filter_y {R}.
Arguments lp_filter_z {R}.
Arguments ll_filter_x {R}.
Arguments ll_filter_y {R}.
Arguments ll_filter_z {R}.
Arguments step_algo_output {R}.
Arguments AccBuff {R}.
Arguments num_steps_walk {R}.
Arguments num_steps_run {R}.
Arguments num_steps_hop {R}.
Arguments count {R}.
Arguments run_static {R}.

(** ** Assignments *)

Section Setters.
Context {R : Type}.
Implicit Types s : state R.

Definition set_lp_filter_y s (f : filter_t R) : state R :=
  mk_state (lp_filter_x s) f (lp_filter_z s) (ll_filter_x s) (ll_filter_y s)
    (ll_filter_z s) (step_algo_output s) (AccBuff s) (num_steps_walk s)
    (num_steps_run s) (num_steps_hop s) (count s) (run_static s).

Definition set_ll_filter_y s (f : filter_t R) : state R :=
  mk_state (lp_filter_x s) (lp_filter_y s) (lp_filter_z s) (ll_filter_x s) f
    (ll_filter_z s) (step_algo_output s) (AccBuff s) (num_steps_walk s)
    (num_steps_run s) (num_steps_hop s) (count s) (run_static s).

Definition set_step_algo_output s (o : algo_out_t R) : state R :=
  mk_state (lp_filter_x s) (lp_filter_y s) (lp_filter_z s) (ll_filter_x s)
    (ll_filter_y s) (ll_filter_z s) o (AccBuff s) (num_steps_walk s)
    (num_steps_run s) (num_steps_hop s) (count s) (run_static s).

Definition set_AccBuff s (a : list (list R)) : state R :=
  mk_state (lp_filter_x s) (lp_filter_y s) (lp_filter_z s) (ll_filter_x s)
    (ll_filter_y s) (ll_filter_z s) (step_algo_output s) a (num_steps_walk s)
    (num_steps_run s) (num_steps_hop s) (count s) (run_static s).

Definition set_num_steps_walk s (n : Z) : state R :=
  mk_state (lp_filter_x s) (lp_filter_y s) (lp_filter_z s) (ll_filter_x s)
    (ll_filter_y s) (ll_filter_z s) (step_algo_output s) (AccBuff s) n
    (num_steps_run s) (num_steps_hop s) (count s) (run_static s).

Definition set_num_steps_run s (n : Z) : state R :=
  mk_state (lp_filter_x s) (lp_filter_y s) (lp_filter_z s) (ll_filter_x s)
    (ll_filter_y s) (ll_filter_z s) (step_algo_output s) (AccBuff s)
    (num_steps_walk s) n (num_steps_hop s) (count s) (run_static s).

Definition set_num_steps_hop s (n : Z) : state R :=
  mk_state (lp_filter_x s) (lp_filter_y s) (lp_filter_z s) (ll_filter_x s)
    (ll_filter_y s) (ll_filter_z s) (step_algo_output s) (AccBuff s)
    (num_steps_walk s) (num_steps_run s) n (count s) (run_static s).

Definition set_count s (n : Z) : state R :=
  mk_state (lp_filter_x s) (lp_filter_y s) (lp_filter_z s) (ll_filter_x s)
    (ll_filter_y s) (ll_filter_z s) (step_algo_output s) (AccBuff s)
    (num_steps_walk s) (num_steps_run s) (num_steps_hop s) n (run_static s).

Definition set_run_static s (r : run_static_t R) : state R :=
  mk_state (lp_filter_x s) (lp_filter_y s) (lp_filter_z s) (ll_filter_x s)
    (ll_filter_y s) (ll_filter_z s) (step_algo_output s) (AccBuff s)
    (num_steps_walk s) (num_steps_run s) (num_steps_hop s) (count s) r.

Implicit Types r : run_static_t R.

Definition set_prev_amp_est r (v : R) : run_static_t R :=
  mk_run_static v (prev_freq_est r) (amp_est_hold r) (freq_est_hold r)
    (prevAccDer r) (AccFilt r) (TimeStamps r) (AccDer r).

Definition set_prev_freq_est r (v : R) : run_static_t R :=
  mk_run_static (prev_amp_est r) v (amp_est_hold r) (freq_est_hold r)
    (prevAccDer r) (AccFilt r) (TimeStamps r) (AccDer r).

Definition set_amp_est_hold r (n : Z) : run_static_t R :=
  mk_run_static (prev_amp_est r) (prev_freq_est r) n (freq_est_hold r)
    (prevAccDer r) (AccFilt r) (TimeStamps r) (AccDer r).

Definition set_freq_est_hold r (n : Z) : run_static_t R :=
  mk_run_static (prev_amp_est r) (prev_freq_est r) (amp_est_hold r) n
    (prevAccDer r) (AccFilt r) (TimeStamps r) (AccDer r).

Definition set_prevAccDer r (v : R) : run_static_t R :=
  mk_run_static (prev_amp_est r) (prev_freq_est r) (amp_est_hold r)
    (freq_est_hold r) v (AccFilt r) (TimeStamps r) (AccDer r).

Definition set_AccFilt r (a : list R) : run_static_t R :=
  mk_run_static (prev_amp_est r) (prev_freq_est r) (amp_est_hold r)
    (freq_est_hold r) (prevAccDer r) a (TimeStamps r) (AccDer r).

Definition set_TimeStamps r (a : list R) : run_static_t R :=
  mk_run_static (prev_amp_est r) (prev_freq_est r) (amp_est_hold r)
    (freq_est_hold r) (prevAccDer r) (AccFilt r) a (AccDer r).

Definition set_AccDer r (a : list R) : run_static_t R :=
  mk_run_static (prev_amp_est r) (prev_freq_est r) (amp_est_hold r)
    (freq_est_hold r) (prevAccDer r) (AccFilt r) (TimeStamps r) a.

End Setters.

(** ** Array shapes and initial values *)

Section Shapes.
Context {R : Type} `{Scalar R}.

(** Row of [AccBuff] that holds the smoothed vertical acceleration. *)
Definition ROW_ACC : nat := axis_index CHY.

(** Row of [AccBuff] that holds the timestamps: [CHZ+1]. *)
Definition ROW_TS : nat := (axis_index CHZ + 1)%nat.

(** [SAMP_BUFF_LEN] and [SAMP_BUFF_LEN + MAX_TC_SAMPLES] as lengths. *)
Definition FRAME_LEN : nat := Z.to_nat SAMP_BUFF_LEN.

Definition EXT_LEN : nat := Z.to_nat (SAMP_BUFF_LEN + MAX_TC_SAMPLES).

Definition run_static_wf (r : run_static_t R) : Prop :=
  length (AccFilt r) = EXT_LEN /\ length (TimeStamps r) = EXT_LEN
  /\ length (AccDer r) = FRAME_LEN.

Definition state_wf (s : state R) : Prop :=
  arr2_wf (axis_index NUM_DIM + 1) FRAME_LEN (AccBuff s)
  /\ run_static_wf (run_static s).

(** The group delay stored in the lead-lag filter fits the headroom of the
    extended arrays. *)
Definition tc_ok (s : state R) : Prop :=
  0 <= TC_samples (ll_filter_y s) <= MAX_TC_SAMPLES.

(** What [step_algo_run] relies on when it is called. *)
Definition run_ready (s : state R) : Prop := state_wf s /\ tc_ok s.

(** Statics that hold the same arrays: they may differ in the estimates,
    the hold counters and [prevAccDer]. *)
Definition same_arrays (r1 r2 : run_static_t R) : Prop :=
  AccFilt r1 = AccFilt r2 /\ TimeStamps r1 = TimeStamps r2
  /\ AccDer r1 = AccDer r2.

Definition filter_zero : filter_t R :=
  mk_filter (sc_lit 0) (sc_lit 0) (sc_lit 0) (sc_lit 0) (sc_lit 0)
    (sc_lit 0) (sc_lit 0) (sc_lit 0) (sc_lit 0) 0.

Definition algo_out_zero : algo_out_t R :=
  mk_algo_out 0 STATIC (sc_lit 0) (sc_lit 0) (sc_lit 0) (sc_lit 0).

(** The statics of [step_algo_run] as their initialisers give them. *)
Definition run_static_init : run_static_t R :=
  mk_run_static (sc_lit 0) (sc_lit 0) 0 0 (sc_lit 0)
    (replicate EXT_LEN (sc_lit 0)) (replicate EXT_LEN (sc_lit 0))
    (replicate FRAME_LEN (sc_lit 0)).

(** Zero-initialised static storage, before [main] assigns anything. *)
Definition state_zero : state R :=
  mk_state filter_zero filter_zero filter_zero filter_zero filter_zero
    filter_zero algo_out_zero
    (replicate (axis_index NUM_DIM + 1) (replicate FRAME_LEN (sc_lit 0)))
    0 0 0 0 run_static_init.

End Shapes.

(** ** Laws *)

Section StateLaws.
Context {R : Type} `{Scalar R}.
Implicit Types s : state R.

Lemma FRAME_LEN_val : FRAME_LEN = 52%nat.
Proof. reflexivity. Qed.

Lemma EXT_LEN_val : EXT_LEN = 72%nat.
Proof. reflexivity. Qed.

Lemma run_static_init_wf : run_static_wf (run_static_init (R:=R)).
Proof. unfold run_static_wf. cbn. by rewrite !length_replicate. Qed.

Lemma state_zero_wf : state_wf (state_zero (R:=R)).
Proof.
  split; [|apply run_static_init_wf]. split; cbn; [done|].
  repeat constructor; apply length_replicate.
Qed.

Lemma set_lp_filter_y_wf s f : state_wf s -> state_wf (set_lp_filter_y s f).
Proof. done. Qed.

Lemma set_ll_filter_y_wf s f : state_wf s -> state_wf (set_ll_filter_y s f).
Proof. done. Qed.

Lemma set_count_wf s n : state_wf s -> state_wf (set_count s n).
Proof. done. Qed.

Lemma set_AccBuff_wf s a :
  arr2_wf (axis_index NUM_DIM + 1) FRAME_LEN a -> state_wf s ->
  state_wf (set_AccBuff s a).
Proof. intros Ha [_ Hr]. by split. Qed.

Lemma set_run_static_wf s r :
  run_static_wf r -> state_wf s -> state_wf (set_run_static s r).
Proof. intros Hr [Ha _]. by split. Qed.

Lemma set_step_algo_output_ready s o :
  run_ready s -> run_ready (set_step_algo_output s o).
Proof. done. Qed.

Lemma set_step_algo_output_count s o : count (set_step_algo_output s o) = count s.
Proof. done. Qed.

Lemma set_step_algo_output_static s o :
  run_static (set_step_algo_output s o) = run_static s.
Proof. done. Qed.

Lemma set_step_algo_output_out s o : step_algo_output (set_step_algo_output s o) = o.
Proof. done. Qed.

#[export] Instance same_arrays_equiv : Equivalence (same_arrays (R:=R)).
Proof.
  unfold same_arrays. split.
  - by intros r.
  - intros r1 r2 (?&?&?). by repeat split.
  - intros r1 r2 r3 (?&?&?) (?&?&?). repeat split; congruence.
Qed.

#[export] Instance run_static_wf_proper :
  Proper (same_arrays ==> iff) (run_static_wf (R:=R)).
Proof.
  intros r1 r2 (Hf & Ht & Hd). unfold run_static_wf. by rewrite Hf, Ht, Hd.
Qed.

#[export] Instance AccFilt_proper : Proper (same_arrays ==> eq) (AccFilt (R:=R)).
Proof. by intros r1 r2 (? & ? & ?). Qed.

#[export] Instance TimeStamps_proper :
  Proper (same_arrays ==> eq) (TimeStamps (R:=R)).
Proof. by intros r1 r2 (? & ? & ?). Qed.

#[export] Instance AccDer_proper : Proper (same_arrays ==> eq) (AccDer (R:=R)).
Proof. by intros r1 r2 (? & ? & ?). Qed.

(** The setters of the scalars keep the arrays. *)
Lemma set_scalar_same_arrays (r : run_static_t R) :
  (forall v, same_arrays (set_prev_amp_est r v) r)
  /\ (forall v, same_arrays (set_prev_freq_est r v) r)
  /\ (forall n, same_arrays (set_amp_est_hold r n) r)
  /\ (forall n, same_arrays (set_freq_est_hold r n) r)
  /\ (forall v, same_arrays (set_prevAccDer r v) r).
Proof. by repeat split. Qed.

End StateLaws.

#[export] Hint Resolve state_zero_wf run_static_init_wf set_lp_filter_y_wf
  set_ll_filter_y_wf set_count_wf set_AccBuff_wf set_run_static_wf : core.
