(* ===== verification/Preproc.v ===== *)
(** * Preproc: smoothing and framing

    [step_algo_preproc] (pedometer.c lines 199-219) filters the vertical
    acceleration with the low-pass instance, stores the result and the
    timestamp at index [count] of the frame buffer, and reports a full frame
    on every [SAMP_BUFF_LEN]-th call, resetting [count].

    [preproc_run] is the function called on a list of samples. The theorems
    give the invariant [count < SAMP_BUFF_LEN], the return value, the cells
    written and left alone, and the content of the buffer after a whole
    frame: the low-pass filter run over the frame's inputs. *)

From Stdlib Require Import QArith ZArith Lia List.
From stdpp Require Import base tactics list.
From S2P Require Import Prelude.
From S2P Require Import Scalar.
From S2P Require Import Types.
From S2P Require Import Filter.
From S2P Require Import State.

Local Open Scope Z_scope.

(** ** Operations *)

Section Preproc.
Context {R : Type} `{Scalar R}.

Definition step_algo_preproc (s : state R)
    (timestamp arx ary arz grx gry grz : R) : Z * state R :=
  let '(ary_flt, lp) := apply_filter (lp_filter_y s) ary in
  let s1 := set_lp_filter_y s lp in
  let s2 := set_AccBuff s1
    (arr2_set (AccBuff s1) ROW_ACC (Z.to_nat (count s1)) ary_flt) in
  let s3 := set_AccBuff s2
    (arr2_set (AccBuff s2) ROW_TS (Z.to_nat (count s2)) timestamp) in
  let s4 := set_count s3 (u32_add (count s3) 1) in
  if count s4 =? SAMP_BUFF_LEN then (1, set_count s4 0) else (0, s4).

(** The function called once per (timestamp, vertical acceleration) pair;
    the channels it ignores are passed as zero. *)
Fixpoint preproc_run (s : state R) (rows : list (R * R)) : list Z * state R :=
  match rows with
  | [] => ([], s)
  | (ts, ary) :: rows' =>
      let z := sc_lit 0 in
      let '(r, s') := step_algo_preproc s ts z ary z z z z in
      let '(rs, s'') := preproc_run s' rows' in
      (r :: rs, s'')
  end.

(** [count] indexes the frame buffer. *)
Definition count_ok (s : state R) : Prop := 0 <= count s < SAMP_BUFF_LEN.

End Preproc.

(** ** Laws *)

Section PreprocLaws.
Context {R : Type} `{Scalar R}.
Implicit Types (s : state R) (rows : list (R * R)).

(** The call in closed form, while [count] is inside the buffer. *)
Lemma preproc_step_eq s ts arx ary arz grx gry grz :
  count_ok s ->
  step_algo_preproc s ts arx ary arz grx gry grz =
  (if count s =? SAMP_BUFF_LEN - 1 then 1 else 0,
   set_count
     (set_AccBuff (set_lp_filter_y s (snd (apply_filter (lp_filter_y s) ary)))
        (arr2_set
           (arr2_set (AccBuff s) ROW_ACC (Z.to_nat (count s))
              (fst (apply_filter (lp_filter_y s) ary)))
           ROW_TS (Z.to_nat (count s)) ts))
     (if count s =? SAMP_BUFF_LEN - 1 then 0 else count s + 1)).
Proof.
  intros [Hlo Hhi]. unfold step_algo_preproc. cbn.
  rewrite u32_add_nowrap by (cfg; u32_lia).
  destruct (Z.eqb_spec (count s + 1) SAMP_BUFF_LEN),
    (Z.eqb_spec (count s) (SAMP_BUFF_LEN - 1)); (done || lia).
Qed.

(** The value returned and the next write index. *)
Lemma preproc_step_count s ts arx ary arz grx gry grz :
  count_ok s ->
  let c := step_algo_preproc s ts arx ary arz grx gry grz in
  fst c = (if count s =? SAMP_BUFF_LEN - 1 then 1 else 0)
  /\ count (snd c) = (if count s =? SAMP_BUFF_LEN - 1 then 0 else count s + 1).
Proof. intros Hc. by rewrite preproc_step_eq. Qed.

(** The channels other than the vertical acceleration are not read. *)
Lemma preproc_ignores s ts arx ary arz grx gry grz arx' arz' grx' gry' grz' :
  step_algo_preproc s ts arx ary arz grx gry grz =
  step_algo_preproc s ts arx' ary arz' grx' gry' grz'.
Proof. reflexivity. Qed.

Lemma preproc_wf s ts arx ary arz grx gry grz :
  state_wf s -> state_wf (snd (step_algo_preproc s ts arx ary arz grx gry grz)).
Proof.
  intros [Ha Hr]. unfold step_algo_preproc. cbn.
  case_match; (split; [cbn; by repeat apply arr2_set_wf|done]).
Qed.

Lemma preproc_count_ok s ts arx ary arz grx gry grz :
  count_ok s -> count_ok (snd (step_algo_preproc s ts arx ary arz grx gry grz)).
Proof.
  intros Hc. rewrite preproc_step_eq by done. unfold count_ok in *. cbn.
  cfg. case_match; lia.
Qed.

(** What the call leaves alone. *)
Lemma preproc_frame s ts arx ary arz grx gry grz :
  let s' := snd (step_algo_preproc s ts arx ary arz grx gry grz) in
  ll_filter_y s' = ll_filter_y s /\ step_algo_output s' = step_algo_output s
  /\ run_static s' = run_static s /\ num_steps_walk s' = num_steps_walk s
  /\ num_steps_run s' = num_steps_run s /\ num_steps_hop s' = num_steps_hop s.
Proof. unfold step_algo_preproc. cbn. by case_match. Qed.

Lemma preproc_lp_filter s ts arx ary arz grx gry grz :
  lp_filter_y (snd (step_algo_preproc s ts arx ary arz grx gry grz)) =
  snd (apply_filter (lp_filter_y s) ary).
Proof. unfold step_algo_preproc. cbn. by case_match. Qed.

Lemma preproc_run_cons s ts ary rows :
  preproc_run s ((ts, ary) :: rows) =
  let z := sc_lit 0 in
  let c := step_algo_preproc s ts z ary z z z z in
  (fst c :: fst (preproc_run (snd c) rows), snd (preproc_run (snd c) rows)).
Proof.
  cbn -[step_algo_preproc].
  destruct (step_algo_preproc _ _ _ _ _ _ _ _) as [r s']. cbn.
  by destruct (preproc_run s' rows).
Qed.

Lemma preproc_run_length s rows : length (fst (preproc_run s rows)) = length rows.
Proof.
  revert s. induction rows as [|[ts ary] rows IH]; intros s; [done|].
  rewrite preproc_run_cons. cbn -[step_algo_preproc]. by rewrite IH.
Qed.

Lemma preproc_run_wf s rows : state_wf s -> state_wf (snd (preproc_run s rows)).
Proof.
  revert s. induction rows as [|[ts ary] rows IH]; intros s Hs; [done|].
  rewrite preproc_run_cons. apply IH, preproc_wf, Hs.
Qed.

Lemma preproc_run_count_ok s rows : count_ok s -> count_ok (snd (preproc_run s rows)).
Proof.
  revert s. induction rows as [|[ts ary] rows IH]; intros s Hs; [done|].
  rewrite preproc_run_cons. apply IH, preproc_count_ok, Hs.
Qed.

Lemma preproc_run_app s rows1 rows2 :
  preproc_run s (rows1 ++ rows2) =
  (fst (preproc_run s rows1) ++ fst (preproc_run (snd (preproc_run s rows1)) rows2),
   snd (preproc_run (snd (preproc_run s rows1)) rows2)).
Proof.
  revert s. induction rows1 as [|[ts ary] rows1 IH]; intros s.
  - cbn. by destruct (preproc_run s rows2).
  - rewrite <-app_comm_cons, !preproc_run_cons. cbn zeta. by rewrite IH.
Qed.

(** The two rows of the buffer after one call. *)
Lemma preproc_rows s ts arx ary arz grx gry grz :
  state_wf s -> count_ok s ->
  let s' := snd (step_algo_preproc s ts arx ary arz grx gry grz) in
  AccBuff s' !!! ROW_ACC =
    <[Z.to_nat (count s) := fst (apply_filter (lp_filter_y s) ary)]>
      (AccBuff s !!! ROW_ACC)
  /\ AccBuff s' !!! ROW_TS = <[Z.to_nat (count s) := ts]> (AccBuff s !!! ROW_TS).
Proof.
  intros [[Hlen _] _] Hc. rewrite preproc_step_eq by done. cbn [snd AccBuff set_count set_AccBuff].
  split.
  - rewrite arr2_row_set_other by done. apply arr2_row_set_same. rewrite Hlen. cbn. lia.
  - rewrite arr2_row_set_same by (rewrite arr2_set_length, Hlen; cbn; lia).
    by rewrite arr2_row_set_other.
Qed.

(** The rows [CHX] and [CHZ] of the buffer are never written. *)
Lemma preproc_rows_unused s ts arx ary arz grx gry grz r :
  r <> ROW_ACC -> r <> ROW_TS ->
  AccBuff (snd (step_algo_preproc s ts arx ary arz grx gry grz)) !!! r =
  AccBuff s !!! r.
Proof.
  intros Hacc Hts. unfold step_algo_preproc. cbn -[arr2_set lookup_total].
  case_match; cbn -[arr2_set lookup_total]; by rewrite !arr2_row_set_other.
Qed.

(** Part of a frame: the cells from [count] on receive the filtered
    samples and their timestamps, every call returns 0. *)
Lemma preproc_run_partial s rows :
  state_wf s -> count_ok s ->
  (Z.to_nat (count s) + length rows < FRAME_LEN)%nat ->
  let s' := snd (preproc_run s rows) in
  fst (preproc_run s rows) = replicate (length rows) 0
  /\ count s' = count s + Z.of_nat (length rows)
  /\ lp_filter_y s' = snd (filter_run (lp_filter_y s) rows.*2)
  /\ AccBuff s' !!! ROW_ACC =
       list_inserts (Z.to_nat (count s))
         (fst (filter_run (lp_filter_y s) rows.*2)) (AccBuff s !!! ROW_ACC)
  /\ AccBuff s' !!! ROW_TS =
       list_inserts (Z.to_nat (count s)) rows.*1 (AccBuff s !!! ROW_TS).
Proof.
  revert s. induction rows as [|[ts ary] rows IH]; intros s Hwf Hc Hlen.
  { cbn. repeat split; lia. }
  cbn [length] in Hlen. rewrite preproc_run_cons. cbn zeta. cbn [fst snd].
  pose proof (preproc_rows s ts (sc_lit 0) ary (sc_lit 0) (sc_lit 0)
    (sc_lit 0) (sc_lit 0) Hwf Hc) as [Hacc Hts].
  pose proof (preproc_lp_filter s ts (sc_lit 0) ary (sc_lit 0) (sc_lit 0)
    (sc_lit 0) (sc_lit 0)) as Hlp.
  pose proof (preproc_step_eq s ts (sc_lit 0) ary (sc_lit 0) (sc_lit 0)
    (sc_lit 0) (sc_lit 0) Hc) as Heq.
  destruct Hc as [Hlo Hhi].
  set (s1 := snd (step_algo_preproc _ _ _ _ _ _ _ _)) in *.
  assert (count s1 = count s + 1) as Hc1.
  { subst s1. rewrite Heq. cbn. case_match; [|done].
    unfold FRAME_LEN in Hlen. lia. }
  destruct (IH s1) as (Hr & Hcnt & Hf & Ha & Ht).
  { subst s1. by apply preproc_wf. }
  { unfold count_ok, FRAME_LEN in *. lia. }
  { lia. }
  rewrite Heq at 1. cbn [fst].
  destruct (Z.eqb_spec (count s) (SAMP_BUFF_LEN - 1)) as [He|_].
  { unfold FRAME_LEN in Hlen. lia. }
  rewrite Hr, Hcnt, Hf, Ha, Ht, Hc1, Hlp, Hacc, Hts.
  rewrite !fmap_cons, filter_run_cons. cbn [fst snd length].
  rewrite !list_inserts_first.
  replace (Z.to_nat (count s + 1)) with (S (Z.to_nat (count s))) by lia.
  repeat split. lia.
Qed.

(** The call that completes a frame: [count] is [SAMP_BUFF_LEN - 1]. *)
Lemma preproc_last s ts arx ary arz grx gry grz :
  count s = SAMP_BUFF_LEN - 1 ->
  let c := step_algo_preproc s ts arx ary arz grx gry grz in
  fst c = 1 /\ count (snd c) = 0.
Proof.
  intros Hc. rewrite preproc_step_eq by (unfold count_ok; cfg; lia).
  rewrite Hc, Z.eqb_refl. done.
Qed.

(** A whole frame. From [count = 0], [SAMP_BUFF_LEN] calls return 0
    except the last, which returns 1 and resets [count]; the acceleration
    row of the buffer then holds the low-pass filter run over the frame's
    inputs and the timestamp row the frame's timestamps. *)
Theorem preproc_full_frame s rows :
  state_wf s -> count s = 0 -> length rows = FRAME_LEN ->
  let s' := snd (preproc_run s rows) in
  fst (preproc_run s rows) = replicate (FRAME_LEN - 1) 0 ++ [1]
  /\ count s' = 0
  /\ lp_filter_y s' = snd (filter_run (lp_filter_y s) rows.*2)
  /\ AccBuff s' !!! ROW_ACC = fst (filter_run (lp_filter_y s) rows.*2)
  /\ AccBuff s' !!! ROW_TS = rows.*1.
Proof.
  intros Hwf Hc0 Hlen.
  destruct rows as [|r0 rows0 _] using rev_ind; [done|].
  rewrite length_app in Hlen. cbn [length] in Hlen.
  destruct r0 as [ts ary].
  destruct (preproc_run_partial s rows0) as (Hr & Hcnt & Hf & Ha & Ht);
    [done|unfold count_ok; cfg; lia|rewrite Hc0; cbn; lia|].
  rewrite Hc0 in Hcnt, Ha, Ht. cbn [Z.to_nat] in Ha, Ht.
  set (s1 := snd (preproc_run s rows0)) in *.
  assert (state_wf s1) as Hwf1 by (by apply preproc_run_wf).
  assert (count s1 = SAMP_BUFF_LEN - 1) as Hc1.
  { rewrite Hcnt. unfold FRAME_LEN in Hlen. lia. }
  assert (count_ok s1) as Hok1 by (unfold count_ok; cfg; lia).
  pose proof (preproc_last s1 ts (sc_lit 0) ary (sc_lit 0) (sc_lit 0)
    (sc_lit 0) (sc_lit 0) Hc1) as [Hret Hcz].
  pose proof (preproc_rows s1 ts (sc_lit 0) ary (sc_lit 0) (sc_lit 0)
    (sc_lit 0) (sc_lit 0) Hwf1 Hok1) as [Hacc Hts].
  destruct Hwf as [[Hrows Hcols] _]. rewrite Forall_lookup_total in Hcols.
  rewrite Ha in Hacc. rewrite Ht in Hts.
  replace (Z.to_nat (count s1))
    with (length (fst (filter_run (lp_filter_y s) rows0.*2))) in Hacc
    by (rewrite filter_run_length, length_fmap; lia).
  replace (Z.to_nat (count s1)) with (length rows0.*1) in Hts
    by (rewrite length_fmap; lia).
  rewrite list_inserts_snoc_all in Hacc
    by (rewrite filter_run_length, length_fmap, Hcols by (rewrite Hrows; cbn; lia); lia).
  rewrite list_inserts_snoc_all in Hts
    by (rewrite length_fmap, Hcols by (rewrite Hrows; cbn; lia); lia).
  rewrite preproc_run_app, !fmap_app, filter_run_app, preproc_run_cons.
  cbn zeta. cbn [fst snd preproc_run filter_run fmap list_fmap]. fold s1.
  rewrite Hret, Hcz, Hr, preproc_lp_filter, Hacc, Hts, Hf.
  replace (FRAME_LEN - 1)%nat with (length rows0) by lia. done.
Qed.

End PreprocLaws.

(** ** A sensor at rest, in exact arithmetic *)

Section PreprocExact.
Context {R : Type} `{ExactScalar R}.
Implicit Types s : state R.
Local Open Scope Q_scope.

(** Nothing has moved yet: both filters of the vertical axis are at rest,
    the smoothed samples in the buffer are zero, the estimates kept from the
    last frame are zero, and the output shows no step and [STATIC]. *)
Definition quiet_state s : Prop :=
  run_ready s
  /\ settled (lp_filter_y s) 0 0 /\ settled (ll_filter_y s) 0 0
  /\ all_eq 0 (AccBuff s !!! ROW_ACC)
  /\ toQ (prev_amp_est (run_static s)) == 0
  /\ toQ (prev_freq_est (run_static s)) == 0
  /\ step_count (step_algo_output s) = 0%Z
  /\ step_type (step_algo_output s) = STATIC.

Lemma preproc_quiet s ts arx ary arz grx gry grz :
  count_ok s -> quiet_state s -> toQ ary == 0 ->
  quiet_state (snd (step_algo_preproc s ts arx ary arz grx gry grz)).
Proof.
  intros Hc ([Hwf Htc] & Hlp & Hll & Hbuf & Hamp & Hfreq & Hsc & Hst) Hary.
  pose proof (preproc_wf s ts arx ary arz grx gry grz Hwf) as Hwf'.
  destruct (preproc_frame s ts arx ary arz grx gry grz)
    as (Hll' & Hout' & Hrs' & _).
  destruct (apply_filter_zero (lp_filter_y s) ary Hlp Hary) as [Hy Hlp'].
  cbv zeta in *. unfold quiet_state, run_ready, tc_ok.
  rewrite Hll', Hout', Hrs', preproc_lp_filter.
  split; [by split|]. do 2 (split; [assumption|]). split; [|done].
  rewrite preproc_step_eq by done. cbn [snd AccBuff set_count set_AccBuff].
  rewrite arr2_row_set_other by done.
  rewrite arr2_row_set_same by (destruct Hwf as [[-> _] _]; cbn; lia).
  by apply Forall_insert.
Qed.

End PreprocExact.

(** The whole-frame theorem at a frame of 52 equal samples, in [Qc]. *)
Lemma preproc_full_frame_witness :
  let s := state_zero (R:=Qcanon.Qc) in
  let rows := replicate 52 (sc_lit 1, sc_lit 2) in
  fst (preproc_run s rows) = replicate 51 0 ++ [1]
  /\ count (snd (preproc_run s rows)) = 0
  /\ AccBuff (snd (preproc_run s rows)) !!! ROW_TS = replicate 52 (sc_lit 1).
Proof.
  pose proof (preproc_full_frame (state_zero (R:=Qcanon.Qc))
    (replicate 52 (sc_lit 1, sc_lit 2)) state_zero_wf eq_refl eq_refl)
    as (Hr & Hc & _ & _ & Ht).
  cbv zeta. split; [exact Hr | split; [exact Hc | exact Ht]].
Defined.

#[export] Hint Resolve preproc_wf preproc_count_ok preproc_run_wf
  preproc_run_count_ok : core.
#[export] Hint Rewrite @preproc_run_length : len.
