(* ===== verification/Detector.v ===== *)
(** * Detector: the loops of [step_algo_run]

    [step_algo_run] (pedometer.c lines 233-426) runs three loops over a full
    frame. This file models them, each body as a definition of its own:

    - [derive_body] (lines 280-287): the derivative of the smoothed sample
      goes to [AccDer[i]]; the sample and its timestamp are copied to
      [AccFilt[TC_samples+i]] and [TimeStamps[TC_samples+i]];
    - [detect_body] (lines 291-344): the previous derivative is refreshed
      and [detect_sample] looks for a zero crossing: [max_search] while
      [prev_max_ts <= prev_min_ts] (lines 296-317), [min_search] otherwise
      (lines 320-342);
    - [tail_body] (lines 376-379): the last [TC_samples] entries of the
      frame are saved at the start of the extended arrays.

    The locals of the function that live across iterations are the record
    [Loc.t]. [new_max_val], [new_max_ts], [new_min_val] and [new_min_ts] are
    assigned before every use inside one iteration, so they are [let]-bound
    and their initialisers (lines 263-266) are dead stores.

    The theorems: closed forms of the copy loops; what the array read at
    index [i] is; per-sample and per-frame facts about the scan, the gates
    and the sums it accumulates. *)

From Stdlib Require Import QArith Qabs ZArith Lia Lqa List.
From stdpp Require Import base tactics list.
From S2P Require Import Prelude.
From S2P Require Import Scalar.
From S2P Require Import Types.
From S2P Require Import Filter.
From S2P Require Import State.

(** ** The locals of [step_algo_run] that the scan carries (lines 246-251) *)

Module Loc.

Record t (R : Type) : Type := mk {
  prev_max_val : R;
  prev_max_ts : R;
  prev_min_val : R;
  prev_min_ts : R;
  avg_max_val : R;
  avg_min_val : R;
  avg_time_period : R;
  amp_est : R;
  count_max_det : Z;
  count_min_det : Z
}.

Arguments mk {R}.
Arguments prev_max_val {R}.
Arguments prev_max_ts {R}.
Arguments prev_min_val {R}.
Arguments prev_min_ts {R}.
Arguments avg_max_val {R}.
Arguments avg_min_val {R}.
Arguments avg_time_period {R}.
Arguments amp_est {R}.
Arguments count_max_det {R}.
Arguments count_min_det {R}.

Definition set_prev_max_ts {R : Type} (l : t R) (v : R) : t R :=
  mk (prev_max_val l) v (prev_min_val l) (prev_min_ts l) (avg_max_val l)
    (avg_min_val l) (avg_time_period l) (amp_est l) (count_max_det l)
    (count_min_det l).

Definition set_prev_min_ts {R : Type} (l : t R) (v : R) : t R :=
  mk (prev_max_val l) (prev_max_ts l) (prev_min_val l) v (avg_max_val l)
    (avg_min_val l) (avg_time_period l) (amp_est l) (count_max_det l)
    (count_min_det l).

End Loc.

(** ** Operations *)

Section Detector.
Context {R : Type} `{Scalar R}.
Local Open Scope sc_scope.

(** The macros of lines 235-238. *)
Definition VERY_HIGH_VAL : R := sc_of_Z 100000.

Definition NO_DETECT_DUR_SEC : R := sc_lit (2 # 10).

Definition CLOSE_TO_ZERO : R := sc_dlit (15 # 10).

Definition MAX_TIME_PERIOD_SEC : R := sc_lit (15 # 10).

(** Distance between the two samples compared (line 250). *)
Definition delta : nat := 1.

(** An [unsigned int] used as an array index. *)
Definition idx (z : Z) : nat := Z.to_nat z.

(** Lines 248-251 and 271-274: the accumulators start at zero, the last
    extrema come from the output structure. *)
Definition locals_init (out : algo_out_t R) : Loc.t R :=
  {| Loc.prev_max_val := prev_max out;
     Loc.prev_max_ts := Types.prev_max_ts out;
     Loc.prev_min_val := prev_min out;
     Loc.prev_min_ts := Types.prev_min_ts out;
     Loc.avg_max_val := sc_lit 0;
     Loc.avg_min_val := sc_lit 0;
     Loc.avg_time_period := sc_lit 0;
     Loc.amp_est := sc_lit 0;
     Loc.count_max_det := 0;
     Loc.count_min_det := 0 |}.

(** Lines 280-287, one iteration. The loop state is the lead-lag filter
    and the statics. *)
Definition derive_body (buff : list (list R)) (TC : Z) (i : nat)
    (st : filter_t R * run_static_t R) : filter_t R * run_static_t R :=
  let '(ll, rs) := st in
  let '(d, ll') := apply_filter ll (arr2_get buff ROW_ACC i) in
  let rs := set_AccDer rs (<[i := d]> (AccDer rs)) in
  let rs := set_AccFilt rs
    (<[idx (u32_add TC (Z.of_nat i)) := arr2_get buff ROW_ACC i]> (AccFilt rs)) in
  let rs := set_TimeStamps rs
    (<[idx (u32_add TC (Z.of_nat i)) := arr2_get buff ROW_TS i]> (TimeStamps rs)) in
  (ll', rs).

Definition derive_loop (buff : list (list R)) (TC : Z)
    (st : filter_t R * run_static_t R) : filter_t R * run_static_t R :=
  for_loop FRAME_LEN (derive_body buff TC) st.

(** Lines 296-317: looking for a maximum, a falling zero crossing of the
    derivative. [cur] is [AccDer[i]], [prevd] is [prevAccDer], [v] is
    [AccFilt[i]] and [ts] is [TimeStamps[i]]. *)
Definition max_search (cur prevd v ts : R) (l : Loc.t R) : Loc.t R :=
  if (cur <? - EPSILON) && (prevd >=? sc_lit 0) then
    if ts - Loc.prev_max_ts l >? NO_DETECT_DUR_SEC then
      let new_max_val := v in
      if sc_abs new_max_val >? CLOSE_TO_ZERO then
        let new_max_ts := ts in
        let l :=
          if new_max_ts >? Loc.prev_max_ts l + MAX_TIME_PERIOD_SEC
          then Loc.set_prev_max_ts l (new_max_ts - MAX_TIME_PERIOD_SEC)
          else l in
        if new_max_val - Loc.prev_min_val l >? CLOSE_TO_ZERO then
          {| Loc.prev_max_val := new_max_val;
             Loc.prev_max_ts := new_max_ts;
             Loc.prev_min_val := Loc.prev_min_val l;
             Loc.prev_min_ts := Loc.prev_min_ts l;
             Loc.avg_max_val := Loc.avg_max_val l + new_max_val;
             Loc.avg_min_val := Loc.avg_min_val l;
             Loc.avg_time_period :=
               Loc.avg_time_period l + (new_max_ts - Loc.prev_max_ts l);
             Loc.amp_est := Loc.amp_est l;
             Loc.count_max_det := u32_add (Loc.count_max_det l) 1;
             Loc.count_min_det := Loc.count_min_det l |}
        else l
      else l
    else l
  else l.

(** Lines 320-342: looking for a minimum, a rising zero crossing. *)
Definition min_search (cur prevd v ts : R) (l : Loc.t R) : Loc.t R :=
  if (cur >? EPSILON) && (prevd <=? sc_lit 0) then
    if ts - Loc.prev_min_ts l >? NO_DETECT_DUR_SEC then
      let new_min_val := v in
      let new_min_ts := ts in
      let l :=
        if new_min_ts >? Loc.prev_min_ts l + MAX_TIME_PERIOD_SEC
        then Loc.set_prev_min_ts l (new_min_ts - MAX_TIME_PERIOD_SEC)
        else l in
      if Loc.prev_max_val l - new_min_val >? CLOSE_TO_ZERO then
        {| Loc.prev_max_val := Loc.prev_max_val l;
           Loc.prev_max_ts := Loc.prev_max_ts l;
           Loc.prev_min_val := new_min_val;
           Loc.prev_min_ts := new_min_ts;
           Loc.avg_max_val := Loc.avg_max_val l;
           Loc.avg_min_val := Loc.avg_min_val l + new_min_val;
           Loc.avg_time_period :=
             Loc.avg_time_period l + (new_min_ts - Loc.prev_min_ts l);
           Loc.amp_est := Loc.amp_est l + (Loc.prev_max_val l - new_min_val);
           Loc.count_max_det := Loc.count_max_det l;
           Loc.count_min_det := u32_add (Loc.count_min_det l) 1 |}
      else l
    else l
  else l.

(** The detector looks for a maximum while the last maximum is not later
    than the last minimum (line 295). *)
Definition max_mode (l : Loc.t R) : bool :=
  Loc.prev_max_ts l <=? Loc.prev_min_ts l.

(** Lines 295-343. *)
Definition detect_sample (cur prevd v ts : R) (l : Loc.t R) : Loc.t R :=
  if max_mode l then max_search cur prevd v ts l
  else min_search cur prevd v ts l.

(** Lines 291-344, one iteration. The loop state is the statics (for
    [prevAccDer]) and the locals. *)
Definition detect_body (i : nat) (st : run_static_t R * Loc.t R)
    : run_static_t R * Loc.t R :=
  let '(rs, l) := st in
  let rs :=
    if (delta <=? i)%nat
    then set_prevAccDer rs (AccDer rs !!! (i - delta)%nat)
    else rs in
  (rs, detect_sample (AccDer rs !!! i) (prevAccDer rs) (AccFilt rs !!! i)
         (TimeStamps rs !!! i) l).

Definition detect_loop (st : run_static_t R * Loc.t R)
    : run_static_t R * Loc.t R :=
  for_loop FRAME_LEN detect_body st.

(** Lines 376-379, one iteration. The index is computed in [unsigned int]. *)
Definition tail_body (buff : list (list R)) (TC : Z) (i : nat)
    (rs : run_static_t R) : run_static_t R :=
  let src := idx (u32_add (wrap32 (SAMP_BUFF_LEN - TC)) (Z.of_nat i)) in
  let rs := set_AccFilt rs (<[i := arr2_get buff ROW_ACC src]> (AccFilt rs)) in
  set_TimeStamps rs (<[i := arr2_get buff ROW_TS src]> (TimeStamps rs)).

Definition tail_loop (buff : list (list R)) (TC : Z)
    (rs : run_static_t R) : run_static_t R :=
  for_loop (idx TC) (tail_body buff TC) rs.

(** The detection counters of a frame scanned up to index [n]: no more
    than one detection per sample, so they cannot wrap. *)
Definition counts_bounded (n : Z) (l : Loc.t R) : Prop :=
  (0 <= Loc.count_max_det l /\ 0 <= Loc.count_min_det l
   /\ Loc.count_max_det l + Loc.count_min_det l <= n)%Z.

End Detector.

#[export] Hint Unfold counts_bounded : core.

(** ** The copy loops, in closed form *)

Section CopyLoops.
Context {R : Type} `{Scalar R}.
Variables (buff : list (list R)) (TC : Z).
Hypothesis HTC : (0 <= TC <= MAX_TC_SAMPLES)%Z.
Hypothesis Hbuff : arr2_wf (axis_index NUM_DIM + 1) FRAME_LEN buff.
Implicit Types (rs : run_static_t R) (ll : filter_t R).

(** The two rows of the frame that [step_algo_run] reads. *)
Local Notation "'acc_row'" := (buff !!! ROW_ACC).
Local Notation "'ts_row'" := (buff !!! ROW_TS).

Lemma frame_row_length r : r < 4 -> length (buff !!! r) = FRAME_LEN.
Proof.
  destruct Hbuff as [Hlen Hall]. intros Hr.
  rewrite Forall_lookup_total in Hall. apply Hall. rewrite Hlen. exact Hr.
Qed.

Lemma idx_offset i : i < FRAME_LEN -> idx (u32_add TC (Z.of_nat i)) = idx TC + i.
Proof.
  rewrite FRAME_LEN_val. intros Hi. unfold idx.
  rewrite u32_add_nowrap by (revert HTC; cfg; u32_lia). revert HTC; cfg; lia.
Qed.

Lemma idx_tail i :
  i < idx TC ->
  idx (u32_add (wrap32 (SAMP_BUFF_LEN - TC)) (Z.of_nat i))
  = FRAME_LEN - idx TC + i.
Proof.
  rewrite FRAME_LEN_val. unfold idx. intros Hi.
  rewrite wrap32_small by (revert HTC; cfg; u32_lia).
  rewrite u32_add_nowrap by (revert HTC; cfg; u32_lia). revert HTC; cfg; lia.
Qed.

(** What the arrays hold after [i] iterations of lines 280-287. *)
Definition derived (i : nat) ll rs : filter_t R * run_static_t R :=
  (snd (filter_run ll (take i acc_row)),
   set_TimeStamps
     (set_AccFilt
        (set_AccDer rs
           (list_inserts 0 (fst (filter_run ll (take i acc_row))) (AccDer rs)))
        (list_inserts (idx TC) (take i acc_row) (AccFilt rs)))
     (list_inserts (idx TC) (take i ts_row) (TimeStamps rs))).

Lemma derive_body_derived i ll rs :
  i < FRAME_LEN ->
  derive_body buff TC i (derived i ll rs) = derived (S i) ll rs.
Proof.
  intros Hi. unfold derived, derive_body, arr2_get.
  rewrite !list_inserts_take_S by (rewrite frame_row_length; [lia|cbn; lia]).
  rewrite take_S_total by (rewrite frame_row_length; [lia|cbn; lia]).
  rewrite filter_run_snoc, idx_offset by done.
  destruct (apply_filter _ _) as [d ll'] eqn:Hd. cbn [fst snd].
  rewrite list_inserts_snoc, filter_run_length, length_take_le
    by (rewrite frame_row_length; [lia|cbn; lia]).
  by rewrite Nat.add_0_r.
Qed.

Lemma derive_loop_take i ll rs :
  i <= FRAME_LEN -> for_loop i (derive_body buff TC) (ll, rs) = derived i ll rs.
Proof.
  induction i as [|i IH]; intros Hi.
  - by destruct rs.
  - rewrite for_loop_S, IH by lia. by apply derive_body_derived.
Qed.

(** What the arrays hold after [i] iterations of lines 376-379. *)
Definition tail_saved (i : nat) rs : run_static_t R :=
  set_TimeStamps
    (set_AccFilt rs
       (list_inserts 0 (take i (drop (FRAME_LEN - idx TC) acc_row)) (AccFilt rs)))
    (list_inserts 0 (take i (drop (FRAME_LEN - idx TC) ts_row)) (TimeStamps rs)).

Lemma tail_body_saved i rs :
  i < idx TC -> tail_body buff TC i (tail_saved i rs) = tail_saved (S i) rs.
Proof.
  intros Hi. unfold tail_saved, tail_body, arr2_get.
  assert (FRAME_LEN - idx TC + i < FRAME_LEN)
    by (revert Hi HTC; unfold idx; rewrite FRAME_LEN_val; cfg; lia).
  rewrite !list_inserts_take_drop_S by (rewrite frame_row_length; [lia|cbn; lia]).
  by rewrite idx_tail.
Qed.

Lemma tail_loop_take i rs :
  i <= idx TC -> for_loop i (tail_body buff TC) rs = tail_saved i rs.
Proof.
  induction i as [|i IH]; intros Hi.
  - by destruct rs.
  - rewrite for_loop_S, IH by lia. by apply tail_body_saved.
Qed.

(** The lead-lag filter has run over the frame, in order. *)
Lemma derive_loop_filter ll rs :
  fst (derive_loop buff TC (ll, rs)) = snd (filter_run ll (buff !!! ROW_ACC)).
Proof.
  unfold derive_loop. rewrite derive_loop_take by done. cbn [fst derived].
  by rewrite take_ge by (rewrite frame_row_length; [lia|cbn; lia]).
Qed.

(** The derivative array is the response of the lead-lag filter to the
    frame. *)
Lemma derive_loop_AccDer ll rs :
  length (AccDer rs) = FRAME_LEN ->
  AccDer (snd (derive_loop buff TC (ll, rs)))
  = fst (filter_run ll (buff !!! ROW_ACC)).
Proof.
  intros Hd. unfold derive_loop. rewrite derive_loop_take by done. cbn.
  rewrite take_ge by (rewrite frame_row_length; [lia|cbn; lia]).
  apply list_inserts_all.
  by rewrite filter_run_length, frame_row_length, Hd by (cbn; lia).
Qed.

(** The derive loop writes arrays only. *)
Lemma derive_loop_scalars ll rs :
  let rs' := snd (derive_loop buff TC (ll, rs)) in
  prev_amp_est rs' = prev_amp_est rs /\ prev_freq_est rs' = prev_freq_est rs
  /\ amp_est_hold rs' = amp_est_hold rs /\ freq_est_hold rs' = freq_est_hold rs
  /\ prevAccDer rs' = prevAccDer rs.
Proof. unfold derive_loop. by rewrite derive_loop_take. Qed.

Lemma derive_loop_wf ll rs :
  run_static_wf rs -> run_static_wf (snd (derive_loop buff TC (ll, rs))).
Proof.
  intros (Hf & Ht & Hd). unfold derive_loop. rewrite derive_loop_take by done.
  unfold run_static_wf. cbn. by rewrite !length_inserts.
Qed.

Lemma tail_loop_scalars rs :
  let rs' := tail_loop buff TC rs in
  amp_est_hold rs' = amp_est_hold rs /\ freq_est_hold rs' = freq_est_hold rs.
Proof. unfold tail_loop. by rewrite tail_loop_take. Qed.

Lemma tail_loop_wf rs : run_static_wf rs -> run_static_wf (tail_loop buff TC rs).
Proof.
  intros (Hf & Ht & Hd). unfold tail_loop. rewrite tail_loop_take by done.
  unfold run_static_wf. cbn. by rewrite !length_inserts.
Qed.

(** A cell of an extended array after the derive loop: the old cell below
    [TC_samples], the frame from there on. *)
Lemma extended_lookup (row old : list R) i :
  length row = FRAME_LEN -> length old = EXT_LEN -> i < FRAME_LEN ->
  list_inserts (idx TC) (take FRAME_LEN row) old !!! i
  = if decide (i < idx TC) then old !!! i else row !!! (i - idx TC).
Proof.
  intros Hrow Hold Hi. rewrite take_ge by lia. case_decide.
  - by apply list_lookup_total_inserts_lt.
  - apply list_lookup_total_inserts; rewrite ?Hrow, ?Hold, ?EXT_LEN_val;
      rewrite FRAME_LEN_val in *; lia.
Qed.

(** C12. What the scan reads. After the derive loop, for every index [i]
    of the frame, [AccDer[i]] is the derivative of frame sample [i], while
    [AccFilt[i]] and [TimeStamps[i]] are the sample and the timestamp
    [TC_samples] places earlier: frame entry [i - TC_samples], or, for
    [i < TC_samples], whatever the extended arrays held at [i] before. *)
Theorem scan_window ll rs i :
  run_static_wf rs -> i < FRAME_LEN ->
  let rs' := snd (derive_loop buff TC (ll, rs)) in
  AccDer rs' !!! i = fst (filter_run ll (buff !!! ROW_ACC)) !!! i
  /\ AccFilt rs' !!! i
     = (if decide (i < idx TC) then AccFilt rs !!! i
        else arr2_get buff ROW_ACC (i - idx TC))
  /\ TimeStamps rs' !!! i
     = (if decide (i < idx TC) then TimeStamps rs !!! i
        else arr2_get buff ROW_TS (i - idx TC)).
Proof.
  intros (Hf & Ht & Hd) Hi. cbv zeta. unfold derive_loop, arr2_get.
  rewrite derive_loop_take by done. cbn.
  rewrite !extended_lookup by (done || (apply frame_row_length; cbn; lia)).
  rewrite take_ge by (rewrite frame_row_length; [lia|cbn; lia]).
  rewrite list_inserts_all; [done|].
  by rewrite filter_run_length, frame_row_length, Hd by (cbn; lia).
Qed.

(** What the next frame inherits. After the tail loop the first
    [TC_samples] cells of the extended arrays hold the last [TC_samples]
    samples and timestamps of the frame, in order; the other cells are
    untouched. *)
Theorem tail_loop_saves rs i :
  run_static_wf rs -> i < EXT_LEN ->
  let rs' := tail_loop buff TC rs in
  AccFilt rs' !!! i
  = (if decide (i < idx TC) then arr2_get buff ROW_ACC (FRAME_LEN - idx TC + i)
     else AccFilt rs !!! i)
  /\ TimeStamps rs' !!! i
  = (if decide (i < idx TC) then arr2_get buff ROW_TS (FRAME_LEN - idx TC + i)
     else TimeStamps rs !!! i).
Proof.
  intros (Hf & Ht & Hd) Hi. cbv zeta. unfold tail_loop, arr2_get.
  rewrite tail_loop_take by done. cbn.
  assert (idx TC <= FRAME_LEN)
    by (revert HTC; unfold idx; rewrite FRAME_LEN_val; cfg; lia).
  assert (forall row : list R, length row = FRAME_LEN ->
            length (take (idx TC) (drop (FRAME_LEN - idx TC) row)) = idx TC)
    as Hlen by (intros row Hrow; rewrite length_take, length_drop; lia).
  case_decide.
  - rewrite !list_lookup_total_inserts
      by (rewrite ?Hlen, ?Hf, ?Ht by (apply frame_row_length; cbn; lia); lia).
    by rewrite !lookup_total_take_lt, !lookup_total_drop, Nat.sub_0_r by lia.
  - by rewrite !list_lookup_total_inserts_ge
      by (rewrite ?Hlen by (apply frame_row_length; cbn; lia); lia).
Qed.

End CopyLoops.

(** ** The scan in any arithmetic *)

Section ScanLaws.
Context {R : Type} `{Scalar R}.
Implicit Types (l : Loc.t R) (cur prevd v ts : R) (rs : run_static_t R).

(** [max_search] writes nothing that belongs to the minimum. *)
Lemma max_search_frame cur prevd v ts l :
  let l' := max_search cur prevd v ts l in
  Loc.prev_min_val l' = Loc.prev_min_val l
  /\ Loc.prev_min_ts l' = Loc.prev_min_ts l
  /\ Loc.avg_min_val l' = Loc.avg_min_val l
  /\ Loc.amp_est l' = Loc.amp_est l
  /\ Loc.count_min_det l' = Loc.count_min_det l.
Proof. unfold max_search. by case_all. Qed.

(** [min_search] writes nothing that belongs to the maximum. *)
Lemma min_search_frame cur prevd v ts l :
  let l' := min_search cur prevd v ts l in
  Loc.prev_max_val l' = Loc.prev_max_val l
  /\ Loc.prev_max_ts l' = Loc.prev_max_ts l
  /\ Loc.avg_max_val l' = Loc.avg_max_val l
  /\ Loc.count_max_det l' = Loc.count_max_det l.
Proof. unfold min_search. by case_all. Qed.

(** One sample adds at most one detection, of one kind. *)
Lemma detect_sample_counts cur prevd v ts l :
  let l' := detect_sample cur prevd v ts l in
  (Loc.count_max_det l' = Loc.count_max_det l
   /\ Loc.count_min_det l' = Loc.count_min_det l)
  \/ (Loc.count_max_det l' = u32_add (Loc.count_max_det l) 1
      /\ Loc.count_min_det l' = Loc.count_min_det l)
  \/ (Loc.count_max_det l' = Loc.count_max_det l
      /\ Loc.count_min_det l' = u32_add (Loc.count_min_det l) 1).
Proof. unfold detect_sample, max_search, min_search. case_all; cbn; auto. Qed.

Lemma detect_sample_bounded n cur prevd v ts l :
  (n < u32_modulus - 1)%Z -> counts_bounded n l ->
  counts_bounded (n + 1) (detect_sample cur prevd v ts l).
Proof.
  intros Hn (Hmax & Hmin & Hsum). unfold counts_bounded.
  destruct (detect_sample_counts cur prevd v ts l) as [[-> ->]|[[-> ->]|[-> ->]]];
    rewrite ?u32_add_nowrap by lia; lia.
Qed.

Lemma detect_body_snd i rs l :
  snd (detect_body i (rs, l)) =
  detect_sample (AccDer rs !!! i)
    (if (delta <=? i)%nat then AccDer rs !!! (i - delta)%nat else prevAccDer rs)
    (AccFilt rs !!! i) (TimeStamps rs !!! i) l.
Proof. unfold detect_body. by case_match. Qed.

(** The scan writes one static, [prevAccDer], and no array. *)
Lemma detect_body_arrays i rs l :
  let rs' := fst (detect_body i (rs, l)) in
  AccDer rs' = AccDer rs /\ AccFilt rs' = AccFilt rs
  /\ TimeStamps rs' = TimeStamps rs
  /\ prev_amp_est rs' = prev_amp_est rs /\ prev_freq_est rs' = prev_freq_est rs
  /\ amp_est_hold rs' = amp_est_hold rs /\ freq_est_hold rs' = freq_est_hold rs.
Proof. unfold detect_body. by case_match. Qed.

(** A property of the locals that every sample preserves holds after the
    scan of a frame. *)
Lemma detect_loop_inv (P : nat -> Loc.t R -> Prop) rs l :
  P 0%nat l ->
  (forall i cur prevd v ts l, (i < FRAME_LEN)%nat -> P i l ->
     P (S i) (detect_sample cur prevd v ts l)) ->
  P FRAME_LEN (snd (detect_loop (rs, l))).
Proof.
  intros H0 Hstep. unfold detect_loop.
  apply (for_loop_ind (fun i st => P i (snd st))); [done|].
  intros i [rs' l'] Hi HP. rewrite detect_body_snd. by apply Hstep.
Qed.

Lemma detect_loop_arrays rs l :
  let rs' := fst (detect_loop (rs, l)) in
  AccDer rs' = AccDer rs /\ AccFilt rs' = AccFilt rs
  /\ TimeStamps rs' = TimeStamps rs
  /\ prev_amp_est rs' = prev_amp_est rs /\ prev_freq_est rs' = prev_freq_est rs
  /\ amp_est_hold rs' = amp_est_hold rs /\ freq_est_hold rs' = freq_est_hold rs.
Proof.
  unfold detect_loop.
  apply (for_loop_inv (fun st =>
    AccDer (fst st) = AccDer rs /\ AccFilt (fst st) = AccFilt rs
    /\ TimeStamps (fst st) = TimeStamps rs
    /\ prev_amp_est (fst st) = prev_amp_est rs
    /\ prev_freq_est (fst st) = prev_freq_est rs
    /\ amp_est_hold (fst st) = amp_est_hold rs
    /\ freq_est_hold (fst st) = freq_est_hold rs)); [done|].
  intros i [rs' l'] _ (?&?&?&?&?&?&?).
  destruct (detect_body_arrays i rs' l') as (?&?&?&?&?&?&?).
  cbn [fst] in *. repeat split; congruence.
Qed.

Lemma detect_loop_bounded rs l :
  counts_bounded 0 l ->
  counts_bounded (Z.of_nat FRAME_LEN) (snd (detect_loop (rs, l))).
Proof.
  intros Hl. apply (detect_loop_inv (fun i => counts_bounded (Z.of_nat i))); [done|].
  intros i cur prevd v ts l' Hi Hb. rewrite Nat2Z.inj_succ.
  apply detect_sample_bounded; [|done]. rewrite FRAME_LEN_val in Hi. u32_lia.
Qed.

Lemma locals_init_bounded (out : algo_out_t R) : counts_bounded 0 (locals_init out).
Proof. unfold counts_bounded. cbn. lia. Qed.

(** *** The scan as a fold *)

(** What iteration [i] of the scan reads: the derivative, the derivative
    before it ([prevAccDer] at index 0), the sample and the timestamp. *)
Definition scan_sample rs (i : nat) : R * R * R * R :=
  (AccDer rs !!! i,
   if (delta <=? i)%nat then AccDer rs !!! (i - delta)%nat else prevAccDer rs,
   AccFilt rs !!! i, TimeStamps rs !!! i).

Definition scan_step l (x : R * R * R * R) : Loc.t R :=
  let '(cur, prevd, v, ts) := x in detect_sample cur prevd v ts l.

(** The reference scan: [detect_sample] folded over the frame. *)
Definition scan_fold rs l : Loc.t R :=
  fold_left scan_step (map (scan_sample rs) (seq 0 FRAME_LEN)) l.

Lemma detect_body_step i rs rs0 l :
  same_arrays rs rs0 -> (i = 0%nat -> prevAccDer rs = prevAccDer rs0) ->
  let st := detect_body i (rs, l) in
  same_arrays (fst st) rs0
  /\ snd st = scan_step l (scan_sample rs0 i).
Proof.
  intros (Hf & Ht & Hd) Hp. cbv zeta. rewrite detect_body_snd.
  destruct (detect_body_arrays i rs l) as (Hd' & Hf' & Ht' & _).
  split; [unfold same_arrays; by rewrite Hf', Ht', Hd'|].
  unfold scan_step, scan_sample. rewrite Hf, Ht, Hd.
  destruct i; [|done]. cbn. by rewrite Hp.
Qed.

Lemma detect_loop_take n rs l :
  let st := for_loop n detect_body (rs, l) in
  same_arrays (fst st) rs
  /\ prevAccDer (fst st)
     = (if (n <=? delta)%nat then prevAccDer rs
        else AccDer rs !!! (n - 1 - delta)%nat)
  /\ snd st = fold_left scan_step (map (scan_sample rs) (seq 0 n)) l.
Proof.
  induction n as [|n (Ha & Hp & Hl)]; [by rewrite for_loop_0|].
  cbv zeta in *. rewrite for_loop_S, seq_S, map_app, fold_left_app.
  destruct (for_loop n detect_body (rs, l)) as [rs' l']. cbn [fst snd] in *.
  assert (n = 0%nat -> prevAccDer rs' = prevAccDer rs) as Hp0
    by (intros ->; exact Hp).
  destruct (detect_body_step n rs' rs l' Ha Hp0) as [Ha' Hl'].
  split; [exact Ha'|]. split; [|rewrite Hl'; cbn; by rewrite Hl].
  unfold detect_body. destruct Ha as (_ & _ & Hd).
  destruct n as [|n]; [done|]. cbn. rewrite Hd. f_equal; lia.
Qed.

(** The locals after the scan are those of the fold. *)
Lemma detect_loop_snd rs l : snd (detect_loop (rs, l)) = scan_fold rs l.
Proof. apply detect_loop_take. Qed.

(** The scan loop is the fold. The loop of lines 291-344 leaves the
    locals that [detect_sample] gives when folded from left to right over
    the fifty-two quadruples of the frame; of the statics it changes only
    [prevAccDer], which ends as the derivative one before the last. Any
    arithmetic. *)
Theorem detect_loop_fold rs l :
  let st := detect_loop (rs, l) in
  snd st = scan_fold rs l
  /\ same_arrays (fst st) rs
  /\ prevAccDer (fst st) = AccDer rs !!! (FRAME_LEN - 1 - delta)%nat.
Proof.
  destruct (detect_loop_take FRAME_LEN rs l) as (Ha & Hp & Hl).
  split; [exact Hl|]. split; [exact Ha|exact Hp].
Qed.

Lemma detect_loop_same_arrays rs l : same_arrays (fst (detect_loop (rs, l))) rs.
Proof.
  pose proof (detect_loop_arrays rs l) as (Hd & Hf & Ht & _).
  exact (conj Hf (conj Ht Hd)).
Qed.

(** The tail loop only looks at the frame: statics with the same arrays
    leave it with the same arrays. *)
#[export] Instance tail_loop_proper buff TC :
  Proper (same_arrays ==> same_arrays) (tail_loop (R:=R) buff TC).
Proof.
  intros r1 r2 Hr. unfold tail_loop. apply for_loop_rel; [done|].
  intros i a b _ (Hf & Ht & Hd). unfold tail_body, same_arrays. cbn.
  by rewrite Hf, Ht, Hd.
Qed.

(** *** Samples that are no zero crossing *)

(** A derivative that fails both zero-crossing tests (lines 297 and 321)
    leaves the locals as they are, in either mode. *)
Lemma detect_sample_idle cur prevd v ts l :
  (cur <? - EPSILON)%sc = false -> (cur >? EPSILON)%sc = false ->
  detect_sample cur prevd v ts l = l.
Proof.
  intros Hfall Hrise. unfold detect_sample, max_search, min_search.
  rewrite Hfall, Hrise. by destruct (max_mode l).
Qed.

Lemma scan_fold_idle rs l :
  (forall i, (i < FRAME_LEN)%nat ->
     (AccDer rs !!! i <? - EPSILON)%sc = false
     /\ (AccDer rs !!! i >? EPSILON)%sc = false) ->
  scan_fold rs l = l.
Proof.
  intros Hz. unfold scan_fold.
  assert (Forall (fun i => (i < FRAME_LEN)%nat) (seq 0 FRAME_LEN)) as Hall
    by (apply Forall_forall; intros i Hi; apply elem_of_seq in Hi; lia).
  induction Hall as [|i js Hi _ IH]; [done|].
  cbn [map fold_left]. unfold scan_step at 2, scan_sample.
  destruct (Hz i Hi) as [Hfall Hrise].
  rewrite detect_sample_idle by assumption. exact IH.
Qed.

(** *** The loops end *)


(** *** The gates suffice *)

(** C23. The gates of a step suffice. In min-search mode a sample that
    passes the rising zero-crossing test, the dead-time test and the
    separation test of lines 321-331 is counted: [count_min_det] grows by
    one modulo 2^32, the sample becomes the last minimum, its swing is added
    to the amplitude sum, and the period added is measured from the last
    minimum or, when that is more than [MAX_TIME_PERIOD_SEC] old, is the
    clamp. The tests are the comparisons the program evaluates, so this
    holds in any arithmetic. *)
Theorem step_gates_suffice cur prevd v ts l :
  max_mode l = false ->
  (cur >? EPSILON)%sc = true -> (prevd <=? sc_lit 0)%sc = true ->
  (ts - Loc.prev_min_ts l >? NO_DETECT_DUR_SEC)%sc = true ->
  (Loc.prev_max_val l - v >? CLOSE_TO_ZERO)%sc = true ->
  let l' := detect_sample cur prevd v ts l in
  let since :=
    if (ts >? Loc.prev_min_ts l + MAX_TIME_PERIOD_SEC)%sc
    then (ts - MAX_TIME_PERIOD_SEC)%sc else Loc.prev_min_ts l in
  Loc.count_min_det l' = u32_add (Loc.count_min_det l) 1
  /\ Loc.count_max_det l' = Loc.count_max_det l
  /\ Loc.prev_min_val l' = v /\ Loc.prev_min_ts l' = ts
  /\ Loc.amp_est l' = (Loc.amp_est l + (Loc.prev_max_val l - v))%sc
  /\ Loc.avg_time_period l' = (Loc.avg_time_period l + (ts - since))%sc.
Proof.
  intros Hmode Hrise Hprev Hdead Hsep. cbv zeta.
  unfold detect_sample, min_search. rewrite Hmode, Hrise, Hprev, Hdead.
  cbn [andb]. destruct (ts >? Loc.prev_min_ts l + MAX_TIME_PERIOD_SEC)%sc;
    cbn [Loc.set_prev_min_ts Loc.prev_max_val Loc.prev_min_ts];
    by rewrite Hsep.
Qed.

End ScanLaws.

#[export] Hint Resolve locals_init_bounded detect_loop_bounded : core.

(** ** The scan in exact arithmetic *)

Section ScanExact.
Context {R : Type} `{ExactScalar R}.
Implicit Types (l : Loc.t R) (cur prevd v ts : R) (rs : run_static_t R).
Local Open Scope Q_scope.

(** What the accumulators of a frame satisfy: every detection contributes
    a period in (0.2, 1.5] seconds and every minimum a swing above 1.5. *)
Definition sums_ok (l : Loc.t R) : Prop :=
  let n := inject_Z (Loc.count_max_det l + Loc.count_min_det l) in
  let m := inject_Z (Loc.count_min_det l) in
  (2 # 10) * n <= toQ (Loc.avg_time_period l)
  /\ toQ (Loc.avg_time_period l) <= (15 # 10) * n
  /\ (0 < n -> (2 # 10) * n < toQ (Loc.avg_time_period l))
  /\ (15 # 10) * m <= toQ (Loc.amp_est l)
  /\ (0 < m -> (15 # 10) * m < toQ (Loc.amp_est l)).

Lemma locals_init_sums (out : algo_out_t R) : sums_ok (locals_init out).
Proof. unfold sums_ok. cbn. sc_push. q_norm. repeat split; lra. Qed.

(** Unfold one sample of the scan into its cases, each with the order
    facts its guards give. *)
Ltac scan_cases :=
  unfold detect_sample, max_search, min_search, max_mode,
    Loc.set_prev_max_ts, Loc.set_prev_min_ts,
    EPSILON, NO_DETECT_DUR_SEC, CLOSE_TO_ZERO, MAX_TIME_PERIOD_SEC;
  repeat case_match; cbn [Loc.prev_max_val Loc.prev_max_ts Loc.prev_min_val
    Loc.prev_min_ts Loc.avg_max_val Loc.avg_min_val Loc.avg_time_period
    Loc.amp_est Loc.count_max_det Loc.count_min_det] in *;
  repeat match goal with
  | H : _ && _ = true |- _ => apply andb_true_iff in H as [? ?]
  end;
  sc_reflect.

Ltac split_andb_false :=
  repeat match goal with
  | H : _ && _ = false |- _ => apply andb_false_iff in H as [H|H]
  end.

Lemma detect_sample_sums n cur prevd v ts l :
  (n < u32_modulus - 1)%Z -> counts_bounded n l -> sums_ok l ->
  sums_ok (detect_sample cur prevd v ts l).
Proof.
  intros Hn (Hmax & Hmin & Hsum) (HA & HB & HC & HD & HE). unfold sums_ok.
  scan_cases; rewrite ?u32_add_nowrap by lia; sc_push; q_norm;
    repeat split; lra.
Qed.

Lemma detect_loop_sums rs l :
  counts_bounded 0 l -> sums_ok l -> sums_ok (snd (detect_loop (rs, l))).
Proof.
  intros Hb Hs.
  apply (detect_loop_inv (fun i l => counts_bounded (Z.of_nat i) l /\ sums_ok l));
    [done|].
  intros i cur prevd v ts l' Hi [Hb' Hs'].
  assert (Z.of_nat i < u32_modulus - 1)%Z by (rewrite FRAME_LEN_val in Hi; u32_lia).
  split; [|by eapply detect_sample_sums].
  rewrite Nat2Z.inj_succ. by apply detect_sample_bounded.
Qed.

(** C4. The gates of a step. A sample that changes [count_min_det] was
    scanned in min-search mode, is a rising zero crossing of the derivative
    (above the dead band, from a non-positive value), lies more than 0.2 s
    after the last minimum, and is more than 1.5 below the last maximum; it
    becomes the last minimum and the count grows by one. Exact
    arithmetic. *)
Theorem min_commit_gates cur prevd v ts l :
  let l' := detect_sample cur prevd v ts l in
  Loc.count_min_det l' <> Loc.count_min_det l ->
  max_mode l = false
  /\ (1 # 1000000) < toQ cur /\ toQ prevd <= 0
  /\ (2 # 10) < toQ ts - toQ (Loc.prev_min_ts l)
  /\ (15 # 10) < toQ (Loc.prev_max_val l) - toQ v
  /\ Loc.count_min_det l' = u32_add (Loc.count_min_det l) 1
  /\ Loc.prev_min_val l' = v /\ Loc.prev_min_ts l' = ts.
Proof.
  cbv zeta. intros Hne. revert Hne.
  scan_cases; intros Hne; try (exfalso; apply Hne; reflexivity);
    sc_push; repeat split; lra.
Qed.

(** The gates of a maximum. A sample that changes [count_max_det]
    was scanned in max-search mode, is a falling zero crossing, lies more
    than 0.2 s after the last maximum, exceeds 1.5 in magnitude and is more
    than 1.5 above the last minimum; it becomes the last maximum. Exact
    arithmetic. *)
Theorem max_commit_gates cur prevd v ts l :
  let l' := detect_sample cur prevd v ts l in
  Loc.count_max_det l' <> Loc.count_max_det l ->
  max_mode l = true
  /\ toQ cur < - (1 # 1000000) /\ 0 <= toQ prevd
  /\ (2 # 10) < toQ ts - toQ (Loc.prev_max_ts l)
  /\ (15 # 10) < Qabs (toQ v)
  /\ (15 # 10) < toQ v - toQ (Loc.prev_min_val l)
  /\ Loc.count_max_det l' = u32_add (Loc.count_max_det l) 1
  /\ Loc.prev_max_val l' = v /\ Loc.prev_max_ts l' = ts.
Proof.
  cbv zeta. intros Hne. revert Hne.
  scan_cases; intros Hne; try (exfalso; apply Hne; reflexivity);
    sc_push; repeat split; lra.
Qed.

(** The clamp of lines 305-306 outlives a rejected candidate. In
    max-search mode, a falling zero crossing of magnitude above 1.5 that
    comes more than 1.5 s after both the last maximum and the last minimum,
    and that is refused because it is not more than 1.5 above the last
    minimum, still moves [prev_max_ts] to 1.5 s before the sample: nothing is
    counted, no extremum is stored, and the scan is in min-search mode
    afterwards. Exact arithmetic. *)
Theorem rejected_max_flips_mode cur prevd v ts l :
  let l' := detect_sample cur prevd v ts l in
  max_mode l = true ->
  toQ cur < - (1 # 1000000) -> 0 <= toQ prevd ->
  (15 # 10) < Qabs (toQ v) ->
  toQ (Loc.prev_max_ts l) + (15 # 10) < toQ ts ->
  toQ (Loc.prev_min_ts l) + (15 # 10) < toQ ts ->
  toQ v - toQ (Loc.prev_min_val l) <= (15 # 10) ->
  l' = Loc.set_prev_max_ts l (ts - MAX_TIME_PERIOD_SEC)%sc
  /\ max_mode l' = false.
Proof.
  cbv zeta. intros Hmode Hcur Hprev Hv Hmax Hmin Hrej.
  assert (detect_sample cur prevd v ts l
          = Loc.set_prev_max_ts l (ts - MAX_TIME_PERIOD_SEC)%sc) as ->.
  { revert Hmode. scan_cases; intros; try reflexivity; exfalso;
      split_andb_false; sc_reflect; sc_push; lra. }
  split; [reflexivity|]. unfold max_mode, Loc.set_prev_max_ts,
    MAX_TIME_PERIOD_SEC. cbn. apply sc_leb_gt. sc_push. lra.
Qed.

(** The same in min-search mode (lines 328-329): a rising zero
    crossing more than 1.5 s after both stored extrema, refused because it is
    not more than 1.5 below the last maximum, moves [prev_min_ts] to 1.5 s
    before the sample and puts the scan back in max-search mode without a
    step. Exact arithmetic. *)
Theorem rejected_min_flips_mode cur prevd v ts l :
  let l' := detect_sample cur prevd v ts l in
  max_mode l = false ->
  (1 # 1000000) < toQ cur -> toQ prevd <= 0 ->
  toQ (Loc.prev_min_ts l) + (15 # 10) < toQ ts ->
  toQ (Loc.prev_max_ts l) + (15 # 10) <= toQ ts ->
  toQ (Loc.prev_max_val l) - toQ v <= (15 # 10) ->
  l' = Loc.set_prev_min_ts l (ts - MAX_TIME_PERIOD_SEC)%sc
  /\ max_mode l' = true.
Proof.
  cbv zeta. intros Hmode Hcur Hprev Hmin Hmax Hrej.
  assert (detect_sample cur prevd v ts l
          = Loc.set_prev_min_ts l (ts - MAX_TIME_PERIOD_SEC)%sc) as ->.
  { revert Hmode. scan_cases; intros; try reflexivity; exfalso;
      split_andb_false; sc_reflect; sc_push; lra. }
  split; [reflexivity|]. unfold max_mode, Loc.set_prev_min_ts,
    MAX_TIME_PERIOD_SEC. cbn. apply sc_leb_le. sc_push. lra.
Qed.

(** *** A flat derivative *)

(** A derivative inside the dead band is not a zero crossing. *)
Lemma quiet_sample_idle cur :
  toQ cur == 0 ->
  (cur <? - EPSILON)%sc = false /\ (cur >? EPSILON)%sc = false.
Proof. intros Hcur. unfold EPSILON. split; sc_reflect; sc_push; lra. Qed.

Lemma detect_sample_quiet cur prevd v ts l :
  toQ cur == 0 -> detect_sample cur prevd v ts l = l.
Proof. intros [? ?]%quiet_sample_idle. by apply detect_sample_idle. Qed.

Lemma scan_fold_quiet rs l :
  (forall i, (i < FRAME_LEN)%nat -> toQ (AccDer rs !!! i) == 0) ->
  scan_fold rs l = l.
Proof. intros Hz. apply scan_fold_idle. intros i Hi. by apply quiet_sample_idle, Hz. Qed.

End ScanExact.

(** ** A minimum and a maximum that pass the gates *)

Definition after_max : Loc.t Qcanon.Qc :=
  Loc.mk (sc_lit 10) (sc_lit 1) (sc_lit 0) (sc_lit 0) (sc_lit 0) (sc_lit 0)
    (sc_lit 0) (sc_lit 0) 1 0.

Lemma min_commit_gates_witness :
  Loc.count_min_det
    (detect_sample (sc_lit 1) (sc_opp (sc_lit 1)) (sc_lit 2) (sc_lit 2) after_max) = 1%Z
  /\ Loc.prev_min_ts
    (detect_sample (sc_lit 1) (sc_opp (sc_lit 1)) (sc_lit 2) (sc_lit 2) after_max)
     = sc_lit 2.
Proof.
  split; [by vm_compute|].
  apply (min_commit_gates (sc_lit 1) (sc_opp (sc_lit 1)) (sc_lit 2) (sc_lit 2)
           after_max).
  by vm_compute.
Defined.


Lemma step_gates_suffice_witness :
  Loc.count_min_det
    (detect_sample (sc_lit 1) (sc_opp (sc_lit 1)) (sc_lit 2) (sc_lit 2) after_max)
  = u32_add (Loc.count_min_det after_max) 1.
Proof.
  apply (step_gates_suffice (sc_lit 1) (sc_opp (sc_lit 1)) (sc_lit 2) (sc_lit 2)
           after_max); by vm_compute.
Defined.

Lemma max_commit_gates_witness :
  Loc.prev_max_val
    (detect_sample (sc_opp (sc_lit 1)) (sc_lit 1) (sc_lit 12) (sc_lit 3)
       (locals_init algo_out_zero)) = sc_lit 12.
Proof.
  apply (max_commit_gates (sc_opp (sc_lit 1)) (sc_lit 1) (sc_lit 12) (sc_lit 3)
           (locals_init algo_out_zero)).
  by vm_compute.
Defined.

(** ** A pause, then a small swing

    [after_pause] is the scan after a step whose maximum (15, at 0 s) and
    minimum (5, at 1 s) were stored: it looks for a maximum. Nine seconds
    later the signal has a peak of 6 and, 0.3 s after it, a trough of 5.5. *)

Definition after_pause : Loc.t Qcanon.Qc :=
  Loc.mk (sc_lit 15) (sc_lit 0) (sc_lit 5) (sc_lit 1) (sc_lit 0) (sc_lit 0)
    (sc_lit 0) (sc_lit 0) 1 1.

Definition small_peak (l : Loc.t Qcanon.Qc) : Loc.t Qcanon.Qc :=
  detect_sample (sc_opp (sc_lit 1)) (sc_lit 1) (sc_lit 6) (sc_lit 10) l.


Lemma rejected_max_flips_mode_witness :
  max_mode (small_peak after_pause) = false.
Proof.
  apply (rejected_max_flips_mode (sc_opp (sc_lit 1)) (sc_lit 1) (sc_lit 6)
           (sc_lit 10) after_pause); by vm_compute.
Defined.

Lemma rejected_min_flips_mode_witness :
  max_mode (detect_sample (sc_lit 1) (sc_opp (sc_lit 1)) (sc_lit 9) (sc_lit 5)
              after_max) = true.
Proof.
  apply (rejected_min_flips_mode (sc_lit 1) (sc_opp (sc_lit 1)) (sc_lit 9)
           (sc_lit 5) after_max); by vm_compute.
Defined.


(** ** A frame to copy: samples 0..51, timestamps 100..151 *)

Definition ramp (from : nat) : list Qcanon.Qc :=
  map (fun n => sc_of_Z (Z.of_nat n)) (seq from 52).

Definition ramp_frame : list (list Qcanon.Qc) :=
  [replicate 52 (sc_lit 0); ramp 0; replicate 52 (sc_lit 0); ramp 100].

Lemma ramp_frame_wf : arr2_wf (axis_index NUM_DIM + 1) FRAME_LEN ramp_frame.
Proof. split; [reflexivity|]. by repeat constructor. Qed.

Lemma scan_window_witness :
  AccFilt (snd (derive_loop ramp_frame 8 (filter_zero, run_static_init))) !!! 10
  = arr2_get ramp_frame ROW_ACC 2.
Proof.
  assert (0 <= 8 <= MAX_TC_SAMPLES)%Z as HTC by (cfg; lia).
  assert (10 < FRAME_LEN) as Hi by (rewrite FRAME_LEN_val; lia).
  exact (proj1 (proj2 (scan_window ramp_frame 8 HTC ramp_frame_wf filter_zero
                         run_static_init 10 run_static_init_wf Hi))).
Defined.

Lemma tail_loop_saves_witness :
  TimeStamps (tail_loop ramp_frame 8 run_static_init) !!! 3
  = arr2_get ramp_frame ROW_TS 47.
Proof.
  assert (0 <= 8 <= MAX_TC_SAMPLES)%Z as HTC by (cfg; lia).
  assert (3 < EXT_LEN) as Hi by (rewrite EXT_LEN_val; lia).
  exact (proj2 (tail_loop_saves ramp_frame 8 HTC ramp_frame_wf
                  run_static_init 3 run_static_init_wf Hi)).
Defined.
