(* ===== verification/Classify.v ===== *)
(** * Classify: estimates, classification and the whole [step_algo_run]

    After the scan, [step_algo_run] reduces the frame's detections to an
    amplitude and a frequency estimate, each with a hold counter that keeps
    the previous estimate for [BUFF_FACTOR] frames without detections and
    then forces it to zero ([amp_estimate], lines 346-357; [freq_estimate],
    lines 359-373). It saves the tail of the frame and the estimates
    (lines 375-383), writes the output structure (lines 386-390) and walks
    the decision tree that sets the motion type and adds the frame's steps
    to one per-class counter ([classify_and_count], lines 391-424).

    [classify] is the decision tree as a function of the two estimates and
    [add_steps] the counter update as a function of the class; the tree of
    the code is proved equal to their composition.

    The theorems: what the call writes and what it leaves alone; the arrays
    across a call; the estimates on every branch; the table of the decision
    tree; frames without detection age the estimates, and the one after
    [BUFF_FACTOR] of them is [STATIC]; in exact arithmetic, a frame with a
    step is never STATIC and a frame of a sensor at rest changes nothing
    but the hold counters. *)

From Stdlib Require Import QArith ZArith Lia Lqa List.
From stdpp Require Import base tactics list.
From S2P Require Import Prelude.
From S2P Require Import Scalar.
From S2P Require Import Types.
From S2P Require Import Filter.
From S2P Require Import State.
From S2P Require Import Preproc.
From S2P Require Import Detector.

(** ** Operations *)

Section Classify.
Context {R : Type} `{Scalar R}.
Local Open Scope sc_scope.

(** The macros of lines 239-242. *)
Definition SMALL_AMP : R := sc_dlit 5.

Definition LARGE_AMP : R := sc_dlit 15.

Definition SLOW_FREQ : R := sc_dlit (5 # 10).

Definition FAST_FREQ : R := sc_dlit (22 # 10).

(** Lines 346-357: the amplitude estimate and [amp_est_hold]. *)
Definition amp_estimate (l : Loc.t R) (rs : run_static_t R)
    : R * run_static_t R :=
  let '(amp_est, rs) :=
    if (0 <? Loc.count_min_det l)%Z
    then (Loc.amp_est l / sc_of_Z (Loc.count_min_det l), set_amp_est_hold rs 0)
    else (prev_amp_est rs, set_amp_est_hold rs (u32_add (amp_est_hold rs) 1)) in
  if (BUFF_FACTOR <? amp_est_hold rs)%Z
  then (sc_lit 0, set_amp_est_hold rs 0)
  else (amp_est, rs).

(** Lines 359-361: the mean period of the frame's detections. *)
Definition mean_period (l : Loc.t R) : R :=
  let n := u32_add (Loc.count_max_det l) (Loc.count_min_det l) in
  if (0 <? n)%Z then Loc.avg_time_period l / sc_of_Z n
  else Loc.avg_time_period l.

(** Lines 362-373: the frequency estimate and [freq_est_hold]. *)
Definition freq_estimate (l : Loc.t R) (rs : run_static_t R)
    : R * run_static_t R :=
  let avg_time_period := mean_period l in
  let '(freq_est, rs) :=
    if avg_time_period >? EPSILON
    then (sc_of_Z 1 / avg_time_period, set_freq_est_hold rs 0)
    else (prev_freq_est rs, set_freq_est_hold rs (u32_add (freq_est_hold rs) 1)) in
  if (BUFF_FACTOR <? freq_est_hold rs)%Z
  then (sc_lit 0, set_freq_est_hold rs 0)
  else (freq_est, rs).

(** Lines 381-383: what the next frame needs. *)
Definition save_static (amp_est freq_est : R) (rs : run_static_t R)
    : run_static_t R :=
  let rs := set_prevAccDer rs (AccDer rs !!! idx (SAMP_BUFF_LEN - 1)) in
  let rs := set_prev_amp_est rs amp_est in
  set_prev_freq_est rs freq_est.

(** Lines 386-390: the extrema and the step count go to the output. *)
Definition update_output (l : Loc.t R) (out : algo_out_t R) : algo_out_t R :=
  {| prev_max := Loc.prev_max_val l;
     Types.prev_max_ts := Loc.prev_max_ts l;
     prev_min := Loc.prev_min_val l;
     Types.prev_min_ts := Loc.prev_min_ts l;
     step_count := u32_add (step_count out) (Loc.count_min_det l);
     step_type := step_type out |}.

Definition set_step_type (out : algo_out_t R) (m : motion_type_t) : algo_out_t R :=
  {| prev_max := prev_max out;
     Types.prev_max_ts := Types.prev_max_ts out;
     prev_min := prev_min out;
     Types.prev_min_ts := Types.prev_min_ts out;
     step_count := step_count out;
     step_type := m |}.

(** Lines 391-424: the decision tree, with its counter updates. *)
Definition classify_and_count (amp_est freq_est : R) (count_min_det : Z)
    (s : state R) (out : algo_out_t R) : state R * algo_out_t R :=
  if amp_est <=? SMALL_AMP then
    if freq_est <=? SLOW_FREQ then
      (s, set_step_type out STATIC)
    else
      (set_num_steps_walk s (u32_add (num_steps_walk s) count_min_det),
       set_step_type out WALK)
  else if amp_est >=? LARGE_AMP then
    if freq_est >=? FAST_FREQ then
      (set_num_steps_run s (u32_add (num_steps_run s) count_min_det),
       set_step_type out RUN)
    else
      (set_num_steps_hop s (u32_add (num_steps_hop s) count_min_det),
       set_step_type out HOP)
  else
    if freq_est >=? FAST_FREQ then
      (set_num_steps_run s (u32_add (num_steps_run s) count_min_det),
       set_step_type out RUN)
    else
      (set_num_steps_walk s (u32_add (num_steps_walk s) count_min_det),
       set_step_type out WALK).

(** The whole function (lines 233-426). [out] is the structure the pointer
    argument designates, read at entry and returned updated. *)
Definition step_algo_run (s : state R) (out : algo_out_t R)
    : state R * algo_out_t R :=
  let l := locals_init out in
  let TC := TC_samples (ll_filter_y s) in
  let '(ll, rs) := derive_loop (AccBuff s) TC (ll_filter_y s, run_static s) in
  let '(rs, l) := detect_loop (rs, l) in
  let '(amp_est, rs) := amp_estimate l rs in
  let '(freq_est, rs) := freq_estimate l rs in
  let rs := tail_loop (AccBuff s) TC rs in
  let rs := save_static amp_est freq_est rs in
  let out := update_output l out in
  let s := set_run_static (set_ll_filter_y s ll) rs in
  classify_and_count amp_est freq_est (Loc.count_min_det l) s out.

(** ** Reference definitions *)

(** The class as a function of the estimates (the table of the
    specification). *)
Definition classify (amp_est freq_est : R) : motion_type_t :=
  if amp_est <=? SMALL_AMP then
    if freq_est <=? SLOW_FREQ then STATIC else WALK
  else if freq_est >=? FAST_FREQ then RUN
  else if amp_est >=? LARGE_AMP then HOP
  else WALK.

(** The per-class counter that receives the steps of a frame. *)
Definition add_steps (m : motion_type_t) (n : Z) (s : state R) : state R :=
  match m with
  | WALK => set_num_steps_walk s (u32_add (num_steps_walk s) n)
  | RUN => set_num_steps_run s (u32_add (num_steps_run s) n)
  | HOP => set_num_steps_hop s (u32_add (num_steps_hop s) n)
  | STATIC | NUM_TYPES => s
  end.

End Classify.

(** ** Laws that hold in any arithmetic *)

Section ClassifyLaws.
Context {R : Type} `{Scalar R}.
Implicit Types (s : state R) (out : algo_out_t R) (l : Loc.t R)
  (rs : run_static_t R).

(** The tree of the code is the class function followed by the counter
    update. *)
Lemma classify_and_count_eq (amp freq : R) n s out :
  classify_and_count amp freq n s out =
  (add_steps (classify amp freq) n s, set_step_type out (classify amp freq)).
Proof. unfold classify_and_count, classify. by case_all. Qed.

Lemma classify_is_class (amp freq : R) : is_motion_class (classify amp freq) = true.
Proof. unfold classify. by case_all. Qed.

(** The locals after the scan of the frame in [s]. *)
Definition run_scan s out : run_static_t R * Loc.t R :=
  detect_loop
    (snd (derive_loop (AccBuff s) (TC_samples (ll_filter_y s))
            (ll_filter_y s, run_static s)),
     locals_init out).

(** The two estimates of the frame in [s]. *)
Definition run_estimates s out : R * R :=
  let '(rs, l) := run_scan s out in
  let '(amp_est, rs) := amp_estimate l rs in
  (amp_est, fst (freq_estimate l rs)).

(** The class [step_algo_run] reports for the frame in [s]. *)
Definition run_class s out : motion_type_t :=
  classify (fst (run_estimates s out)) (snd (run_estimates s out)).

(** The output structure after the call. *)
Lemma step_algo_run_out s out :
  snd (step_algo_run s out) =
  set_step_type (update_output (snd (run_scan s out)) out) (run_class s out).
Proof.
  unfold step_algo_run, run_class, run_estimates, run_scan.
  destruct (derive_loop _ _ _) as [ll rs0]. cbn [snd].
  destruct (detect_loop _) as [rs1 l]. cbn [snd].
  destruct (amp_estimate l rs1) as [amp rs2].
  destruct (freq_estimate l rs2) as [freq rs3].
  by rewrite classify_and_count_eq.
Qed.

(** The per-class counters after the call. *)
Lemma step_algo_run_counters s out :
  let s' := fst (step_algo_run s out) in
  let t := add_steps (run_class s out)
             (Loc.count_min_det (snd (run_scan s out))) s in
  num_steps_walk s' = num_steps_walk t /\ num_steps_run s' = num_steps_run t
  /\ num_steps_hop s' = num_steps_hop t.
Proof.
  unfold step_algo_run, run_class, run_estimates, run_scan.
  destruct (derive_loop _ _ _) as [ll rs0]. cbn [snd].
  destruct (detect_loop _) as [rs1 l]. cbn [snd].
  destruct (amp_estimate l rs1) as [amp rs2].
  destruct (freq_estimate l rs2) as [freq rs3].
  rewrite classify_and_count_eq. cbn [fst snd]. destruct (classify amp freq); by cbn.
Qed.

Lemma run_scan_bounded s out :
  counts_bounded (Z.of_nat FRAME_LEN) (snd (run_scan s out)).
Proof. unfold run_scan. auto. Qed.

(** The total and the per-class counters agree modulo 2^32. *)
Definition counts_agree s out : Prop :=
  wrap32 (step_count out) =
  wrap32 (num_steps_walk s + num_steps_run s + num_steps_hop s).

(** The steps of a frame reach exactly one per-class counter, unless the
    frame is stationary; then they must be none. *)
Lemma add_steps_total m n s :
  is_motion_class m = true -> (m = STATIC -> n = 0%Z) ->
  let t := add_steps m n s in
  wrap32 (num_steps_walk t + num_steps_run t + num_steps_hop t) =
  wrap32 (num_steps_walk s + num_steps_run s + num_steps_hop s + n).
Proof.
  intros Hm Hs. destruct m; try done; cbn; [rewrite Hs by done|..]; u32_solve.
Qed.

Lemma step_algo_run_step_count s out :
  step_count (snd (step_algo_run s out)) =
  u32_add (step_count out) (Loc.count_min_det (snd (run_scan s out))).
Proof. by rewrite step_algo_run_out. Qed.

Lemma step_algo_run_step_type s out :
  step_type (snd (step_algo_run s out)) = run_class s out.
Proof. by rewrite step_algo_run_out. Qed.

(** The scan of a frame whose derivative never passes a zero-crossing
    test finds nothing: the locals end as they began. *)
Lemma run_scan_idle s out :
  run_ready s ->
  Forall (fun d => (d <? - EPSILON)%sc = false /\ (d >? EPSILON)%sc = false)
    (fst (filter_run (ll_filter_y s) (AccBuff s !!! ROW_ACC))) ->
  snd (run_scan s out) = locals_init out.
Proof.
  intros [[Hb (_ & _ & Hd)] Htc] Hidle. unfold run_scan.
  rewrite detect_loop_snd. apply scan_fold_idle. intros i Hi.
  rewrite derive_loop_AccDer by assumption.
  rewrite Forall_lookup_total in Hidle. apply Hidle.
  by rewrite filter_run_length, (frame_row_length _ Hb) by (cbn; lia).
Qed.

(** Such a frame leaves the step count as it was. *)
Lemma step_algo_run_idle s out :
  snd (run_scan s out) = locals_init out ->
  step_count (snd (step_algo_run s out)) = wrap32 (step_count out).
Proof.
  intros Hl. rewrite step_algo_run_step_count, Hl. cbn. unfold u32_add.
  by rewrite Z.add_0_r.
Qed.

(** The call writes the lead-lag filter, the statics, the counters and
    the output: not the buffer, the low-pass filter or [count]. *)
Lemma step_algo_run_frame s out :
  let s' := fst (step_algo_run s out) in
  AccBuff s' = AccBuff s /\ lp_filter_y s' = lp_filter_y s
  /\ count s' = count s /\ step_algo_output s' = step_algo_output s.
Proof.
  unfold step_algo_run.
  destruct (derive_loop _ _ _) as [ll rs0].
  destruct (detect_loop _) as [rs1 l].
  destruct (amp_estimate l rs1) as [amp rs2].
  destruct (freq_estimate l rs2) as [freq rs3].
  rewrite classify_and_count_eq. cbn [fst]. destruct (classify amp freq); by cbn.
Qed.

(** *** The arrays across a call *)

Lemma amp_estimate_same_arrays l rs : same_arrays (snd (amp_estimate l rs)) rs.
Proof. unfold amp_estimate. by case_all. Qed.

Lemma freq_estimate_same_arrays l rs : same_arrays (snd (freq_estimate l rs)) rs.
Proof. unfold freq_estimate. by case_all. Qed.

Lemma save_static_same_arrays (amp freq : R) rs :
  same_arrays (save_static amp freq rs) rs.
Proof. done. Qed.

Lemma add_steps_frame m n s :
  run_static (add_steps m n s) = run_static s
  /\ ll_filter_y (add_steps m n s) = ll_filter_y s
  /\ AccBuff (add_steps m n s) = AccBuff s.
Proof. by destruct m. Qed.

(** The frame after the derive loop, which every later part of the call
    starts from. *)
Definition run_derived s : filter_t R * run_static_t R :=
  derive_loop (AccBuff s) (TC_samples (ll_filter_y s))
    (ll_filter_y s, run_static s).

(** The arrays after the call are those of the derive loop followed by the
    tail loop; the lead-lag filter is the one the derive loop leaves. *)
Lemma step_algo_run_arrays s out :
  let s' := fst (step_algo_run s out) in
  same_arrays (run_static s')
    (tail_loop (AccBuff s) (TC_samples (ll_filter_y s)) (snd (run_derived s)))
  /\ ll_filter_y s' = fst (run_derived s).
Proof.
  unfold step_algo_run, run_derived.
  destruct (derive_loop _ _ _) as [ll rs0].
  destruct (detect_loop _) as [rs1 l] eqn:Hscan.
  destruct (amp_estimate l rs1) as [amp rs2] eqn:Hamp.
  destruct (freq_estimate l rs2) as [freq rs3] eqn:Hfreq.
  rewrite classify_and_count_eq. cbn [fst snd].
  destruct (add_steps_frame (classify amp freq) (Loc.count_min_det l)
    (set_run_static (set_ll_filter_y s ll)
       (save_static amp freq (tail_loop (AccBuff s) (TC_samples (ll_filter_y s)) rs3))))
    as (-> & -> & _).
  split; [|done]. cbn. rewrite save_static_same_arrays.
  apply tail_loop_proper.
  pose proof (freq_estimate_same_arrays l rs2) as H3. rewrite Hfreq in H3.
  pose proof (amp_estimate_same_arrays l rs1) as H2. rewrite Hamp in H2.
  pose proof (detect_loop_same_arrays rs0 (locals_init out)) as H1.
  rewrite Hscan in H1. etrans; [exact H3|]. etrans; [exact H2|exact H1].
Qed.

(** The estimates of the frame are what the call saves for the next. *)
Lemma step_algo_run_saved s out :
  let rs' := run_static (fst (step_algo_run s out)) in
  prev_amp_est rs' = fst (run_estimates s out)
  /\ prev_freq_est rs' = snd (run_estimates s out).
Proof.
  unfold step_algo_run, run_estimates, run_scan.
  destruct (derive_loop _ _ _) as [ll rs0]. cbn [snd].
  destruct (detect_loop _) as [rs1 l].
  destruct (amp_estimate l rs1) as [amp rs2].
  destruct (freq_estimate l rs2) as [freq rs3].
  rewrite classify_and_count_eq. cbn [fst snd].
  by destruct (add_steps_frame (classify amp freq) (Loc.count_min_det l)
    (set_run_static (set_ll_filter_y s ll)
       (save_static amp freq (tail_loop (AccBuff s) (TC_samples (ll_filter_y s)) rs3))))
    as (-> & _).
Qed.

Lemma amp_estimate_scalars l rs :
  prev_freq_est (snd (amp_estimate l rs)) = prev_freq_est rs
  /\ freq_est_hold (snd (amp_estimate l rs)) = freq_est_hold rs.
Proof. unfold amp_estimate. by case_all. Qed.

(** The statics the estimates read are those the call started with. *)
Lemma run_scan_scalars s out :
  run_ready s ->
  let rs := fst (run_scan s out) in
  prev_amp_est rs = prev_amp_est (run_static s)
  /\ prev_freq_est rs = prev_freq_est (run_static s)
  /\ amp_est_hold rs = amp_est_hold (run_static s)
  /\ freq_est_hold rs = freq_est_hold (run_static s).
Proof.
  intros [[Hb Hr] Htc]. unfold run_scan.
  destruct (detect_loop_arrays
    (snd (derive_loop (AccBuff s) (TC_samples (ll_filter_y s))
            (ll_filter_y s, run_static s))) (locals_init out))
    as (_ & _ & _ & -> & -> & -> & ->).
  destruct (derive_loop_scalars (AccBuff s) _ Htc Hb (ll_filter_y s) (run_static s))
    as (-> & -> & -> & -> & _).
  done.
Qed.

(** The call keeps what it relies on: the arrays keep their
    lengths and the group delay of the lead-lag filter is unchanged, so a
    state ready for [step_algo_run] is ready again after it. *)
Theorem step_algo_run_ready s out :
  run_ready s -> run_ready (fst (step_algo_run s out)).
Proof.
  intros [[Hb Hr] Htc].
  pose proof (step_algo_run_arrays s out) as [Harr Hll].
  pose proof (step_algo_run_frame s out) as (Hbuf & _).
  cbv zeta in *. unfold run_ready, state_wf, tc_ok.
  rewrite Hbuf, Harr, Hll. unfold run_derived.
  rewrite derive_loop_filter by assumption.
  rewrite (proj2 (proj2 (proj2 (proj2 (proj2 (filter_run_coeffs _ _)))))).
  split; [split|]; [exact Hb| |exact Htc].
  apply tail_loop_wf; [exact Htc|exact Hb|].
  apply derive_loop_wf; assumption.
Qed.

(** C30. Frames are stitched. After a call on a ready state, the first
    [TC_samples] cells of [AccFilt] and [TimeStamps] hold the last
    [TC_samples] smoothed samples and timestamps of the frame just
    processed, the lead-lag filter has run over the whole frame in order,
    and [prevAccDer] is the last derivative of the frame. *)
Theorem step_algo_run_stitch s out i :
  run_ready s -> i < idx (TC_samples (ll_filter_y s)) ->
  let s' := fst (step_algo_run s out) in
  let TC := idx (TC_samples (ll_filter_y s)) in
  AccFilt (run_static s') !!! i
  = arr2_get (AccBuff s) ROW_ACC (FRAME_LEN - TC + i)
  /\ TimeStamps (run_static s') !!! i
     = arr2_get (AccBuff s) ROW_TS (FRAME_LEN - TC + i)
  /\ ll_filter_y s'
     = snd (filter_run (ll_filter_y s) (AccBuff s !!! ROW_ACC)).
Proof.
  intros [[Hb Hr] Htc] Hi. unfold tc_ok in Htc.
  pose proof (step_algo_run_arrays s out) as [Harr Hll]. cbv zeta in *.
  rewrite Harr, Hll. unfold run_derived.
  rewrite derive_loop_filter by done.
  assert (i < EXT_LEN) as Hi'
    by (revert Hi Htc; unfold idx; rewrite EXT_LEN_val; cfg; lia).
  pose proof (tail_loop_saves (AccBuff s) _ Htc Hb _ i
                (derive_loop_wf (AccBuff s) _ Htc Hb (ll_filter_y s) _ Hr) Hi')
    as [Hf Ht].
  cbv zeta in Hf, Ht. rewrite decide_True in Hf, Ht by done.
  exact (conj Hf (conj Ht eq_refl)).
Qed.

End ClassifyLaws.

#[export] Hint Resolve run_scan_bounded classify_is_class : core.

(** ** The estimates in exact arithmetic *)

Section ClassifyExact.
Context {R : Type} `{ExactScalar R}.
Implicit Types (s : state R) (out : algo_out_t R) (l : Loc.t R)
  (rs : run_static_t R).
Local Open Scope Q_scope.

Lemma run_scan_sums s out : sums_ok (snd (run_scan s out)).
Proof. unfold run_scan. apply detect_loop_sums; [done|apply locals_init_sums]. Qed.

(** The mean period of a frame with a detection lies in (0.2, 1.5]. *)
Lemma mean_period_bounds n l :
  (n < u32_modulus)%Z -> counts_bounded n l -> sums_ok l ->
  (0 < Loc.count_max_det l + Loc.count_min_det l)%Z ->
  (2 # 10) < toQ (mean_period l) /\ toQ (mean_period l) <= (15 # 10).
Proof.
  intros Hn (Hmax & Hmin & Hsum) (HA & HB & HC & _) Hpos. unfold mean_period.
  rewrite u32_add_nowrap by lia.
  destruct (Z.ltb_spec 0 (Loc.count_max_det l + Loc.count_min_det l)); [|lia].
  assert (0 < inject_Z (Loc.count_max_det l + Loc.count_min_det l)) as Hk
    by (by apply inject_Z_pos).
  sc_push. split; [apply Qlt_shift_div_l|apply Qle_shift_div_r]; auto.
Qed.

(** With a detection in the frame the frequency estimate is fresh: the
    reciprocal of the mean period, between 2/3 Hz and 5 Hz. *)
Lemma freq_estimate_fresh n l rs :
  (n < u32_modulus)%Z -> counts_bounded n l -> sums_ok l ->
  (0 < Loc.count_max_det l + Loc.count_min_det l)%Z ->
  freq_estimate l rs = ((sc_of_Z 1 / mean_period l)%sc, set_freq_est_hold rs 0)
  /\ (2 # 3) <= toQ (fst (freq_estimate l rs)) < 5.
Proof.
  intros Hn Hb Hs Hpos.
  destruct (mean_period_bounds n l Hn Hb Hs Hpos) as [Hlo Hhi].
  assert (freq_estimate l rs =
    ((sc_of_Z 1 / mean_period l)%sc, set_freq_est_hold rs 0)) as ->.
  { unfold freq_estimate.
    replace (mean_period l >? EPSILON)%sc with true; [done|].
    symmetry. unfold EPSILON. sc_lra. }
  split; [done|]. cbn [fst]. sc_push. change (inject_Z 1) with 1. split.
  - apply Qle_shift_div_l; lra.
  - apply Qlt_shift_div_r; lra.
Qed.

(** With a minimum in the frame the amplitude estimate is fresh: the mean
    swing, above 1.5. *)
Lemma amp_estimate_fresh n l rs :
  (n < u32_modulus)%Z -> counts_bounded n l -> sums_ok l ->
  (0 < Loc.count_min_det l)%Z ->
  amp_estimate l rs =
    ((Loc.amp_est l / sc_of_Z (Loc.count_min_det l))%sc, set_amp_est_hold rs 0)
  /\ (15 # 10) < toQ (fst (amp_estimate l rs)).
Proof.
  intros Hn (Hmax & Hmin & Hsum) (_ & _ & _ & _ & HE) Hpos.
  assert (amp_estimate l rs =
    ((Loc.amp_est l / sc_of_Z (Loc.count_min_det l))%sc, set_amp_est_hold rs 0)) as ->.
  { unfold amp_estimate. by destruct (Z.ltb_spec 0 (Loc.count_min_det l)); [|lia]. }
  split; [done|]. cbn [fst]. sc_push.
  assert (0 < inject_Z (Loc.count_min_det l)) as Hk by (by apply inject_Z_pos).
  apply Qlt_shift_div_l; auto.
Qed.

(** A frequency above [SLOW_FREQ] is never classified as stationary. *)
Lemma classify_moving (amp freq : R) :
  (5 # 10) < toQ freq -> classify amp freq <> STATIC.
Proof.
  intros Hf. unfold classify, SLOW_FREQ. case_all; try done. sc_lra.
Qed.

(** A frame in which a minimum was confirmed is not stationary. *)
Lemma run_class_moving s out :
  (0 < Loc.count_min_det (snd (run_scan s out)))%Z -> run_class s out <> STATIC.
Proof.
  intros Hpos. apply classify_moving. unfold run_estimates.
  pose proof (run_scan_bounded s out) as Hb.
  pose proof (run_scan_sums s out) as Hs.
  destruct (run_scan s out) as [rs l]. cbn [snd] in *.
  destruct (amp_estimate l rs) as [amp rs']. cbn [snd].
  destruct (freq_estimate_fresh (Z.of_nat FRAME_LEN) l rs') as [_ [Hlo _]];
    [rewrite FRAME_LEN_val; u32_lia|done|done|destruct Hb; lia|lra].
Qed.

(** The call keeps the total and the per-class counters in agreement. *)
Lemma step_algo_run_agree s out :
  counts_agree s out ->
  counts_agree (fst (step_algo_run s out)) (snd (step_algo_run s out)).
Proof.
  unfold counts_agree. intros Hagree.
  destruct (step_algo_run_counters s out) as (-> & -> & ->).
  rewrite step_algo_run_step_count, add_steps_total.
  - unfold u32_add. rewrite wrap32_idemp. by apply wrap32_add_congr.
  - apply classify_is_class.
  - intros Hst. destruct (run_scan_bounded s out) as (_ & Hmin & _).
    destruct (Z.eq_dec (Loc.count_min_det (snd (run_scan s out))) 0%Z); [done|].
    exfalso. apply (run_class_moving s out); [lia|done].
Qed.

(** C3. A call to [step_algo_run] that changes the step count never
    reports the motion type STATIC: the frame's steps always reach one of
    the per-class counters. Exact arithmetic. *)
Theorem step_counted_not_static s out :
  is_u32 (step_count out) ->
  step_count (snd (step_algo_run s out)) <> step_count out ->
  step_type (snd (step_algo_run s out)) <> STATIC.
Proof.
  intros Hu Hne. rewrite step_algo_run_step_type.
  rewrite step_algo_run_step_count in Hne.
  destruct (run_scan_bounded s out) as (_ & Hmin & _).
  apply run_class_moving.
  destruct (Z.eq_dec (Loc.count_min_det (snd (run_scan s out))) 0%Z) as [Hz|]; [|lia].
  rewrite Hz, u32_add_0_r in Hne by exact Hu. exfalso. apply Hne. reflexivity.
Qed.

(** *** The decision table *)

(** C32. The motion type the decision tree of lines 391-424 writes, as
    regions of the (amplitude, frequency) plane: STATIC for a small
    amplitude at a slow rate; RUN above the small amplitude at a fast rate;
    HOP for a large amplitude below the fast rate; WALK otherwise. Exact
    arithmetic. *)
Theorem classify_and_count_table (amp freq : R) n s out :
  let m := step_type (snd (classify_and_count amp freq n s out)) in
  (m = STATIC <-> toQ amp <= 5 /\ toQ freq <= 5 # 10)
  /\ (m = WALK <->
        (toQ amp <= 5 /\ 5 # 10 < toQ freq)
        \/ (5 < toQ amp < 15 /\ toQ freq < 22 # 10))
  /\ (m = RUN <-> 5 < toQ amp /\ 22 # 10 <= toQ freq)
  /\ (m = HOP <-> 15 <= toQ amp /\ toQ freq < 22 # 10).
Proof.
  unfold classify_and_count, SMALL_AMP, LARGE_AMP, SLOW_FREQ, FAST_FREQ.
  repeat case_match; cbn [snd step_type set_step_type]; sc_reflect; sc_push;
    (split; [|split; [|split]]); split; intros Hx;
    destruct_or?; destruct_and?;
    first [reflexivity | discriminate | split; lra | left; split; lra
          | right; split; [split|]; lra | exfalso; lra].
Qed.

(** *** The hold counters *)

(** The amplitude estimate on every branch, for a hold counter
    within its range: the mean swing of the frame's steps when there are
    any; otherwise the previous estimate, kept for at most [BUFF_FACTOR]
    frames in a row and then forced to zero. The counter stays within
    [0, BUFF_FACTOR]. Any arithmetic. *)
Theorem amp_estimate_cases l rs :
  (0 <= amp_est_hold rs <= BUFF_FACTOR)%Z -> (0 <= Loc.count_min_det l)%Z ->
  let r := amp_estimate l rs in
  (0 <= amp_est_hold (snd r) <= BUFF_FACTOR)%Z
  /\ ((0 < Loc.count_min_det l)%Z ->
        fst r = (Loc.amp_est l / sc_of_Z (Loc.count_min_det l))%sc
        /\ amp_est_hold (snd r) = 0%Z)
  /\ (Loc.count_min_det l = 0%Z -> (amp_est_hold rs < BUFF_FACTOR)%Z ->
        fst r = prev_amp_est rs
        /\ amp_est_hold (snd r) = (amp_est_hold rs + 1)%Z)
  /\ (Loc.count_min_det l = 0%Z -> amp_est_hold rs = BUFF_FACTOR ->
        fst r = sc_lit 0 /\ amp_est_hold (snd r) = 0%Z).
Proof.
  intros Hh Hc. unfold amp_estimate. revert Hh. cfg. intros Hh.
  destruct (Z.ltb_spec 0 (Loc.count_min_det l)); cbn [amp_est_hold set_amp_est_hold].
  - cbn. repeat split; (done || lia).
  - rewrite u32_add_nowrap by u32_lia.
    destruct (Z.ltb_spec 2 (amp_est_hold rs + 1)); cbn;
      repeat split; intros; (done || lia).
Qed.

(** The same for the frequency estimate: the inverse of the mean
    period when the frame has one above the dead band; otherwise the
    previous estimate, kept for at most [BUFF_FACTOR] frames in a row and
    then forced to zero. Any arithmetic. *)
Theorem freq_estimate_cases l rs :
  (0 <= freq_est_hold rs <= BUFF_FACTOR)%Z ->
  let r := freq_estimate l rs in
  (0 <= freq_est_hold (snd r) <= BUFF_FACTOR)%Z
  /\ ((mean_period l >? EPSILON)%sc = true ->
        fst r = (sc_of_Z 1 / mean_period l)%sc
        /\ freq_est_hold (snd r) = 0%Z)
  /\ ((mean_period l >? EPSILON)%sc = false -> (freq_est_hold rs < BUFF_FACTOR)%Z ->
        fst r = prev_freq_est rs
        /\ freq_est_hold (snd r) = (freq_est_hold rs + 1)%Z)
  /\ ((mean_period l >? EPSILON)%sc = false -> freq_est_hold rs = BUFF_FACTOR ->
        fst r = sc_lit 0 /\ freq_est_hold (snd r) = 0%Z).
Proof.
  intros Hh. unfold freq_estimate. revert Hh. cfg. intros Hh.
  destruct (sc_ltb EPSILON (mean_period l)); cbn [freq_est_hold set_freq_est_hold].
  - cbn. repeat split; (done || lia).
  - rewrite u32_add_nowrap by u32_lia.
    destruct (Z.ltb_spec 2 (freq_est_hold rs + 1)); cbn;
      repeat split; intros; (done || lia).
Qed.

(** *** A frame of a sensor at rest *)

Lemma amp_estimate_none l rs :
  Loc.count_min_det l = 0%Z -> toQ (prev_amp_est rs) == 0 ->
  toQ (fst (amp_estimate l rs)) == 0.
Proof.
  intros Hc Hp. unfold amp_estimate. rewrite Hc. cbn [Z.ltb Z.compare].
  case_match; cbn [fst]; [apply toQ_lit|exact Hp].
Qed.

Lemma freq_estimate_none l rs :
  Loc.count_max_det l = 0%Z -> Loc.count_min_det l = 0%Z ->
  toQ (Loc.avg_time_period l) == 0 -> toQ (prev_freq_est rs) == 0 ->
  toQ (fst (freq_estimate l rs)) == 0.
Proof.
  intros Hmax Hmin Hper Hp. unfold freq_estimate, mean_period, EPSILON.
  rewrite Hmax, Hmin. change (u32_add 0 0) with 0%Z. cbn [Z.ltb Z.compare].
  destruct (sc_ltb _ _) eqn:Hlt; [exfalso; sc_reflect; sc_push; lra|].
  case_match; cbn [fst]; [apply toQ_lit|exact Hp].
Qed.

Lemma classify_quiet (amp freq : R) :
  toQ amp == 0 -> toQ freq == 0 -> classify amp freq = STATIC.
Proof.
  intros Ha Hf. unfold classify, SMALL_AMP, SLOW_FREQ.
  case_all; try done; exfalso; sc_reflect; sc_push; lra.
Qed.

(** The scan of a flat frame finds nothing. *)
Lemma run_scan_quiet s out :
  quiet_state s -> snd (run_scan s out) = locals_init out.
Proof.
  intros (Hr & _ & Hll & Hbuf & _). apply run_scan_idle; [done|].
  destruct (filter_run_zero _ _ Hll Hbuf) as [Hz _].
  eapply Forall_impl; [exact Hz|]. intros d. apply quiet_sample_idle.
Qed.

Lemma run_estimates_quiet s out :
  quiet_state s ->
  toQ (fst (run_estimates s out)) == 0 /\ toQ (snd (run_estimates s out)) == 0.
Proof.
  intros Hq. pose proof (run_scan_quiet s out Hq) as Hl.
  destruct Hq as (Hr & _ & _ & _ & Hamp & Hfreq & _).
  destruct (run_scan_scalars s out Hr) as (Ha & Hf & _).
  unfold run_estimates. destruct (run_scan s out) as [rs l].
  cbn [fst snd] in *. subst l.
  pose proof (amp_estimate_none (locals_init out) rs eq_refl) as Hamp'.
  destruct (amp_estimate_scalars (locals_init out) rs) as [Hf' _].
  destruct (amp_estimate (locals_init out) rs) as [amp rs2]. cbn [fst snd] in *.
  split; [apply Hamp'; by rewrite Ha|].
  apply freq_estimate_none; [done|done|apply toQ_lit|by rewrite Hf', Hf].
Qed.

(** A sensor at rest stays at rest across a call: no step, [STATIC]. *)
Lemma step_algo_run_quiet s :
  quiet_state s ->
  quiet_state
    (set_step_algo_output (fst (step_algo_run s (step_algo_output s)))
       (snd (step_algo_run s (step_algo_output s)))).
Proof.
  intros Hq. pose proof Hq as (Hr & Hlp & Hll & Hbuf & _ & _ & Hsc & _).
  destruct (run_estimates_quiet s (step_algo_output s) Hq) as [Hamp Hfreq].
  destruct (step_algo_run_saved s (step_algo_output s)) as [Ha Hf].
  destruct (step_algo_run_frame s (step_algo_output s)) as (Hb' & Hlp' & _).
  destruct (step_algo_run_arrays s (step_algo_output s)) as [_ Hll'].
  pose proof (step_algo_run_step_count s (step_algo_output s)) as Hc.
  pose proof (step_algo_run_step_type s (step_algo_output s)) as Ht.
  pose proof (step_algo_run_ready s (step_algo_output s) Hr) as Hr'.
  rewrite (run_scan_quiet s _ Hq), Hsc in Hc.
  unfold run_class in Ht. rewrite classify_quiet in Ht by assumption.
  unfold run_derived in Hll'. destruct Hr as [[Hb _] Htc].
  rewrite derive_loop_filter in Hll' by assumption.
  rewrite <-Ha in Hamp. rewrite <-Hf in Hfreq. cbv zeta in *.
  destruct (step_algo_run s (step_algo_output s)) as [s' out'].
  cbn [fst snd] in *. unfold quiet_state. cbn.
  rewrite Hlp', Hll', Hb'.
  split; [exact Hr'|]. split; [exact Hlp|].
  split; [apply (filter_run_zero _ _ Hll Hbuf)|]. by repeat split.
Qed.

End ClassifyExact.

(** ** Ageing of the estimates

    A frame without detection keeps the estimates of the frame before,
    and the hold counters count such frames: after [BUFF_FACTOR] of them
    in a row the next one sets both estimates to zero, and the motion
    type to [STATIC]. The two facts of arithmetic this needs are
    hypotheses of the section; exact arithmetic and binary32 have them. *)

Section Aging.
Context {R : Type} `{Scalar R}.
Implicit Types (s : state R) (out : algo_out_t R) (l : Loc.t R)
  (rs : run_static_t R) (k : Z).
Local Open Scope sc_scope.

(** The mean period of a frame without detection, zero, is inside the
    dead band, and zero estimates are classified [STATIC]. *)
Hypothesis zero_period : (sc_lit 0 >? EPSILON) = false.
Hypothesis zero_static : classify (sc_lit 0) (sc_lit 0) = STATIC.

(** A frame without detection: the scan ends with the locals it began
    with. *)
Definition idle_frame s : Prop :=
  snd (run_scan s (step_algo_output s)) = locals_init (step_algo_output s).

(** An estimate that is zero or has been held for [k] frames. *)
Definition held (k : Z) (est : R) (hold : Z) : Prop :=
  (0 <= hold <= BUFF_FACTOR)%Z /\ (est = sc_lit 0 \/ (k <= hold)%Z).

Definition aged (k : Z) rs : Prop :=
  held k (prev_amp_est rs) (amp_est_hold rs)
  /\ held k (prev_freq_est rs) (freq_est_hold rs).

Lemma amp_estimate_held k out rs :
  held k (prev_amp_est rs) (amp_est_hold rs) ->
  let r := amp_estimate (locals_init out) rs in
  held (k + 1) (fst r) (amp_est_hold (snd r)).
Proof.
  unfold held, amp_estimate. cfg. intros [Hh Hk]. cbn [Loc.count_min_det locals_init Z.ltb Z.compare].
  cbn [amp_est_hold set_amp_est_hold]. rewrite u32_add_nowrap by u32_lia.
  destruct (Z.ltb_spec 2 (amp_est_hold rs + 1)); cbn; (split; [lia|]); [by left|].
  destruct Hk; [by left|right; lia].
Qed.

Lemma freq_estimate_held k out rs :
  held k (prev_freq_est rs) (freq_est_hold rs) ->
  let r := freq_estimate (locals_init out) rs in
  held (k + 1) (fst r) (freq_est_hold (snd r)).
Proof.
  unfold held, freq_estimate, mean_period. cfg. intros [Hh Hk].
  cbn [Loc.count_min_det Loc.count_max_det Loc.avg_time_period locals_init].
  change (u32_add 0 0) with 0%Z. cbn [Z.ltb Z.compare]. rewrite zero_period.
  cbn [freq_est_hold set_freq_est_hold]. rewrite u32_add_nowrap by u32_lia.
  destruct (Z.ltb_spec 2 (freq_est_hold rs + 1)); cbn; (split; [lia|]); [by left|].
  destruct Hk; [by left|right; lia].
Qed.


Lemma freq_estimate_scalars l rs :
  amp_est_hold (snd (freq_estimate l rs)) = amp_est_hold rs.
Proof. unfold freq_estimate. by case_all. Qed.

(** The hold counters after the call are those of the estimates. *)
Lemma step_algo_run_holds s out :
  run_ready s ->
  let rs' := run_static (fst (step_algo_run s out)) in
  let rs1 := fst (run_scan s out) in
  let l := snd (run_scan s out) in
  amp_est_hold rs' = amp_est_hold (snd (amp_estimate l rs1))
  /\ freq_est_hold rs'
     = freq_est_hold (snd (freq_estimate l (snd (amp_estimate l rs1)))).
Proof.
  intros [[Hb _] Htc]. unfold step_algo_run, run_scan.
  destruct (derive_loop _ _ _) as [ll rs0]. cbn [snd].
  destruct (detect_loop _) as [rs1 l]. cbn [fst snd].
  pose proof (freq_estimate_scalars l (snd (amp_estimate l rs1))) as Hfa.
  destruct (amp_estimate l rs1) as [amp rs2]. cbn [snd] in *.
  destruct (freq_estimate l rs2) as [freq rs3]. cbn [snd] in *.
  rewrite classify_and_count_eq. cbn [fst snd].
  destruct (add_steps_frame (classify amp freq) (Loc.count_min_det l)
    (set_run_static (set_ll_filter_y s ll)
       (save_static amp freq (tail_loop (AccBuff s) (TC_samples (ll_filter_y s)) rs3))))
    as (-> & _).
  destruct (tail_loop_scalars (AccBuff s) (TC_samples (ll_filter_y s)) Htc Hb rs3)
    as [Ha Hf].
  cbn. by rewrite Ha, Hf, Hfa.
Qed.

(** A frame without detection ages both estimates by one frame. *)
Lemma step_algo_run_aged k s :
  run_ready s -> idle_frame s -> aged k (run_static s) ->
  aged (k + 1) (run_static (fst (step_algo_run s (step_algo_output s)))).
Proof.
  intros Hr Hidle [Hamp Hfreq]. unfold aged.
  destruct (step_algo_run_saved s (step_algo_output s)) as [-> ->].
  destruct (step_algo_run_holds s (step_algo_output s) Hr) as [-> ->].
  destruct (run_scan_scalars s (step_algo_output s) Hr) as (Ha & Hf & Hah & Hfh).
  unfold run_estimates, idle_frame in *.
  destruct (run_scan s (step_algo_output s)) as [rs1 l]. cbn [fst snd] in *. subst l.
  rewrite <- Ha, <- Hah in Hamp. rewrite <- Hf, <- Hfh in Hfreq.
  pose proof (amp_estimate_held k (step_algo_output s) rs1 Hamp) as Hamp'.
  destruct (amp_estimate_scalars (locals_init (step_algo_output s)) rs1) as [Hp Hh].
  destruct (amp_estimate _ rs1) as [amp rs2]. cbn [fst snd] in *.
  split; [exact Hamp'|]. apply freq_estimate_held. by rewrite Hp, Hh.
Qed.

(** An estimate held for more than [BUFF_FACTOR] frames is zero. *)
Lemma held_zero k est hold : (BUFF_FACTOR < k)%Z -> held k est hold -> est = sc_lit 0.
Proof. intros Hk [Hh [->|Hle]]; [done|lia]. Qed.

Lemma held_weaken k k' (est : R) hold : (k' <= k)%Z -> held k est hold -> held k' est hold.
Proof. intros Hk [Hh [->|Hle]]; (split; [done|]); [by left|right; lia]. Qed.

Lemma aged_weaken k k' (rs : run_static_t R) : (k' <= k)%Z -> aged k rs -> aged k' rs.
Proof. intros Hk [Ha Hf]. split; by eapply held_weaken. Qed.

(** Any frame keeps the hold counters within their range. *)
Lemma step_algo_run_aged_0 s :
  run_ready s -> aged 0 (run_static s) ->
  aged 0 (run_static (fst (step_algo_run s (step_algo_output s)))).
Proof.
  intros Hr [[Ha _] [Hf _]]. 
  destruct (step_algo_run_holds s (step_algo_output s) Hr) as [Hah Hfh].
  destruct (run_scan_scalars s (step_algo_output s) Hr) as (_ & _ & Hah0 & Hfh0).
  pose proof (run_scan_bounded s (step_algo_output s)) as Hb.
  cbv zeta in *. destruct (run_scan s (step_algo_output s)) as [rs1 l]. cbn [fst snd] in *.
  rewrite <- Hah0 in Ha. rewrite <- Hfh0 in Hf.
  destruct (amp_estimate_cases l rs1 Ha) as [Ha' _]; [apply Hb|].
  destruct (amp_estimate_scalars l rs1) as [_ Hh].
  rewrite <- Hh in Hf. destruct (freq_estimate_cases l _ Hf) as [Hf' _].
  cbv zeta in *. split; (split; [|right]); lia.
Qed.

(** A frame without detection after [BUFF_FACTOR] such frames is
    [STATIC]. *)
Lemma idle_frame_static s :
  run_ready s -> idle_frame s -> aged BUFF_FACTOR (run_static s) ->
  step_type (snd (step_algo_run s (step_algo_output s))) = STATIC.
Proof.
  intros Hr Hidle Hs.
  destruct (step_algo_run_aged _ s Hr Hidle Hs) as [Ha Hf].
  destruct (step_algo_run_saved s (step_algo_output s)) as [Hpa Hpf].
  cbv zeta in *. rewrite Hpa in Ha. rewrite Hpf in Hf.
  rewrite step_algo_run_step_type. unfold run_class.
  rewrite (held_zero (BUFF_FACTOR + 1) _ _ ltac:(lia) Ha).
  by rewrite (held_zero (BUFF_FACTOR + 1) _ _ ltac:(lia) Hf).
Qed.

(** The statics that a frame hands to the next. *)
Definition next_frame s s' : Prop :=
  run_static s' = run_static (fst (step_algo_run s (step_algo_output s))).

(** C34. Estimates age out. Three frames in a row without detection
    end in [STATIC], whatever the estimates were before them: each keeps
    the estimates of the frame before and counts in [amp_est_hold] and
    [freq_est_hold], and the third, which finds the counters at
    [BUFF_FACTOR], sets both estimates to zero. Any arithmetic in which
    zero is inside the dead band of the period and zero estimates are
    classified [STATIC]; the hold counters start within their range, as
    they are along every run. *)
Theorem idle_frames_static s1 s2 s3 :
  run_ready s1 -> run_ready s2 -> run_ready s3 ->
  aged 0 (run_static s1) ->
  idle_frame s1 -> next_frame s1 s2 -> idle_frame s2 -> next_frame s2 s3 ->
  idle_frame s3 ->
  step_type (snd (step_algo_run s3 (step_algo_output s3))) = STATIC.
Proof.
  intros Hr1 Hr2 Hr3 Hs1 Hi1 H12 Hi2 H23 Hi3. unfold next_frame in *.
  pose proof (step_algo_run_aged 0 s1 Hr1 Hi1 Hs1) as Hs2. rewrite <- H12 in Hs2.
  pose proof (step_algo_run_aged _ s2 Hr2 Hi2 Hs2) as Hs3. rewrite <- H23 in Hs3.
  by apply idle_frame_static.
Qed.

End Aging.

(** In exact arithmetic. *)
Lemma exact_zero_period {R : Type} `{ExactScalar R} :
  (sc_lit 0 >? EPSILON)%sc = false.
Proof. unfold EPSILON. sc_reflect. sc_push. lra. Qed.

Lemma exact_zero_static {R : Type} `{ExactScalar R} :
  classify (sc_lit 0) (sc_lit 0) = STATIC.
Proof. apply classify_quiet; apply toQ_lit. Qed.

(** ** A frame with one step

    The lead-lag filter is replaced by the first difference
    [d[i] = x[i] - x[i-1]] with a delay of one sample; the frame rises to
    10, falls to 0 and rises again; timestamps are one second apart. The
    scan confirms the maximum 10 and then the minimum 0. *)

Definition diff_filter : filter_t Qcanon.Qc :=
  mk_filter (sc_lit 1) (sc_opp (sc_lit 1)) (sc_lit 0) (sc_lit 0) (sc_lit 0)
    (sc_lit 0) (sc_lit 0) (sc_lit 0) (sc_lit 0) 1.

Definition one_step_frame : list (list Qcanon.Qc) :=
  let z := sc_lit 0 in
  let h := sc_lit 10 in
  [ replicate 52 z;
    [z; h; h; z; z; h; h] ++ replicate 45 h;
    replicate 52 z;
    (fun i => sc_of_Z (Z.of_nat (S i))) <$> seq 0 52 ].

Definition one_step_state : state Qcanon.Qc :=
  set_AccBuff (set_ll_filter_y state_zero diff_filter) one_step_frame.

Lemma one_step_state_ready : run_ready one_step_state.
Proof.
  split; [split|]; [|apply run_static_init_wf|unfold tc_ok; cbn; cfg; lia].
  split; [reflexivity|]. by repeat constructor.
Qed.

Lemma step_algo_run_ready_witness :
  run_ready (fst (step_algo_run one_step_state algo_out_zero)).
Proof.
  exact (step_algo_run_ready one_step_state algo_out_zero one_step_state_ready).
Defined.

Lemma step_algo_run_stitch_witness :
  TimeStamps (run_static (fst (step_algo_run one_step_state algo_out_zero))) !!! 0
  = arr2_get one_step_frame ROW_TS 51.
Proof.
  assert (0 < idx (TC_samples (ll_filter_y one_step_state))) as Hi
    by (vm_compute; lia).
  exact (proj1 (proj2 (step_algo_run_stitch one_step_state algo_out_zero 0
                         one_step_state_ready Hi))).
Defined.

Lemma amp_estimate_cases_witness :
  amp_est_hold
    (snd (amp_estimate (locals_init algo_out_zero)
            (run_static_init (R:=Qcanon.Qc)))) = 1%Z.
Proof.
  assert (0 <= amp_est_hold (run_static_init (R:=Qcanon.Qc)) <= BUFF_FACTOR)%Z
    as Hh by (cbn; cfg; lia).
  assert (0 <= Loc.count_min_det (locals_init (R:=Qcanon.Qc) algo_out_zero))%Z
    as Hc by (cbn; lia).
  destruct (amp_estimate_cases _ _ Hh Hc) as (_ & _ & Hkeep & _).
  apply Hkeep; [reflexivity|cbn; cfg; lia].
Defined.

Lemma freq_estimate_cases_witness :
  freq_est_hold
    (snd (freq_estimate (locals_init algo_out_zero)
            (run_static_init (R:=Qcanon.Qc)))) = 1%Z.
Proof.
  assert (0 <= freq_est_hold (run_static_init (R:=Qcanon.Qc)) <= BUFF_FACTOR)%Z
    as Hh by (cbn; cfg; lia).
  destruct (freq_estimate_cases (locals_init algo_out_zero) _ Hh)
    as (_ & _ & Hkeep & _).
  apply Hkeep; [by vm_compute|cbn; cfg; lia].
Defined.

Lemma step_counted_not_static_witness :
  step_count (snd (step_algo_run one_step_state algo_out_zero)) = 1%Z
  /\ step_type (snd (step_algo_run one_step_state algo_out_zero)) <> STATIC.
Proof.
  split; [by vm_compute|].
  apply (step_counted_not_static one_step_state algo_out_zero).
  - by vm_compute.
  - by vm_compute.
Defined.

(** ** Stale estimates *)

(** A state at rest whose estimates are 7 and 2, and the two states that
    follow it when the buffer stays at zero. *)
Definition stale_state : state Qcanon.Qc :=
  set_run_static state_zero
    (set_prev_freq_est (set_prev_amp_est run_static_init (sc_lit 7)) (sc_lit 2)).

Definition after_frame (s : state Qcanon.Qc) : state Qcanon.Qc :=
  set_step_algo_output (fst (step_algo_run s (step_algo_output s)))
    (snd (step_algo_run s (step_algo_output s))).

Lemma stale_state_ready : run_ready stale_state.
Proof.
  split; [split|]; [apply state_zero_wf|apply run_static_init_wf|unfold tc_ok; cbn; cfg; lia].
Qed.

Lemma after_frame_ready s : run_ready s -> run_ready (after_frame s).
Proof. intros Hs. by apply set_step_algo_output_ready, step_algo_run_ready. Qed.

Lemma idle_frames_static_witness :
  step_type (snd (step_algo_run (after_frame (after_frame stale_state))
                    (step_algo_output (after_frame (after_frame stale_state)))))
  = STATIC.
Proof.
  apply (idle_frames_static exact_zero_period exact_zero_static stale_state
           (after_frame stale_state) (after_frame (after_frame stale_state)));
    auto using stale_state_ready, after_frame_ready; try (by vm_compute).
  by repeat split; try (right; done).
Defined.
