(* ===== verification/Pipeline.v ===== *)
(** * Pipeline: [main]

    [main] (pedometer.c lines 75-190) initialises the filters and the output
    structure ([main_init], lines 112-147), then for every input row adds
    the sampling interval to the timestamp, calls [step_algo_preproc], calls
    [step_algo_run] when a frame is full, chooses the name of the motion
    type and writes an output row ([main_step], lines 160-184). After the
    last row it prints the per-class totals and their sum ([main_summary],
    line 186). [main_loop] is [main_step] over the list of parsed rows.

    Opening files, skipping the header, [sscanf] and [fprintf] are not
    modelled: the input is the list of parsed rows and the output the list
    of the values printed.

    The theorems are the invariants of the whole state along any input. *)

From Stdlib Require Import QArith ZArith Lia Lqa List String.
From stdpp Require Import base tactics list.
From S2P Require Import Prelude.
From S2P Require Import Scalar.
From S2P Require Import Types.
From S2P Require Import Filter.
From S2P Require Import State.
From S2P Require Import Preproc.
From S2P Require Import Detector.
From S2P Require Import Classify.

(** ** Rows *)

(** The numeric fields [sscanf] reads from a line (lines 162-163); the date
    and time strings are copied to the output unread. *)
Record sensor_row (R : Type) : Type := mk_sensor_row {
  rec_id : Z;
  sen_id : Z;
  arx : R;
  ary : R;
  arz : R;
  grx : R;
  gry : R;
  grz : R
}.

Arguments mk_sensor_row {R}.
Arguments rec_id {R}.
Arguments sen_id {R}.
Arguments arx {R}.
Arguments ary {R}.
Arguments arz {R}.
Arguments grx {R}.
Arguments gry {R}.
Arguments grz {R}.

(** What [fprintf] receives beside the input row (lines 181-183). *)
Record output_row (R : Type) : Type := mk_output_row {
  out_timestamp : R;
  out_step_count : Z;
  out_step_type : option string;
  out_step_type_num : Z
}.

Arguments mk_output_row {R}.
Arguments out_timestamp {R}.
Arguments out_step_count {R}.
Arguments out_step_type {R}.
Arguments out_step_type_num {R}.

(** The locals of [main] that outlive an iteration: the state of the
    program, [timestamp], and the [char *step_type], which has no
    initialiser (line 89): [None] is the indeterminate pointer. *)
Record main_state (R : Type) : Type := mk_main_state {
  prog : state R;
  timestamp : R;
  step_type_name : option string
}.

Arguments mk_main_state {R}.
Arguments prog {R}.
Arguments timestamp {R}.
Arguments step_type_name {R}.

(** ** Operations *)

Section Pipeline.
Context {R : Type} `{Scalar R}.
Local Open Scope sc_scope.

(** Lines 112-147; every other variable keeps its static zero. *)
Definition main_init : main_state R :=
  {| prog :=
       {| lp_filter_x := lp_filter_init;
          lp_filter_y := lp_filter_init;
          lp_filter_z := lp_filter_init;
          ll_filter_x := ll_filter_init;
          ll_filter_y := ll_filter_init;
          ll_filter_z := ll_filter_init;
          step_algo_output :=
            {| prev_max := sc_lit 0;
               Types.prev_max_ts := sc_lit 0;
               prev_min := sc_lit 0;
               Types.prev_min_ts := sc_lit 0;
               step_count := 0;
               step_type := STATIC |};
          AccBuff := AccBuff state_zero;
          num_steps_walk := 0;
          num_steps_run := 0;
          num_steps_hop := 0;
          count := 0;
          run_static := run_static_init |};
     timestamp := sc_lit 0;
     step_type_name := None |}.

(** Lines 172-179: the name is assigned only for the four classes. *)
Definition choose_name (m : motion_type_t) (old : option string) : option string :=
  if decide (m = STATIC) then Some "STATIONARY"%string
  else if decide (m = WALK) then Some "WALKING"%string
  else if decide (m = RUN) then Some "RUNNING"%string
  else if decide (m = HOP) then Some "HOPPING"%string
  else old.

(** Lines 160-184, one iteration. *)
Definition main_step (m : main_state R) (row : sensor_row R)
    : main_state R * output_row R :=
  let ts := timestamp m + SENSOR_SAMP_INTVL in
  let '(run_step_algo, s) :=
    step_algo_preproc (prog m) ts (arx row) (ary row) (arz row)
      (grx row) (gry row) (grz row) in
  let s :=
    if (run_step_algo =? 1)%Z then
      let '(s', out) := step_algo_run s (step_algo_output s) in
      set_step_algo_output s' out
    else s in
  let name := choose_name (step_type (step_algo_output s)) (step_type_name m) in
  ({| prog := s; timestamp := ts; step_type_name := name |},
   {| out_timestamp := ts;
      out_step_count := step_count (step_algo_output s);
      out_step_type := name;
      out_step_type_num := motion_type_code (step_type (step_algo_output s)) |}).

(** The loop of lines 160-184 over the parsed rows. *)
Fixpoint main_loop (m : main_state R) (rows : list (sensor_row R))
    : main_state R * list (output_row R) :=
  match rows with
  | [] => (m, [])
  | row :: rows' =>
      let '(m', o) := main_step m row in
      let '(m'', os) := main_loop m' rows' in
      (m'', o :: os)
  end.

(** Line 186: duration, total, and the three per-class counts. *)
Definition main_summary (m : main_state R) : R * Z * Z * Z * Z :=
  let s := prog m in
  (timestamp m,
   u32_add (u32_add (num_steps_walk s) (num_steps_run s)) (num_steps_hop s),
   num_steps_walk s, num_steps_run s, num_steps_hop s).

(** The program on a list of parsed rows. *)
Definition main (rows : list (sensor_row R))
    : list (output_row R) * (R * Z * Z * Z * Z) :=
  let '(m, os) := main_loop main_init rows in
  (os, main_summary m).

End Pipeline.

(** ** Laws *)

Section PipelineLaws.
Context {R : Type} `{Scalar R}.
Implicit Types (m : main_state R) (row : sensor_row R)
  (rows : list (sensor_row R)).

Lemma main_loop_nil m : main_loop m [] = (m, []).
Proof. reflexivity. Qed.

Lemma main_loop_cons m row rows :
  main_loop m (row :: rows) =
  (fst (main_loop (fst (main_step m row)) rows),
   snd (main_step m row) :: snd (main_loop (fst (main_step m row)) rows)).
Proof.
  cbn -[main_step]. destruct (main_step m row) as [m' o]. cbn.
  by destruct (main_loop m' rows).
Qed.

Lemma main_loop_length m rows : length (snd (main_loop m rows)) = length rows.
Proof.
  revert m. induction rows as [|row rows IH]; intros m; [done|].
  rewrite main_loop_cons. cbn -[main_step]. by rewrite IH.
Qed.

Lemma main_length rows : length (fst (main rows)) = length rows.
Proof.
  unfold main. pose proof (main_loop_length main_init rows).
  by destruct (main_loop _ _).
Qed.

Lemma choose_name_class mt old :
  is_motion_class mt = true -> is_Some (choose_name mt old).
Proof. destruct mt; (done || by eexists). Qed.

(** The program state after one row: the frame is processed when the
    buffer reports it full. *)
Definition step_prog (s : state R) (ts : R) (row : sensor_row R) : state R :=
  let c := step_algo_preproc s ts (arx row) (ary row) (arz row)
             (grx row) (gry row) (grz row) in
  if (fst c =? 1)%Z then
    set_step_algo_output
      (fst (step_algo_run (snd c) (step_algo_output (snd c))))
      (snd (step_algo_run (snd c) (step_algo_output (snd c))))
  else snd c.

Lemma main_step_prog m row :
  prog (fst (main_step m row)) =
  step_prog (prog m) (timestamp m + SENSOR_SAMP_INTVL)%sc row.
Proof.
  unfold main_step, step_prog.
  destruct (step_algo_preproc _ _ _ _ _ _ _ _) as [r s1]. cbn [fst snd].
  destruct (r =? 1)%Z; [|done]. by destruct (step_algo_run _ _).
Qed.

Lemma main_step_timestamp m row :
  timestamp (fst (main_step m row)) = (timestamp m + SENSOR_SAMP_INTVL)%sc.
Proof.
  unfold main_step. destruct (step_algo_preproc _ _ _ _ _ _ _ _) as [r s1].
  destruct (r =? 1)%Z; [|done]. by destruct (step_algo_run _ _).
Qed.

(** The clock of [main] after a run: the sampling interval added once per
    row, whatever the rows hold. *)
Lemma main_loop_clock m rows :
  timestamp (fst (main_loop m rows)) =
  Nat.iter (length rows) (fun t => (t + SENSOR_SAMP_INTVL)%sc) (timestamp m).
Proof.
  revert m. induction rows as [|row rows IH]; intros m; [done|].
  rewrite main_loop_cons. cbn [fst length]. rewrite IH, main_step_timestamp.
  by rewrite Nat.iter_succ_r.
Qed.

(** What a row prints is read from the state the row leaves. *)
Lemma main_step_output m row :
  let m' := fst (main_step m row) in
  let o := snd (main_step m row) in
  out_timestamp o = timestamp m'
  /\ out_step_count o = step_count (step_algo_output (prog m'))
  /\ out_step_type o = step_type_name m'
  /\ out_step_type_num o =
       motion_type_code (step_type (step_algo_output (prog m')))
  /\ step_type_name m' =
       choose_name (step_type (step_algo_output (prog m'))) (step_type_name m).
Proof.
  unfold main_step. destruct (step_algo_preproc _ _ _ _ _ _ _ _) as [r s1].
  destruct (r =? 1)%Z; [|done]. by destruct (step_algo_run _ _).
Qed.

(** A property of the program state that every row preserves holds along
    the whole input. *)
Lemma main_loop_inv (P : state R -> Prop) m rows :
  P (prog m) -> (forall s ts row, P s -> P (step_prog s ts row)) ->
  P (prog (fst (main_loop m rows))).
Proof.
  intros H0 Hstep. revert m H0.
  induction rows as [|row rows IH]; intros m H0; [done|].
  rewrite main_loop_cons. cbn [fst]. apply IH. rewrite main_step_prog. by apply Hstep.
Qed.

(** The total in the output agrees with the per-class counters, is a
    32-bit value, and the motion type is one of the four classes. *)
Definition counters_inv (s : state R) : Prop :=
  counts_agree s (step_algo_output s)
  /\ is_u32 (step_count (step_algo_output s))
  /\ is_motion_class (step_type (step_algo_output s)) = true.

Lemma main_init_counters : counters_inv (prog main_init).
Proof. by repeat split. Qed.

(** Rows that do not complete a frame leave the counters alone. *)
Lemma preproc_counters s ts row :
  counters_inv s ->
  counters_inv (snd (step_algo_preproc s ts (arx row) (ary row) (arz row)
                       (grx row) (gry row) (grz row))).
Proof.
  unfold counters_inv, counts_agree.
  destruct (preproc_frame s ts (arx row) (ary row) (arz row) (grx row)
    (gry row) (grz row)) as (_ & -> & _ & -> & -> & ->). done.
Qed.

(** What every row prints, given a property of the program state that
    every row preserves. *)
Lemma main_loop_outputs (P : state R -> Prop) (Q : output_row R -> Prop) m rows :
  P (prog m) -> (forall s ts row, P s -> P (step_prog s ts row)) ->
  (forall m row, P (prog (fst (main_step m row))) -> Q (snd (main_step m row))) ->
  Forall Q (snd (main_loop m rows)).
Proof.
  intros H0 Hstep HQ. revert m H0.
  induction rows as [|row rows IH]; intros m H0; [by constructor|].
  rewrite main_loop_cons. cbn [snd].
  assert (P (prog (fst (main_step m row)))) by (rewrite main_step_prog; by apply Hstep).
  constructor; [by apply HQ|by apply IH].
Qed.

(** The last row printed shows the step count of the final state. *)
Lemma main_loop_last m rows o :
  last (snd (main_loop m rows)) = Some o ->
  out_step_count o = step_count (step_algo_output (prog (fst (main_loop m rows)))).
Proof.
  revert m. induction rows as [|row rows IH]; intros m; [done|].
  rewrite main_loop_cons. cbn [fst snd]. rewrite last_cons.
  destruct (last (snd (main_loop (fst (main_step m row)) rows))) as [o'|] eqn:El.
  - intros [= <-]. by apply IH.
  - intros [= <-]. apply last_None in El.
    pose proof (main_loop_length (fst (main_step m row)) rows) as Hl.
    rewrite El in Hl. destruct rows; [|done]. apply main_step_output.
Qed.

(** The name printed for a class. *)
Definition motion_type_name (mt : motion_type_t) : string :=
  match mt with
  | STATIC => "STATIONARY"
  | WALK => "WALKING"
  | RUN => "RUNNING"
  | HOP => "HOPPING"
  | NUM_TYPES => ""
  end.

Lemma choose_name_eq mt old :
  is_motion_class mt = true -> choose_name mt old = Some (motion_type_name mt).
Proof. by destruct mt. Qed.

(** The motion type stored is one of the four classes. *)
Definition class_inv (s : state R) : Prop :=
  is_motion_class (step_type (step_algo_output s)) = true.

Lemma step_prog_class s ts row : class_inv s -> class_inv (step_prog s ts row).
Proof.
  unfold class_inv, step_prog. intros Hs.
  destruct (preproc_frame s ts (arx row) (ary row) (arz row) (grx row)
    (gry row) (grz row)) as (_ & Hout & _).
  destruct (step_algo_preproc _ _ _ _ _ _ _ _) as [r s1]. cbn [fst snd] in *.
  destruct (r =? 1)%Z; [|by rewrite Hout].
  change (step_algo_output (set_step_algo_output ?a ?b)) with b.
  rewrite step_algo_run_step_type. apply classify_is_class.
Qed.

(** C33. The label of every output row is the name of one of the four
    classes and its code is below [NUM_TYPES]: the pointer [step_type] of
    [main], which has no initialiser, is assigned before every use. Any
    arithmetic. *)
Theorem main_labels_defined rows :
  Forall (fun o =>
    exists mt, is_motion_class mt = true
      /\ out_step_type o = Some (motion_type_name mt)
      /\ out_step_type_num o = motion_type_code mt)
    (snd (main_loop main_init rows)).
Proof.
  apply (main_loop_outputs class_inv); [done|apply step_prog_class|].
  intros m row Hc. destruct (main_step_output m row) as (_ & _ & -> & -> & ->).
  eexists. split; [exact Hc|]. split; [|done]. by apply choose_name_eq.
Qed.

(** *** Array shapes and the frame cadence *)

(** The same, with the number of rows read so far. *)
Lemma main_loop_ind (P : nat -> state R -> Prop) m rows :
  P 0 (prog m) ->
  (forall n s ts row, P n s -> P (S n) (step_prog s ts row)) ->
  P (length rows) (prog (fst (main_loop m rows))).
Proof.
  intros H0 Hstep. revert P m H0 Hstep.
  induction rows as [|row rows IH]; intros P m H0 Hstep; [done|].
  rewrite main_loop_cons. cbn [fst length].
  apply (IH (fun n => P (S n))); [|by auto].
  rewrite main_step_prog. by apply Hstep.
Qed.

(** After [n] rows: the arrays have their declared lengths, the group delay
    fits the headroom, and [count] is [n mod SAMP_BUFF_LEN]. *)
Definition cadence_inv (n : nat) (s : state R) : Prop :=
  run_ready s /\ count s = (Z.of_nat n mod SAMP_BUFF_LEN)%Z.

(** The step count after [n] rows: every completed frame has added at
    most [SAMP_BUFF_LEN] to it. *)
Definition steps_inv (n : nat) (s : state R) : Prop :=
  (0 <= step_count (step_algo_output s)
   <= SAMP_BUFF_LEN * (Z.of_nat n / SAMP_BUFF_LEN))%Z.

Lemma main_init_ready : cadence_inv 0 (prog main_init).
Proof.
  split; [split|done]; [apply state_zero_wf|].
  apply (timeconst_samp_bounds (R:=R)).
Qed.

Lemma cadence_count_ok n s : cadence_inv n s -> count_ok s.
Proof.
  intros [_ Hn]. unfold count_ok. rewrite Hn. cfg.
  Z.div_mod_to_equations. lia.
Qed.

(** The frame is processed exactly by the rows whose number is a multiple
    of [SAMP_BUFF_LEN]. *)
Lemma preproc_cadence n s ts row :
  cadence_inv n s ->
  let c := step_algo_preproc s ts (arx row) (ary row) (arz row)
             (grx row) (gry row) (grz row) in
  fst c = (if decide (Z.of_nat (S n) mod SAMP_BUFF_LEN = 0)%Z then 1 else 0)%Z
  /\ cadence_inv (S n) (snd c).
Proof.
  intros Hinv. pose proof (cadence_count_ok n s Hinv) as Hc.
  destruct Hinv as [[Hwf Htc] Hn]. cbv zeta.
  split; [|split; [split|]].
  - rewrite preproc_step_eq by done. cbn [fst]. rewrite Hn.
    revert Hn Hc. unfold count_ok. cfg. intros.
    case_decide; case_match; Z.div_mod_to_equations; lia.
  - by apply preproc_wf.
  - unfold tc_ok. by rewrite (proj1 (preproc_frame s ts _ _ _ _ _ _)).
  - rewrite preproc_step_eq by done. cbn. rewrite Hn.
    revert Hn Hc. unfold count_ok. cfg. intros.
    case_match; Z.div_mod_to_equations; lia.
Qed.

Lemma step_prog_cadence n s ts row :
  cadence_inv n s -> cadence_inv (S n) (step_prog s ts row).
Proof.
  intros Hinv. destruct (preproc_cadence n s ts row Hinv) as [_ [Hr Hn]].
  unfold step_prog. cbv zeta in *. case_match; [|by split].
  pose proof (step_algo_run_ready _ (step_algo_output
    (snd (step_algo_preproc s ts (arx row) (ary row) (arz row) (grx row)
            (gry row) (grz row)))) Hr) as Hready.
  pose proof (step_algo_run_frame
    (snd (step_algo_preproc s ts (arx row) (ary row) (arz row) (grx row)
            (gry row) (grz row)))
    (step_algo_output
       (snd (step_algo_preproc s ts (arx row) (ary row) (arz row) (grx row)
               (gry row) (grz row))))) as (_ & _ & Hcount & _).
  cbv zeta in Hcount. split; [by apply set_step_algo_output_ready|].
  rewrite set_step_algo_output_count, Hcount. exact Hn.
Qed.

(** C11. Along any input the program stays inside its arrays: after [n]
    rows the buffer has 4 rows of [SAMP_BUFF_LEN] cells, [AccFilt] and
    [TimeStamps] have [SAMP_BUFF_LEN + MAX_TC_SAMPLES] cells, [AccDer] has
    [SAMP_BUFF_LEN], the offset [TC_samples] is between 0 and
    [MAX_TC_SAMPLES], and the write index [count] is [n mod SAMP_BUFF_LEN].
    Any arithmetic. *)
Theorem main_loop_cadence rows :
  let s := prog (fst (main_loop main_init rows)) in
  state_wf s /\ tc_ok s
  /\ count s = (Z.of_nat (length rows) mod SAMP_BUFF_LEN)%Z.
Proof.
  cbv zeta. apply and_assoc.
  apply (main_loop_ind cadence_inv); [apply main_init_ready|].
  intros n s ts row. apply step_prog_cadence.
Qed.

(** *** Row by row *)

(** The loop is a left-to-right pass: the rows printed for a prefix of the
    input are a prefix of the rows printed for all of it. *)
Lemma main_loop_app m rows1 rows2 :
  main_loop m (rows1 ++ rows2) =
  (fst (main_loop (fst (main_loop m rows1)) rows2),
   snd (main_loop m rows1) ++ snd (main_loop (fst (main_loop m rows1)) rows2)).
Proof.
  revert m. induction rows1 as [|row rows1 IH]; intros m.
  - cbn [app main_loop fst snd]. by destruct (main_loop m rows2).
  - rewrite <-app_comm_cons, !main_loop_cons, IH. done.
Qed.

(** Row [i] of the output is what [main_step] prints for row [i] of the
    input in the state the first [i] rows leave. *)
Lemma main_loop_lookup m rows i row :
  rows !! i = Some row ->
  snd (main_loop m rows) !! i
  = Some (snd (main_step (fst (main_loop m (take i rows))) row)).
Proof.
  intros Hrow. rewrite <-(take_drop_middle rows i row Hrow) at 1.
  rewrite main_loop_app, main_loop_cons. cbn [snd].
  apply lookup_lt_Some in Hrow.
  rewrite lookup_app_r by (rewrite main_loop_length, length_take; lia).
  by rewrite main_loop_length, length_take_le, Nat.sub_diag by lia.
Qed.

(** A row that does not complete a frame leaves the output structure as
    it is. *)
Lemma step_prog_hold n s ts row :
  cadence_inv n s -> (Z.of_nat (S n) mod SAMP_BUFF_LEN <> 0)%Z ->
  step_algo_output (step_prog s ts row) = step_algo_output s.
Proof.
  intros Hinv Hn. destruct (preproc_cadence n s ts row Hinv) as [Hc _].
  cbv zeta in Hc. unfold step_prog. rewrite Hc, decide_False by done.
  cbn [Z.eqb]. apply preproc_frame.
Qed.

(** The state of [main] when it has read [i] rows. *)
Definition main_at rows (i : nat) : main_state R :=
  fst (main_loop main_init (take i rows)).

Lemma main_at_S rows i row :
  rows !! i = Some row ->
  main_at rows (S i) = fst (main_step (main_at rows i) row).
Proof.
  intros Hrow. unfold main_at.
  rewrite (take_S_r _ _ _ Hrow), main_loop_app, main_loop_cons, main_loop_nil.
  by destruct (main_step _ row).
Qed.

Lemma main_at_output rows i row :
  rows !! i = Some row ->
  snd (main_loop main_init rows) !! i = Some (snd (main_step (main_at rows i) row)).
Proof. apply main_loop_lookup. Qed.

Lemma main_at_cadence rows i :
  i <= length rows -> cadence_inv i (prog (main_at rows i)).
Proof.
  intros Hi. unfold main_at.
  rewrite <-(length_take_le rows i Hi) at 1.
  apply (main_loop_ind cadence_inv); [apply main_init_ready|].
  intros n s ts row. apply step_prog_cadence.
Qed.

Lemma main_at_class rows i : class_inv (prog (main_at rows i)).
Proof. apply (main_loop_inv class_inv); [done|apply step_prog_class]. Qed.

(** Between frames the output stands still. Two consecutive output
    rows show the same step count, the same motion type and the same label
    unless the second is a row whose number is a multiple of
    [SAMP_BUFF_LEN], the only rows at which [step_algo_run] is called. Any
    arithmetic. *)
Theorem main_output_holds rows i o o' :
  snd (main_loop main_init rows) !! i = Some o ->
  snd (main_loop main_init rows) !! S i = Some o' ->
  (Z.of_nat (S (S i)) mod SAMP_BUFF_LEN <> 0)%Z ->
  out_step_count o' = out_step_count o
  /\ out_step_type_num o' = out_step_type_num o
  /\ out_step_type o' = out_step_type o.
Proof.
  intros Ho Ho' Hn.
  destruct (lookup_lt_is_Some_2 rows i) as [row Hrow];
    [apply lookup_lt_Some in Ho; by rewrite main_loop_length in Ho|].
  destruct (lookup_lt_is_Some_2 rows (S i)) as [row' Hrow'];
    [apply lookup_lt_Some in Ho'; by rewrite main_loop_length in Ho'|].
  rewrite (main_at_output rows i row Hrow) in Ho.
  rewrite (main_at_output rows (S i) row' Hrow') in Ho'.
  injection Ho as <-. injection Ho' as <-.
  pose proof (main_at_class rows (S i)) as Hcl.
  pose proof (main_at_cadence rows (S i) (lookup_lt_Some _ _ _ Hrow)) as Hcad.
  destruct (main_step_output (main_at rows (S i)) row')
    as (_ & -> & -> & -> & ->).
  rewrite main_step_prog, (step_prog_hold (S i)) by assumption.
  rewrite (main_at_S rows i row Hrow) in *.
  destruct (main_step_output (main_at rows i) row) as (_ & -> & -> & -> & ->).
  by rewrite !choose_name_eq by exact Hcl.
Qed.

(** *** The step count grows *)

(** One row: the count does not decrease and stays under its bound, as
    long as the rows read are fewer than 2^32. *)
Lemma step_prog_steps n s ts row :
  cadence_inv n s -> steps_inv n s -> (Z.of_nat (S n) < u32_modulus)%Z ->
  steps_inv (S n) (step_prog s ts row)
  /\ (step_count (step_algo_output s)
      <= step_count (step_algo_output (step_prog s ts row)))%Z.
Proof.
  intros Hinv Hs Hn. unfold steps_inv in *.
  destruct (decide (Z.of_nat (S n) mod SAMP_BUFF_LEN = 0)%Z) as [Hend|Hmid].
  - destruct (preproc_cadence n s ts row Hinv) as [Hfst _].
    destruct (preproc_frame s ts (arx row) (ary row) (arz row) (grx row)
                (gry row) (grz row)) as (_ & Hout & _).
    unfold step_prog. cbv zeta in *. rewrite decide_True in Hfst by done.
    destruct (step_algo_preproc s ts _ _ _ _ _ _) as [r s1].
    cbn [fst snd] in *. subst r. cbn [Z.eqb Pos.eqb].
    pose proof (step_algo_run_step_count s1 (step_algo_output s1)) as Hsc.
    pose proof (run_scan_bounded s1 (step_algo_output s1)) as (Hmax & Hlo & Hhi).
    destruct (step_algo_run s1 (step_algo_output s1)) as [s' out'].
    cbn [fst snd] in *. cbn. rewrite Hsc. rewrite Hout in *.
    revert Hs Hn Hend Hmax Hlo Hhi. rewrite FRAME_LEN_val. cfg.
    change u32_modulus with 4294967296%Z. intros.
    rewrite u32_add_nowrap; change u32_modulus with 4294967296%Z;
      Z.div_mod_to_equations; lia.
  - rewrite (step_prog_hold n) by done.
    revert Hs Hmid. cfg. intros. Z.div_mod_to_equations. lia.
Qed.

Lemma main_at_steps rows i :
  i <= length rows -> (Z.of_nat (length rows) < u32_modulus)%Z ->
  steps_inv i (prog (main_at rows i)).
Proof.
  intros Hi Hlen. induction i as [|i IH]; [unfold steps_inv; by cbn|].
  destruct (lookup_lt_is_Some_2 rows i) as [row Hrow]; [lia|].
  rewrite (main_at_S rows i row Hrow), main_step_prog.
  eapply proj1, (step_prog_steps i);
    [apply main_at_cadence; lia|apply IH; lia|lia].
Qed.

Lemma main_at_steps_le rows i j :
  i <= j -> j <= length rows -> (Z.of_nat (length rows) < u32_modulus)%Z ->
  (step_count (step_algo_output (prog (main_at rows i)))
   <= step_count (step_algo_output (prog (main_at rows j))))%Z.
Proof.
  intros Hij Hj Hlen. induction Hij as [|j Hij IH]; [done|].
  etrans; [apply IH; lia|].
  destruct (lookup_lt_is_Some_2 rows j) as [row Hrow]; [lia|].
  rewrite (main_at_S rows j row Hrow), main_step_prog.
  eapply proj2, (step_prog_steps j);
    [apply main_at_cadence; lia|apply main_at_steps; lia|lia].
Qed.

(** C17. The step count never decreases. On an input of fewer than 2^32
    rows the step counts printed are non-negative and non-decreasing, and
    the count printed on row [j] (counted from 0) is at most [j + 1]: no
    frame adds more steps than it has samples, so the 32-bit counter does
    not wrap. Any arithmetic. *)
Theorem main_counts_monotone rows i j oi oj :
  (Z.of_nat (length rows) < u32_modulus)%Z -> i <= j ->
  snd (main_loop main_init rows) !! i = Some oi ->
  snd (main_loop main_init rows) !! j = Some oj ->
  (0 <= out_step_count oi <= out_step_count oj)%Z
  /\ (out_step_count oj <= Z.of_nat (S j))%Z.
Proof.
  intros Hlen Hij Hoi Hoj.
  assert (forall k o, snd (main_loop main_init rows) !! k = Some o ->
            S k <= length rows
            /\ out_step_count o
               = step_count (step_algo_output (prog (main_at rows (S k))))) as Hat.
  { intros k o Ho. pose proof (lookup_lt_Some _ _ _ Ho) as Hk.
    rewrite main_loop_length in Hk. split; [lia|].
    destruct (lookup_lt_is_Some_2 rows k Hk) as [row Hrow].
    rewrite (main_at_output rows k row Hrow) in Ho. injection Ho as <-.
    rewrite (main_at_S rows k row Hrow).
    by destruct (main_step_output (main_at rows k) row) as (_ & -> & _). }
  destruct (Hat i oi Hoi) as [Hi ->]. destruct (Hat j oj Hoj) as [Hj ->].
  pose proof (main_at_steps rows (S i) Hi Hlen) as [Hi0 _].
  pose proof (main_at_steps rows (S j) Hj Hlen) as [_ Hjn].
  pose proof (main_at_steps_le rows (S i) (S j) ltac:(lia) Hj Hlen) as Hle.
  split; [lia|]. revert Hjn. cfg. intros. Z.div_mod_to_equations. lia.
Qed.

(** *** Progress and the channels that are not used *)

(** What [step_algo_preproc] returns for the row read in state [m]: 1
    when the row completes a frame and [main] calls [step_algo_run]. *)
Definition run_step_algo m row : Z :=
  fst (step_algo_preproc (prog m) (timestamp m + SENSOR_SAMP_INTVL)%sc
         (arx row) (ary row) (arz row) (grx row) (gry row) (grz row)).

(** C24. Every sample is processed within one frame. From any row [i] of
    the input with [SAMP_BUFF_LEN] rows after it, there is a row [j] less
    than [SAMP_BUFF_LEN] rows later for which [step_algo_preproc] returns
    1, so that [main] runs the detector on the frame that holds sample
    [i]: no sample waits in the buffer for more than 51 rows. Any
    arithmetic. *)
Theorem frame_run_within rows i :
  i + Z.to_nat SAMP_BUFF_LEN <= length rows ->
  exists j row,
    i <= j < i + Z.to_nat SAMP_BUFF_LEN /\ rows !! j = Some row
    /\ run_step_algo (main_at rows j) row = 1%Z.
Proof.
  rewrite SAMP_BUFF_LEN_val. change (Z.to_nat 52) with 52. intros Hlen.
  pose proof (Nat.div_mod_eq i 52) as Hdiv.
  pose proof (Nat.mod_upper_bound i 52 ltac:(lia)) as Hmod.
  set (j := 52 * (i / 52) + 51).
  destruct (lookup_lt_is_Some_2 rows j ltac:(lia)) as [row Hrow].
  exists j, row. split; [lia|]. split; [done|].
  destruct (preproc_cadence j (prog (main_at rows j))
              (timestamp (main_at rows j) + SENSOR_SAMP_INTVL)%sc row
              (main_at_cadence rows j ltac:(lia))) as [Hrun _].
  unfold run_step_algo. rewrite Hrun, decide_True; [done|].
  rewrite SAMP_BUFF_LEN_val. unfold j. rewrite Nat2Z.inj_succ, Nat2Z.inj_add, Nat2Z.inj_mul.
  change (Z.of_nat 52) with 52%Z. change (Z.of_nat 51) with 51%Z.
  Z.div_mod_to_equations. lia.
Qed.

(** The channels other than the vertical acceleration do not reach the
    output. *)
Lemma main_step_ary m row row' : ary row = ary row' -> main_step m row = main_step m row'.
Proof. intros Hy. unfold main_step. cbn [step_algo_preproc]. by rewrite Hy. Qed.

Lemma main_loop_ary m rows rows' :
  map ary rows = map ary rows' -> main_loop m rows = main_loop m rows'.
Proof.
  revert m rows'. induction rows as [|row rows IH]; intros m [|row' rows'] Hy; try done.
  injection Hy as Hrow Hrows. rewrite !main_loop_cons, (main_step_ary m row row' Hrow).
  by rewrite (IH _ rows' Hrows).
Qed.

(** C37. Only the vertical acceleration counts. Two inputs with the same
    values of [ary], row by row, give the same output rows and the same
    summary: the record and sensor numbers, the x and z accelerations and
    the three gyroscope channels are read and passed on, and never used.
    Any arithmetic. *)
Theorem main_only_ary rows rows' :
  map ary rows = map ary rows' -> main rows = main rows'.
Proof. intros Hy. unfold main. by rewrite (main_loop_ary main_init rows rows' Hy). Qed.

End PipelineLaws.

(** ** Ageing along the rows *)

Section PipelineAging.
Context {R : Type} `{Scalar R}.
Implicit Types (s : state R) (row : sensor_row R) (j : nat).
Local Open Scope sc_scope.
Hypothesis zero_period : (sc_lit 0 >? EPSILON) = false.
Hypothesis zero_static : classify (sc_lit 0) (sc_lit 0) = STATIC.

(** [j] rows after a frame boundary: both estimates are zero or have been
    held for every frame completed since, and once these are more than
    [BUFF_FACTOR] the motion type is [STATIC]. *)
Definition settling j s : Prop :=
  aged (Z.of_nat j / SAMP_BUFF_LEN) (run_static s)
  /\ ((BUFF_FACTOR < Z.of_nat j / SAMP_BUFF_LEN)%Z ->
      step_type (step_algo_output s) = STATIC).

Lemma step_prog_settling j s ts row :
  cadence_inv j s -> settling j s ->
  (count s = (SAMP_BUFF_LEN - 1)%Z ->
   idle_frame (snd (step_algo_preproc s ts (arx row) (ary row) (arz row) (grx row)
                      (gry row) (grz row)))) ->
  settling (S j) (step_prog s ts row).
Proof.
  intros Hinv [Hage Hlab] Hidle. pose proof (cadence_count_ok j s Hinv) as Hc.
  destruct (preproc_cadence j s ts row Hinv) as [_ [Hr1 _]].
  destruct (preproc_frame s ts (arx row) (ary row) (arz row) (grx row)
              (gry row) (grz row)) as (_ & Hout & Hrs & _).
  destruct (preproc_step_count s ts (arx row) (ary row) (arz row) (grx row)
              (gry row) (grz row) Hc) as [Hfst _].
  destruct Hinv as [_ Hcount]. unfold step_prog, settling. cbv zeta in *.
  destruct (step_algo_preproc s ts _ _ _ _ _ _) as [r s1]. cbn [fst snd] in *. subst r.
  rewrite <- Hrs in Hage. rewrite <- Hout in Hlab.
  destruct (Z.eqb_spec (count s) (SAMP_BUFF_LEN - 1)%Z) as [Hlast|Hmid];
    cbn [Z.eqb Pos.eqb].
  - assert (Z.of_nat (S j) / SAMP_BUFF_LEN = Z.of_nat j / SAMP_BUFF_LEN + 1)%Z as ->
      by (revert Hcount Hlast; cfg; intros; Z.div_mod_to_equations; lia).
    rewrite set_step_algo_output_static, set_step_algo_output_out.
    split; [apply step_algo_run_aged; [exact zero_period|exact Hr1|exact (Hidle Hlast)|exact Hage]|].
    intros Hk. apply idle_frame_static;
      [exact zero_period|exact zero_static|exact Hr1|exact (Hidle Hlast)|].
    apply (aged_weaken (Z.of_nat j / SAMP_BUFF_LEN)); [lia|exact Hage].
  - assert (Z.of_nat (S j) / SAMP_BUFF_LEN = Z.of_nat j / SAMP_BUFF_LEN)%Z as ->
      by (revert Hcount Hmid Hc; unfold count_ok; cfg; intros; Z.div_mod_to_equations; lia).
    split; [exact Hage|exact Hlab].
Qed.


Lemma step_prog_aged_0 n s ts row :
  cadence_inv n s -> aged 0 (run_static s) -> aged 0 (run_static (step_prog s ts row)).
Proof.
  intros Hinv Hs. destruct (preproc_cadence n s ts row Hinv) as [_ [Hr1 _]].
  destruct (preproc_frame s ts (arx row) (ary row) (arz row) (grx row)
              (gry row) (grz row)) as (_ & _ & Hrs & _).
  unfold step_prog. cbv zeta in *.
  destruct (step_algo_preproc s ts _ _ _ _ _ _) as [r s1]. cbn [fst snd] in *.
  rewrite <- Hrs in Hs. destruct (r =? 1)%Z; [|exact Hs].
  rewrite set_step_algo_output_static. by apply step_algo_run_aged_0.
Qed.

(** The hold counters stay within their range along any input. *)
Lemma main_loop_aged_0 rows :
  aged 0 (run_static (prog (fst (main_loop main_init rows)))).
Proof.
  apply (main_loop_ind (fun n s => cadence_inv n s /\ aged 0 (run_static s))).
  - split; [apply main_init_ready|]. by split; (split; [|right]).
  - intros n s ts row [Hinv Hs].
    split; [by apply step_prog_cadence|by apply (step_prog_aged_0 n)].
Qed.

End PipelineAging.

(** ** Laws of exact arithmetic *)

Section PipelineExact.
Context {R : Type} `{ExactScalar R}.
Implicit Types (m : main_state R) (row : sensor_row R)
  (rows : list (sensor_row R)) (s : state R).

Lemma step_prog_counters s ts row :
  counters_inv s -> counters_inv (step_prog s ts row).
Proof.
  intros Hs. apply (preproc_counters s ts row) in Hs. unfold step_prog.
  destruct (step_algo_preproc _ _ _ _ _ _ _ _) as [r s1]. cbn [fst snd] in *.
  destruct (r =? 1)%Z; [|done]. destruct Hs as (Hagree & Hu & Hc).
  pose proof (step_algo_run_agree s1 (step_algo_output s1) Hagree) as Ha.
  pose proof (step_algo_run_step_count s1 (step_algo_output s1)) as Hsc.
  pose proof (step_algo_run_step_type s1 (step_algo_output s1)) as Hst.
  destruct (step_algo_run s1 (step_algo_output s1)) as [s' out'].
  cbn [fst snd] in *. unfold counters_inv.
  change (step_algo_output (set_step_algo_output s' out')) with out'.
  split; [exact Ha|]. rewrite Hsc, Hst.
  split; [apply u32_add_range|apply classify_is_class].
Qed.

Lemma main_loop_counters rows :
  counters_inv (prog (fst (main_loop main_init rows))).
Proof.
  apply main_loop_inv; [apply main_init_counters|].
  intros s ts row. apply step_prog_counters.
Qed.

(** The total of the summary line. *)
Definition summary_total (x : R * Z * Z * Z * Z) : Z :=
  let '(_, total, _, _, _) := x in total.

(** C1. Whatever the input, the step count printed on the last output row
    is the total of the summary, the sum of the walking, running and
    hopping counts in [unsigned int] arithmetic: no step is counted
    without being attributed to a class. Exact arithmetic. *)
Theorem main_total_matches rows o :
  last (fst (main rows)) = Some o ->
  out_step_count o = summary_total (snd (main rows)).
Proof.
  unfold main. pose proof (main_loop_counters rows) as (Hagree & Hu & _).
  pose proof (main_loop_last main_init rows o) as Hlast.
  destruct (main_loop main_init rows) as [m os]. cbn [fst snd] in *.
  intros Ho. rewrite (Hlast Ho). unfold counts_agree in Hagree. cbn.
  rewrite <-(wrap32_small _ Hu), Hagree. unfold u32_add.
  by rewrite wrap32_add_l.
Qed.

(** *** A sensor at rest *)

(** What every row prints, given a property of the rows and a property of
    the program state, indexed by the number of rows read, that such rows
    preserve. *)
Lemma main_loop_outputs_on (A : sensor_row R -> Prop)
    (P : nat -> state R -> Prop) (Q : output_row R -> Prop) m rows :
  Forall A rows -> P 0%nat (prog m) ->
  (forall n s ts row, A row -> P n s -> P (S n) (step_prog s ts row)) ->
  (forall n m row, P n (prog (fst (main_step m row))) -> Q (snd (main_step m row))) ->
  Forall Q (snd (main_loop m rows)).
Proof.
  intros Hrows Hinit Hstep HQ. revert P m Hinit Hstep HQ.
  induction Hrows as [|row rows Hrow _ IH]; intros P m Hinit Hstep HQ;
    [by constructor|].
  rewrite main_loop_cons. cbn [snd].
  assert (P 1%nat (prog (fst (main_step m row))))
    by (rewrite main_step_prog; by apply Hstep).
  constructor; [by apply (HQ 1%nat)|].
  apply (IH (fun n => P (S n))); [done|by auto|by eauto].
Qed.

Lemma filters_init_settled :
  settled (R:=R) lp_filter_init 0 0 /\ settled (R:=R) ll_filter_init 0 0.
Proof. repeat split; apply toQ_lit. Qed.

Lemma step_prog_quiet n s ts row :
  toQ (ary row) == 0 -> cadence_inv n s /\ quiet_state s ->
  cadence_inv (S n) (step_prog s ts row) /\ quiet_state (step_prog s ts row).
Proof.
  intros Hrow [Hcad Hq]. split; [by apply step_prog_cadence|].
  pose proof (preproc_quiet s ts (arx row) (ary row) (arz row) (grx row)
    (gry row) (grz row) (cadence_count_ok n s Hcad) Hq Hrow) as Hq'.
  unfold step_prog. cbv zeta. case_match; [|exact Hq'].
  by apply step_algo_run_quiet.
Qed.

(** C2. A sensor at rest counts nothing. If the vertical acceleration of
    every row is zero, every output row shows a step count of 0, the label
    STATIONARY and the code of [STATIC], however long the input. Exact
    arithmetic. *)
Theorem quiet_input_static rows :
  Forall (fun row => toQ (ary row) == 0) rows ->
  Forall (fun o =>
    out_step_count o = 0%Z /\ out_step_type o = Some "STATIONARY"%string
    /\ out_step_type_num o = 0%Z)
    (snd (main_loop main_init rows)).
Proof.
  intros Hrows.
  apply (main_loop_outputs_on _ (fun n s => cadence_inv n s /\ quiet_state s)
           _ _ _ Hrows).
  - split; [apply main_init_ready|]. split; [apply main_init_ready|].
    do 2 (split; [apply filters_init_settled|]).
    split; [apply Forall_replicate, toQ_lit|].
    by repeat split; try apply toQ_lit.
  - intros n s ts row. apply step_prog_quiet.
  - intros _ m row [_ (_ & _ & _ & _ & _ & _ & Hc & Ht)].
    destruct (main_step_output m row) as (_ & -> & -> & -> & ->).
    by rewrite Hc, Ht.
Qed.

(** *** The clock *)

Lemma main_loop_timestamp m rows :
  toQ (timestamp (fst (main_loop m rows)))
  == toQ (timestamp m) + inject_Z (Z.of_nat (length rows)) * (1 # 104).
Proof.
  revert m. induction rows as [|row rows IH]; intros m.
  - cbn [main_loop fst length]. change (inject_Z (Z.of_nat 0)) with 0%Q. lra.
  - rewrite main_loop_cons. cbn [fst length]. rewrite IH, main_step_timestamp.
    rewrite toQ_add, SENSOR_SAMP_INTVL_exact, Nat2Z.inj_succ.
    unfold Z.succ. rewrite inject_Z_plus. change (inject_Z 1) with 1%Q. lra.
Qed.

Lemma inject_Z_over n (d : positive) : inject_Z n * (1 # d) == n # d.
Proof. unfold Qeq. cbn. lia. Qed.

(** The timestamp printed on output row [i] (counted from 0) is
    [(i+1)/104] seconds: the clock starts at 0 and advances by the sampling
    interval before each row is processed. Exact arithmetic. *)
Theorem main_output_timestamp rows i o :
  snd (main_loop main_init rows) !! i = Some o ->
  toQ (out_timestamp o) == Z.of_nat (S i) # 104.
Proof.
  intros Ho.
  destruct (lookup_lt_is_Some_2 rows i) as [row Hrow];
    [apply lookup_lt_Some in Ho; by rewrite main_loop_length in Ho|].
  rewrite (main_at_output rows i row Hrow) in Ho. injection Ho as <-.
  rewrite (proj1 (main_step_output (main_at rows i) row)).
  rewrite <-(main_at_S rows i row Hrow). unfold main_at.
  rewrite main_loop_timestamp, length_take_le
    by (apply lookup_lt_Some in Hrow; lia).
  rewrite <-(inject_Z_over (Z.of_nat (S i)) 104).
  cbn [timestamp main_init]. rewrite toQ_lit. lra.
Qed.

End PipelineExact.

(** ** Two quiet frames

    104 rows of zero acceleration: the filters stay at zero, two frames are
    scanned, no step is found. *)

Definition quiet_row : sensor_row Qcanon.Qc :=
  mk_sensor_row 0 0 (sc_lit 0) (sc_lit 0) (sc_lit 0) (sc_lit 0) (sc_lit 0)
    (sc_lit 0).

Definition quiet_rows : list (sensor_row Qcanon.Qc) := replicate 104 quiet_row.

(** The row printed for the last of the quiet rows. *)
Definition quiet_last : output_row Qcanon.Qc :=
  snd (main_step (fst (main_loop main_init (replicate 103 quiet_row))) quiet_row).

Lemma main_total_matches_witness :
  out_step_count quiet_last = summary_total (snd (main quiet_rows)).
Proof.
  apply (main_total_matches quiet_rows quiet_last). vm_compute. reflexivity.
Defined.

(** The rows printed for the first two quiet rows. *)
Definition quiet_first : output_row Qcanon.Qc :=
  snd (main_step main_init quiet_row).

Definition quiet_second : output_row Qcanon.Qc :=
  snd (main_step (fst (main_step main_init quiet_row)) quiet_row).

Lemma main_output_holds_witness :
  out_step_count quiet_second = out_step_count quiet_first
  /\ out_step_type_num quiet_second = out_step_type_num quiet_first
  /\ out_step_type quiet_second = out_step_type quiet_first.
Proof.
  apply (main_output_holds [quiet_row; quiet_row] 0 quiet_first quiet_second);
    [vm_compute; reflexivity..|by vm_compute].
Defined.

Lemma main_output_timestamp_witness :
  toQ (out_timestamp quiet_second) == 2 # 104.
Proof.
  apply (main_output_timestamp [quiet_row; quiet_row] 1 quiet_second).
  vm_compute. reflexivity.
Defined.

Lemma quiet_input_static_witness :
  Forall (fun o =>
    out_step_count o = 0%Z /\ out_step_type o = Some "STATIONARY"%string
    /\ out_step_type_num o = 0%Z)
    (snd (main_loop main_init quiet_rows)).
Proof.
  apply (quiet_input_static quiet_rows). apply Forall_replicate. reflexivity.
Defined.

Lemma main_counts_monotone_witness :
  (0 <= out_step_count quiet_first <= out_step_count quiet_second)%Z
  /\ (out_step_count quiet_second <= Z.of_nat 2)%Z.
Proof.
  apply (main_counts_monotone [quiet_row; quiet_row] 0 1 quiet_first quiet_second);
    [by vm_compute|lia|vm_compute; reflexivity..].
Defined.

Lemma frame_run_within_witness :
  exists j row,
    10 <= j < 10 + Z.to_nat SAMP_BUFF_LEN /\ quiet_rows !! j = Some row
    /\ run_step_algo (main_at quiet_rows j) row = 1%Z.
Proof. apply (frame_run_within quiet_rows 10). vm_compute. lia. Defined.

Lemma main_only_ary_witness :
  main (replicate 3 quiet_row)
  = main (replicate 3 (mk_sensor_row 7 3 (sc_lit 1) (sc_lit 0) (sc_lit 2) (sc_lit 3)
                          (sc_lit 4) (sc_lit 5))).
Proof. by apply main_only_ary. Defined.
