(* ===== verification/Trace.v ===== *)
(** * Trace: the scan as a labelled transition system

    One iteration of the scan of [step_algo_run] (pedometer.c lines 295-343)
    does one of four things: nothing ([Idle]); it refuses a candidate
    extremum that is too close in value to the last extremum of the other
    kind, possibly after clamping the timestamp of the last extremum of its
    own kind ([Refused]); it commits a maximum ([MaxFound]); or it commits a
    minimum, which is a step ([MinFound]).

    This file names the tests and the updates of the two branches
    ([max_candidate], [max_apart], [clamp_max], [commit_max], and the same
    for minima), gives the step relation [scan_rel] and its closure
    [scan_run], and proves that [detect_sample] computes the one successor
    the relation allows, so that the scan loop of a frame is a run.

    Properties of runs are then proved by induction on [scan_run]: the
    stored timestamps never move back; minima are committed more than
    0.2 s apart, and so are maxima; when the timestamps of the samples
    increase and no refusal clamps, maxima and minima alternate. *)

From Stdlib Require Import QArith Qabs ZArith Lia Lqa List.
From stdpp Require Import base tactics list.
From S2P Require Import Prelude.
From S2P Require Import Scalar.
From S2P Require Import Types.
From S2P Require Import Filter.
From S2P Require Import State.
From S2P Require Import Detector.

(** ** Events *)

Inductive event : Type :=
  | Idle
  | Refused (clamped : bool)
  | MaxFound
  | MinFound.

#[export] Instance event_eq_dec : EqDecision event.
Proof. solve_decision. Defined.

(** ** The tests and the updates of the two branches *)

Section Trace.
Context {R : Type} `{Scalar R}.
Local Open Scope sc_scope.
Implicit Types (l : Loc.t R) (cur prevd v ts : R).

(** Line 297: a falling zero crossing of the derivative. *)
Definition falling cur prevd : bool :=
  (cur <? - EPSILON) && (prevd >=? sc_lit 0).

(** Line 321: a rising zero crossing. *)
Definition rising cur prevd : bool :=
  (cur >? EPSILON) && (prevd <=? sc_lit 0).

(** Lines 297-301: a candidate maximum: a falling crossing, past the dead
    time, large enough in magnitude. *)
Definition max_candidate cur prevd v ts l : bool :=
  falling cur prevd && (ts - Loc.prev_max_ts l >? NO_DETECT_DUR_SEC)
  && (sc_abs v >? CLOSE_TO_ZERO).

(** Lines 321-323: a candidate minimum. *)
Definition min_candidate cur prevd ts l : bool :=
  rising cur prevd && (ts - Loc.prev_min_ts l >? NO_DETECT_DUR_SEC).

(** Lines 305 and 328: the candidate comes more than
    [MAX_TIME_PERIOD_SEC] after the last extremum of its kind. *)
Definition max_late ts l : bool :=
  ts >? Loc.prev_max_ts l + MAX_TIME_PERIOD_SEC.

Definition min_late ts l : bool :=
  ts >? Loc.prev_min_ts l + MAX_TIME_PERIOD_SEC.

(** Lines 305-306 and 328-329. *)
Definition clamp_max ts l : Loc.t R :=
  if max_late ts l then Loc.set_prev_max_ts l (ts - MAX_TIME_PERIOD_SEC) else l.

Definition clamp_min ts l : Loc.t R :=
  if min_late ts l then Loc.set_prev_min_ts l (ts - MAX_TIME_PERIOD_SEC) else l.

(** Lines 308 and 331: the separation from the last extremum of the other
    kind. *)
Definition max_apart v l : bool := v - Loc.prev_min_val l >? CLOSE_TO_ZERO.

Definition min_apart v l : bool := Loc.prev_max_val l - v >? CLOSE_TO_ZERO.

(** Lines 309-313. *)
Definition commit_max v ts l : Loc.t R :=
  {| Loc.prev_max_val := v;
     Loc.prev_max_ts := ts;
     Loc.prev_min_val := Loc.prev_min_val l;
     Loc.prev_min_ts := Loc.prev_min_ts l;
     Loc.avg_max_val := Loc.avg_max_val l + v;
     Loc.avg_min_val := Loc.avg_min_val l;
     Loc.avg_time_period := Loc.avg_time_period l + (ts - Loc.prev_max_ts l);
     Loc.amp_est := Loc.amp_est l;
     Loc.count_max_det := u32_add (Loc.count_max_det l) 1;
     Loc.count_min_det := Loc.count_min_det l |}.

(** Lines 332-339. *)
Definition commit_min v ts l : Loc.t R :=
  {| Loc.prev_max_val := Loc.prev_max_val l;
     Loc.prev_max_ts := Loc.prev_max_ts l;
     Loc.prev_min_val := v;
     Loc.prev_min_ts := ts;
     Loc.avg_max_val := Loc.avg_max_val l;
     Loc.avg_min_val := Loc.avg_min_val l + v;
     Loc.avg_time_period := Loc.avg_time_period l + (ts - Loc.prev_min_ts l);
     Loc.amp_est := Loc.amp_est l + (Loc.prev_max_val l - v);
     Loc.count_max_det := Loc.count_max_det l;
     Loc.count_min_det := u32_add (Loc.count_min_det l) 1 |}.

(** What an iteration does, computed from the tests. *)
Definition event_of l (x : R * R * R * R) : event :=
  let '(cur, prevd, v, ts) := x in
  if max_mode l then
    if max_candidate cur prevd v ts l then
      if max_apart v l then MaxFound else Refused (max_late ts l)
    else Idle
  else
    if min_candidate cur prevd ts l then
      if min_apart v l then MinFound else Refused (min_late ts l)
    else Idle.

(** The events of a list of samples, from the locals [l]. *)
Fixpoint events_of l (xs : list (R * R * R * R)) : list event :=
  match xs with
  | [] => []
  | x :: xs' => event_of l x :: events_of (scan_step l x) xs'
  end.

(** ** The step relation *)

Inductive scan_rel : Loc.t R -> R * R * R * R -> event -> Loc.t R -> Prop :=
  | rel_max_found l cur prevd v ts :
      max_mode l = true -> max_candidate cur prevd v ts l = true ->
      max_apart v l = true ->
      scan_rel l (cur, prevd, v, ts) MaxFound (commit_max v ts (clamp_max ts l))
  | rel_max_refused l cur prevd v ts :
      max_mode l = true -> max_candidate cur prevd v ts l = true ->
      max_apart v l = false ->
      scan_rel l (cur, prevd, v, ts) (Refused (max_late ts l)) (clamp_max ts l)
  | rel_max_idle l cur prevd v ts :
      max_mode l = true -> max_candidate cur prevd v ts l = false ->
      scan_rel l (cur, prevd, v, ts) Idle l
  | rel_min_found l cur prevd v ts :
      max_mode l = false -> min_candidate cur prevd ts l = true ->
      min_apart v l = true ->
      scan_rel l (cur, prevd, v, ts) MinFound (commit_min v ts (clamp_min ts l))
  | rel_min_refused l cur prevd v ts :
      max_mode l = false -> min_candidate cur prevd ts l = true ->
      min_apart v l = false ->
      scan_rel l (cur, prevd, v, ts) (Refused (min_late ts l)) (clamp_min ts l)
  | rel_min_idle l cur prevd v ts :
      max_mode l = false -> min_candidate cur prevd ts l = false ->
      scan_rel l (cur, prevd, v, ts) Idle l.

(** Runs: the closure of the step relation, with the samples consumed and
    the events produced. *)
Inductive scan_run :
    Loc.t R -> list (R * R * R * R) -> list event -> Loc.t R -> Prop :=
  | run_done l : scan_run l [] [] l
  | run_step l x e l1 xs es l2 :
      scan_rel l x e l1 -> scan_run l1 xs es l2 ->
      scan_run l (x :: xs) (e :: es) l2.

(** The number of steps a list of events counts. *)
Definition steps_of (es : list event) : nat :=
  length (filter (fun e => e = MinFound) es).

End Trace.

(** ** The code against the relation, in any arithmetic *)

Section TraceLaws.
Context {R : Type} `{Scalar R}.
Implicit Types (l : Loc.t R) (cur prevd v ts : R) (x : R * R * R * R)
  (xs : list (R * R * R * R)) (es : list event).

(** The two branches of the code, through the named tests and updates. *)
Lemma max_search_eq cur prevd v ts l :
  max_search cur prevd v ts l =
  if max_candidate cur prevd v ts l then
    if max_apart v l then commit_max v ts (clamp_max ts l) else clamp_max ts l
  else l.
Proof.
  unfold max_search, max_candidate, falling, max_apart, clamp_max, max_late,
    commit_max.
  destruct (sc_ltb cur _), (sc_leb _ prevd); cbn [andb]; try reflexivity.
  destruct (sc_ltb NO_DETECT_DUR_SEC _); cbn [andb]; [|reflexivity].
  destruct (sc_ltb CLOSE_TO_ZERO (sc_abs v)); [|reflexivity].
  by destruct (sc_ltb _ ts).
Qed.

Lemma min_search_eq cur prevd v ts l :
  min_search cur prevd v ts l =
  if min_candidate cur prevd ts l then
    if min_apart v l then commit_min v ts (clamp_min ts l) else clamp_min ts l
  else l.
Proof.
  unfold min_search, min_candidate, rising, min_apart, clamp_min, min_late,
    commit_min.
  destruct (sc_ltb _ cur), (sc_leb prevd _); cbn [andb]; try reflexivity.
  destruct (sc_ltb NO_DETECT_DUR_SEC _); [|reflexivity].
  by destruct (sc_ltb _ ts).
Qed.

(** The step the code takes is a step of the relation. *)
Lemma scan_step_rel l x : scan_rel l x (event_of l x) (scan_step l x).
Proof.
  destruct x as [[[cur prevd] v] ts]. unfold scan_step, detect_sample, event_of.
  rewrite max_search_eq, min_search_eq.
  destruct (max_mode l) eqn:Hm.
  - destruct (max_candidate cur prevd v ts l) eqn:Hc; [|by constructor].
    destruct (max_apart v l) eqn:Ha; by constructor.
  - destruct (min_candidate cur prevd ts l) eqn:Hc; [|by constructor].
    destruct (min_apart v l) eqn:Ha; by constructor.
Qed.

(** The relation allows nothing else. *)
Lemma scan_rel_fun l x e l' :
  scan_rel l x e l' -> e = event_of l x /\ l' = scan_step l x.
Proof.
  intros Hrel. unfold scan_step.
  destruct Hrel as [l cur prevd v ts Hm Hc Ha|l cur prevd v ts Hm Hc Ha
    |l cur prevd v ts Hm Hc|l cur prevd v ts Hm Hc Ha|l cur prevd v ts Hm Hc Ha
    |l cur prevd v ts Hm Hc];
    unfold detect_sample, event_of; rewrite ?max_search_eq, ?min_search_eq;
    rewrite Hm, Hc, ?Ha; done.
Qed.

Lemma scan_run_fold l xs : scan_run l xs (events_of l xs) (fold_left scan_step xs l).
Proof.
  revert l. induction xs as [|x xs IH]; intros l; [constructor|].
  cbn [events_of fold_left]. econstructor; [apply scan_step_rel|apply IH].
Qed.

Lemma scan_run_fun l xs es l' :
  scan_run l xs es l' -> es = events_of l xs /\ l' = fold_left scan_step xs l.
Proof.
  induction 1 as [l|l x e l1 xs es l2 Hrel _ [-> ->]]; [done|].
  destruct (scan_rel_fun _ _ _ _ Hrel) as [-> ->]. done.
Qed.

Lemma scan_run_app l xs1 es1 l1 xs2 es2 l2 :
  scan_run l xs1 es1 l1 -> scan_run l1 xs2 es2 l2 ->
  scan_run l (xs1 ++ xs2) (es1 ++ es2) l2.
Proof.
  induction 1 as [l|l x e l1' xs es l1 Hrel _ IH]; intros Hrun; [done|].
  cbn. econstructor; [exact Hrel|by apply IH].
Qed.

(** The samples of the frame held in the statics [rs], in scan order. *)
Definition frame_samples (rs : run_static_t R) : list (R * R * R * R) :=
  map (scan_sample rs) (seq 0 FRAME_LEN).

(** A step of the relation moves the two counters as its event says. *)
Lemma scan_rel_counts l x e l' :
  scan_rel l x e l' ->
  Loc.count_max_det l'
  = (if decide (e = MaxFound) then u32_add (Loc.count_max_det l) 1
     else Loc.count_max_det l)
  /\ Loc.count_min_det l'
     = (if decide (e = MinFound) then u32_add (Loc.count_min_det l) 1
        else Loc.count_min_det l).
Proof.
  destruct 1; unfold clamp_max, clamp_min; repeat case_match; by cbn.
Qed.

(** Along a run the step counter grows by the number of [MinFound]
    events, modulo 2^32. *)
Lemma scan_run_steps l xs es l' :
  scan_run l xs es l' ->
  wrap32 (Loc.count_min_det l')
  = wrap32 (Loc.count_min_det l + Z.of_nat (steps_of es)).
Proof.
  induction 1 as [l|l x e l1 xs es l2 Hrel _ IH].
  - f_equal. cbn. lia.
  - rewrite IH. destruct (scan_rel_counts _ _ _ _ Hrel) as [_ ->].
    unfold steps_of. cbn [filter]. unfold filter at 2. cbn.
    case_decide; cbn [length]; u32_solve.
Qed.

(** C7. The scan loop of a frame is a run of the transition system. The
    locals after the loop of lines 291-344 are reached from the locals
    before it by one step of [scan_rel] per sample of the frame, in order,
    and the step counter has grown by the number of [MinFound] events of
    that run, modulo 2^32. Any arithmetic. *)
Theorem detect_loop_run (rs : run_static_t R) l :
  let l' := snd (detect_loop (rs, l)) in
  let es := events_of l (frame_samples rs) in
  scan_run l (frame_samples rs) es l'
  /\ wrap32 (Loc.count_min_det l')
     = wrap32 (Loc.count_min_det l + Z.of_nat (steps_of es)).
Proof.
  cbv zeta. rewrite detect_loop_snd.
  pose proof (scan_run_fold l (frame_samples rs)) as Hrun.
  split; [exact Hrun|]. exact (scan_run_steps _ _ _ _ Hrun).
Qed.

End TraceLaws.

(** ** Runs in exact arithmetic *)

Section TraceExact.
Context {R : Type} `{ExactScalar R}.
Implicit Types (l : Loc.t R) (cur prevd v ts : R) (x : R * R * R * R)
  (xs : list (R * R * R * R)) (es : list event).
Local Open Scope Q_scope.

(** The timestamp of a sample. *)
Definition sample_ts x : R := snd x.

(** The timestamps of the samples at which a run produced the event [e]. *)
Fixpoint times_of (e : event) xs es : list R :=
  match xs, es with
  | x :: xs', e' :: es' =>
      if decide (e' = e) then sample_ts x :: times_of e xs' es'
      else times_of e xs' es'
  | _, _ => []
  end.

(** Each time is more than [d] after the one before it, the first more
    than [d] after [t0]. *)
Fixpoint spaced (d t0 : Q) (times : list R) : Prop :=
  match times with
  | [] => True
  | t :: times' => t0 + d < toQ t /\ spaced d (toQ t) times'
  end.

(** The timestamps of the samples increase, from above [t0]. *)
Fixpoint increasing (t0 : Q) xs : Prop :=
  match xs with
  | [] => True
  | x :: xs' => t0 < toQ (sample_ts x) /\ increasing (toQ (sample_ts x)) xs'
  end.

(** Maxima and minima take turns; [want_max] tells which is due. *)
Fixpoint alternates (want_max : bool) es : Prop :=
  match es with
  | [] => True
  | MaxFound :: es' => want_max = true /\ alternates false es'
  | MinFound :: es' => want_max = false /\ alternates true es'
  | _ :: es' => alternates want_max es'
  end.

Lemma spaced_weaken d t0 t0' (times : list R) :
  t0' <= t0 -> spaced d t0 times -> spaced d t0' times.
Proof. destruct times; [done|]. cbn. intros Hle [Hlt Hs]. split; [lra|done]. Qed.

(** The tests, as facts about rationals. *)
Lemma max_candidate_true cur prevd v ts l :
  max_candidate cur prevd v ts l = true ->
  toQ cur < - (1 # 1000000) /\ 0 <= toQ prevd
  /\ (2 # 10) < toQ ts - toQ (Loc.prev_max_ts l) /\ (15 # 10) < Qabs (toQ v).
Proof.
  unfold max_candidate, falling, EPSILON, NO_DETECT_DUR_SEC, CLOSE_TO_ZERO.
  rewrite !andb_true_iff. intros [[[? ?] ?] ?]. sc_reflect. sc_push.
  repeat split; lra.
Qed.

Lemma min_candidate_true cur prevd ts l :
  min_candidate cur prevd ts l = true ->
  (1 # 1000000) < toQ cur /\ toQ prevd <= 0
  /\ (2 # 10) < toQ ts - toQ (Loc.prev_min_ts l).
Proof.
  unfold min_candidate, rising, EPSILON, NO_DETECT_DUR_SEC.
  rewrite !andb_true_iff. intros [[? ?] ?]. sc_reflect. sc_push.
  repeat split; lra.
Qed.

(** The clamp moves its timestamp forward, and only when it is late. *)
Lemma clamp_max_spec ts l :
  let l' := clamp_max ts l in
  toQ (Loc.prev_max_ts l) <= toQ (Loc.prev_max_ts l')
  /\ (max_late ts l = false -> l' = l)
  /\ (toQ (Loc.prev_max_ts l) <= toQ ts -> toQ (Loc.prev_max_ts l') <= toQ ts)
  /\ Loc.prev_min_ts l' = Loc.prev_min_ts l
  /\ Loc.prev_min_val l' = Loc.prev_min_val l.
Proof.
  unfold clamp_max, max_late, MAX_TIME_PERIOD_SEC.
  destruct (sc_ltb _ ts) eqn:Hl; cbn; sc_reflect; sc_push;
    repeat split; intros; (done || lra).
Qed.

Lemma clamp_min_spec ts l :
  let l' := clamp_min ts l in
  toQ (Loc.prev_min_ts l) <= toQ (Loc.prev_min_ts l')
  /\ (min_late ts l = false -> l' = l)
  /\ (toQ (Loc.prev_min_ts l) <= toQ ts -> toQ (Loc.prev_min_ts l') <= toQ ts)
  /\ Loc.prev_max_ts l' = Loc.prev_max_ts l
  /\ Loc.prev_max_val l' = Loc.prev_max_val l.
Proof.
  unfold clamp_min, min_late, MAX_TIME_PERIOD_SEC.
  destruct (sc_ltb _ ts) eqn:Hl; cbn; sc_reflect; sc_push;
    repeat split; intros; (done || lra).
Qed.

(** The stored timestamps never move back, and stay at or before the
    sample just scanned if they were before it. *)
Lemma scan_rel_ts l x e l' :
  scan_rel l x e l' ->
  toQ (Loc.prev_max_ts l) <= toQ (Loc.prev_max_ts l')
  /\ toQ (Loc.prev_min_ts l) <= toQ (Loc.prev_min_ts l')
  /\ (toQ (Loc.prev_max_ts l) <= toQ (sample_ts x) ->
      toQ (Loc.prev_max_ts l') <= toQ (sample_ts x))
  /\ (toQ (Loc.prev_min_ts l) <= toQ (sample_ts x) ->
      toQ (Loc.prev_min_ts l') <= toQ (sample_ts x)).
Proof.
  destruct 1 as [l cur prevd v ts Hm Hc Ha|l cur prevd v ts Hm Hc Ha
    |l cur prevd v ts Hm Hc|l cur prevd v ts Hm Hc Ha|l cur prevd v ts Hm Hc Ha
    |l cur prevd v ts Hm Hc]; cbn [sample_ts snd];
    try apply max_candidate_true in Hc as (_ & _ & Hd & _);
    try apply min_candidate_true in Hc as (_ & _ & Hd);
    destruct (clamp_max_spec ts l) as (Hx1 & _ & Hx2 & Hx3 & _);
    destruct (clamp_min_spec ts l) as (Hn1 & _ & Hn2 & Hn3 & _);
    cbv zeta in *; cbn [commit_max commit_min Loc.prev_max_ts Loc.prev_min_ts];
    rewrite ?Hx3, ?Hn3; repeat split; intros;
    try apply Hx2; try apply Hn2; lra.
Qed.

Lemma scan_run_ts l xs es l' :
  scan_run l xs es l' ->
  toQ (Loc.prev_max_ts l) <= toQ (Loc.prev_max_ts l')
  /\ toQ (Loc.prev_min_ts l) <= toQ (Loc.prev_min_ts l').
Proof.
  induction 1 as [l|l x e l1 xs es l2 Hrel _ [IH1 IH2]]; [split; lra|].
  destruct (scan_rel_ts _ _ _ _ Hrel) as (? & ? & _). split; lra.
Qed.

(** What a commit stores, and when it may happen. *)
Lemma scan_rel_commit l x e l' :
  scan_rel l x e l' ->
  (e = MinFound ->
     max_mode l = false /\ Loc.prev_min_ts l' = sample_ts x
     /\ Loc.prev_max_ts l' = Loc.prev_max_ts l
     /\ toQ (Loc.prev_min_ts l) + (2 # 10) < toQ (sample_ts x))
  /\ (e = MaxFound ->
     max_mode l = true /\ Loc.prev_max_ts l' = sample_ts x
     /\ Loc.prev_min_ts l' = Loc.prev_min_ts l
     /\ toQ (Loc.prev_max_ts l) + (2 # 10) < toQ (sample_ts x)).
Proof.
  destruct 1 as [l cur prevd v ts Hm Hc Ha|l cur prevd v ts Hm Hc Ha
    |l cur prevd v ts Hm Hc|l cur prevd v ts Hm Hc Ha|l cur prevd v ts Hm Hc Ha
    |l cur prevd v ts Hm Hc]; (split; intros He; [try discriminate He..]).
  - apply max_candidate_true in Hc as (_ & _ & Hd & _).
    destruct (clamp_max_spec ts l) as (_ & _ & _ & Hx3 & _).
    cbn. repeat split; [done|done|lra].
  - apply min_candidate_true in Hc as (_ & _ & Hd).
    destruct (clamp_min_spec ts l) as (_ & _ & _ & Hn3 & _).
    cbn. repeat split; [done|done|lra].
Qed.

(** C5. Dead time between steps. Along any run, the minima committed are
    more than 0.2 s apart, and the first is more than 0.2 s after the
    minimum stored when the run began; the same holds for the maxima.
    Whatever the timestamps of the samples, and whether a clamp fires or
    not. Exact arithmetic. *)
Theorem commits_spaced l xs es l' :
  scan_run l xs es l' ->
  spaced (2 # 10) (toQ (Loc.prev_min_ts l)) (times_of MinFound xs es)
  /\ spaced (2 # 10) (toQ (Loc.prev_max_ts l)) (times_of MaxFound xs es).
Proof.
  induction 1 as [l|l x e l1 xs es l2 Hrel _ [IHmin IHmax]]; [done|].
  destruct (scan_rel_ts _ _ _ _ Hrel) as (Hmax & Hmin & _).
  destruct (scan_rel_commit _ _ _ _ Hrel) as [Hcmin Hcmax].
  cbn [times_of]. split; case_decide as He.
  - destruct (Hcmin He) as (_ & Hts & _ & Hd). rewrite Hts in IHmin. by split.
  - by apply (spaced_weaken _ _ _ _ Hmin).
  - destruct (Hcmax He) as (_ & Hts & _ & Hd). rewrite Hts in IHmax. by split.
  - by apply (spaced_weaken _ _ _ _ Hmax).
Qed.

(** The mode after a step, when the stored timestamps are not later than
    [t0] and the sample is later than [t0]. *)
Lemma scan_rel_mode (t0 : Q) l x e l' :
  scan_rel l x e l' -> e <> Refused true ->
  toQ (Loc.prev_max_ts l) <= t0 -> toQ (Loc.prev_min_ts l) <= t0 ->
  t0 < toQ (sample_ts x) ->
  max_mode l' =
    match e with
    | MaxFound => false
    | MinFound => true
    | _ => max_mode l
    end.
Proof.
  intros Hrel He Hmax Hmin Ht.
  destruct (scan_rel_commit _ _ _ _ Hrel) as [Hcmin Hcmax].
  destruct Hrel as [l cur prevd v ts Hm Hc Ha|l cur prevd v ts Hm Hc Ha
    |l cur prevd v ts Hm Hc|l cur prevd v ts Hm Hc Ha|l cur prevd v ts Hm Hc Ha
    |l cur prevd v ts Hm Hc]; try reflexivity.
  - destruct (Hcmax eq_refl) as (_ & Hts & Hts' & _). unfold max_mode.
    rewrite Hts, Hts'. apply sc_leb_gt. cbn [sample_ts snd] in *. lra.
  - destruct (max_late ts l) eqn:Hl; [done|].
    by rewrite (proj1 (proj2 (clamp_max_spec ts l)) Hl).
  - destruct (Hcmin eq_refl) as (_ & Hts & Hts' & _). unfold max_mode.
    rewrite Hts, Hts'. apply sc_leb_le. cbn [sample_ts snd] in *. lra.
  - destruct (min_late ts l) eqn:Hl; [done|].
    by rewrite (proj1 (proj2 (clamp_min_spec ts l)) Hl).
Qed.

(** C6. Alternation. Along a run whose samples have increasing
    timestamps, later than both stored timestamps, and in which no refused
    candidate is clamped, maxima and minima are committed in turn, starting
    with the kind the scan is looking for. Exact arithmetic. *)
Theorem commits_alternate (t0 : Q) l xs es l' :
  scan_run l xs es l' -> increasing t0 xs ->
  toQ (Loc.prev_max_ts l) <= t0 -> toQ (Loc.prev_min_ts l) <= t0 ->
  Refused true ∉ es ->
  alternates (max_mode l) es.
Proof.
  intros Hrun. revert t0.
  induction Hrun as [l|l x e l1 xs es l2 Hrel _ IH]; intros t0 Hinc Hmax Hmin Hno;
    [done|].
  destruct Hinc as [Ht Hinc]. apply not_elem_of_cons in Hno as [He Hno].
  assert (e <> Refused true) as He' by (intros ->; by apply He).
  pose proof (scan_rel_mode t0 _ _ _ _ Hrel He' Hmax Hmin Ht) as Hmode.
  destruct (scan_rel_ts _ _ _ _ Hrel) as (_ & _ & Hmax' & Hmin').
  specialize (IH _ Hinc (Hmax' ltac:(lra)) (Hmin' ltac:(lra)) Hno).
  destruct (scan_rel_commit _ _ _ _ Hrel) as [Hcmin Hcmax].
  rewrite Hmode in IH.
  destruct e; cbn [alternates]; [done|done|..].
  - split; [apply (Hcmax eq_refl)|done].
  - split; [apply (Hcmin eq_refl)|done].
Qed.

End TraceExact.

(** ** Two runs on rational samples *)

(** After a maximum: a peak the scan is not looking for, then a trough, a
    peak and a trough, half a second apart. *)
Definition walk_samples : list (Qcanon.Qc * Qcanon.Qc * Qcanon.Qc * Qcanon.Qc) :=
  [ (sc_opp (sc_lit 1), sc_lit 1, sc_lit 12, sc_lit 2);
    (sc_lit 1, sc_opp (sc_lit 1), sc_lit 2, sc_lit (25 # 10));
    (sc_opp (sc_lit 1), sc_lit 1, sc_lit 11, sc_lit 3);
    (sc_lit 1, sc_opp (sc_lit 1), sc_lit 3, sc_lit (35 # 10)) ].

Lemma walk_run :
  scan_run after_max walk_samples [Idle; MinFound; MaxFound; MinFound]
    (fold_left scan_step walk_samples after_max).
Proof. exact (scan_run_fold after_max walk_samples). Qed.

Lemma commits_spaced_witness :
  spaced (2 # 10) (toQ (Loc.prev_min_ts after_max))
    (times_of MinFound walk_samples [Idle; MinFound; MaxFound; MinFound]).
Proof. exact (proj1 (commits_spaced _ _ _ _ walk_run)). Defined.

Lemma commits_alternate_witness :
  alternates (max_mode after_max) [Idle; MinFound; MaxFound; MinFound].
Proof.
  apply (commits_alternate 1 after_max walk_samples _ _ walk_run).
  - by vm_compute.
  - by vm_compute.
  - by vm_compute.
  - intros Hin. by repeat (apply elem_of_cons in Hin as [?|Hin]; [done|]);
      apply elem_of_nil in Hin.
Defined.

