(* ===== verification/Safety.v ===== *)
(** * Safety: every array access is in range

    The definitions of the other files read C arrays with [!!!], which
    gives a default value outside the array, and write them with
    [<[i:=x]>], which does nothing there. In C both are undefined
    behaviour. This file gives every function that indexes an array a
    second definition in which each access is checked: reads are [read] and
    [read2], writes are [write] and [write2], and the result is [None] as
    soon as an index is out of range. The checked functions are
    [step_algo_preproc_chk] (pedometer.c lines 199-219), the three loops of
    [step_algo_run] with [save_static_chk] and [step_algo_run_chk] (lines
    233-426), and [main_step_chk] and [main_loop_chk] (lines 160-184).

    The theorems: on a state with the declared array lengths, a write
    index below [SAMP_BUFF_LEN] and a group delay of at most
    [MAX_TC_SAMPLES], each checked function returns [Some] of what the
    unchecked one computes; hence, from the initial state of [main], on
    every input, no access is ever out of range and the two programs
    agree. Broken preconditions are detected: the checked functions return
    [None] on a full write index or an oversized group delay. *)

From Stdlib Require Import QArith ZArith Lia List String.
From stdpp Require Import base tactics option list.
From S2P Require Import Prelude.
From S2P Require Import Scalar.
From S2P Require Import Types.
From S2P Require Import Filter.
From S2P Require Import State.
From S2P Require Import Preproc.
From S2P Require Import Detector.
From S2P Require Import Classify.
From S2P Require Import Pipeline.

(** ** Checked accesses *)

(** [a[i]], read. *)
Definition read {A : Type} (a : list A) (i : nat) : option A := a !! i.

(** [a[i] = v]. *)
Definition write {A : Type} (a : list A) (i : nat) (v : A) : option (list A) :=
  if decide (i < length a) then Some (<[i := v]> a) else None.

(** [a[r][c]], read. *)
Definition read2 {A : Type} (a : list (list A)) (r c : nat) : option A :=
  row ← a !! r; row !! c.

(** [a[r][c] = v]. *)
Definition write2 {A : Type} (a : list (list A)) (r c : nat) (v : A)
    : option (list (list A)) :=
  row ← a !! r; row' ← write row c v; write a r row'.

(** A counted loop whose body may fail. *)
Definition for_loop_chk {S : Type} (n : nat) (body : nat -> S -> option S)
    (s : S) : option S :=
  fold_left (fun acc i => acc ≫= body i) (seq 0 n) (Some s).

Lemma read_Some {A : Type} `{!Inhabited A} (a : list A) i :
  i < length a -> read a i = Some (a !!! i).
Proof. apply list_lookup_lookup_total_lt. Qed.

Lemma read_None {A : Type} (a : list A) i : length a <= i -> read a i = None.
Proof. apply lookup_ge_None_2. Qed.

Lemma write_Some {A : Type} (a : list A) i v :
  i < length a -> write a i v = Some (<[i := v]> a).
Proof. intros Hi. unfold write. by rewrite decide_True. Qed.

Lemma write_None {A : Type} (a : list A) i v :
  length a <= i -> write a i v = None.
Proof. intros Hi. unfold write. rewrite decide_False; [done|lia]. Qed.

Section AccessLaws.
Context {A : Type} `{!Inhabited A}.
Implicit Types (a : list A) (b : list (list A)).

Lemma read2_Some rows cols b r c :
  arr2_wf rows cols b -> r < rows -> c < cols ->
  read2 b r c = Some (arr2_get b r c).
Proof.
  intros [Hlen Hall] Hr Hc. unfold read2, arr2_get.
  rewrite Forall_lookup_total in Hall.
  rewrite (list_lookup_lookup_total_lt b r) by lia. cbn.
  apply list_lookup_lookup_total_lt. rewrite Hall by lia. exact Hc.
Qed.

Lemma write2_Some rows cols b r c v :
  arr2_wf rows cols b -> r < rows -> c < cols ->
  write2 b r c v = Some (arr2_set b r c v).
Proof.
  intros [Hlen Hall] Hr Hc. unfold write2, arr2_set.
  rewrite Forall_lookup_total in Hall.
  rewrite (list_lookup_lookup_total_lt b r) by lia. cbn.
  rewrite write_Some by (rewrite Hall by lia; exact Hc). cbn.
  apply write_Some. lia.
Qed.

Lemma write2_None rows cols b r c v :
  arr2_wf rows cols b -> r < rows -> cols <= c -> write2 b r c v = None.
Proof.
  intros [Hlen Hall] Hr Hc. unfold write2.
  rewrite Forall_lookup_total in Hall.
  rewrite (list_lookup_lookup_total_lt b r) by lia. cbn.
  rewrite write_None; [done|]. rewrite Hall by lia. exact Hc.
Qed.

Lemma for_loop_chk_S {S : Type} n (body : nat -> S -> option S) s :
  for_loop_chk (Datatypes.S n) body s = for_loop_chk n body s ≫= body n.
Proof. unfold for_loop_chk. by rewrite seq_S, fold_left_app. Qed.

(** A checked loop whose body never fails on states that satisfy [P]
    computes what the unchecked loop computes. *)
Lemma for_loop_chk_Some {S : Type} (P : nat -> S -> Prop) n
    (body_chk : nat -> S -> option S) (body : nat -> S -> S) s :
  P 0 s ->
  (forall i st, i < n -> P i st ->
     body_chk i st = Some (body i st) /\ P (Datatypes.S i) (body i st)) ->
  for_loop_chk n body_chk s = Some (for_loop n body s)
  /\ P n (for_loop n body s).
Proof.
  intros H0 Hstep. induction n as [|n IH]; [by rewrite for_loop_0|].
  destruct IH as [IH HP]; [intros; apply Hstep; [lia|done]|].
  rewrite for_loop_chk_S, for_loop_S, IH. cbn. apply Hstep; [lia|done].
Qed.

End AccessLaws.

(** ** The checked program *)

Section Checked.
Context {R : Type} `{Scalar R}.
Local Open Scope sc_scope.

(** Lines 199-219. *)
Definition step_algo_preproc_chk (s : state R)
    (timestamp arx ary arz grx gry grz : R) : option (Z * state R) :=
  let '(ary_flt, lp) := apply_filter (lp_filter_y s) ary in
  let s1 := set_lp_filter_y s lp in
  b ← write2 (AccBuff s1) ROW_ACC (Z.to_nat (count s1)) ary_flt;
  let s2 := set_AccBuff s1 b in
  b ← write2 (AccBuff s2) ROW_TS (Z.to_nat (count s2)) timestamp;
  let s3 := set_AccBuff s2 b in
  let s4 := set_count s3 (u32_add (count s3) 1) in
  Some (if (count s4 =? SAMP_BUFF_LEN)%Z then (1%Z, set_count s4 0) else (0%Z, s4)).

(** Lines 280-287, one iteration. *)
Definition derive_body_chk (buff : list (list R)) (TC : Z) (i : nat)
    (st : filter_t R * run_static_t R) : option (filter_t R * run_static_t R) :=
  let '(ll, rs) := st in
  x ← read2 buff ROW_ACC i;
  let '(d, ll') := apply_filter ll x in
  der ← write (AccDer rs) i d;
  let rs := set_AccDer rs der in
  flt ← write (AccFilt rs) (idx (u32_add TC (Z.of_nat i))) x;
  let rs := set_AccFilt rs flt in
  t ← read2 buff ROW_TS i;
  stamps ← write (TimeStamps rs) (idx (u32_add TC (Z.of_nat i))) t;
  Some (ll', set_TimeStamps rs stamps).

(** Lines 291-344, one iteration. The sample and its timestamp are read
    whether or not the branches use them. *)
Definition detect_body_chk (i : nat) (st : run_static_t R * Loc.t R)
    : option (run_static_t R * Loc.t R) :=
  let '(rs, l) := st in
  rs ← (if (delta <=? i)%nat
        then p ← read (AccDer rs) (i - delta); Some (set_prevAccDer rs p)
        else Some rs);
  cur ← read (AccDer rs) i;
  v ← read (AccFilt rs) i;
  t ← read (TimeStamps rs) i;
  Some (rs, detect_sample cur (prevAccDer rs) v t l).

(** Lines 376-379, one iteration. *)
Definition tail_body_chk (buff : list (list R)) (TC : Z) (i : nat)
    (rs : run_static_t R) : option (run_static_t R) :=
  let src := idx (u32_add (wrap32 (SAMP_BUFF_LEN - TC)) (Z.of_nat i)) in
  x ← read2 buff ROW_ACC src;
  flt ← write (AccFilt rs) i x;
  let rs := set_AccFilt rs flt in
  t ← read2 buff ROW_TS src;
  stamps ← write (TimeStamps rs) i t;
  Some (set_TimeStamps rs stamps).

(** Lines 381-383. *)
Definition save_static_chk (amp_est freq_est : R) (rs : run_static_t R)
    : option (run_static_t R) :=
  p ← read (AccDer rs) (idx (SAMP_BUFF_LEN - 1));
  let rs := set_prevAccDer rs p in
  let rs := set_prev_amp_est rs amp_est in
  Some (set_prev_freq_est rs freq_est).

(** Lines 233-426. *)
Definition step_algo_run_chk (s : state R) (out : algo_out_t R)
    : option (state R * algo_out_t R) :=
  let l := locals_init out in
  let TC := TC_samples (ll_filter_y s) in
  '(ll, rs) ← for_loop_chk FRAME_LEN (derive_body_chk (AccBuff s) TC)
                 (ll_filter_y s, run_static s);
  '(rs, l) ← for_loop_chk FRAME_LEN detect_body_chk (rs, l);
  let '(amp_est, rs) := amp_estimate l rs in
  let '(freq_est, rs) := freq_estimate l rs in
  rs ← for_loop_chk (idx TC) (tail_body_chk (AccBuff s) TC) rs;
  rs ← save_static_chk amp_est freq_est rs;
  let out := update_output l out in
  let s := set_run_static (set_ll_filter_y s ll) rs in
  Some (classify_and_count amp_est freq_est (Loc.count_min_det l) s out).

(** Lines 160-184, one iteration. *)
Definition main_step_chk (m : main_state R) (row : sensor_row R)
    : option (main_state R * output_row R) :=
  let ts := timestamp m + SENSOR_SAMP_INTVL in
  '(run_step_algo, s) ←
    step_algo_preproc_chk (prog m) ts (arx row) (ary row) (arz row)
      (grx row) (gry row) (grz row);
  s ← (if (run_step_algo =? 1)%Z then
         '(s', out) ← step_algo_run_chk s (step_algo_output s);
         Some (set_step_algo_output s' out)
       else Some s);
  let name := choose_name (step_type (step_algo_output s)) (step_type_name m) in
  Some ({| prog := s; timestamp := ts; step_type_name := name |},
        {| out_timestamp := ts;
           out_step_count := step_count (step_algo_output s);
           out_step_type := name;
           out_step_type_num := motion_type_code (step_type (step_algo_output s)) |}).

(** The loop of lines 160-184 over the parsed rows. *)
Fixpoint main_loop_chk (m : main_state R) (rows : list (sensor_row R))
    : option (main_state R * list (output_row R)) :=
  match rows with
  | [] => Some (m, [])
  | row :: rows' =>
      '(m', o) ← main_step_chk m row;
      '(m'', os) ← main_loop_chk m' rows';
      Some (m'', o :: os)
  end.

End Checked.

(** ** The checked program never fails *)

Section Agreement.
Context {R : Type} `{Scalar R}.
Implicit Types (s : state R) (rs : run_static_t R) (l : Loc.t R)
  (out : algo_out_t R).

Lemma step_algo_preproc_chk_ok s ts arx ary arz grx gry grz :
  state_wf s -> count_ok s ->
  step_algo_preproc_chk s ts arx ary arz grx gry grz
  = Some (step_algo_preproc s ts arx ary arz grx gry grz).
Proof.
  intros [Hb _] Hc. unfold step_algo_preproc_chk, step_algo_preproc.
  assert (Z.to_nat (count s) < FRAME_LEN)
    by (revert Hc; unfold count_ok, FRAME_LEN; lia).
  cbn -[arr2_set write2].
  rewrite (write2_Some _ _ _ _ _ _ Hb) by (cbn; lia || done). cbn -[arr2_set write2].
  by rewrite (write2_Some (axis_index NUM_DIM + 1) FRAME_LEN)
    by (try apply arr2_set_wf; cbn; lia || done).
Qed.

Section Frame.
Variables (buff : list (list R)) (TC : Z).
Hypothesis HTC : (0 <= TC <= MAX_TC_SAMPLES)%Z.
Hypothesis Hbuff : arr2_wf (axis_index NUM_DIM + 1) FRAME_LEN buff.

Lemma derive_body_wf i ll rs :
  run_static_wf rs -> run_static_wf (snd (derive_body buff TC i (ll, rs))).
Proof.
  intros (Hf & Ht & Hd). unfold run_static_wf. cbn. by rewrite !length_insert.
Qed.

Lemma derive_body_chk_ok i ll rs :
  i < FRAME_LEN -> run_static_wf rs ->
  derive_body_chk buff TC i (ll, rs) = Some (derive_body buff TC i (ll, rs)).
Proof.
  intros Hi (Hf & Ht & Hd). unfold derive_body_chk, derive_body.
  assert (idx TC + i < EXT_LEN) as Hx
    by (revert HTC Hi; unfold idx; rewrite FRAME_LEN_val, EXT_LEN_val; cfg; lia).
  rewrite !(read2_Some _ _ _ _ _ Hbuff) by (cbn; lia || done). cbn [mbind option_bind].
  destruct (apply_filter ll _) as [d ll'].
  rewrite write_Some by lia. cbn.
  rewrite idx_offset by done.
  by rewrite !write_Some by (rewrite ?Hf, ?Ht; exact Hx).
Qed.

Lemma derive_loop_chk_ok ll rs :
  run_static_wf rs ->
  for_loop_chk FRAME_LEN (derive_body_chk buff TC) (ll, rs)
  = Some (derive_loop buff TC (ll, rs)).
Proof.
  intros Hr. unfold derive_loop.
  apply (for_loop_chk_Some (fun _ st => run_static_wf (snd st))); [done|].
  intros i [ll' rs'] Hi Hwf. split; [by apply derive_body_chk_ok|].
  by apply derive_body_wf.
Qed.

Lemma tail_body_wf i rs :
  run_static_wf rs -> run_static_wf (tail_body buff TC i rs).
Proof.
  intros (Hf & Ht & Hd). unfold run_static_wf. cbn. by rewrite !length_insert.
Qed.

Lemma tail_body_chk_ok i rs :
  i < idx TC -> run_static_wf rs ->
  tail_body_chk buff TC i rs = Some (tail_body buff TC i rs).
Proof.
  intros Hi (Hf & Ht & Hd). unfold tail_body_chk, tail_body.
  assert (FRAME_LEN - idx TC + i < FRAME_LEN /\ i < EXT_LEN) as [Hsrc Hdst]
    by (revert Hi HTC; unfold idx; rewrite FRAME_LEN_val, EXT_LEN_val; cfg; lia).
  cbv zeta. rewrite idx_tail by done.
  rewrite !(read2_Some _ _ _ _ _ Hbuff) by (cbn; lia || done). cbn [mbind option_bind].
  rewrite write_Some by lia. cbn. by rewrite write_Some by lia.
Qed.

Lemma tail_loop_chk_ok rs :
  run_static_wf rs ->
  for_loop_chk (idx TC) (tail_body_chk buff TC) rs = Some (tail_loop buff TC rs).
Proof.
  intros Hr. unfold tail_loop.
  apply (for_loop_chk_Some (fun _ => run_static_wf)); [done|].
  intros i rs' Hi Hwf. split; [by apply tail_body_chk_ok|by apply tail_body_wf].
Qed.

End Frame.

Lemma detect_body_chk_ok i rs l :
  i < FRAME_LEN -> run_static_wf rs ->
  detect_body_chk i (rs, l) = Some (detect_body i (rs, l))
  /\ run_static_wf (fst (detect_body i (rs, l))).
Proof.
  intros Hi (Hf & Ht & Hd). unfold detect_body_chk, detect_body.
  assert (i < EXT_LEN) by (revert Hi; rewrite FRAME_LEN_val, EXT_LEN_val; lia).
  destruct (delta <=? i)%nat.
  - rewrite read_Some by lia. cbn. rewrite !read_Some by lia. by cbn.
  - cbn. rewrite !read_Some by lia. by cbn.
Qed.

Lemma detect_loop_chk_ok rs l :
  run_static_wf rs ->
  for_loop_chk FRAME_LEN detect_body_chk (rs, l) = Some (detect_loop (rs, l)).
Proof.
  intros Hr. unfold detect_loop.
  apply (for_loop_chk_Some (fun _ st => run_static_wf (fst st))); [done|].
  intros i [rs' l'] Hi Hwf. by apply detect_body_chk_ok.
Qed.

Lemma save_static_chk_ok (amp freq : R) rs :
  run_static_wf rs ->
  save_static_chk amp freq rs = Some (save_static amp freq rs).
Proof.
  intros (Hf & Ht & Hd). unfold save_static_chk, save_static.
  by rewrite read_Some by (rewrite Hd; unfold idx, FRAME_LEN; cfg; lia).
Qed.

Lemma step_algo_run_chk_ok s out :
  run_ready s -> step_algo_run_chk s out = Some (step_algo_run s out).
Proof.
  intros [[Hb Hr] Htc]. unfold step_algo_run_chk, step_algo_run.
  rewrite (derive_loop_chk_ok _ _ Htc Hb) by done.
  pose proof (derive_loop_wf _ _ Htc Hb (ll_filter_y s) _ Hr) as Hwf0.
  destruct (derive_loop _ _ _) as [ll rs0]. cbn [mbind option_bind snd] in *.
  rewrite detect_loop_chk_ok by done.
  pose proof (detect_loop_same_arrays rs0 (locals_init out)) as Hs1.
  destruct (detect_loop _) as [rs1 l]. cbn [mbind option_bind fst] in *.
  pose proof (amp_estimate_same_arrays l rs1) as Hs2.
  destruct (amp_estimate l rs1) as [amp rs2].
  pose proof (freq_estimate_same_arrays l rs2) as Hs3.
  destruct (freq_estimate l rs2) as [freq rs3]. cbn [snd] in *.
  assert (run_static_wf rs3) as Hwf3 by (by rewrite Hs3, Hs2, Hs1).
  rewrite (tail_loop_chk_ok _ _ Htc Hb) by done. cbn [mbind option_bind].
  by rewrite save_static_chk_ok by (by apply tail_loop_wf).
Qed.

Lemma main_step_chk_ok m row :
  run_ready (prog m) -> count_ok (prog m) ->
  main_step_chk m row = Some (main_step m row).
Proof.
  intros Hr Hc. unfold main_step_chk, main_step.
  rewrite step_algo_preproc_chk_ok by (done || apply Hr).
  pose proof (preproc_wf (prog m) (timestamp m + SENSOR_SAMP_INTVL)%sc
    (arx row) (ary row) (arz row) (grx row) (gry row) (grz row) (proj1 Hr)) as Hwf.
  pose proof (preproc_frame (prog m) (timestamp m + SENSOR_SAMP_INTVL)%sc
    (arx row) (ary row) (arz row) (grx row) (gry row) (grz row)) as (Hll & _).
  destruct (step_algo_preproc _ _ _ _ _ _ _ _) as [r s1].
  cbn [mbind option_bind snd] in *.
  destruct (r =? 1)%Z; [|done].
  rewrite step_algo_run_chk_ok by (split; [done|unfold tc_ok; rewrite Hll; apply Hr]).
  cbn [mbind option_bind]. by destruct (step_algo_run _ _).
Qed.

(** C8. Memory safety. From the initial state of [main], on every input,
    the program with every array access checked runs to the end and
    computes the same state and the same output rows as the program
    modelled without checks: no read or write of [AccBuff], [AccFilt],
    [TimeStamps] or [AccDer] is ever out of range. Any arithmetic. *)
Theorem main_loop_chk_ok (rows : list (sensor_row R)) :
  main_loop_chk main_init rows = Some (main_loop main_init rows).
Proof.
  assert (forall n m, cadence_inv n (prog m) ->
            main_loop_chk m rows = Some (main_loop m rows)) as Hall.
  { induction rows as [|row rows IH]; intros n m Hinv; [done|].
    cbn [main_loop_chk]. rewrite main_loop_cons.
    rewrite main_step_chk_ok by (apply Hinv || apply (cadence_count_ok n), Hinv).
    cbn [mbind option_bind].
    pose proof (step_prog_cadence n (prog m)
      (timestamp m + SENSOR_SAMP_INTVL)%sc row Hinv) as Hinv'.
    rewrite <-main_step_prog in Hinv'.
    destruct (main_step m row) as [m' o]. cbn [fst snd] in *.
    rewrite (IH (S n) m' Hinv'). cbn [mbind option_bind].
    by destruct (main_loop m' rows). }
  apply (Hall 0%nat), main_init_ready.
Qed.

End Agreement.

(** ** Broken preconditions are detected *)

(** A checked loop fails when iteration [k] fails on every state that the
    iterations before it can produce. *)
Lemma for_loop_chk_None {St : Type} (P : St -> Prop) n k
    (body : nat -> St -> option St) s :
  k < n -> P s ->
  (forall i st st', i < k -> P st -> body i st = Some st' -> P st') ->
  (forall st, P st -> body k st = None) ->
  for_loop_chk n body s = None.
Proof.
  intros Hk Hs Hpres Hfail.
  assert (forall j, j <= k -> from_option P True (for_loop_chk j body s)) as Hpre.
  { induction j as [|j IH]; intros Hj; [done|].
    rewrite for_loop_chk_S. specialize (IH ltac:(lia)).
    destruct (for_loop_chk j body s) as [st|]; [|done]. cbn in *.
    destruct (body j st) as [st'|] eqn:Hb; [|done].
    cbn. by apply (Hpres j st); [lia|..]. }
  assert (forall m, for_loop_chk (S k + m) body s = None) as Hpost.
  { induction m as [|m IH].
    - rewrite Nat.add_0_r, for_loop_chk_S. specialize (Hpre k ltac:(lia)).
      destruct (for_loop_chk k body s); [by apply Hfail|done].
    - by rewrite Nat.add_succ_r, for_loop_chk_S, IH. }
  replace n with (S k + (n - S k)) by lia. apply Hpost.
Qed.

Section Detected.
Context {R : Type} `{Scalar R}.
Implicit Types (s : state R) (rs : run_static_t R) (out : algo_out_t R).

Lemma derive_body_chk_wf buff TC i ll rs st' :
  run_static_wf rs -> derive_body_chk buff TC i (ll, rs) = Some st' ->
  run_static_wf (snd st').
Proof.
  intros (Hf & Ht & Hd). unfold derive_body_chk, write.
  destruct (read2 buff ROW_ACC i); [|done]. cbn [mbind option_bind].
  destruct (apply_filter ll _) as [d ll'].
  intros Hsome. repeat (case_decide; simplify_option_eq); try done.
  unfold run_static_wf. cbn. by rewrite !length_insert.
Qed.

Lemma derive_body_chk_None buff TC ll rs :
  (MAX_TC_SAMPLES < TC < 2 ^ 32 - SAMP_BUFF_LEN)%Z -> run_static_wf rs ->
  derive_body_chk buff TC (FRAME_LEN - 1) (ll, rs) = None.
Proof.
  intros HTC (Hf & Ht & Hd). unfold derive_body_chk.
  destruct (read2 buff ROW_ACC _); [|done]. cbn [mbind option_bind].
  destruct (apply_filter ll _) as [d ll'].
  rewrite write_Some by (rewrite Hd, FRAME_LEN_val; lia). cbn.
  rewrite write_None; [done|]. rewrite Hf, EXT_LEN_val, FRAME_LEN_val.
  change (Z.of_nat (52 - 1)) with 51%Z. revert HTC. unfold idx.
  change (2 ^ 32)%Z with 4294967296%Z. cfg. u32_solve.
Qed.

(** The write index of [step_algo_preproc] must be below
    [SAMP_BUFF_LEN]: on a state with the declared array lengths the
    checked function fails exactly when [count] has reached the length of
    the buffer, where the write of line 208 is out of range. *)
Theorem step_algo_preproc_chk_None s ts arx ary arz grx gry grz :
  state_wf s -> (0 <= count s)%Z ->
  step_algo_preproc_chk s ts arx ary arz grx gry grz = None
  <-> (SAMP_BUFF_LEN <= count s)%Z.
Proof.
  intros Hwf Hc. split.
  - intros Hnone. destruct (decide (count s < SAMP_BUFF_LEN)%Z) as [Hlt|]; [|lia].
    by rewrite step_algo_preproc_chk_ok in Hnone.
  - intros Hge. destruct Hwf as [Hb _]. unfold step_algo_preproc_chk.
    cbn -[write2].
    by rewrite (write2_None _ _ _ _ _ _ Hb)
      by (cbn; unfold FRAME_LEN; cfg; lia || done).
Qed.

(** The group delay of the lead-lag filter must fit the headroom of
    [AccFilt] and [TimeStamps]: on a state with the declared array lengths
    [step_algo_run] with checked accesses fails exactly when [TC_samples]
    exceeds [MAX_TC_SAMPLES], where the writes of lines 285 and 286 leave
    the arrays at the last sample of the frame. *)
Theorem step_algo_run_chk_None s out :
  state_wf s ->
  (0 <= TC_samples (ll_filter_y s) < 2 ^ 32 - SAMP_BUFF_LEN)%Z ->
  step_algo_run_chk s out = None
  <-> (MAX_TC_SAMPLES < TC_samples (ll_filter_y s))%Z.
Proof.
  intros Hwf HTC. split.
  - intros Hnone.
    destruct (decide (TC_samples (ll_filter_y s) <= MAX_TC_SAMPLES)%Z); [|lia].
    rewrite step_algo_run_chk_ok in Hnone; [done|]. split; [done|]. unfold tc_ok. lia.
  - intros Hgt. destruct Hwf as [Hb Hr]. unfold step_algo_run_chk.
    rewrite (for_loop_chk_None (fun st => run_static_wf (snd st))
               FRAME_LEN (FRAME_LEN - 1)); [done|rewrite FRAME_LEN_val; lia|done|..].
    + intros i [ll rs] st' _ Hrs. by apply derive_body_chk_wf.
    + intros [ll rs] Hrs. apply derive_body_chk_None; [lia|done].
Qed.

End Detected.

Lemma step_algo_preproc_chk_None_witness :
  step_algo_preproc_chk (R:=Qcanon.Qc) (set_count state_zero SAMP_BUFF_LEN)
    (sc_lit 0) (sc_lit 0) (sc_lit 0) (sc_lit 0) (sc_lit 0) (sc_lit 0) (sc_lit 0)
  = None.
Proof.
  apply step_algo_preproc_chk_None; [apply set_count_wf, state_zero_wf|done|done].
Defined.

Lemma step_algo_run_chk_None_witness :
  step_algo_run_chk (R:=Qcanon.Qc)
    (set_ll_filter_y state_zero
       (mk_filter (sc_lit 1) (sc_lit 0) (sc_lit 0) (sc_lit 0) (sc_lit 0)
          (sc_lit 0) (sc_lit 0) (sc_lit 0) (sc_lit 0) (MAX_TC_SAMPLES + 1)))
    algo_out_zero
  = None.
Proof.
  apply step_algo_run_chk_None;
    [apply set_ll_filter_y_wf, state_zero_wf|by cbn|by cbn].
Defined.
