(* ===== verification/Stream.v ===== *)
(** * Stream: the buffered pipeline against the filters run on the stream

    The program filters the vertical acceleration sample by sample, stores
    the smoothed samples in a frame buffer, and differentiates a frame at a
    time. This file states what that computes in terms of the input as a
    whole: the low-pass filter run over all the samples read ([smoothed]),
    and the lead-lag filter run over its output ([derivative]). *)

From Stdlib Require Import ZArith Lia List.
From stdpp Require Import base tactics option list.
From S2P Require Import Prelude.
From S2P Require Import Scalar.
From S2P Require Import Types.
From S2P Require Import Filter.
From S2P Require Import State.
From S2P Require Import Preproc.
From S2P Require Import Detector.
From S2P Require Import Classify.
From S2P Require Import Pipeline.

Section Stream.
Context {R : Type} `{Scalar R}.
Implicit Types (s : state R) (row : sensor_row R)
  (rows pre : list (sensor_row R)) (ys done cur : list R).

(** The low-pass filter of [main] run over the samples [ys] from rest. *)
Definition smoothed ys : list R := fst (filter_run lp_filter_init ys).

(** The lead-lag filter of [main] run over the smoothed samples. *)
Definition derivative ys : list R := fst (filter_run ll_filter_init (smoothed ys)).

(** The state after the rows [pre], whose samples are the complete frames
    [done] and the part [cur] of a frame: the filters have run over the
    stream, the buffer holds the smoothed samples of [cur], and [AccDer]
    the derivative of the last complete frame. *)
Definition stream_inv pre s : Prop :=
  exists done cur,
    map ary pre = done ++ cur
    /\ (exists k, length done = k * FRAME_LEN)
    /\ Z.of_nat (length cur) = count s
    /\ cadence_inv (length pre) s
    /\ lp_filter_y s = snd (filter_run lp_filter_init (done ++ cur))
    /\ take (length cur) (AccBuff s !!! ROW_ACC)
       = drop (length done) (smoothed (done ++ cur))
    /\ ll_filter_y s = snd (filter_run ll_filter_init (smoothed done))
    /\ (done <> [] ->
        AccDer (run_static s) = drop (length done - FRAME_LEN) (derivative done)).

Lemma smoothed_length ys : length (smoothed ys) = length ys.
Proof. apply filter_run_length. Qed.

Lemma derivative_length ys : length (derivative ys) = length ys.
Proof. unfold derivative. by rewrite filter_run_length, smoothed_length. Qed.

Lemma smoothed_app ys1 ys2 :
  smoothed (ys1 ++ ys2)
  = smoothed ys1 ++ fst (filter_run (snd (filter_run lp_filter_init ys1)) ys2).
Proof. unfold smoothed. by rewrite filter_run_app. Qed.

Lemma derivative_app ys1 ys2 :
  derivative (ys1 ++ ys2)
  = derivative ys1
    ++ fst (filter_run (snd (filter_run ll_filter_init (smoothed ys1)))
              (drop (length ys1) (smoothed (ys1 ++ ys2)))).
Proof.
  unfold derivative. rewrite smoothed_app, filter_run_app. cbn [fst].
  by rewrite drop_app_length' by by rewrite smoothed_length.
Qed.

Lemma stream_init : stream_inv [] (prog main_init).
Proof.
  exists [], []. split; [done|]. split; [by exists 0|]. split; [done|].
  split; [apply main_init_ready|]. by repeat split.
Qed.

Lemma take_insert_snoc {A} (l : list A) j x :
  j < length l -> take (S j) (<[j:=x]> l) = take j l ++ [x].
Proof.
  intros Hj. rewrite (take_S_r _ _ x) by by apply list_lookup_insert_eq.
  by rewrite take_insert_ge.
Qed.

(** One more sample of the frame in progress. *)
Lemma smoothed_snoc done cur y :
  drop (length done) (smoothed (done ++ cur ++ [y]))
  = drop (length done) (smoothed (done ++ cur))
    ++ [fst (apply_filter (snd (filter_run lp_filter_init (done ++ cur))) y)].
Proof.
  rewrite app_assoc. unfold smoothed. rewrite filter_run_snoc. cbn [fst].
  apply drop_app_le. rewrite filter_run_length, length_app. lia.
Qed.

Lemma tail_saved_AccDer (buff : list (list R)) TC i (rs : run_static_t R) :
  AccDer (tail_saved buff TC i rs) = AccDer rs.
Proof. reflexivity. Qed.

(** What a call of [step_algo_run] leaves in the lead-lag filter and in
    [AccDer]: the filter run over the frame. *)
Lemma step_algo_run_stream s out :
  run_ready s ->
  let s' := fst (step_algo_run s out) in
  ll_filter_y s' = snd (filter_run (ll_filter_y s) (AccBuff s !!! ROW_ACC))
  /\ AccDer (run_static s') = fst (filter_run (ll_filter_y s) (AccBuff s !!! ROW_ACC)).
Proof.
  intros [[Hb (_ & _ & Hd)] Htc]. unfold tc_ok in Htc.
  destruct (step_algo_run_arrays s out) as [(_ & _ & Hder) Hll]. cbv zeta in *.
  rewrite Hll, Hder. unfold run_derived, tail_loop.
  rewrite tail_loop_take, tail_saved_AccDer by done.
  rewrite (derive_loop_filter _ _ Htc Hb), (derive_loop_AccDer _ _ Htc Hb _ _ Hd).
  split; reflexivity.
Qed.

(** The part of [step_algo_preproc] in a row: one more sample filtered
    and stored. *)
Lemma preproc_stream s ts row done cur :
  state_wf s -> count_ok s -> Z.of_nat (length cur) = count s ->
  lp_filter_y s = snd (filter_run lp_filter_init (done ++ cur)) ->
  take (length cur) (AccBuff s !!! ROW_ACC)
  = drop (length done) (smoothed (done ++ cur)) ->
  let s1 := snd (step_algo_preproc s ts (arx row) (ary row) (arz row) (grx row)
                   (gry row) (grz row)) in
  lp_filter_y s1 = snd (filter_run lp_filter_init (done ++ cur ++ [ary row]))
  /\ take (S (length cur)) (AccBuff s1 !!! ROW_ACC)
     = drop (length done) (smoothed (done ++ cur ++ [ary row])).
Proof.
  intros Hwf Hok Hcur Hlp Hbuf. cbv zeta.
  destruct (preproc_rows s ts (arx row) (ary row) (arz row) (grx row)
              (gry row) (grz row) Hwf Hok) as [-> _].
  rewrite preproc_lp_filter, smoothed_snoc, <- Hbuf, <- Hlp, <- Hcur, Nat2Z.id.
  split; [by rewrite app_assoc, filter_run_snoc, <- Hlp|].
  apply take_insert_snoc. rewrite (frame_row_length _ (proj1 Hwf)) by (cbn; lia).
  revert Hok. unfold count_ok. rewrite <- Hcur, FRAME_LEN_val. cfg. lia.
Qed.

(** The part of [step_algo_run] in a row that completes the frame
    [cur]. *)
Lemma frame_stream s out done cur :
  run_ready s -> length cur = FRAME_LEN ->
  AccBuff s !!! ROW_ACC = drop (length done) (smoothed (done ++ cur)) ->
  ll_filter_y s = snd (filter_run ll_filter_init (smoothed done)) ->
  let s' := fst (step_algo_run s out) in
  ll_filter_y s' = snd (filter_run ll_filter_init (smoothed (done ++ cur)))
  /\ AccDer (run_static s')
     = drop (length (done ++ cur) - FRAME_LEN) (derivative (done ++ cur)).
Proof.
  intros Hready Hlen Hbuf Hll.
  destruct (step_algo_run_stream s out Hready) as [Hll' Hder']. cbv zeta in *.
  rewrite Hll', Hder', Hbuf, Hll, derivative_app, length_app, Hlen, Nat.add_sub.
  rewrite drop_app_length' by by rewrite derivative_length.
  split; [|done]. rewrite (smoothed_app done cur) at 2.
  by rewrite filter_run_app, smoothed_app, drop_app_length' by by rewrite smoothed_length.
Qed.

(** The fields that [main] leaves alone when it stores the output. *)
Lemma set_step_algo_output_fields s o :
  lp_filter_y (set_step_algo_output s o) = lp_filter_y s
  /\ ll_filter_y (set_step_algo_output s o) = ll_filter_y s
  /\ AccBuff (set_step_algo_output s o) = AccBuff s
  /\ run_static (set_step_algo_output s o) = run_static s.
Proof. done. Qed.

(** The state after a row, by the value of [count] before it. *)
Lemma step_prog_eq s ts row :
  count_ok s ->
  let s1 := snd (step_algo_preproc s ts (arx row) (ary row) (arz row) (grx row)
                   (gry row) (grz row)) in
  step_prog s ts row
  = if (count s =? SAMP_BUFF_LEN - 1)%Z
    then set_step_algo_output (fst (step_algo_run s1 (step_algo_output s1)))
           (snd (step_algo_run s1 (step_algo_output s1)))
    else s1.
Proof.
  intros Hok. unfold step_prog.
  destruct (preproc_step_count s ts (arx row) (ary row) (arz row) (grx row)
              (gry row) (grz row) Hok) as [-> _].
  by destruct (count s =? SAMP_BUFF_LEN - 1)%Z.
Qed.

(** A row that does not complete the frame. *)
Lemma stream_step_part pre s ts row :
  stream_inv pre s -> (count s =? SAMP_BUFF_LEN - 1)%Z = false ->
  stream_inv (pre ++ [row]) (step_prog s ts row).
Proof.
  intros (done & cur & Hys & [k Hk] & Hcur & Hcad & Hlp & Hbuf & Hll & Hder) Hfull.
  pose proof (cadence_count_ok _ _ Hcad) as Hok.
  pose proof (step_prog_cadence _ _ ts row Hcad) as Hcad'.
  destruct Hcad as [[Hwf Htc] _].
  destruct (preproc_stream s ts row done cur Hwf Hok Hcur Hlp Hbuf) as [Hlp1 Hbuf1].
  destruct (preproc_step_count s ts (arx row) (ary row) (arz row) (grx row)
              (gry row) (grz row) Hok) as [_ Hcount].
  destruct (preproc_frame s ts (arx row) (ary row) (arz row) (grx row)
              (gry row) (grz row)) as (Hll1 & _ & Hrs1 & _).
  rewrite step_prog_eq, Hfull in * by done.
  exists done, (cur ++ [ary row]).
  split; [by rewrite map_app, Hys, <- app_assoc|]. split; [by exists k|].
  split; [rewrite length_app, Hcount; cbn; lia|].
  split; [by rewrite length_app, Nat.add_1_r|].
  split; [exact Hlp1|]. split; [by rewrite length_app, Nat.add_1_r|].
  split; [by rewrite Hll1|]. by rewrite Hrs1.
Qed.

(** A row that completes the frame. *)
Lemma stream_step_full pre s ts row :
  stream_inv pre s -> (count s =? SAMP_BUFF_LEN - 1)%Z = true ->
  stream_inv (pre ++ [row]) (step_prog s ts row).
Proof.
  intros (done & cur & Hys & [k Hk] & Hcur & Hcad & Hlp & Hbuf & Hll & Hder) Hfull.
  pose proof (cadence_count_ok _ _ Hcad) as Hok.
  pose proof (step_prog_cadence _ _ ts row Hcad) as Hcad'.
  destruct Hcad as [[Hwf Htc] _].
  destruct (preproc_stream s ts row done cur Hwf Hok Hcur Hlp Hbuf) as [Hlp1 Hbuf1].
  destruct (preproc_step_count s ts (arx row) (ary row) (arz row) (grx row)
              (gry row) (grz row) Hok) as [_ Hcount].
  destruct (preproc_frame s ts (arx row) (ary row) (arz row) (grx row)
              (gry row) (grz row)) as (Hll1 & _).
  pose proof (preproc_wf s ts (arx row) (ary row) (arz row) (grx row)
                (gry row) (grz row) Hwf) as Hwf1.
  rewrite step_prog_eq, Hfull in * by done.
  apply Z.eqb_eq in Hfull. rewrite SAMP_BUFF_LEN_val in Hfull.
  assert (length (cur ++ [ary row]) = FRAME_LEN) as Hlen
    by (rewrite length_app, FRAME_LEN_val; cbn; lia).
  rewrite take_ge in Hbuf1
    by (rewrite (frame_row_length _ (proj1 Hwf1)), FRAME_LEN_val by (cbn; lia); lia).
  set (s1 := snd (step_algo_preproc s ts (arx row) (ary row) (arz row) (grx row)
                    (gry row) (grz row))) in *.
  destruct (frame_stream s1 (step_algo_output s1) done (cur ++ [ary row])
              (conj Hwf1 (eq_ind_r (fun f => (0 <= TC_samples f <= MAX_TC_SAMPLES)%Z)
                            Htc Hll1))
              Hlen Hbuf1 (eq_trans Hll1 Hll)) as [Hll2 Hder2].
  destruct (step_algo_run_frame s1 (step_algo_output s1)) as (_ & Hlp2 & Hc2 & _).
  destruct (set_step_algo_output_fields (fst (step_algo_run s1 (step_algo_output s1)))
              (snd (step_algo_run s1 (step_algo_output s1)))) as (Elp & Ell & _ & Ers).
  exists (done ++ cur ++ [ary row]), [].
  split; [by rewrite app_nil_r, map_app, Hys, <- app_assoc|]. split.
  { exists (S k). rewrite length_app, Hlen, Hk. lia. }
  split; [by rewrite set_step_algo_output_count, Hc2, Hcount|].
  split; [by rewrite length_app, Nat.add_1_r|].
  split; [by rewrite Elp, Hlp2, app_nil_r|].
  split; [by rewrite app_nil_r, drop_ge by (rewrite smoothed_length; lia)|].
  split; [by rewrite Ell|]. intros _. by rewrite Ers.
Qed.

(** One row keeps the invariant. *)
Lemma stream_step pre s ts row :
  stream_inv pre s -> stream_inv (pre ++ [row]) (step_prog s ts row).
Proof.
  intros Hinv. destruct (count s =? SAMP_BUFF_LEN - 1)%Z eqn:Hfull.
  - by apply stream_step_full.
  - by apply stream_step_part.
Qed.

(** Induction along the rows read, with the rows in hand. *)
Lemma main_loop_ind_rows (P : list (sensor_row R) -> state R -> Prop) m rows :
  P [] (prog m) ->
  (forall pre s ts row, P pre s -> P (pre ++ [row]) (step_prog s ts row)) ->
  P rows (prog (fst (main_loop m rows))).
Proof.
  revert P m. induction rows as [|row rows IH]; intros P m H0 Hstep; [done|].
  rewrite main_loop_cons. cbn [fst].
  apply (IH (fun l => P (row :: l))); [|intros; by apply (Hstep (row :: pre))].
  rewrite main_step_prog. by apply (Hstep []).
Qed.

Lemma main_loop_stream rows : stream_inv rows (prog (fst (main_loop main_init rows))).
Proof. apply main_loop_ind_rows; [apply stream_init|apply stream_step]. Qed.

(** C10. The buffered pipeline computes the filters of the stream. After
    [k] complete frames and a part of a frame, whatever the input: the
    low-pass filter is in the state that running it over every sample
    read leaves; the frame buffer holds the smoothed samples of the part;
    the lead-lag filter is in the state that running it over the smoothed
    samples of the complete frames leaves; and [AccDer], which the scan
    reads, is the last [SAMP_BUFF_LEN] values of the lead-lag filter run
    over the smoothed stream. Processing frame by frame loses and
    reorders nothing. Any arithmetic. *)
Theorem main_stream frames part k :
  length frames = k * FRAME_LEN -> length part < FRAME_LEN ->
  let s := prog (fst (main_loop main_init (frames ++ part))) in
  let ys := map ary (frames ++ part) in
  lp_filter_y s = snd (filter_run lp_filter_init ys)
  /\ take (length part) (AccBuff s !!! ROW_ACC) = drop (length frames) (smoothed ys)
  /\ ll_filter_y s = snd (filter_run ll_filter_init (smoothed (map ary frames)))
  /\ (frames <> [] ->
      AccDer (run_static s)
      = drop (length frames - FRAME_LEN) (derivative (map ary frames))).
Proof.
  intros Hk Hpart. cbv zeta.
  destruct (main_loop_stream (frames ++ part))
    as (done & cur & Hys & [k' Hk'] & Hcur & Hcad & Hlp & Hbuf & Hll & Hder).
  pose proof (cadence_count_ok _ _ Hcad) as Hok. unfold count_ok in Hok.
  pose proof (f_equal length Hys) as Hlen.
  rewrite length_map, !length_app in Hlen.
  rewrite <- Hcur, SAMP_BUFF_LEN_val in Hok. rewrite FRAME_LEN_val in *.
  rewrite map_app in Hys. apply app_inj_1 in Hys as [<- <-]; [|rewrite length_map; lia].
  rewrite !length_map in *. rewrite <- map_app in *.
  repeat split; try done. intros Hne. apply Hder. by destruct frames.
Qed.

End Stream.

Lemma main_stream_witness :
  let frames := replicate 52 quiet_row in
  let part := replicate 3 quiet_row in
  let s := prog (fst (main_loop main_init (frames ++ part))) in
  let ys := map ary (frames ++ part) in
  lp_filter_y s = snd (filter_run lp_filter_init ys)
  /\ take (length part) (AccBuff s !!! ROW_ACC) = drop (length frames) (smoothed ys)
  /\ ll_filter_y s = snd (filter_run ll_filter_init (smoothed (map ary frames)))
  /\ (frames <> [] ->
      AccDer (run_static s)
      = drop (length frames - FRAME_LEN) (derivative (map ary frames))).
Proof.
  apply (main_stream (replicate 52 quiet_row) (replicate 3 quiet_row) 1);
    vm_compute; lia.
Defined.
