(* ===== verification/Binary32.v ===== *)
(** * Binary32: the arithmetic of the compiled program

    The instance of [Scalar] that computes what the C program computes on
    an IEEE 754 platform: [float] is binary32, [double] is binary64, every
    operation rounds to nearest, ties to even, each operation on [float]
    operands is evaluated in binary32 ([FLT_EVAL_METHOD] 0) and no product
    is fused with a sum. The operations are those of the Standard Library's
    executable specification [SpecFloat], at precision 24 and 53.

    The carrier [float] holds the values of both C types. Literals with the
    suffix [f] and integers converted to [float] are rounded to binary32
    ([sc_lit]); literals without suffix are rounded to binary64
    ([sc_dlit]). The program only compares, negates or takes the absolute
    value of a [double]; a comparison converts both operands to binary64
    first ([widen], exact) as the usual arithmetic conversions do.

    The theorems of the other files that do not assume [ExactScalar] hold
    at this instance. This file adds what is specific to it: the values of
    the rounded constants, the group delays, the drift of the accumulated
    timestamp, and the behaviour on a NaN: a NaN sample puts the low-pass
    filter in a state that it never leaves, every later frame has a
    derivative that fails both zero-crossing tests, no step is counted
    after the frame of that sample and the estimates age to zero, so the
    label ends as STATIONARY ([nan_freezes_count]; from the start when the
    NaN is in the first row, [nan_sample_stops_counting]). *)

From Stdlib Require Import QArith ZArith Lia List String SpecFloat.
From stdpp Require Import base tactics option list.
From S2P Require Import Prelude.
From S2P Require Import Scalar.
From S2P Require Import Types.
From S2P Require Import Filter.
From S2P Require Import State.
From S2P Require Import Preproc.
From S2P Require Import Detector.
From S2P Require Import Classify.
From S2P Require Import Pipeline.

(** ** The formats *)

(** float.h: the number of significand bits and the exponent of the
    infinities. *)
Definition FLT_MANT_DIG : Z := 24.

Definition FLT_MAX_EXP : Z := 128.

Definition DBL_MANT_DIG : Z := 53.

Definition DBL_MAX_EXP : Z := 1024.

(** A value of type [float] or [double]. *)
Definition float : Type := spec_float.

Notation "'NaN'" := (S754_nan : float).

(** ** The operations *)

(** The value of a decimal literal or of an integer, rounded to nearest
    even in the format given: the quotient of two integers as [SFdiv]
    rounds it. *)
Definition round_Q (prec emax : Z) (q : Q) : float :=
  match Qnum q with
  | Z0 => S754_zero false
  | Zpos p => SFdiv prec emax (S754_finite false p 0) (S754_finite false (Qden q) 0)
  | Zneg p => SFdiv prec emax (S754_finite true p 0) (S754_finite false (Qden q) 0)
  end.

(** The conversion to [double] of an operand of a comparison: the same
    value with a binary64 significand. *)
Definition widen (x : float) : float :=
  match x with
  | S754_finite s m e => binary_round DBL_MANT_DIG DBL_MAX_EXP s m e
  | _ => x
  end.

(** [x < y] and [x <= y]; false when an operand is a NaN. *)
Definition float_ltb (x y : float) : bool := SFltb (widen x) (widen y).

Definition float_leb (x y : float) : bool := SFleb (widen x) (widen y).

(** [(unsigned int) x]: the integer part of a finite value. The program
    converts two positive constants only (lines 121 and 136). *)
Definition float_trunc (x : float) : Z :=
  match x with
  | S754_finite s m e =>
      cond_Zopp s match e with
                  | Zneg p => Z.quot (Zpos m) (2 ^ Zpos p)
                  | _ => Zpos m * 2 ^ e
                  end
  | _ => 0
  end.

#[export] Instance float_scalar : Scalar float := {|
  sc_lit := round_Q FLT_MANT_DIG FLT_MAX_EXP;
  sc_dlit := round_Q DBL_MANT_DIG DBL_MAX_EXP;
  sc_add := SFadd FLT_MANT_DIG FLT_MAX_EXP;
  sc_sub := SFsub FLT_MANT_DIG FLT_MAX_EXP;
  sc_mul := SFmul FLT_MANT_DIG FLT_MAX_EXP;
  sc_div := SFdiv FLT_MANT_DIG FLT_MAX_EXP;
  sc_opp := SFopp;
  sc_abs := SFabs;
  sc_ltb := float_ltb;
  sc_leb := float_leb;
  sc_trunc := float_trunc
|}.

(** ** A poisoned run *)

(** The cells of the frame written so far hold NaN. *)
Definition frame_nan (s : state float) : Prop :=
  forall j, j < Z.to_nat (count s) -> (AccBuff s !!! ROW_ACC) !!! j = NaN.

(** Moreover the step count is [c]. *)
Definition frame_poisoned (c : Z) (s : state float) : Prop :=
  frame_nan s /\ step_count (step_algo_output s) = c.

(** Moreover the low-pass filter has produced a NaN. *)
Definition poisoned (c : Z) (s : state float) : Prop :=
  prev_out (lp_filter_y s) = NaN /\ frame_poisoned c s.

(** After a NaN, [j] rows after a frame boundary: poisoned, with the
    estimates ageing. *)
Definition fading (c : Z) (j : nat) (s : state float) : Prop :=
  cadence_inv j s /\ poisoned c s /\ settling j s.

(** A row that shows the label and the code of [STATIC]. *)
Definition stationary_row (o : output_row float) : Prop :=
  out_step_type o = Some (motion_type_name STATIC)
  /\ out_step_type_num o = motion_type_code STATIC.

(** A parsed row whose channels other than the vertical acceleration are
    zero. *)
Definition row_of (ary : float) : sensor_row float :=
  mk_sensor_row 0 0 (sc_lit 0) ary (sc_lit 0) (sc_lit 0) (sc_lit 0) (sc_lit 0).

(** ** The constants as the compiler rounds them *)

(** [0.1f] is 0x3DCCCCCD and [1E-6] is 0x3EB0C6F7A0B5ED8D. *)
Example round_Q_known :
  sc_lit (1 # 10) = S754_finite false 13421773 (-27)
  /\ sc_dlit (1 # 1000000) = S754_finite false 4722366482869645 (-72).
Proof. by vm_compute. Qed.

(** The thresholds of the classifier are [double]: 2.2 is not a binary32
    value, and the comparison of line 402 sees the difference. *)
Example FAST_FREQ_is_double :
  sc_ltb FAST_FREQ (sc_lit (22 # 10) : float) = true.
Proof. by vm_compute. Qed.

(** The group delays in binary32. With the products of lines 121 and
    136 rounded to binary32, the low-pass filter still gets a delay of 8
    samples and the lead-lag filter one of 7, as in exact arithmetic. *)
Example float_group_delays :
  TC_samples (lp_filter_init (R:=float)) = 8%Z
  /\ TC_samples (ll_filter_init (R:=float)) = 7%Z.
Proof. by vm_compute. Qed.

(** C39. The clock drifts. The timestamp is accumulated by adding the
    rounded sampling interval once per row (line 164). After 104 rows, one
    second of data, it is 16777200 * 2^-24, sixteen units in the last place
    below 1; after 1040 rows it is 10485691 * 2^-20, which prints as
    9.999934. Binary32 arithmetic; the rows may hold anything. *)
Theorem float_clock_drifts (rows : list (sensor_row float)) :
  (length rows = 104 ->
     timestamp (fst (main_loop main_init rows)) = S754_finite false 16777200 (-24))
  /\ (length rows = 1040 ->
     timestamp (fst (main_loop main_init rows)) = S754_finite false 10485691 (-20)).
Proof.
  rewrite main_loop_clock. split; intros ->; by vm_compute.
Qed.

(** Counts survive the conversion. The divisors of lines 347 and 360
    are detection counts converted to [float]; a frame has at most
    [SAMP_BUFF_LEN] detections. Every integer from 0 to twice that is
    converted exactly: converting it to [float] and back gives the
    integer. *)
Theorem float_count_roundtrip n :
  (0 <= n <= 2 * SAMP_BUFF_LEN)%Z -> float_trunc (sc_of_Z n) = n.
Proof.
  intros Hn.
  assert (forallb (fun k => float_trunc (sc_of_Z (Z.of_nat k)) =? Z.of_nat k)%Z
            (seq 0 105) = true) as Hall by (by vm_compute).
  rewrite forallb_forall in Hall. rewrite <-(Z2Nat.id n) by lia.
  apply Z.eqb_eq, Hall, in_seq. revert Hn. cfg. lia.
Qed.

(** ** NaN absorbs *)

Section NaN.
Implicit Types (x y : float) (f : filter_t float).
Local Open Scope sc_scope.

Lemma float_mul_nan_r x : x * NaN = NaN.
Proof. by destruct x. Qed.

Lemma float_add_nan_l x : NaN + x = NaN.
Proof. done. Qed.

Lemma float_add_nan_r x : x + NaN = NaN.
Proof. by destruct x. Qed.

Lemma float_sub_nan_l x : NaN - x = NaN.
Proof. done. Qed.

Lemma float_sub_nan_r x : x - NaN = NaN.
Proof. by destruct x. Qed.

Lemma float_ltb_nan_l x : (NaN <? x) = false.
Proof. done. Qed.

Lemma float_ltb_nan_r x : (x <? NaN) = false.
Proof.
  cbn. unfold float_ltb, SFltb. cbn [widen]. by destruct (widen x).
Qed.

(** A NaN passes neither zero-crossing test. *)
Lemma nan_idle :
  (NaN <? - EPSILON) = false /\ (NaN >? EPSILON) = false.
Proof. split; [apply float_ltb_nan_l|apply float_ltb_nan_r]. Qed.

(** A NaN input gives a NaN output, whatever the filter. *)
Lemma apply_filter_nan_in f : fst (apply_filter f NaN) = NaN.
Proof.
  unfold apply_filter. cbn [fst].
  by rewrite float_mul_nan_r, !float_add_nan_l, !float_sub_nan_l.
Qed.

(** A filter whose last output was a NaN gives a NaN, whatever the
    input. *)
Lemma apply_filter_nan_out f x : prev_out f = NaN -> fst (apply_filter f x) = NaN.
Proof.
  intros Hp. unfold apply_filter. cbn [fst].
  by rewrite Hp, float_mul_nan_r, float_sub_nan_r, float_sub_nan_l.
Qed.

Lemma apply_filter_prev_out f x :
  prev_out (snd (apply_filter f x)) = fst (apply_filter f x).
Proof. done. Qed.

Lemma filter_run_nan f xs :
  Forall (eq NaN) xs -> Forall (eq NaN) (fst (filter_run f xs)).
Proof.
  intros Hxs. revert f. induction Hxs as [|x xs <- _ IH]; intros f.
  - by constructor.
  - rewrite filter_run_cons. cbn [fst]. constructor; [|apply IH].
    by rewrite apply_filter_nan_in.
Qed.

End NaN.

(** ** A NaN sample *)

Section Poisoned.
Implicit Types (s : state float) (row : sensor_row float).

(** A frame of NaN counts nothing. *)
Lemma step_algo_run_nan s out :
  run_ready s -> Forall (eq NaN) (AccBuff s !!! ROW_ACC) ->
  step_count (snd (step_algo_run s out)) = wrap32 (step_count out).
Proof.
  intros Hr Hbuf. apply step_algo_run_idle, run_scan_idle; [exact Hr|].
  eapply Forall_impl; [exact (filter_run_nan _ _ Hbuf)|].
  intros d <-. exact nan_idle.
Qed.

(** A row changes the buffer, the low-pass filter and [count] as
    [step_algo_preproc] does. *)
Lemma step_prog_frame s ts row :
  let s1 := snd (step_algo_preproc s ts (arx row) (ary row) (arz row) (grx row)
                   (gry row) (grz row)) in
  let s' := step_prog s ts row in
  AccBuff s' = AccBuff s1 /\ lp_filter_y s' = lp_filter_y s1 /\ count s' = count s1.
Proof.
  cbv zeta. unfold step_prog. destruct (step_algo_preproc _ _ _ _ _ _ _ _) as [r s1].
  cbn [fst snd]. destruct (r =? 1)%Z; [|done].
  destruct (step_algo_run_frame s1 (step_algo_output s1)) as (Hb & Hlp & Hc & _).
  cbv zeta in *. by destruct (step_algo_run s1 (step_algo_output s1)).
Qed.

(** Once a NaN has entered the low-pass filter, or enters it with this
    row, its last output is a NaN. *)
Lemma step_prog_lp_nan s ts row :
  prev_out (lp_filter_y s) = NaN \/ ary row = NaN ->
  prev_out (lp_filter_y (step_prog s ts row)) = NaN.
Proof.
  intros Hnan. destruct (step_prog_frame s ts row) as (_ & -> & _).
  rewrite preproc_lp_filter, apply_filter_prev_out.
  destruct Hnan as [Hp| ->]; [by apply apply_filter_nan_out|apply apply_filter_nan_in].
Qed.

(** The cell that the row writes holds a NaN as well. *)
Lemma step_prog_frame_nan n s ts row :
  cadence_inv n s -> frame_nan s ->
  prev_out (lp_filter_y s) = NaN \/ ary row = NaN ->
  let s1 := snd (step_algo_preproc s ts (arx row) (ary row) (arz row) (grx row)
                   (gry row) (grz row)) in
  forall j, j <= Z.to_nat (count s) -> (AccBuff s1 !!! ROW_ACC) !!! j = NaN.
Proof.
  intros Hinv Hbuf Hnan. cbv zeta. intros j Hj.
  pose proof (cadence_count_ok n s Hinv) as Hc. destruct Hinv as [[Hwf Htc] _].
  destruct (preproc_rows s ts (arx row) (ary row) (arz row) (grx row)
              (gry row) (grz row) Hwf Hc) as [-> _].
  assert (fst (apply_filter (lp_filter_y s) (ary row)) = NaN) as ->
    by (destruct Hnan as [Hp| ->];
        [by apply apply_filter_nan_out|apply apply_filter_nan_in]).
  assert (length (AccBuff s !!! ROW_ACC) = FRAME_LEN) as Hlen
    by (apply (frame_row_length _ (proj1 Hwf)); cbn; lia).
  destruct (decide (j = Z.to_nat (count s))) as [->|Hne].
  - rewrite list_lookup_total_insert_eq; [done|]. rewrite Hlen, FRAME_LEN_val.
    revert Hc. unfold count_ok. cfg. lia.
  - rewrite list_lookup_total_insert_ne by done. apply Hbuf. lia.
Qed.

(** A row that does not complete a frame, or completes a frame of NaN,
    leaves the step count as it was. *)
Lemma step_prog_count_nan s ts row :
  let s1 := snd (step_algo_preproc s ts (arx row) (ary row) (arz row) (grx row)
                   (gry row) (grz row)) in
  run_ready s1 -> is_u32 (step_count (step_algo_output s)) ->
  (count s = (SAMP_BUFF_LEN - 1)%Z -> Forall (eq NaN) (AccBuff s1 !!! ROW_ACC)) ->
  count_ok s ->
  step_count (step_algo_output (step_prog s ts row)) = step_count (step_algo_output s).
Proof.
  cbv zeta. intros Hr Hu Hbuf Hc. unfold step_prog.
  destruct (preproc_frame s ts (arx row) (ary row) (arz row) (grx row)
              (gry row) (grz row)) as (_ & Hout & _).
  destruct (preproc_step_count s ts (arx row) (ary row) (arz row) (grx row)
              (gry row) (grz row) Hc) as [Hfst _].
  destruct (step_algo_preproc s ts _ _ _ _ _ _) as [r s1]. cbn [fst snd] in *. subst r.
  destruct (Z.eqb_spec (count s) (SAMP_BUFF_LEN - 1)%Z) as [Hlast|Hmid];
    cbn [Z.eqb Pos.eqb]; [|by rewrite Hout].
  change (step_algo_output (set_step_algo_output ?a ?b)) with b.
  rewrite step_algo_run_nan, Hout by auto. by apply wrap32_small.
Qed.

(** A poisoned program stays poisoned, with the same count. *)
Lemma step_prog_poisoned n c s ts row :
  is_u32 c -> cadence_inv n s -> frame_poisoned c s ->
  prev_out (lp_filter_y s) = NaN \/ ary row = NaN ->
  poisoned c (step_prog s ts row).
Proof.
  intros Hu Hinv [Hbuf Hsc] Hnan.
  pose proof (cadence_count_ok n s Hinv) as Hc.
  pose proof (step_prog_frame_nan n s ts row Hinv Hbuf Hnan) as Hcells.
  destruct (preproc_cadence n s ts row Hinv) as [_ [Hr1 _]].
  destruct (preproc_step_count s ts (arx row) (ary row) (arz row) (grx row)
              (gry row) (grz row) Hc) as [_ Hcnt].
  destruct (step_prog_frame s ts row) as (Hb & _ & Hcount). cbv zeta in *.
  split; [by apply step_prog_lp_nan|]. split.
  - unfold frame_nan. rewrite Hb, Hcount, Hcnt. intros j Hj. apply Hcells.
    revert Hj. case_match; lia.
  - rewrite step_prog_count_nan; [done|done|by rewrite Hsc| |done].
    intros Hlast. rewrite Forall_lookup_total. intros j Hj. symmetry. apply Hcells.
    destruct Hr1 as [[Hwf _] _].
    rewrite (frame_row_length _ Hwf), FRAME_LEN_val in Hj by (cbn; lia).
    rewrite Hlast. revert Hj. cfg. lia.
Qed.

(** Once poisoned, the rows printed show the same step count. *)
Lemma main_loop_poisoned n c m rows :
  is_u32 c -> cadence_inv n (prog m) -> poisoned c (prog m) ->
  Forall (fun o => out_step_count o = c) (snd (main_loop m rows)).
Proof.
  intros Hu Hinv Hp.
  apply (main_loop_outputs_on (fun _ => True)
           (fun k s => cadence_inv (n + k) s /\ poisoned c s)
           _ _ _ (Forall_true _ _ (fun _ => I))).
  - by rewrite Nat.add_0_r.
  - intros k s ts r _ [Hk [Hlp Hfr]]. rewrite Nat.add_succ_r.
    split; [by apply step_prog_cadence|].
    by apply (step_prog_poisoned (n + k)); [..|left].
  - intros k m' r [_ (_ & _ & Hsc)].
    by destruct (main_step_output m' r) as (_ & -> & _).
Qed.

(** A NaN sample leaves the low-pass filter with a NaN for the rest of
    the run. *)
Lemma main_loop_lp_nan m row rows :
  ary row = NaN -> prev_out (lp_filter_y (prog (fst (main_loop m (row :: rows))))) = NaN.
Proof.
  intros Hnan. rewrite main_loop_cons. cbn [fst].
  apply (main_loop_inv (fun s => prev_out (lp_filter_y s) = NaN)).
  - rewrite main_step_prog. apply step_prog_lp_nan. by right.
  - intros s ts r Hs. apply step_prog_lp_nan. by left.
Qed.

(** The step count is a 32-bit value. *)
Lemma step_prog_count_u32 s ts row :
  is_u32 (step_count (step_algo_output s)) ->
  is_u32 (step_count (step_algo_output (step_prog s ts row))).
Proof.
  intros Hu. unfold step_prog.
  destruct (preproc_frame s ts (arx row) (ary row) (arz row) (grx row)
              (gry row) (grz row)) as (_ & Hout & _).
  destruct (step_algo_preproc s ts _ _ _ _ _ _) as [r s1]. cbn [fst snd] in *.
  destruct (r =? 1)%Z; [|by rewrite Hout].
  change (step_algo_output (set_step_algo_output ?a ?b)) with b.
  rewrite step_algo_run_step_count. apply u32_add_range.
Qed.

(** The state at a frame boundary that follows a NaN. *)
Lemma main_loop_boundary_poisoned pre row mid :
  ary row = NaN ->
  (Z.of_nat (length (pre ++ row :: mid)) mod SAMP_BUFF_LEN = 0)%Z ->
  let s := prog (fst (main_loop main_init (pre ++ row :: mid))) in
  is_u32 (step_count (step_algo_output s))
  /\ cadence_inv (length (pre ++ row :: mid)) s
  /\ poisoned (step_count (step_algo_output s)) s.
Proof.
  intros Hnan Hlen. cbv zeta.
  pose proof (main_loop_ind cadence_inv main_init (pre ++ row :: mid)
                main_init_ready step_prog_cadence) as Hinv.
  split; [|split; [exact Hinv|split; [|split; [|done]]]].
  - apply main_loop_inv; [done|]. intros s ts r. apply step_prog_count_u32.
  - rewrite main_loop_app. cbn [fst]. by apply main_loop_lp_nan.
  - destruct Hinv as [_ Hcount]. intros j. rewrite Hcount, Hlen. cbn. lia.
Qed.

(** A NaN in the first sample silences the counter. If the vertical
    acceleration of the first row is a NaN, every output row shows a step
    count of 0, whatever the rows that follow contain. *)
Theorem nan_sample_stops_counting row rows :
  ary row = NaN ->
  Forall (fun o => out_step_count o = 0%Z)
    (snd (main_loop main_init (row :: rows))).
Proof.
  intros Hnan. rewrite main_loop_cons. cbn [snd].
  assert (poisoned 0 (prog (fst (main_step main_init row)))) as Hp.
  { rewrite main_step_prog.
    apply (step_prog_poisoned 0); [done|apply main_init_ready| |by right].
    split; [intros j; cbn; lia|done]. }
  constructor.
  - destruct (main_step_output main_init row) as (_ & -> & _). apply Hp.
  - apply (main_loop_poisoned 1); [done| |done].
    rewrite main_step_prog. apply (step_prog_cadence 0), main_init_ready.
Qed.

(** The count is frozen from the next frame boundary on. *)
Lemma nan_count_frozen pre row mid post :
  ary row = NaN ->
  (Z.of_nat (length (pre ++ row :: mid)) mod SAMP_BUFF_LEN = 0)%Z ->
  let rows := pre ++ row :: mid in
  Forall (fun o =>
    Some (out_step_count o) = out_step_count <$> last (snd (main_loop main_init rows)))
    (drop (length rows) (snd (main_loop main_init (rows ++ post)))).
Proof.
  intros Hnan Hlen. cbv zeta.
  destruct (main_loop_boundary_poisoned pre row mid Hnan Hlen) as (Hu & Hinv & Hp).
  rewrite (main_loop_app main_init (pre ++ row :: mid) post). cbn [snd].
  rewrite drop_app_length' by (symmetry; apply main_loop_length).
  pose proof (main_loop_last main_init (pre ++ row :: mid)) as Hlast.
  pose proof (main_loop_length main_init (pre ++ row :: mid)) as Hl.
  destruct (last (snd (main_loop main_init (pre ++ row :: mid)))) as [o1|] eqn:Ho1.
  - cbn. rewrite (Hlast o1 eq_refl).
    eapply Forall_impl; [exact (main_loop_poisoned _ _ _ post Hu Hinv Hp)|].
    by intros o ->.
  - apply last_None in Ho1. rewrite Ho1, length_app in Hl. cbn in Hl. lia.
Qed.

Lemma float_zero_period : ((sc_lit 0 : float) >? EPSILON)%sc = false.
Proof. by vm_compute. Qed.

Lemma float_zero_static : classify (sc_lit 0 : float) (sc_lit 0) = STATIC.
Proof. by vm_compute. Qed.

(** A frame of NaN is a frame without detection. *)
Lemma nan_frame_idle s :
  run_ready s -> Forall (eq NaN) (AccBuff s !!! ROW_ACC) -> idle_frame s.
Proof.
  intros Hr Hbuf. apply run_scan_idle; [exact Hr|].
  eapply Forall_impl; [exact (filter_run_nan _ _ Hbuf)|].
  intros d <-. exact nan_idle.
Qed.

Lemma step_prog_fading c j s ts row :
  is_u32 c -> fading c j s -> fading c (S j) (step_prog s ts row).
Proof.
  intros Hu (Hinv & Hp & Hs). pose proof Hp as [Hlp [Hbuf _]].
  split; [by apply step_prog_cadence|].
  split; [apply (step_prog_poisoned j); [exact Hu|exact Hinv|exact (proj2 Hp)|by left]|].
  apply (step_prog_settling float_zero_period float_zero_static); [exact Hinv|exact Hs|].
  intros Hlast. destruct (preproc_cadence j s ts row Hinv) as [_ [Hr1 _]].
  apply nan_frame_idle; [exact Hr1|]. rewrite Forall_lookup_total. intros i Hi.
  symmetry. apply (step_prog_frame_nan j); [done|done|by left|].
  destruct Hr1 as [[Hwf _] _].
  rewrite (frame_row_length _ Hwf), FRAME_LEN_val in Hi by (cbn; lia).
  rewrite Hlast. revert Hi. cfg. lia.
Qed.

Lemma main_loop_fading c n m rows :
  is_u32 c -> fading c n (prog m) ->
  fading c (n + length rows) (prog (fst (main_loop m rows))).
Proof.
  intros Hu Hm. apply (main_loop_ind (fun k => fading c (n + k))).
  - by rewrite Nat.add_0_r.
  - intros k s ts row Hs. rewrite Nat.add_succ_r. by apply step_prog_fading.
Qed.


Lemma main_step_fading_label c j m row :
  (156 <= j) -> fading c j (prog (fst (main_step m row))) ->
  stationary_row (snd (main_step m row)).
Proof.
  intros Hj (_ & _ & _ & Hlab). unfold stationary_row.
  destruct (main_step_output m row) as (_ & _ & -> & -> & ->).
  rewrite Hlab; [done|]. revert Hj. cfg. intros. Z.div_mod_to_equations. lia.
Qed.

Lemma main_loop_stationary c n m rows :
  is_u32 c -> 155 <= n -> fading c n (prog m) ->
  Forall stationary_row (snd (main_loop m rows)).
Proof.
  intros Hu Hn Hm. destruct rows as [|row rows]; [by constructor|].
  rewrite main_loop_cons. cbn [snd].
  assert (fading c (S n) (prog (fst (main_step m row)))) as Hm1
    by (rewrite main_step_prog; by apply step_prog_fading).
  constructor; [apply (main_step_fading_label c (S n)); [lia|exact Hm1]|].
  apply (main_loop_outputs_on (fun _ => True) (fun k s => fading c (S n + k) s)
           _ _ _ (Forall_true _ _ (fun _ => I))).
  - by rewrite Nat.add_0_r.
  - intros k s ts r _ Hs. rewrite Nat.add_succ_r. by apply step_prog_fading.
  - intros k m' r. apply main_step_fading_label. lia.
Qed.

(** The label is that of [STATIC] from three frames later on. *)
Lemma nan_label_settles pre row mid post :
  ary row = NaN ->
  (Z.of_nat (length (pre ++ row :: mid)) mod SAMP_BUFF_LEN = 0)%Z ->
  let rows := pre ++ row :: mid in
  Forall stationary_row
    (drop (length rows + 155) (snd (main_loop main_init (rows ++ post)))).
Proof.
  intros Hnan Hlen. cbv zeta.
  destruct (main_loop_boundary_poisoned pre row mid Hnan Hlen) as (Hu & [Hr Hc] & Hp).
  pose proof (main_loop_aged_0 (pre ++ row :: mid)) as Hage.
  rewrite (main_loop_app main_init (pre ++ row :: mid) post). cbn [snd].
  rewrite drop_app_ge, main_loop_length by (rewrite main_loop_length; lia).
  replace (length (pre ++ row :: mid) + 155 - length (pre ++ row :: mid))%nat with 155
    by lia.
  set (m0 := fst (main_loop main_init (pre ++ row :: mid))) in *.
  assert (fading (step_count (step_algo_output (prog m0))) 0 (prog m0)) as Hm0.
  { split; [split; [exact Hr|by rewrite Hc, Hlen]|]. split; [exact Hp|].
    split; [exact Hage|]. change (Z.of_nat 0 / SAMP_BUFF_LEN)%Z with 0%Z. cfg. lia. }
  rewrite <- (take_drop 155 post), main_loop_app. cbn [snd].
  rewrite drop_app_ge by (rewrite main_loop_length, length_take; lia).
  apply Forall_drop. destruct (decide (155 <= length post)) as [Hlong|Hshort].
  - eapply (main_loop_stationary _ 155); [exact Hu|done|].
    pose proof (main_loop_fading _ 0 m0 (take 155 post) Hu Hm0) as Hf.
    by rewrite length_take_le in Hf.
  - rewrite drop_ge by lia. by constructor.
Qed.

(** C14. A NaN sample silences the program. If the vertical acceleration
    of some row is a NaN (the text [nan] is a valid input of the
    conversion [%f]), then from any later row that completes a frame on,
    every output row shows the step count of that row, and from 155 rows
    later on, when [BUFF_FACTOR + 1] more frames are complete, every
    output row shows STATIONARY, whatever the rows that follow contain.
    Binary32 arithmetic. *)
Theorem nan_freezes_count (pre : list (sensor_row float)) (row : sensor_row float)
    (mid post : list (sensor_row float)) :
  ary row = NaN ->
  (Z.of_nat (length (pre ++ row :: mid)) mod SAMP_BUFF_LEN = 0)%Z ->
  let rows := pre ++ row :: mid in
  let os := snd (main_loop main_init (rows ++ post)) in
  Forall (fun o =>
    Some (out_step_count o) = out_step_count <$> last (snd (main_loop main_init rows)))
    (drop (length rows) os)
  /\ Forall stationary_row (drop (length rows + 155) os).
Proof.
  intros Hnan Hlen. split; [by apply nan_count_frozen|by apply nan_label_settles].
Qed.

End Poisoned.

(** A NaN followed by swings of 20 every 0.4 s. *)
Lemma nan_sample_stops_counting_witness :
  Forall (fun o => out_step_count o = 0%Z)
    (snd (main_loop main_init
            (row_of NaN ::
             mjoin (replicate 8 (replicate 20 (row_of (sc_lit 20))
                                 ++ replicate 20 (row_of (sc_lit 0))))))).
Proof. by apply nan_sample_stops_counting. Defined.

Lemma float_count_roundtrip_witness : float_trunc (sc_of_Z 52) = 52%Z.
Proof. apply float_count_roundtrip. by vm_compute. Defined.

Lemma float_clock_drifts_witness :
  timestamp (fst (main_loop main_init (replicate 104 (row_of (sc_lit 0)))))
  = S754_finite false 16777200 (-24).
Proof. by apply (float_clock_drifts (replicate 104 (row_of (sc_lit 0)))). Defined.

(** A NaN in the fourth row and swings of 20 after the first frame. *)
Lemma nan_freezes_count_witness :
  let rows := replicate 3 (row_of (sc_lit 0)) ++ row_of NaN :: replicate 48 (row_of (sc_lit 0)) in
  let os := snd (main_loop main_init (rows ++ [row_of (sc_lit 20); row_of (sc_lit 0)])) in
  Forall (fun o =>
    Some (out_step_count o) = out_step_count <$> last (snd (main_loop main_init rows)))
    (drop (length rows) os)
  /\ Forall stationary_row (drop (length rows + 155) os).
Proof.
  by apply (nan_freezes_count (replicate 3 (row_of (sc_lit 0))) (row_of NaN)
              (replicate 48 (row_of (sc_lit 0))) [row_of (sc_lit 20); row_of (sc_lit 0)]).
Defined.
