(* ===== verification/Text.v ===== *)
(** * Text: characters, texts and the reading of lines

    The texts the program handles, as lists of characters: the contents
    of a file, the line buffer, a C string. The character classes of the C
    library that [sscanf] and [strtof] consult ([isspace], [isdigit],
    [tolower]), the longest prefix of a class ([span]), the value of a
    sequence of digits, and [fgets] on a text. Then the laws of these
    that the files on parsing, reading and printing share. *)

From Stdlib Require Import ZArith Lia List String Ascii.
From stdpp Require Import base tactics option list.

(** ** Texts and character classes *)

(** The contents of a file, of a buffer or of a C string. *)
Definition text : Type := list ascii.

Definition text_of (s : string) : text := list_ascii_of_string s.

#[export] Instance ascii_eq_dec : EqDecision ascii := ascii_dec.

Definition code (c : ascii) : N := N_of_ascii c.

Definition newline : ascii := ascii_of_N 10.

(** [isspace] in the C locale: space, and the characters 9 to 13. *)
Definition isspace (c : ascii) : bool :=
  (code c =? 32)%N || ((9 <=? code c)%N && (code c <=? 13)%N).

Definition isdigit (c : ascii) : bool :=
  (48 <=? code c)%N && (code c <=? 57)%N.

(** The value of a hexadecimal digit, if it is one. *)
Definition hex_value (c : ascii) : option Z :=
  let n := code c in
  if ((48 <=? n) && (n <=? 57))%N then Some (Z.of_N n - 48)%Z
  else if ((65 <=? n) && (n <=? 70))%N then Some (Z.of_N n - 55)%Z
  else if ((97 <=? n) && (n <=? 102))%N then Some (Z.of_N n - 87)%Z
  else None.

(** An upper-case letter as its lower-case letter. *)
Definition tolower (c : ascii) : ascii :=
  if ((65 <=? code c) && (code c <=? 90))%N then ascii_of_N (code c + 32) else c.

(** The longest prefix of characters that satisfy [p], and the rest. *)
Fixpoint span (p : ascii -> bool) (s : text) : text * text :=
  match s with
  | c :: s' => if p c then let '(l, r) := span p s' in (c :: l, r) else ([], s)
  | [] => ([], [])
  end.

(** [s] without the prefix [pre], compared without regard to case. *)
Fixpoint strip_nocase (pre s : text) : option text :=
  match pre, s with
  | [], _ => Some s
  | p :: pre', c :: s' =>
      if decide (tolower c = p) then strip_nocase pre' s' else None
  | _ :: _, [] => None
  end.

(** The number written by decimal digits, most significant first. *)
Definition digits_value (ds : text) : Z :=
  fold_left (fun acc c => acc * 10 + (Z.of_N (code c) - 48))%Z ds 0%Z.

Definition hex_digits_value (ds : text) : Z :=
  fold_left (fun acc c => acc * 16 + default 0 (hex_value c))%Z ds 0%Z.

(** White space in a format: any amount of white space, none
    included. *)
Definition skip_space (s : text) : text := snd (span isspace s).

(** ** [fgets] and C strings *)

(** Up to [room] characters of [s], stopping after a newline. *)
Fixpoint fgets_take (room : nat) (s : text) : text * text :=
  match room, s with
  | S room', c :: s' =>
      if decide (c = newline) then ([c], s')
      else let '(l, r) := fgets_take room' s' in (c :: l, r)
  | _, _ => ([], s)
  end.

(** [fgets(buf, size, f)] on a file whose unread part is [s]: the
    characters stored and what remains unread, or [None] (the null
    pointer) at the end of the file. *)
Definition fgets (size : nat) (s : text) : option (text * text) :=
  match s with
  | [] => None
  | _ => Some (fgets_take (size - 1) s)
  end.

(** The buffer as a C string: up to the first null character. *)
Definition c_string (l : text) : text :=
  fst (span (fun c => negb (code c =? 0)%N) l).

(** ** Predicates on texts *)

(** [r] is empty or begins with a character that does not satisfy [p]. *)
Definition stops (p : ascii -> bool) (r : text) : bool :=
  match r with
  | [] => true
  | c :: _ => negb (p c)
  end.

(** [r] begins with a character that satisfies [p]. *)
Definition starts (p : ascii -> bool) (r : text) : bool :=
  match r with
  | [] => false
  | c :: _ => p c
  end.

Definition not_newline (c : ascii) : bool := negb (bool_decide (c = newline)).

Definition not_space (c : ascii) : bool := negb (isspace c).

(** A character inside a line: no newline, no null character. *)
Definition inline (c : ascii) : bool := not_newline c && negb (code c =? 0)%N.

(** What follows a number in a line: a comma or white space. *)
Definition ends_number (c : ascii) : bool := bool_decide (c = ","%char) || isspace c.

(** ** Laws of the character classes *)

Ltac ascii_cases c :=
  revert c; intros [[] [] [] [] [] [] [] []]; vm_compute; try done.

Lemma digit_facts c :
  isdigit c = true ->
  tolower c = c /\ not_space c = true /\ inline c = true /\ ends_number c = false
  /\ c <> "-"%char /\ c <> "+"%char /\ c <> "."%char /\ c <> "i"%char /\ c <> "n"%char
  /\ c <> "x"%char /\ c <> "e"%char.
Proof. ascii_cases c. all: intros _; repeat split; done. Qed.

Lemma ends_number_facts c :
  ends_number c = true ->
  isdigit c = false /\ c <> "."%char /\ tolower c <> "e"%char /\ tolower c <> "x"%char.
Proof. ascii_cases c. all: intros _; repeat split; done. Qed.

Lemma ends_number_special c :
  ends_number c = true -> tolower c <> "i"%char /\ c <> "("%char.
Proof. ascii_cases c. all: intros _; split; done. Qed.

Lemma space_facts c :
  isspace c = true ->
  negb (code c =? 0)%N = true /\ isdigit c = false /\ c <> "-"%char /\ c <> "+"%char.
Proof. ascii_cases c. all: intros _; repeat split; done. Qed.

(** ** Laws of [span] *)

Section Span.
Implicit Types (p q : ascii -> bool) (s l r : text).

(** A prefix that satisfies [p], followed by nothing or by a character
    that does not, is what [span] returns. *)
Lemma span_prefix p l r :
  forallb p l = true -> stops p r = true -> span p (l ++ r) = (l, r).
Proof.
  intros Hl Hr. induction l as [|c l IH]; cbn in *.
  - destruct r as [|c r]; [done|]. cbn in *. destruct (p c); [discriminate|done].
  - apply andb_true_iff in Hl as [Hc Hl]. rewrite Hc, IH; [done|exact Hl].
Qed.

Lemma span_stops p s : stops p s = true -> span p s = ([], s).
Proof. apply (span_prefix p []). done. Qed.

Lemma span_all p s : forallb p s = true -> span p s = (s, []).
Proof. intros Hs. rewrite <- (app_nil_r s) at 1. by apply span_prefix. Qed.

Lemma forallb_weaken p q l :
  (forall c, p c = true -> q c = true) -> forallb p l = true -> forallb q l = true.
Proof. rewrite !forallb_forall. auto. Qed.

Lemma starts_weaken p q s :
  (forall c, p c = true -> q c = true) -> starts p s = true -> starts q s = true.
Proof. destruct s; cbn; auto. Qed.

Lemma starts_app p l r : starts p l = true -> starts p (l ++ r) = true.
Proof. by destruct l. Qed.

Lemma starts_stops p q s :
  (forall c, p c = true -> q c = false) -> starts p s = true -> stops q s = true.
Proof. destruct s as [|c s]; cbn; [done|]. intros Hpq Hc. by rewrite (Hpq c Hc). Qed.

Lemma not_space_stops s : starts not_space s = true -> stops isspace s = true.
Proof. apply starts_stops. intros c. unfold not_space. by destruct (isspace c). Qed.

Lemma skip_space_starts s : starts not_space s = true -> skip_space s = s.
Proof. intros Hs. unfold skip_space. by rewrite span_stops by by apply not_space_stops. Qed.

End Span.

(** ** Laws of [fgets] and of C strings *)

Section Reading.
Implicit Types (s l r rest : text).

Lemma fgets_take_app room s :
  fst (fgets_take room s) ++ snd (fgets_take room s) = s.
Proof.
  revert s. induction room as [|room IH]; intros [|c s]; try done. cbn.
  case_decide; [done|]. specialize (IH s).
  destruct (fgets_take room s) as [l r]. cbn in *. by rewrite IH.
Qed.

(** A call that stores a character leaves less to read. *)
Lemma fgets_take_progress room c s :
  length (snd (fgets_take (S room) (c :: s))) <= length s.
Proof.
  cbn. case_decide; [done|].
  pose proof (f_equal length (fgets_take_app room s)) as Hlen.
  destruct (fgets_take room s) as [l r]. cbn in *. rewrite length_app in Hlen. lia.
Qed.

Lemma not_newline_ne c : not_newline c = true -> c <> newline.
Proof. unfold not_newline. by intros ?%negb_true_iff%bool_decide_eq_false. Qed.

Lemma fgets_take_line room l rest :
  forallb not_newline l = true -> length l < room ->
  fgets_take room (l ++ newline :: rest) = (l ++ [newline], rest).
Proof.
  revert room. induction l as [|c l IH]; intros room Hl Hroom.
  - destruct room; [cbn in Hroom; lia|]. cbn. by rewrite decide_True.
  - destruct room; [cbn in Hroom; lia|]. cbn in *.
    apply andb_true_iff in Hl as [Hc%not_newline_ne Hl].
    by rewrite decide_False, IH by (done || lia).
Qed.

Lemma fgets_take_long room l rest :
  forallb not_newline l = true -> room <= length l ->
  fgets_take room (l ++ rest) = (take room l, drop room l ++ rest).
Proof.
  revert room. induction l as [|c l IH]; intros room Hl Hroom.
  - destruct room; [by destruct rest|cbn in Hroom; lia].
  - destruct room; [done|]. cbn in *.
    apply andb_true_iff in Hl as [Hc%not_newline_ne Hl].
    by rewrite decide_False, IH by (done || lia).
Qed.

(** A short text without newline is read whole. *)
Lemma fgets_take_short room l :
  forallb not_newline l = true -> length l <= room -> fgets_take room l = (l, []).
Proof.
  revert room. induction l as [|c l IH]; intros room Hl Hroom; [by destruct room|].
  destruct room; [cbn in Hroom; lia|]. cbn in *.
  apply andb_true_iff in Hl as [Hc%not_newline_ne Hl].
  by rewrite decide_False, IH by (done || lia).
Qed.

(** A line and the white space that ends it hold no null character. *)
Lemma c_string_ended l e :
  forallb inline l = true -> forallb isspace e = true -> c_string (l ++ e) = l ++ e.
Proof.
  intros Hl He. unfold c_string. rewrite span_all; [done|].
  rewrite forallb_app, andb_true_iff. split.
  - revert Hl. apply forallb_weaken. intros c. unfold inline. by intros [_ ?]%andb_true_iff.
  - revert He. apply forallb_weaken. intros c Hc. apply (space_facts c Hc).
Qed.

Lemma c_string_line l : forallb inline l = true -> c_string (l ++ [newline]) = l ++ [newline].
Proof. intros Hl. by apply c_string_ended. Qed.

Lemma c_string_blank s : forallb isspace s = true -> c_string s = s.
Proof. intros Hs. by apply (c_string_ended []). Qed.

End Reading.
