(* ===== verification/Scanf.v ===== *)
(** * Scanf: the conversion of a line by [sscanf]

    The call of lines 162-163 of pedometer.c: the format
    ["%d, %d, %[^,], %[^,], %f, %f, %f, %f, %f, %f\n"] as a list of
    directives, each with the variable of [main] it assigns
    ([line_format]), and [sscanf] as the C standard describes it, directive
    by directive: [scan_int] for [%d], [scan_set] for [%[^,]],
    [scan_float] for [%f], [skip_space] for white space in the format,
    [scan_char] for a comma. As in C, the variables keep their old values
    from the first directive that fails. The two [%[^,]] directives have
    no field width and store into arrays of 12 characters: a field of 12
    characters or more is a write outside the array, which the model
    reports as [Overflow].

    The arithmetic is that of [Binary32]: [%f] converts the decimal or
    hexadecimal text to the nearest binary32 value, and accepts [inf] and
    [nan].

    The second half describes well-formed lines ([csv_row], [render]) and
    proves that [sscanf] returns the values written on them, and that a
    date or a time that does not fit overflows. *)

From Stdlib Require Import QArith ZArith Lia List String Ascii SpecFloat.
From stdpp Require Import base tactics option list.
From S2P Require Import Prelude.
From S2P Require Import Scalar.
From S2P Require Import Binary32.
From S2P Require Import Text.

(** ** The directives of [sscanf] *)

(** An ordinary character in the format. *)
Definition scan_char (c : ascii) (s : text) : option text :=
  match s with
  | c' :: s' => if decide (c' = c) then Some s' else None
  | [] => None
  end.

(** An optional sign: whether it is a minus, and the rest. *)
Definition scan_sign (s : text) : bool * text :=
  match s with
  | c :: s' =>
      if decide (c = "-"%char) then (true, s')
      else if decide (c = "+"%char) then (false, s')
      else (false, s)
  | [] => (false, s)
  end.

(** [%d]: white space, an optional sign, one digit at least. The value is
    stored in an [unsigned int]: the number modulo 2^32 (the C standard
    leaves a number outside the range of [long] undefined). *)
Definition scan_int (s : text) : option (Z * text) :=
  let '(neg, s1) := scan_sign (skip_space s) in
  let '(ds, s2) := span isdigit s1 in
  match ds with
  | [] => None
  | _ => Some (wrap32 (if neg then (- digits_value ds)%Z else digits_value ds), s2)
  end.

Definition not_comma (c : ascii) : bool := negb (bool_decide (c = ","%char)).

(** What a [%[^,]] directive does with an array of [size] characters. *)
Inductive set_result : Type :=
  | SetNone
  | SetOverflow
  | SetSome (field rest : text).

(** [%[^,]]: one character at least, everything up to the next comma,
    stored with a null character after it. *)
Definition scan_set (size : nat) (s : text) : set_result :=
  let '(field, rest) := span not_comma s in
  match field with
  | [] => SetNone
  | _ => if decide (length field < size) then SetSome field rest else SetOverflow
  end.

(** The value [(-1)^neg * m * 10^e10 * 2^e2], rounded to binary32. *)
Definition float_of_parts (neg : bool) (m e10 e2 : Z) : float :=
  if (m =? 0)%Z then S754_zero neg
  else
    let p10 := (10 ^ Z.abs e10)%Z in
    let p2 := (2 ^ Z.abs e2)%Z in
    let num := (m * (if 0 <=? e10 then p10 else 1) * (if 0 <=? e2 then p2 else 1))%Z in
    let den := ((if 0 <=? e10 then 1 else p10) * (if 0 <=? e2 then 1 else p2))%Z in
    sc_lit (Qmake (if neg then (- num)%Z else num) (Z.to_pos den)).

(** An exponent part: the letter [mark], an optional sign and one digit at
    least. [Some (0, s)] when there is no exponent part, [None] when it is
    begun and not finished. *)
Definition scan_exponent (mark : ascii) (s : text) : option (Z * text) :=
  match s with
  | c :: s' =>
      if decide (tolower c = mark) then
        let '(neg, s1) := scan_sign s' in
        let '(ds, s2) := span isdigit s1 in
        match ds with
        | [] => None
        | _ => Some (if neg then (- digits_value ds)%Z else digits_value ds, s2)
        end
      else Some (0%Z, s)
  | [] => Some (0%Z, s)
  end.

(** Digits, an optional point, digits: the digits before and after the
    point, and the rest. *)
Definition scan_mantissa (digit : ascii -> bool) (s : text) : text * text * text :=
  let '(int_part, s1) := span digit s in
  match s1 with
  | c :: s2 =>
      if decide (c = "."%char) then
        let '(frac_part, s3) := span digit s2 in (int_part, frac_part, s3)
      else (int_part, [], s1)
  | [] => (int_part, [], s1)
  end.

(** The text after [nan]: nothing, or a parenthesised sequence of letters,
    digits and underscores. *)
Definition scan_nan_tail (s : text) : option text :=
  match s with
  | c :: s' =>
      if decide (c = "("%char) then
        let '(_, s1) := span (fun c => isdigit c || bool_decide (c = "_"%char)
                                       || ((97 <=? code (tolower c))%N
                                           && (code (tolower c) <=? 122)%N)) s' in
        scan_char ")"%char s1
      else Some s
  | [] => Some s
  end.

(** A decimal constant: digits with an optional point, one digit at
    least, and an optional exponent part. *)
Definition scan_decimal (neg : bool) (s : text) : option (float * text) :=
  let '(int_part, frac_part, s1) := scan_mantissa isdigit s in
  match int_part ++ frac_part with
  | [] => None
  | ds =>
      '(e, s2) ← scan_exponent "e"%char s1;
      Some (float_of_parts neg (digits_value ds)
              (e - Z.of_nat (length frac_part)) 0, s2)
  end.

(** A hexadecimal constant, after its [0x]: hexadecimal digits with an
    optional point and an optional binary exponent part. *)
Definition scan_hex (neg : bool) (s : text) : option (float * text) :=
  let '(int_part, frac_part, s1) :=
    scan_mantissa (fun c => bool_decide (is_Some (hex_value c))) s in
  match int_part ++ frac_part with
  | [] => None
  | ds =>
      '(e, s2) ← scan_exponent "p"%char s1;
      Some (float_of_parts neg (hex_digits_value ds) 0
              (e - 4 * Z.of_nat (length frac_part)), s2)
  end.

(** [%f]: white space, an optional sign, then [inf] or [infinity], [nan],
    a hexadecimal constant or a decimal constant, converted as [strtof]
    does. *)
Definition scan_float (s : text) : option (float * text) :=
  let '(neg, s1) := scan_sign (skip_space s) in
  match strip_nocase (text_of "inf") s1 with
  | Some s2 =>
      match s2 with
      | c :: _ =>
          if decide (tolower c = "i"%char) then
            s3 ← strip_nocase (text_of "inity") s2; Some (S754_infinity neg, s3)
          else Some (S754_infinity neg, s2)
      | [] => Some (S754_infinity neg, s2)
      end
  | None =>
  match strip_nocase (text_of "nan") s1 with
  | Some s2 => s3 ← scan_nan_tail s2; Some (NaN, s3)
  | None =>
  match strip_nocase (text_of "0x") s1 with
  | Some s2 => scan_hex neg s2
  | None => scan_decimal neg s1
  end end end.

(** ** [sscanf] with the format of line 162 *)

(** The variables that [sscanf] assigns (lines 80-83). *)
Record scan_vars : Type := mk_scan_vars {
  v_rec_id : Z;
  v_sen_id : Z;
  v_date : text;
  v_time : text;
  v_arx : float;
  v_ary : float;
  v_arz : float;
  v_grx : float;
  v_gry : float;
  v_grz : float
}.

(** Their initial values. *)
Definition scan_vars_init : scan_vars :=
  mk_scan_vars 0 0 [] [] (sc_lit 0) (sc_lit 0) (sc_lit 0) (sc_lit 0) (sc_lit 0)
    (sc_lit 0).

(** The length of [date] and [time] (line 81). *)
Definition DATE_LEN : nat := 12.

(** The assignment through each pointer that line 163 passes. *)
Definition set_rec_id (z : Z) (v : scan_vars) : scan_vars :=
  mk_scan_vars z (v_sen_id v) (v_date v) (v_time v) (v_arx v) (v_ary v) (v_arz v)
    (v_grx v) (v_gry v) (v_grz v).

Definition set_sen_id (z : Z) (v : scan_vars) : scan_vars :=
  mk_scan_vars (v_rec_id v) z (v_date v) (v_time v) (v_arx v) (v_ary v) (v_arz v)
    (v_grx v) (v_gry v) (v_grz v).

Definition set_date (t : text) (v : scan_vars) : scan_vars :=
  mk_scan_vars (v_rec_id v) (v_sen_id v) t (v_time v) (v_arx v) (v_ary v) (v_arz v)
    (v_grx v) (v_gry v) (v_grz v).

Definition set_time (t : text) (v : scan_vars) : scan_vars :=
  mk_scan_vars (v_rec_id v) (v_sen_id v) (v_date v) t (v_arx v) (v_ary v) (v_arz v)
    (v_grx v) (v_gry v) (v_grz v).

Definition set_arx (x : float) (v : scan_vars) : scan_vars :=
  mk_scan_vars (v_rec_id v) (v_sen_id v) (v_date v) (v_time v) x (v_ary v) (v_arz v)
    (v_grx v) (v_gry v) (v_grz v).

Definition set_ary (x : float) (v : scan_vars) : scan_vars :=
  mk_scan_vars (v_rec_id v) (v_sen_id v) (v_date v) (v_time v) (v_arx v) x (v_arz v)
    (v_grx v) (v_gry v) (v_grz v).

Definition set_arz (x : float) (v : scan_vars) : scan_vars :=
  mk_scan_vars (v_rec_id v) (v_sen_id v) (v_date v) (v_time v) (v_arx v) (v_ary v) x
    (v_grx v) (v_gry v) (v_grz v).

Definition set_grx (x : float) (v : scan_vars) : scan_vars :=
  mk_scan_vars (v_rec_id v) (v_sen_id v) (v_date v) (v_time v) (v_arx v) (v_ary v)
    (v_arz v) x (v_gry v) (v_grz v).

Definition set_gry (x : float) (v : scan_vars) : scan_vars :=
  mk_scan_vars (v_rec_id v) (v_sen_id v) (v_date v) (v_time v) (v_arx v) (v_ary v)
    (v_arz v) (v_grx v) x (v_grz v).

Definition set_grz (x : float) (v : scan_vars) : scan_vars :=
  mk_scan_vars (v_rec_id v) (v_sen_id v) (v_date v) (v_time v) (v_arx v) (v_ary v)
    (v_arz v) (v_grx v) (v_gry v) x.

(** A directive of a format, with the variable it assigns. *)
Inductive directive : Type :=
  | D_space
  | D_char (c : ascii)
  | D_int (assign : Z -> scan_vars -> scan_vars)
  | D_set (size : nat) (assign : text -> scan_vars -> scan_vars)
  | D_float (assign : float -> scan_vars -> scan_vars).

(** A comma and a space in the format. *)
Definition D_sep : list directive := [D_char ","%char; D_space].

(** ["%d, %d, %[^,], %[^,], %f, %f, %f, %f, %f, %f\n"] with the arguments of
    line 163. *)
Definition line_format : list directive :=
  [D_int set_rec_id] ++ D_sep ++ [D_int set_sen_id] ++ D_sep
  ++ [D_set DATE_LEN set_date] ++ D_sep ++ [D_set DATE_LEN set_time] ++ D_sep
  ++ [D_float set_arx] ++ D_sep ++ [D_float set_ary] ++ D_sep
  ++ [D_float set_arz] ++ D_sep ++ [D_float set_grx] ++ D_sep
  ++ [D_float set_gry] ++ D_sep ++ [D_float set_grz; D_space].

(** What a call leaves: the number of variables assigned and the
    variables, or a write outside [date] or [time]. *)
Inductive scan_result : Type :=
  | Scanned (n : nat) (v : scan_vars)
  | Overflow.

(** [sscanf]: the directives in order, up to the first that fails; the
    variables assigned before that keep their new values, the others
    their old ones. *)
Fixpoint sscanf (fmt : list directive) (s : text) (n : nat) (v : scan_vars)
    : scan_result :=
  match fmt with
  | [] => Scanned n v
  | D_space :: fmt' => sscanf fmt' (skip_space s) n v
  | D_char c :: fmt' =>
      match scan_char c s with
      | Some s' => sscanf fmt' s' n v
      | None => Scanned n v
      end
  | D_int assign :: fmt' =>
      match scan_int s with
      | Some (z, s') => sscanf fmt' s' (S n) (assign z v)
      | None => Scanned n v
      end
  | D_set size assign :: fmt' =>
      match scan_set size s with
      | SetSome field s' => sscanf fmt' s' (S n) (assign field v)
      | SetNone => Scanned n v
      | SetOverflow => Overflow
      end
  | D_float assign :: fmt' =>
      match scan_float s with
      | Some (x, s') => sscanf fmt' s' (S n) (assign x v)
      | None => Scanned n v
      end
  end.

(** ** Well-formed lines *)

(** The end of a number: the end of the text, a comma or white space. *)
Definition number_end (rest : text) : bool :=
  match rest with
  | [] => true
  | c :: _ => ends_number c
  end.

(** An unsigned decimal number: one digit at least. *)
Definition digits_ok (ds : text) : bool := starts isdigit ds && forallb isdigit ds.

(** A date or a time: it does not begin with white space and has no
    comma. *)
Definition field_shape (f : text) : bool :=
  starts not_space f && forallb not_comma f && forallb inline f.

(** A date or a time that fits its array: fewer than [DATE_LEN]
    characters. *)
Definition field_ok (f : text) : bool :=
  field_shape f && bool_decide (length f < DATE_LEN).

(** A decimal constant without exponent: sign, digits, and the digits
    after a point if there is one. *)
Record number : Type := mk_number {
  n_neg : bool;
  n_int : text;
  n_frac : option text
}.

Definition number_ok (x : number) : bool :=
  digits_ok (n_int x) && forallb isdigit (default [] (n_frac x)).

Definition sign_text (neg : bool) : text := if neg then ["-"%char] else [].

Definition point_text (fp : option text) : text :=
  match fp with
  | Some fp => "."%char :: fp
  | None => []
  end.

Definition number_text (x : number) : text :=
  sign_text (n_neg x) ++ n_int x ++ point_text (n_frac x).

(** The binary32 value nearest to the number. *)
Definition number_value (x : number) : float :=
  let fp := default [] (n_frac x) in
  float_of_parts (n_neg x) (digits_value (n_int x ++ fp)) (- Z.of_nat (length fp)) 0.

(** The fields of a line of the input. *)
Record csv_row : Type := mk_csv_row {
  c_rec : text;
  c_sen : text;
  c_date : text;
  c_time : text;
  c_arx : number;
  c_ary : number;
  c_arz : number;
  c_grx : number;
  c_gry : number;
  c_grz : number
}.

(** A row with a field of each kind in each place, whatever the lengths
    of its date and time. *)
Definition csv_row_shape (r : csv_row) : bool :=
  digits_ok (c_rec r) && digits_ok (c_sen r) && field_shape (c_date r)
  && field_shape (c_time r) && number_ok (c_arx r) && number_ok (c_ary r)
  && number_ok (c_arz r) && number_ok (c_grx r) && number_ok (c_gry r)
  && number_ok (c_grz r).

(** The date and the time fit their arrays. *)
Definition fits (r : csv_row) : bool :=
  bool_decide (length (c_date r) < DATE_LEN)
  && bool_decide (length (c_time r) < DATE_LEN).

Definition csv_row_ok (r : csv_row) : bool := csv_row_shape r && fits r.

Definition comma_space : text := text_of ", ".

(** The line without its newline, fields separated by a comma and a
    space, as the program writes its own output. *)
Definition render_body (r : csv_row) : text :=
  c_rec r ++ comma_space ++ c_sen r ++ comma_space ++ c_date r ++ comma_space
  ++ c_time r ++ comma_space ++ number_text (c_arx r) ++ comma_space
  ++ number_text (c_ary r) ++ comma_space ++ number_text (c_arz r) ++ comma_space
  ++ number_text (c_grx r) ++ comma_space ++ number_text (c_gry r) ++ comma_space
  ++ number_text (c_grz r).

Definition render (r : csv_row) : text := render_body r ++ [newline].

(** The values of the fields. *)
Definition vars_of (r : csv_row) : scan_vars :=
  mk_scan_vars (wrap32 (digits_value (c_rec r))) (wrap32 (digits_value (c_sen r)))
    (c_date r) (c_time r) (number_value (c_arx r)) (number_value (c_ary r))
    (number_value (c_arz r)) (number_value (c_grx r)) (number_value (c_gry r))
    (number_value (c_grz r)).

Definition sample_row (sec : string) (ary_frac : string) : csv_row :=
  mk_csv_row (text_of "7") (text_of "3") (text_of "2021-03-04")
    (text_of ("10:11:" ++ sec))
    (mk_number false (text_of "0") (Some (text_of "12")))
    (mk_number false (text_of "9") (Some (text_of ary_frac)))
    (mk_number true (text_of "0") (Some (text_of "5")))
    (mk_number false (text_of "0") (Some (text_of "001")))
    (mk_number false (text_of "0") None)
    (mk_number true (text_of "12") (Some [])).

(** ** Laws of the directives *)

Section Directives.
Implicit Types (s rest ds f : text) (x : number) (v : scan_vars).

Lemma digits_ok_forall ds : digits_ok ds = true -> forallb isdigit ds = true.
Proof. unfold digits_ok. by intros [_ ?]%andb_true_iff. Qed.

Lemma digits_ok_starts ds r : digits_ok ds = true -> starts isdigit (ds ++ r) = true.
Proof. unfold digits_ok. intros [? _]%andb_true_iff. by apply starts_app. Qed.

Lemma starts_digit_not_space s : starts isdigit s = true -> starts not_space s = true.
Proof. apply starts_weaken. intros c Hc. apply (digit_facts c Hc). Qed.

Lemma scan_sign_digit s : starts isdigit s = true -> scan_sign s = (false, s).
Proof.
  destruct s as [|c s]; [done|]. cbn. intros Hc.
  destruct (digit_facts c Hc) as (_ & _ & _ & _ & Hm & Hp & _).
  by rewrite !decide_False.
Qed.

Lemma number_end_stops_digit rest : number_end rest = true -> stops isdigit rest = true.
Proof.
  destruct rest as [|c rest]; [done|]. cbn. intros Hc.
  by destruct (ends_number_facts c Hc) as (-> & _).
Qed.

(** The sign of a number, when a digit follows it. *)
Lemma scan_sign_text neg s :
  starts isdigit s = true -> scan_sign (skip_space (sign_text neg ++ s)) = (neg, s).
Proof.
  intros Hs. destruct neg; cbn [sign_text app].
  - by rewrite skip_space_starts.
  - by rewrite skip_space_starts, scan_sign_digit by auto using starts_digit_not_space.
Qed.

(** [%d] on a decimal number with or without a minus sign. *)
Lemma scan_int_signed neg ds rest :
  digits_ok ds = true -> stops isdigit rest = true ->
  scan_int (sign_text neg ++ ds ++ rest)
  = Some (wrap32 (if neg then (- digits_value ds)%Z else digits_value ds), rest).
Proof.
  intros Hds Hrest. unfold scan_int.
  rewrite scan_sign_text, span_prefix by auto using digits_ok_starts, digits_ok_forall.
  by destruct ds.
Qed.

(** [%d] on an unsigned decimal number. *)
Lemma scan_int_digits ds rest :
  digits_ok ds = true -> stops isdigit rest = true ->
  scan_int (ds ++ rest) = Some (wrap32 (digits_value ds), rest).
Proof. apply (scan_int_signed false). Qed.

(** [%d] on white space only. *)
Lemma scan_int_blank s : forallb isspace s = true -> scan_int s = None.
Proof. intros Hs. unfold scan_int, skip_space. by rewrite span_all. Qed.

(** White space ends a number. *)
Lemma space_number_end e : forallb isspace e = true -> number_end e = true.
Proof.
  destruct e as [|c e]; [done|]. cbn. intros [Hc _]%andb_true_iff.
  unfold ends_number. by rewrite Hc, orb_true_r.
Qed.

(** [%[^,]] on a field that fits, and on one that does not. *)
Lemma field_shape_parts f :
  field_shape f = true ->
  starts not_space f = true /\ forallb not_comma f = true /\ forallb inline f = true.
Proof. unfold field_shape. rewrite !andb_true_iff. tauto. Qed.

Lemma field_ok_shape f : field_ok f = true -> field_shape f = true.
Proof. unfold field_ok. by intros [? _]%andb_true_iff. Qed.

Lemma scan_set_field f rest :
  field_ok f = true ->
  scan_set DATE_LEN (f ++ comma_space ++ rest) = SetSome f (comma_space ++ rest).
Proof.
  unfold field_ok. intros [(Hs & Hc & _)%field_shape_parts Hlen]%andb_true_iff.
  apply bool_decide_eq_true in Hlen. unfold scan_set. rewrite span_prefix by done.
  destruct f; [done|]. by rewrite decide_True.
Qed.

Lemma scan_set_long f rest :
  forallb not_comma f = true -> DATE_LEN <= length f ->
  scan_set DATE_LEN (f ++ comma_space ++ rest) = SetOverflow.
Proof.
  intros Hf Hlen. unfold scan_set. rewrite span_prefix by done.
  destruct f; [cbn in Hlen; unfold DATE_LEN in Hlen; lia|]. by rewrite decide_False by lia.
Qed.

Lemma strip_nocase_ne p pre c s :
  tolower c <> p -> strip_nocase (p :: pre) (c :: s) = None.
Proof. intros Hc. cbn. by rewrite decide_False. Qed.

(** A decimal constant does not begin as [0x]. *)
Lemma strip_0x_decimal d ip fp rest :
  isdigit d = true -> forallb isdigit ip = true -> number_end rest = true ->
  strip_nocase (text_of "0x") (d :: ip ++ point_text fp ++ rest) = None.
Proof.
  intros Hd Hip Hrest. cbn. case_decide; [|done].
  destruct ip as [|d' ip]; cbn in *.
  - destruct fp as [fp|]; cbn; [done|]. destruct rest as [|c rest]; [done|].
    cbn in *. destruct (ends_number_facts c Hrest) as (_ & _ & _ & Hx). by rewrite decide_False.
  - apply andb_true_iff in Hip as [Hd' _].
    destruct (digit_facts d' Hd') as (-> & _ & _ & _ & _ & _ & _ & _ & _ & Hx & _).
    by rewrite decide_False.
Qed.

Lemma scan_mantissa_number ip fp rest :
  forallb isdigit ip = true -> forallb isdigit (default [] fp) = true ->
  number_end rest = true ->
  scan_mantissa isdigit (ip ++ point_text fp ++ rest) = (ip, default [] fp, rest).
Proof.
  intros Hip Hfp Hrest. pose proof (number_end_stops_digit rest Hrest) as Hstop.
  unfold scan_mantissa. rewrite span_prefix; [|done|by destruct fp].
  destruct fp as [fp|]; cbn in *.
  - by rewrite span_prefix.
  - destruct rest as [|c rest]; [done|]. cbn in Hrest.
    destruct (ends_number_facts c Hrest) as (_ & Hp & _). by rewrite decide_False.
Qed.

Lemma scan_exponent_end rest :
  number_end rest = true -> scan_exponent "e"%char rest = Some (0%Z, rest).
Proof.
  destruct rest as [|c rest]; [done|]. cbn. intros Hc.
  destruct (ends_number_facts c Hc) as (_ & _ & He & _). by rewrite decide_False.
Qed.

Lemma scan_decimal_number neg ip fp rest :
  digits_ok ip = true -> forallb isdigit (default [] fp) = true ->
  number_end rest = true ->
  scan_decimal neg (ip ++ point_text fp ++ rest)
  = Some (number_value (mk_number neg ip fp), rest).
Proof.
  intros Hip Hfp Hrest. unfold scan_decimal.
  rewrite scan_mantissa_number by auto using digits_ok_forall.
  destruct ip as [|d ip]; [done|]. cbn [app]. by rewrite scan_exponent_end.
Qed.

(** [%f] on a decimal constant. *)
Lemma scan_float_number x rest :
  number_ok x = true -> number_end rest = true ->
  scan_float (number_text x ++ rest) = Some (number_value x, rest).
Proof.
  destruct x as [neg ip fp]. unfold number_ok, number_text. cbn [n_neg n_int n_frac].
  intros [Hip Hfp]%andb_true_iff Hrest. rewrite <- !app_assoc.
  rewrite <- (scan_decimal_number neg ip fp rest) by done.
  pose proof (digits_ok_starts ip (point_text fp ++ rest) Hip) as Hs.
  unfold scan_float. rewrite scan_sign_text by done.
  destruct ip as [|d ip]; [done|]. cbn in Hs. cbn [app].
  apply digits_ok_forall in Hip. cbn in Hip. apply andb_true_iff in Hip as [_ Hip].
  destruct (digit_facts d Hs) as (Hlow & _ & _ & _ & _ & _ & _ & Hi & Hn & _).
  change (text_of "inf") with ("i"%char :: text_of "nf").
  change (text_of "nan") with ("n"%char :: text_of "an").
  rewrite !strip_nocase_ne, strip_0x_decimal; congruence.
Qed.

End Directives.

(** ** [sscanf] on a well-formed line *)

Section Sscanf.
Implicit Types (s rest ds f : text) (x : number) (v : scan_vars)
  (fmt : list directive) (r : csv_row).

Lemma sscanf_sep fmt s n v :
  starts not_space s = true ->
  sscanf (D_sep ++ fmt) (comma_space ++ s) n v = sscanf fmt s n v.
Proof.
  intros Hs. transitivity (sscanf fmt (skip_space ([" "%char] ++ s)) n v); [done|].
  unfold skip_space. by rewrite span_prefix by auto using not_space_stops.
Qed.

Lemma sscanf_int assign fmt ds rest n v :
  digits_ok ds = true -> stops isdigit rest = true ->
  sscanf (D_int assign :: fmt) (ds ++ rest) n v
  = sscanf fmt rest (S n) (assign (wrap32 (digits_value ds)) v).
Proof. intros Hds Hrest. cbn [sscanf]. by rewrite scan_int_digits. Qed.

Lemma sscanf_set assign fmt f rest n v :
  field_ok f = true ->
  sscanf (D_set DATE_LEN assign :: fmt) (f ++ comma_space ++ rest) n v
  = sscanf fmt (comma_space ++ rest) (S n) (assign f v).
Proof. intros Hf. cbn [sscanf]. by rewrite scan_set_field. Qed.

Lemma sscanf_float assign fmt x rest n v :
  number_ok x = true -> number_end rest = true ->
  sscanf (D_float assign :: fmt) (number_text x ++ rest) n v
  = sscanf fmt rest (S n) (assign (number_value x) v).
Proof. intros Hx Hrest. cbn [sscanf]. by rewrite scan_float_number. Qed.

Lemma digits_not_space ds rest :
  digits_ok ds = true -> starts not_space (ds ++ rest) = true.
Proof. auto using starts_digit_not_space, digits_ok_starts. Qed.

Lemma sscanf_set_long assign fmt f rest n v :
  field_shape f = true -> DATE_LEN <= length f ->
  sscanf (D_set DATE_LEN assign :: fmt) (f ++ comma_space ++ rest) n v = Overflow.
Proof.
  intros (_ & Hc & _)%field_shape_parts Hlen. cbn [sscanf]. by rewrite scan_set_long.
Qed.

Lemma field_not_space f rest :
  field_shape f = true -> starts not_space (f ++ rest) = true.
Proof. intros (Hs & _)%field_shape_parts. by apply starts_app. Qed.

Lemma number_not_space x rest :
  number_ok x = true -> starts not_space (number_text x ++ rest) = true.
Proof.
  unfold number_ok, number_text. intros [Hip _]%andb_true_iff.
  destruct (n_neg x); cbn [sign_text app]; [done|].
  rewrite <- app_assoc. by apply digits_not_space.
Qed.

(** The fields of a well-formed row, one by one. *)
Lemma csv_row_shape_fields r :
  csv_row_shape r = true ->
  digits_ok (c_rec r) = true /\ digits_ok (c_sen r) = true
  /\ field_shape (c_date r) = true /\ field_shape (c_time r) = true
  /\ number_ok (c_arx r) = true /\ number_ok (c_ary r) = true
  /\ number_ok (c_arz r) = true /\ number_ok (c_grx r) = true
  /\ number_ok (c_gry r) = true /\ number_ok (c_grz r) = true.
Proof. unfold csv_row_shape. rewrite !andb_true_iff. tauto. Qed.

Lemma csv_row_ok_fields r :
  csv_row_ok r = true ->
  digits_ok (c_rec r) = true /\ digits_ok (c_sen r) = true
  /\ field_ok (c_date r) = true /\ field_ok (c_time r) = true
  /\ number_ok (c_arx r) = true /\ number_ok (c_ary r) = true
  /\ number_ok (c_arz r) = true /\ number_ok (c_grx r) = true
  /\ number_ok (c_gry r) = true /\ number_ok (c_grz r) = true.
Proof.
  unfold csv_row_ok, fits, field_ok.
  intros [Hshape [? ?]%andb_true_iff]%andb_true_iff.
  apply csv_row_shape_fields in Hshape. rewrite !andb_true_iff. tauto.
Qed.

Lemma csv_row_ok_shape r : csv_row_ok r = true -> csv_row_shape r = true.
Proof. unfold csv_row_ok. by intros [? _]%andb_true_iff. Qed.

Lemma digits_inline ds : digits_ok ds = true -> forallb inline ds = true.
Proof.
  intros Hds%digits_ok_forall. revert Hds. apply forallb_weaken.
  intros c Hc. apply (digit_facts c Hc).
Qed.

Lemma field_inline f : field_shape f = true -> forallb inline f = true.
Proof. by intros (_ & _ & ?)%field_shape_parts. Qed.

Lemma number_inline x : number_ok x = true -> forallb inline (number_text x) = true.
Proof.
  unfold number_ok, number_text. intros [Hip Hfp]%andb_true_iff.
  rewrite !forallb_app, (digits_inline _ Hip).
  assert (forallb inline (point_text (n_frac x)) = true) as ->; [|by destruct (n_neg x)].
  destruct (n_frac x) as [fp|]; [|done]. cbn in *. revert Hfp. apply forallb_weaken.
  intros c Hc. apply (digit_facts c Hc).
Qed.

Lemma render_body_inline r :
  csv_row_shape r = true -> forallb inline (render_body r) = true.
Proof.
  intros (Hrec & Hsen & Hdate & Htime & Hx & Hy & Hz & Hgx & Hgy & Hgz)%csv_row_shape_fields.
  unfold render_body. rewrite !forallb_app, !andb_true_iff.
  repeat split; auto using digits_inline, field_inline, number_inline.
Qed.

End Sscanf.

Create HintDb scanf.
#[export] Hint Resolve digits_not_space field_not_space number_not_space
  starts_app field_ok_shape : scanf.

Section Parse.
Implicit Types (s rest f : text) (v : scan_vars) (r : csv_row).

(** The fields of a well-formed row are read, whatever follows the last
    number after a comma or white space. *)
Lemma sscanf_fields r rest v :
  csv_row_ok r = true -> number_end rest = true ->
  sscanf line_format (render_body r ++ rest) 0 v = Scanned 10 (vars_of r).
Proof.
  intros (Hrec & Hsen & Hdate & Htime & Hx & Hy & Hz & Hgx & Hgy & Hgz)%csv_row_ok_fields.
  intros Hrest. unfold line_format, render_body. cbn [app]. rewrite <- !app_assoc.
  rewrite sscanf_int, sscanf_sep, sscanf_int, sscanf_sep by auto with scanf.
  rewrite sscanf_set, sscanf_sep, sscanf_set, sscanf_sep by auto with scanf.
  rewrite sscanf_float, sscanf_sep, sscanf_float, sscanf_sep by auto with scanf.
  rewrite sscanf_float, sscanf_sep, sscanf_float, sscanf_sep by auto with scanf.
  rewrite sscanf_float, sscanf_sep, sscanf_float by auto with scanf.
  reflexivity.
Qed.

(** A row whose date or time does not fit overflows its array. *)
Lemma sscanf_unfit r rest v :
  csv_row_shape r = true -> fits r = false ->
  sscanf line_format (render_body r ++ rest) 0 v = Overflow.
Proof.
  intros (Hrec & Hsen & Hdate & Htime & _)%csv_row_shape_fields Hfit.
  unfold line_format, render_body. cbn [app]. rewrite <- !app_assoc.
  rewrite sscanf_int, sscanf_sep, sscanf_int, sscanf_sep by auto with scanf.
  destruct (decide (length (c_date r) < DATE_LEN)) as [Hd|Hd].
  - rewrite sscanf_set, sscanf_sep; [|auto with scanf|].
    + apply sscanf_set_long; [done|]. unfold fits in Hfit.
      rewrite (bool_decide_eq_true_2 _ Hd) in Hfit. cbn in Hfit.
      apply bool_decide_eq_false in Hfit. lia.
    + unfold field_ok. by rewrite Hdate, (bool_decide_eq_true_2 _ Hd).
  - apply sscanf_set_long; [done|lia].
Qed.

(** C15. Parsing inverts rendering. On the line that writes the fields of
    a well-formed row separated by a comma and a space, [sscanf] with the
    format of [main] assigns all ten variables: the two integers modulo
    2^32, the date and the time as written, and each number rounded to
    the nearest binary32 value; the old values of the variables do not
    matter. *)
Theorem sscanf_render r v :
  csv_row_ok r = true ->
  sscanf line_format (render r) 0 v = Scanned 10 (vars_of r).
Proof. intros Hr. by apply sscanf_fields. Qed.

(** A date of twelve characters or more overflows its array. When
    the third field of a line has [DATE_LEN] characters or more, the
    directive [%[^,]], which has no field width, stores past the end of
    [date]: the behaviour of the program is undefined from that line
    on. *)
Theorem date_overflow v rec sen f rest :
  digits_ok rec = true -> digits_ok sen = true ->
  starts not_space f = true -> forallb not_comma f = true -> DATE_LEN <= length f ->
  sscanf line_format
    (rec ++ comma_space ++ sen ++ comma_space ++ f ++ comma_space ++ rest) 0 v
  = Overflow.
Proof.
  intros Hrec Hsen Hs Hf Hlen. unfold line_format. cbn [app].
  rewrite sscanf_int, sscanf_sep, sscanf_int, sscanf_sep by auto with scanf.
  cbn [sscanf]. by rewrite scan_set_long.
Qed.

End Parse.

(** ** Instances *)

Lemma sscanf_render_witness :
  sscanf line_format (text_of "7, 3, 2021-03-04, 10:11:12, 0.12, 9.81, -0.5, 0.001, 0, -12."
                      ++ [newline]) 0 scan_vars_init
  = Scanned 10 (vars_of (sample_row "12" "81")).
Proof. by apply (sscanf_render (sample_row "12" "81")). Defined.

Lemma date_overflow_witness :
  sscanf line_format (text_of "7, 3, 2021-03-04T10:11:12, 0.12") 0 scan_vars_init
  = Overflow.
Proof.
  by apply (date_overflow scan_vars_init (text_of "7") (text_of "3")
              (text_of "2021-03-04T10:11:12") (text_of "0.12")); [..|vm_compute; lia].
Defined.
