(* ===== verification/Adapter.v ===== *)
(** * Adapter: the file handling of [main]

    What [main] does around the pipeline (pedometer.c lines 75-106 and
    149-190): the check of the command line, the two [fopen] calls, the two
    header lines skipped, the loop that reads the input with [fgets] into a
    buffer of [MAX_CHAR_PER_LINE] characters and converts each piece with
    [sscanf] ([Scanf]), and the exit status.

    The world is a value: the arguments, what [fopen] answers, and the
    input file as a text. [main] does not look at the value [sscanf]
    returns; a write outside [date] or [time] is the outcome [Undefined].
    Each [fprintf] and [printf] is kept by its arguments ([out_line],
    [message]); [Printer] gives the text.

    The second half of the file describes well-formed input ([csv_line],
    [csv_file]) and proves what the program does on it: the reading loop
    returns the lines and [main_file] is [main] of [Pipeline] on the
    parsed rows, also when white space (a carriage return) follows the
    fields of a row and when no newline ends the last line. It then
    proves what the program does on input that is not well formed: a
    blank line, a file without header, a date too long for its array, a
    line too long for the buffer. *)

From Stdlib Require Import QArith ZArith Lia List String Ascii SpecFloat.
From stdpp Require Import base tactics option list.
From S2P Require Import Prelude.
From S2P Require Import Scalar.
From S2P Require Import Types.
From S2P Require Import Filter.
From S2P Require Import State.
From S2P Require Import Preproc.
From S2P Require Import Detector.
From S2P Require Import Classify.
From S2P Require Import Pipeline.
From S2P Require Import Binary32.
From S2P Require Import Text.
From S2P Require Import Scanf.

(** ** [main] on a world *)

(** Line 77. *)
Definition MAX_CHAR_PER_LINE : nat := 120.

(** The pieces that successive calls of [fgets] return, [fuel] calls at
    most. *)
Fixpoint read_chunks (fuel : nat) (s : text) : list text :=
  match fuel with
  | O => []
  | S fuel' =>
      match fgets MAX_CHAR_PER_LINE s with
      | None => []
      | Some (l, r) => l :: read_chunks fuel' r
      end
  end.

(** What the program is started in: the arguments ([argv[0]] first), what
    opening a file for reading gives, and whether a file can be opened
    for writing. *)
Record world : Type := mk_world {
  argv : list text;
  open_read : text -> option text;
  open_write : text -> bool
}.

(** What [main] prints on the standard output. *)
Inductive message : Type :=
  | Usage (prog : text)
  | NoInput (name : text)
  | NoOutput (name : text)
  | NoHeader (name : text)
  | Summary (duration : float) (total walk run hop : Z)
  | Done.

(** An [unsigned int] printed with [%d]. *)
Definition as_int (z : Z) : Z :=
  if (z <? 2 ^ 31)%Z then z else (z - 2 ^ 32)%Z.

(** A row of the output file, as the arguments of the [fprintf] of lines
    181-183. *)
Record out_line : Type := mk_out_line {
  o_rec_id : Z;
  o_sen_id : Z;
  o_date : text;
  o_time : text;
  o_acc_gyr : list float;
  o_timestamp : float;
  o_step_count : Z;
  o_step_type : option string;
  o_step_type_num : Z
}.

(** The output file at the end of a run: not opened, opened and left
    empty, or the header line of line 158 and the rows after it. *)
Inductive out_file : Type :=
  | NotOpened
  | Empty
  | Written (rows : list out_line).

(** What a run leaves: the messages, the output file and the argument of
    [exit]; or undefined behaviour. *)
Inductive outcome : Type :=
  | Exit (status : Z) (stdout : list message) (file : out_file)
  | Undefined.

(** The row that the variables make. *)
Definition row_of_vars (v : scan_vars) : sensor_row float :=
  mk_sensor_row (v_rec_id v) (v_sen_id v) (v_arx v) (v_ary v) (v_arz v)
    (v_grx v) (v_gry v) (v_grz v).

(** The arguments of the [fprintf] of lines 181-183. *)
Definition out_line_of (v : scan_vars) (o : output_row float) : out_line :=
  mk_out_line (as_int (v_rec_id v)) (as_int (v_sen_id v)) (v_date v) (v_time v)
    [v_arx v; v_ary v; v_arz v; v_grx v; v_gry v; v_grz v]
    (out_timestamp o) (as_int (out_step_count o)) (out_step_type o)
    (out_step_type_num o).

(** Lines 160-184, one iteration on the piece [chunk]. *)
Definition line_step (st : main_state float * scan_vars) (chunk : text)
    : option (main_state float * scan_vars * out_line) :=
  let '(m, v) := st in
  match sscanf line_format (c_string chunk) 0 v with
  | Overflow => None
  | Scanned _ v' =>
      let '(m', o) := main_step m (row_of_vars v') in
      Some (m', v', out_line_of v' o)
  end.

(** The loop of lines 160-184 over the pieces read. *)
Fixpoint line_loop (st : main_state float * scan_vars) (chunks : list text)
    : option (main_state float * list out_line) :=
  match chunks with
  | [] => Some (fst st, [])
  | chunk :: chunks' =>
      '(m, v, o) ← line_step st chunk;
      '(m', os) ← line_loop (m, v) chunks';
      Some (m', o :: os)
  end.

(** Lines 75-190. *)
Definition main_file (w : world) : outcome :=
  match argv w with
  | [_; in_name; out_name] =>
      match open_read w in_name with
      | None => Exit 1 [NoInput in_name] NotOpened
      | Some content =>
          if open_write w out_name then
            match read_chunks (length content) content with
            | _ :: _ :: chunks =>
                match line_loop (main_init, scan_vars_init) chunks with
                | Some (m, os) =>
                    let '(ts, total, walk, run, hop) := main_summary m in
                    Exit 0 [Summary ts (as_int total) (as_int walk) (as_int run)
                              (as_int hop); Done]
                      (Written os)
                | None => Undefined
                end
            | _ => Exit 1 [NoHeader out_name] Empty
            end
          else Exit 1 [NoOutput out_name] NotOpened
      end
  | _ => Exit 1 [Usage (default [] (head (argv w)))] NotOpened
  end.

(** ** Well-formed files *)

Definition row_of_csv (r : csv_row) : sensor_row float := row_of_vars (vars_of r).

(** A line of the data: the fields of a row, the same followed by white
    space (a carriage return, for instance), or white space only. *)
Inductive csv_line : Type :=
  | Row (r : csv_row)
  | Padded (r : csv_row) (ws : text)
  | Blank (ws : text).

Definition line_body (l : csv_line) : text :=
  match l with
  | Row r => render_body r
  | Padded r ws => render_body r ++ ws
  | Blank ws => ws
  end.

(** A line without its newline that one call of [fgets] reads whole. *)
Definition is_line (l : text) : bool :=
  forallb not_newline l && bool_decide (length l < MAX_CHAR_PER_LINE - 1).

Definition line_shape (l : csv_line) : bool :=
  match l with
  | Row r => csv_row_ok r
  | Padded r ws => csv_row_ok r && forallb isspace ws
  | Blank ws => forallb isspace ws
  end.

Definition line_ok (l : csv_line) : bool := line_shape l && is_line (line_body l).

Definition row_ok (r : csv_row) : bool := line_ok (Row r).

(** The variables after each line, from the variables [v] before the
    first: a blank line leaves them as they are. *)
Fixpoint vars_after (v : scan_vars) (ls : list csv_line) : list scan_vars :=
  match ls with
  | [] => []
  | Row r :: ls' | Padded r _ :: ls' => vars_of r :: vars_after (vars_of r) ls'
  | Blank _ :: ls' => v :: vars_after v ls'
  end.

(** The variables after one line. *)
Definition vars_next (v : scan_vars) (ln : csv_line) : scan_vars :=
  default v (head (vars_after v [ln])).

(** A file of lines, each ended by a newline. *)
Definition file_text (ls : list text) : text :=
  concat (map (fun l => l ++ [newline]) ls).

(** The file of two header lines and the lines [ls]. *)
Definition csv_file (h1 h2 : text) (ls : list csv_line) : text :=
  file_text (h1 :: h2 :: map line_body ls).

(** The same file with one more line, [l], that no newline ends. *)
Definition csv_file_open (h1 h2 : text) (ls : list csv_line) (l : csv_line) : text :=
  csv_file h1 h2 ls ++ line_body l.

(** What [main_file] leaves after a loop that wrote the rows [os], with
    the summary [sm]. *)
Definition exit_with_summary (os : list out_line) (sm : float * Z * Z * Z * Z)
    : outcome :=
  let '(ts, total, walk, run, hop) := sm in
  Exit 0 [Summary ts (as_int total) (as_int walk) (as_int run) (as_int hop); Done]
    (Written os).

(** What [main_file] leaves when the variables after each line are [vs]
    and [main] on the rows they make gives [r]. *)
Definition exit_with (vs : list scan_vars)
    (r : list (output_row float) * (float * Z * Z * Z * Z)) : outcome :=
  exit_with_summary (zip_with out_line_of vs (fst r)) (snd r).

(** ** A sample world *)

Definition sample_rows : list csv_row :=
  [sample_row "12" "81"; sample_row "13" "79"; sample_row "14" "85"].

Definition sample_header : text := text_of "RECORD, TYPE, DATE, TIME, arx, ary".

(** A world with one readable file, [in.csv], of content [content]. *)
Definition world_with (content : text) : world :=
  mk_world [text_of "pedometer"; text_of "in.csv"; text_of "out.csv"]
    (fun name => if decide (name = text_of "in.csv") then Some content else None)
    (fun _ => true).

(** ** The reading loop *)

Section Reading.
Implicit Types (s l r rest : text).

(** The first call of [fgets] on a file that is not empty, and the rest
    of the reading. *)
Lemma read_chunks_cons fuel c s :
  read_chunks (S fuel) (c :: s)
  = fst (fgets_take (MAX_CHAR_PER_LINE - 1) (c :: s))
    :: read_chunks fuel (snd (fgets_take (MAX_CHAR_PER_LINE - 1) (c :: s))).
Proof. cbn [read_chunks fgets]. by destruct (fgets_take _ _). Qed.

(** A short line is read whole, with its newline. *)
Lemma fgets_line l rest :
  is_line l = true ->
  fgets MAX_CHAR_PER_LINE (l ++ newline :: rest) = Some (l ++ [newline], rest).
Proof.
  unfold is_line. intros [Hl Hlen%bool_decide_eq_true]%andb_true_iff.
  unfold fgets. rewrite fgets_take_line by done. by destruct l.
Qed.

(** A file of short lines is read line by line. *)
Lemma read_chunks_lines fuel ls :
  forallb is_line ls = true -> length ls <= fuel ->
  read_chunks fuel (file_text ls) = map (fun l => l ++ [newline]) ls.
Proof.
  revert fuel. induction ls as [|l ls IH]; intros fuel Hls Hfuel.
  - by destruct fuel.
  - destruct fuel; [cbn in Hfuel; lia|]. cbn in Hls, Hfuel.
    apply andb_true_iff in Hls as [Hl Hls].
    unfold file_text. cbn [map concat read_chunks]. rewrite <- app_assoc. cbn [app].
    rewrite fgets_line by done. f_equal. apply IH; [done|lia].
Qed.

(** The last line of a file needs no newline. *)
Lemma fgets_last l :
  is_line l = true -> l <> [] -> fgets MAX_CHAR_PER_LINE l = Some (l, []).
Proof.
  unfold is_line. intros [Hl Hlen%bool_decide_eq_true]%andb_true_iff Hne.
  unfold fgets. rewrite fgets_take_short by (done || lia). by destruct l.
Qed.

Lemma read_chunks_lines_last fuel ls l :
  forallb is_line ls = true -> is_line l = true -> l <> [] -> length ls < fuel ->
  read_chunks fuel (file_text ls ++ l) = map (fun l => l ++ [newline]) ls ++ [l].
Proof.
  revert fuel. induction ls as [|l1 ls IH]; intros fuel Hls Hl Hne Hfuel.
  - destruct fuel; [cbn in Hfuel; lia|]. cbn [file_text map concat app read_chunks].
    rewrite fgets_last by done. by destruct fuel.
  - destruct fuel; [cbn in Hfuel; lia|]. cbn in Hls, Hfuel.
    apply andb_true_iff in Hls as [Hl1 Hls].
    unfold file_text. cbn [map concat read_chunks]. rewrite <- !app_assoc. cbn [app].
    rewrite fgets_line by done. cbn [app]. f_equal. apply IH; [done..|lia].
Qed.

Lemma file_text_length ls : length ls <= length (file_text ls).
Proof.
  induction ls as [|l ls IH]; [done|]. unfold file_text in *.
  cbn [map concat]. rewrite !length_app. cbn [length] in *. lia.
Qed.

(** The reading loop ends, having read the file. The calls of [fgets]
    on a file of [n] characters return the null pointer after [n] calls
    at most, and the pieces returned before are the file, in order and
    without loss, whatever the lengths of its lines. *)
Theorem read_chunks_concat fuel s :
  length s <= fuel -> concat (read_chunks fuel s) = s.
Proof.
  revert s. induction fuel as [|fuel IH]; intros s Hs.
  - destruct s; [done|cbn in Hs; lia].
  - destruct s as [|c s]; [done|]. rewrite read_chunks_cons. cbn [concat].
    pose proof (fgets_take_progress 118 c s) as Hp.
    rewrite IH by (cbn in Hs; change (MAX_CHAR_PER_LINE - 1) with 119; lia).
    apply fgets_take_app.
Qed.

(** C36. A long line is read as several lines. When a line has 119
    characters or more before its newline, the first call of [fgets]
    returns its first 119 characters and the next call continues in the
    same line: the loop of [main] runs twice or more for it. *)
Theorem long_line_split fuel l rest :
  forallb not_newline l = true -> MAX_CHAR_PER_LINE - 1 <= length l ->
  read_chunks (S fuel) (l ++ newline :: rest)
  = take (MAX_CHAR_PER_LINE - 1) l
    :: read_chunks fuel (drop (MAX_CHAR_PER_LINE - 1) l ++ newline :: rest).
Proof.
  intros Hl Hlen. destruct l as [|c l]; [cbn in Hlen; lia|].
  change ((c :: l) ++ newline :: rest) with (c :: (l ++ newline :: rest)).
  rewrite read_chunks_cons.
  change (c :: (l ++ newline :: rest)) with ((c :: l) ++ newline :: rest).
  by rewrite fgets_take_long.
Qed.

End Reading.

(** ** The loop of [main] on a well-formed file *)

Section Lines.
Implicit Types (s l rest : text) (r : csv_row) (m : main_state float)
  (v : scan_vars) (ls : list csv_line) (w : world).

(** A line that does not begin with a number assigns nothing: the
    iteration runs on the values of the line before. *)
Lemma line_step_stale m v chunk :
  scan_int (c_string chunk) = None ->
  line_step (m, v) chunk
  = Some (fst (main_step m (row_of_vars v)), v,
          out_line_of v (snd (main_step m (row_of_vars v)))).
Proof.
  intros Hscan. unfold line_step, line_format. cbn [app sscanf]. rewrite Hscan.
  by destruct (main_step m (row_of_vars v)).
Qed.

(** One iteration on the fields of a row followed by white space is one
    step of the pipeline on the values of the fields. *)
Lemma line_step_row m v r e :
  csv_row_ok r = true -> forallb isspace e = true ->
  line_step (m, v) (render_body r ++ e)
  = Some (fst (main_step m (row_of_vars (vars_of r))), vars_of r,
          out_line_of (vars_of r) (snd (main_step m (row_of_vars (vars_of r))))).
Proof.
  intros Hr He. unfold line_step.
  rewrite c_string_ended by auto using render_body_inline, csv_row_ok_shape.
  rewrite sscanf_fields by auto using space_number_end. cbv beta iota.
  by destruct (main_step m (row_of_vars (vars_of r))).
Qed.

Lemma vars_after_cons v ln ls :
  vars_after v (ln :: ls) = vars_next v ln :: vars_after (vars_next v ln) ls.
Proof. by destruct ln. Qed.

(** One iteration on a well-formed line and the white space [e] that ends
    it, a newline or nothing, is one step of the pipeline: on the values
    of its fields, or on those of the line before when it is blank. *)
Lemma line_step_ended m v (ln : csv_line) e :
  line_shape ln = true -> forallb isspace e = true ->
  line_step (m, v) (line_body ln ++ e)
  = Some (fst (main_step m (row_of_vars (vars_next v ln))), vars_next v ln,
          out_line_of (vars_next v ln)
            (snd (main_step m (row_of_vars (vars_next v ln))))).
Proof.
  intros Hl He. destruct ln as [r|r ws|ws]; cbn [line_shape line_body] in *.
  - by apply line_step_row.
  - apply andb_true_iff in Hl as [Hr Hws]. rewrite <- app_assoc.
    apply line_step_row; [done|]. by rewrite forallb_app, Hws.
  - apply line_step_stale. rewrite c_string_blank, scan_int_blank; try done.
    all: by rewrite forallb_app, Hl.
Qed.

(** The loop after one such iteration. *)
Lemma line_loop_cons m v (ln : csv_line) e chunks :
  line_shape ln = true -> forallb isspace e = true ->
  line_loop (m, v) ((line_body ln ++ e) :: chunks)
  = '(m', os) ← line_loop (fst (main_step m (row_of_vars (vars_next v ln))),
                           vars_next v ln) chunks;
    Some (m', out_line_of (vars_next v ln)
                (snd (main_step m (row_of_vars (vars_next v ln)))) :: os).
Proof. intros Hl He. cbn [line_loop]. by rewrite line_step_ended. Qed.

(** One iteration on a row whose date or time does not fit. *)
Lemma line_step_unfit m v r :
  csv_row_shape r = true -> fits r = false -> line_step (m, v) (render r) = None.
Proof.
  intros Hr Hfit. unfold line_step, render.
  by rewrite c_string_line, sscanf_unfit by auto using render_body_inline.
Qed.

Lemma line_loop_lines ls m v :
  forallb line_shape ls = true ->
  line_loop (m, v) (map (fun ln => line_body ln ++ [newline]) ls)
  = Some (fst (main_loop m (map row_of_vars (vars_after v ls))),
          zip_with out_line_of (vars_after v ls)
            (snd (main_loop m (map row_of_vars (vars_after v ls))))).
Proof.
  revert m v. induction ls as [|ln ls IH]; intros m v Hls; [done|].
  cbn in Hls. apply andb_true_iff in Hls as [Hln Hls].
  cbn [map]. rewrite line_loop_cons, vars_after_cons, IH by done.
  cbn [map zip_with]. by rewrite main_loop_cons.
Qed.

(** The same when no newline ends the last line. *)
Lemma line_loop_lines_last ls (ln' : csv_line) m v :
  forallb line_shape ls = true -> line_shape ln' = true ->
  line_loop (m, v) (map (fun ln => line_body ln ++ [newline]) ls ++ [line_body ln'])
  = Some (fst (main_loop m (map row_of_vars (vars_after v (ls ++ [ln'])))),
          zip_with out_line_of (vars_after v (ls ++ [ln']))
            (snd (main_loop m (map row_of_vars (vars_after v (ls ++ [ln'])))))).
Proof.
  revert m v. induction ls as [|ln ls IH]; intros m v Hls Hl.
  - cbn [map app]. rewrite <- (app_nil_r (line_body ln')), line_loop_cons by done.
    rewrite vars_after_cons. cbn [line_loop vars_after map zip_with].
    by rewrite main_loop_cons.
  - cbn in Hls. apply andb_true_iff in Hls as [Hln Hls].
    cbn [map app]. rewrite line_loop_cons, vars_after_cons, IH by done.
    cbn [map zip_with]. by rewrite main_loop_cons.
Qed.

(** The loop stops at the first row that does not fit. *)
Lemma line_loop_unfit rows m v :
  forallb csv_row_shape rows = true -> forallb fits rows = false ->
  line_loop (m, v) (map render rows) = None.
Proof.
  revert m v. induction rows as [|r rows IH]; intros m v Hrows Hfit; [done|].
  cbn in Hrows, Hfit. apply andb_true_iff in Hrows as [Hr Hrows].
  cbn [map line_loop]. destruct (fits r) eqn:Hfr.
  - change (render r) with (line_body (Row r) ++ [newline]).
    rewrite line_step_ended by (try done; cbn; unfold csv_row_ok; by rewrite Hr, Hfr).
    cbn -[main_step]. by rewrite IH.
  - by rewrite line_step_unfit.
Qed.

(** The loop passes every row that fits. *)
Lemma line_loop_fit rows m v :
  forallb csv_row_shape rows = true -> forallb fits rows = true ->
  is_Some (line_loop (m, v) (map render rows)).
Proof.
  revert m v. induction rows as [|r rows IH]; intros m v Hrows Hfit; [by eexists|].
  cbn in Hrows, Hfit. apply andb_true_iff in Hrows as [Hr Hrows].
  apply andb_true_iff in Hfit as [Hfr Hfit]. cbn [map line_loop].
  change (render r) with (line_body (Row r) ++ [newline]).
  rewrite line_step_ended by (try done; cbn; unfold csv_row_ok; by rewrite Hr, Hfr).
  cbn -[main_step]. by destruct (IH (fst (main_step m (row_of_vars (vars_of r))))
                                  (vars_of r) Hrows Hfit) as [[m' os] ->].
Qed.

Lemma line_ok_parts ls :
  forallb line_ok ls = true ->
  forallb line_shape ls = true /\ forallb is_line (map line_body ls) = true.
Proof.
  induction ls as [|ln ls IH]; [done|]. cbn. unfold line_ok at 1.
  rewrite !andb_true_iff. tauto.
Qed.

(** The program up to its loop, when the calls of [fgets] return two
    pieces and then [chunks]: what the loop returns decides the outcome. *)
Lemma main_file_chunks w prog inp out content c1 c2 chunks :
  argv w = [prog; inp; out] ->
  open_read w inp = Some content ->
  open_write w out = true ->
  read_chunks (length content) content = c1 :: c2 :: chunks ->
  main_file w
  = match line_loop (main_init, scan_vars_init) chunks with
    | Some (m, os) => exit_with_summary os (main_summary m)
    | None => Undefined
    end.
Proof.
  intros Hargv Hin Hout Hchunks. unfold main_file. rewrite Hargv, Hin, Hout, Hchunks.
  destruct (line_loop _ _) as [[m os]|]; [|done].
  unfold exit_with_summary. by destruct (main_summary m) as [[[[? ?] ?] ?] ?].
Qed.

(** On a file of short lines. *)
Lemma main_file_loop w prog inp out h1 h2 bodies :
  argv w = [prog; inp; out] ->
  open_read w inp = Some (file_text (h1 :: h2 :: bodies)) ->
  open_write w out = true ->
  is_line h1 = true -> is_line h2 = true -> forallb is_line bodies = true ->
  main_file w
  = match line_loop (main_init, scan_vars_init) (map (fun l => l ++ [newline]) bodies) with
    | Some (m, os) =>
        exit_with_summary os (main_summary m)
    | None => Undefined
    end.
Proof.
  intros Hargv Hin Hout Hh1 Hh2 Hls.
  eapply (main_file_chunks w prog inp out); [done..|].
  rewrite read_chunks_lines; [done|by cbn; rewrite Hh1, Hh2|apply file_text_length].
Qed.

(** What [exit_with] says of the loop on parsed rows. *)
Lemma exit_with_main vs :
  exit_with vs (main (map row_of_vars vs))
  = exit_with_summary
      (zip_with out_line_of vs (snd (main_loop main_init (map row_of_vars vs))))
      (main_summary (fst (main_loop main_init (map row_of_vars vs)))).
Proof. unfold main, exit_with. by destruct (main_loop main_init _) as [m os]. Qed.

(** The program on a file of two header lines and well-formed lines. *)
Lemma main_file_lines w prog inp out h1 h2 ls :
  argv w = [prog; inp; out] ->
  open_read w inp = Some (csv_file h1 h2 ls) ->
  open_write w out = true ->
  is_line h1 = true -> is_line h2 = true -> forallb line_ok ls = true ->
  main_file w
  = exit_with (vars_after scan_vars_init ls)
      (main (map row_of_vars (vars_after scan_vars_init ls))).
Proof.
  intros Hargv Hin Hout Hh1 Hh2 [Hls Hlines]%line_ok_parts.
  rewrite (main_file_loop w prog inp out h1 h2 (map line_body ls)) by done.
  by rewrite map_map, line_loop_lines, exit_with_main by done.
Qed.

(** The same for a file whose last line no newline ends. *)
Lemma main_file_lines_last w prog inp out h1 h2 ls (ln' : csv_line) :
  argv w = [prog; inp; out] ->
  open_read w inp = Some (csv_file_open h1 h2 ls ln') ->
  open_write w out = true ->
  is_line h1 = true -> is_line h2 = true -> forallb line_ok ls = true ->
  line_ok ln' = true -> line_body ln' <> [] ->
  main_file w
  = exit_with (vars_after scan_vars_init (ls ++ [ln']))
      (main (map row_of_vars (vars_after scan_vars_init (ls ++ [ln'])))).
Proof.
  intros Hargv Hin Hout Hh1 Hh2 [Hls Hlines]%line_ok_parts [Hl Hbody]%andb_true_iff Hne.
  assert (read_chunks (length (csv_file_open h1 h2 ls ln')) (csv_file_open h1 h2 ls ln')
          = (h1 ++ [newline]) :: (h2 ++ [newline])
            :: (map (fun ln => line_body ln ++ [newline]) ls ++ [line_body ln']))
    as Hchunks.
  { unfold csv_file_open, csv_file.
    rewrite read_chunks_lines_last;
      [cbn [map app]; by rewrite map_map|by cbn; rewrite Hh1, Hh2|done..|].
    rewrite length_app. pose proof (file_text_length (h1 :: h2 :: map line_body ls)).
    destruct (line_body ln'); [done|]. cbn [length] in *. lia. }
  rewrite (main_file_chunks w prog inp out _ _ _ _ Hargv Hin Hout Hchunks).
  by rewrite line_loop_lines_last, exit_with_main.
Qed.

Lemma vars_after_rows v rows : vars_after v (map Row rows) = map vars_of rows.
Proof. revert v. induction rows as [|r rows IH]; intros v; [done|]. cbn. by rewrite IH. Qed.

Lemma vars_after_padded v rows ws :
  vars_after v (map (fun r => Padded r ws) rows) = map vars_of rows.
Proof. revert v. induction rows as [|r rows IH]; intros v; [done|]. cbn. by rewrite IH. Qed.

Lemma render_body_nonempty r : csv_row_ok r = true -> render_body r <> [].
Proof.
  intros (Hrec & _)%csv_row_ok_fields Hnil. unfold render_body in Hnil.
  by destruct (c_rec r).
Qed.

Lemma vars_after_blank v rows ws :
  vars_after v (map Row rows ++ [Blank ws])
  = map vars_of rows ++ [default v (last (map vars_of rows))].
Proof.
  revert v. induction rows as [|r rows IH]; intros v; [done|].
  cbn [map app vars_after]. rewrite IH, last_cons. by destruct (last _).
Qed.

Lemma rows_ok_lines rows :
  forallb row_ok rows = true -> forallb line_ok (map Row rows) = true.
Proof.
  induction rows as [|r rows IH]; [done|]. cbn [forallb map]. unfold row_ok at 1.
  by intros [-> ->%IH]%andb_true_iff.
Qed.

(** C9. The program on a file is the pipeline on its rows. For an input
    file of two header lines and well-formed rows, each line short enough
    for the line buffer, and an output file that can be opened, the
    program exits with status 0, writes one row per input row, carrying
    the fields read and what [main] prints for the parsed rows, and
    prints the summary of [main] on the parsed rows. *)
Theorem main_file_refines w prog inp out h1 h2 rows :
  argv w = [prog; inp; out] ->
  open_read w inp = Some (csv_file h1 h2 (map Row rows)) ->
  open_write w out = true ->
  is_line h1 = true -> is_line h2 = true -> forallb row_ok rows = true ->
  main_file w = exit_with (map vars_of rows) (main (map row_of_csv rows)).
Proof.
  intros Hargv Hin Hout Hh1 Hh2 Hrows%rows_ok_lines.
  rewrite (main_file_lines w prog inp out h1 h2 (map Row rows)) by done.
  by rewrite vars_after_rows, map_map.
Qed.

(** C25. A blank line repeats the row before it. The value returned by
    [sscanf] is not looked at: on a line of white space only, such as an
    empty last line, no variable is assigned and the program runs the
    pipeline once more on the values of the row before (on zeros when
    there is none), writes them again and counts the line in the
    duration. *)
Theorem trailing_blank_line w prog inp out h1 h2 rows ws :
  argv w = [prog; inp; out] ->
  open_read w inp = Some (csv_file h1 h2 (map Row rows ++ [Blank ws])) ->
  open_write w out = true ->
  is_line h1 = true -> is_line h2 = true -> forallb row_ok rows = true ->
  line_ok (Blank ws) = true ->
  let vs := map vars_of rows ++ [default scan_vars_init (last (map vars_of rows))] in
  main_file w = exit_with vs (main (map row_of_vars vs)).
Proof.
  intros Hargv Hin Hout Hh1 Hh2 Hrows%rows_ok_lines Hws.
  rewrite (main_file_lines w prog inp out h1 h2 (map Row rows ++ [Blank ws]));
    rewrite ?vars_after_blank; try done.
  by rewrite forallb_app, Hrows; cbn; rewrite Hws.
Qed.

(** C31. White space at the end of a line is ignored. When every row of
    the file is followed by the same white space before its newline, a
    carriage return for instance, as in a file with CR LF line ends, the
    program reads the rows as if it were not there: [%f] stops at it and
    the newline that ends the format skips it. *)
Theorem trailing_space_ignored w prog inp out h1 h2 rows ws :
  argv w = [prog; inp; out] ->
  open_read w inp = Some (csv_file h1 h2 (map (fun r => Padded r ws) rows)) ->
  open_write w out = true ->
  is_line h1 = true -> is_line h2 = true ->
  forallb line_ok (map (fun r => Padded r ws) rows) = true ->
  main_file w = exit_with (map vars_of rows) (main (map row_of_csv rows)).
Proof.
  intros Hargv Hin Hout Hh1 Hh2 Hrows.
  rewrite (main_file_lines w prog inp out h1 h2 (map (fun r => Padded r ws) rows))
    by done.
  by rewrite vars_after_padded, map_map.
Qed.

(** The last line needs no newline. When the file ends after the fields
    of its last row, [fgets] returns them at the end of the file and the
    row is processed as the others. *)
Theorem final_newline_optional w prog inp out h1 h2 rows r :
  argv w = [prog; inp; out] ->
  open_read w inp = Some (csv_file_open h1 h2 (map Row rows) (Row r)) ->
  open_write w out = true ->
  is_line h1 = true -> is_line h2 = true ->
  forallb row_ok rows = true -> row_ok r = true ->
  main_file w
  = exit_with (map vars_of (rows ++ [r])) (main (map row_of_csv (rows ++ [r]))).
Proof.
  intros Hargv Hin Hout Hh1 Hh2 Hrows%rows_ok_lines Hr.
  rewrite (main_file_lines_last w prog inp out h1 h2 (map Row rows) (Row r)); try done.
  - change [Row r] with (map Row [r]). by rewrite <- map_app, vars_after_rows, map_map.
  - apply render_body_nonempty. unfold row_ok, line_ok in Hr.
    by apply andb_true_iff in Hr as [Hr _].
Qed.

(** C18. The program is defined exactly on dates and times that fit. On
    a file of two header lines and rows with a field of each kind in each
    place, each line short enough for the line buffer, the behaviour of
    the program is undefined if and only if some row has a date or a time
    of [DATE_LEN] characters or more: the directive [%[^,]], which has no
    field width, then stores past the end of the array. *)
Theorem main_file_undefined_iff w prog inp out h1 h2 rows :
  argv w = [prog; inp; out] ->
  open_read w inp = Some (csv_file h1 h2 (map Row rows)) ->
  open_write w out = true ->
  is_line h1 = true -> is_line h2 = true ->
  forallb csv_row_shape rows = true ->
  forallb is_line (map render_body rows) = true ->
  main_file w = Undefined <-> forallb fits rows = false.
Proof.
  intros Hargv Hin Hout Hh1 Hh2 Hrows Hlines. unfold csv_file in Hin.
  rewrite map_map in Hin. cbn [line_body] in Hin.
  rewrite (main_file_loop w prog inp out h1 h2 (map render_body rows)) by done.
  rewrite map_map. change (map _ rows) with (map render rows).
  destruct (forallb fits rows) eqn:Hfit.
  - destruct (line_loop_fit rows main_init scan_vars_init Hrows Hfit) as [[m os] ->].
    unfold exit_with_summary. by destruct (main_summary m) as [[[[? ?] ?] ?] ?].
  - by rewrite line_loop_unfit.
Qed.

(** C20. The header check. With three arguments and both files opened, the
    program exits with status 1 on the header exactly when the first call
    of [fgets] leaves nothing to read: an empty file or a single line of
    119 characters at most. It has then created an empty output file, and
    the diagnostic names the output file, [argv[2]], not the input
    file. *)
Theorem header_check w prog inp out content :
  argv w = [prog; inp; out] -> open_read w inp = Some content ->
  open_write w out = true ->
  main_file w = Exit 1 [NoHeader out] Empty
  <-> snd (fgets_take (MAX_CHAR_PER_LINE - 1) content) = [].
Proof.
  intros Hargv Hin Hout. unfold main_file. rewrite Hargv, Hin, Hout.
  destruct content as [|c s]; [done|]. cbn [length]. rewrite read_chunks_cons.
  pose proof (fgets_take_progress 118 c s) as Hp.
  change (MAX_CHAR_PER_LINE - 1) with 119 in *.
  destruct (snd (fgets_take 119 (c :: s))) as [|c' r] eqn:Hr.
  - by destruct (length s).
  - destruct (length s) as [|n]; [cbn in Hp; lia|]. rewrite read_chunks_cons.
    split; [|done]. destruct (line_loop _ _) as [[m os]|]; [|done].
    by destruct (main_summary m) as [[[[? ?] ?] ?] ?].
Qed.

End Lines.

(** ** Instances *)

Lemma read_chunks_concat_witness :
  concat (read_chunks 400 (csv_file sample_header sample_header (map Row sample_rows)))
  = csv_file sample_header sample_header (map Row sample_rows).
Proof. apply read_chunks_concat. vm_compute. lia. Defined.

Lemma long_line_split_witness :
  read_chunks 2 (replicate 119 "a"%char ++ newline :: [])
  = [replicate 119 "a"%char; [newline]].
Proof. apply (long_line_split 1 (replicate 119 "a"%char) []); [done|]. vm_compute. lia. Defined.

Lemma main_file_refines_witness :
  main_file (world_with (csv_file sample_header sample_header (map Row sample_rows)))
  = exit_with (map vars_of sample_rows) (main (map row_of_csv sample_rows)).
Proof.
  by apply (main_file_refines _ (text_of "pedometer") (text_of "in.csv")
              (text_of "out.csv") sample_header sample_header).
Defined.

Lemma trailing_space_ignored_witness :
  main_file (world_with (csv_file sample_header sample_header
                           (map (fun r => Padded r ["013"%char]) sample_rows)))
  = exit_with (map vars_of sample_rows) (main (map row_of_csv sample_rows)).
Proof.
  by apply (trailing_space_ignored _ (text_of "pedometer") (text_of "in.csv")
              (text_of "out.csv") sample_header sample_header sample_rows
              ["013"%char]).
Defined.

Lemma final_newline_optional_witness :
  main_file (world_with (csv_file_open sample_header sample_header
                           (map Row (take 2 sample_rows)) (Row (sample_row "14" "85"))))
  = exit_with (map vars_of (take 2 sample_rows ++ [sample_row "14" "85"]))
      (main (map row_of_csv (take 2 sample_rows ++ [sample_row "14" "85"]))).
Proof.
  by apply (final_newline_optional _ (text_of "pedometer") (text_of "in.csv")
              (text_of "out.csv") sample_header sample_header).
Defined.

Lemma trailing_blank_line_witness :
  main_file (world_with (csv_file sample_header sample_header
                           (map Row sample_rows ++ [Blank []])))
  = exit_with (map vars_of sample_rows ++ [vars_of (sample_row "14" "85")])
      (main (map row_of_vars
               (map vars_of sample_rows ++ [vars_of (sample_row "14" "85")]))).
Proof.
  by apply (trailing_blank_line _ (text_of "pedometer") (text_of "in.csv")
              (text_of "out.csv") sample_header sample_header sample_rows []).
Defined.

Lemma header_check_witness :
  main_file (world_with (sample_header ++ [newline]))
  = Exit 1 [NoHeader (text_of "out.csv")] Empty.
Proof.
  by apply (header_check _ (text_of "pedometer") (text_of "in.csv") (text_of "out.csv")
              (sample_header ++ [newline])).
Defined.

Lemma main_file_undefined_iff_witness :
  main_file (world_with (csv_file sample_header sample_header
                           (map Row [sample_row "12" "81"; sample_row "13.250" "79"])))
  = Undefined
  <-> forallb fits [sample_row "12" "81"; sample_row "13.250" "79"] = false.
Proof.
  by apply (main_file_undefined_iff _ (text_of "pedometer") (text_of "in.csv")
              (text_of "out.csv") sample_header sample_header).
Defined.

(** A time with milliseconds has twelve characters: the program has no
    defined behaviour on a file whose first row carries one. *)
Example long_time_undefined :
  main_file (world_with (file_text
    [sample_header; sample_header;
     text_of "7, 3, 2021-03-04, 10:11:12.123, 0.12, 9.81, -0.5, 0.001, 0, -12."]))
  = Undefined.
Proof. by vm_compute. Qed.

(** A header of one line of 120 characters or more passes the header
    check: it is read as two lines, and the line after it as data. *)
Example long_header_passes :
  main_file (world_with (file_text [replicate 130 "h"%char]))
  = exit_with [] (main []).
Proof. by vm_compute. Qed.
