(* ===== verification/Printer.v ===== *)
(** * Printer: the texts written by [printf] and [fprintf]

    [main] of [src/pedometer.c] writes the header of the output file
    (line 158), one row per piece read (lines 181-183), a diagnostic before
    each [exit(1)] (lines 92, 98, 104 and 154) and the summary (lines 186
    and 187). [Adapter] gives what is written as values: rows of
    [out_line], messages of [message]. This file gives the characters.

    - The conversions: [print_int] is [%d], [print_float] is [%f] on a
      binary32 value, whose promotion to [double] is exact; [%s] is the
      text itself. The digits come from [digits_fixed]; the six decimals
      are the exact value in millionths, rounded to nearest, ties to even
      ([round_div], [millionths]).
    - The lines: [header_line], [print_line], [print_message].
    - The program: [main_text], from the world to the exit status, the
      standard output and the output file, or [None] when the behaviour
      is undefined.

    The laws say that the digits written have the value written, that
    [sscanf] reads back what [printf] wrote ([%d] exactly, [%f] to six
    decimals), that a row of the output is a line the format of line 163
    accepts, and that the program writes a definite text in every run
    whose behaviour is defined. *)

From Stdlib Require Import QArith ZArith Lia List String Ascii SpecFloat.
From stdpp Require Import base tactics option list.
From S2P Require Import Prelude Scalar Types Pipeline Binary32 Text Scanf Adapter.

(** ** The conversions of [printf] *)

(** The character of a decimal digit. *)
Definition print_digit (d : Z) : ascii := ascii_of_N (48 + Z.to_N d).

(** The last [w] decimal digits of [n], most significant first. *)
Fixpoint digits_fixed (w : nat) (n : Z) : text :=
  match w with
  | O => []
  | S w' => digits_fixed w' (n / 10) ++ [print_digit (n mod 10)]
  end.

Definition is_zero_digit (c : ascii) : bool := bool_decide (c = "0"%char).

(** A number that is not negative, without leading zeros. *)
Definition print_nat (n : Z) : text :=
  match snd (span is_zero_digit (digits_fixed (S (Z.to_nat (Z.log2 n))) n)) with
  | [] => ["0"%char]
  | ds => ds
  end.

(** [%d]. *)
Definition print_int (z : Z) : text :=
  if (z <? 0)%Z then "-"%char :: print_nat (- z) else print_nat z.

(** [num / den] rounded to the nearest integer, to the even one of two
    that are as near, for [0 <= num] and [0 < den]. *)
Definition round_div (num den : Z) : Z :=
  let q := (num / den)%Z in
  match (2 * (num mod den) ?= den)%Z with
  | Lt => q
  | Gt => (q + 1)%Z
  | Eq => if Z.even q then q else (q + 1)%Z
  end.

(** The precision of [%f]: six digits after the point. *)
Definition FRAC_DIGITS : nat := 6.

(** [m * 2^e] in millionths, rounded. *)
Definition millionths (m : positive) (e : Z) : Z :=
  if (0 <=? e)%Z then (Z.pos m * 2 ^ e * 10 ^ Z.of_nat FRAC_DIGITS)%Z
  else round_div (Z.pos m * 10 ^ Z.of_nat FRAC_DIGITS) (2 ^ (- e)).

(** [%f] of a number of millionths. *)
Definition print_millionths (neg : bool) (n : Z) : text :=
  sign_text neg ++ print_nat (n / 10 ^ Z.of_nat FRAC_DIGITS)
  ++ "."%char :: digits_fixed FRAC_DIGITS (n mod 10 ^ Z.of_nat FRAC_DIGITS).

(** [%f]: the value, which the promotion to [double] leaves as it is,
    written with six digits after the point. *)
Definition print_float (x : float) : text :=
  match x with
  | S754_zero neg => print_millionths neg 0
  | S754_infinity neg => sign_text neg ++ text_of "inf"
  | S754_nan => text_of "nan"
  | S754_finite neg m e => print_millionths neg (millionths m e)
  end.


(** ** The lines written *)

(** Line 158: the header of the output file. *)
Definition header_line : text :=
  text_of "RECORD, TYPE, DATE, TIME, arx, ary, arz, grx, gry, grz, timestamp(sec), step_count, step_type, step_type_num"
  ++ [newline].

(** Lines 181-183: a row of the output file. The label is printed through
    the pointer [step_type], which has a value only once one of the four
    branches of lines 172-179 was taken. *)
Definition print_line (o : out_line) : option text :=
  label ← o_step_type o;
  Some (print_int (o_rec_id o) ++ comma_space ++ print_int (o_sen_id o) ++ comma_space
        ++ o_date o ++ comma_space ++ o_time o ++ comma_space
        ++ concat (map (fun x => print_float x ++ comma_space)
                     (o_acc_gyr o ++ [o_timestamp o]))
        ++ print_int (o_step_count o) ++ comma_space ++ text_of label ++ comma_space
        ++ print_int (o_step_type_num o) ++ [newline]).

(** Lines 92, 98, 104, 154, 186 and 187: what [printf] writes. *)
Definition print_message (m : message) : text :=
  match m with
  | Usage prog => text_of "Usage: " ++ prog ++ text_of " inputfile outputfile" ++ [newline]
  | NoInput name => text_of "Cannot open input file: " ++ name ++ [newline]
  | NoOutput name => text_of "Cannot open output file: " ++ name ++ [newline]
  | NoHeader name =>
      text_of "Cannot read first two lines of input file: " ++ name ++ [newline]
  | Summary duration total walk run hop =>
      text_of "Total motion duration is " ++ print_float duration
      ++ text_of " sec, which contains approximatly:" ++ [newline]
      ++ text_of " " ++ print_int total ++ text_of " Total number of steps including"
      ++ [newline]
      ++ text_of " |---> " ++ print_int walk ++ text_of " steps of WALKING, " ++ [newline]
      ++ text_of " |---> " ++ print_int run ++ text_of " steps of RUNNING, and "
      ++ [newline]
      ++ text_of " |---> " ++ print_int hop ++ text_of " steps of HOPPING." ++ [newline]
  | Done => text_of "Done." ++ [newline]
  end.

(** What a run leaves as texts: the exit status, the standard output and
    the contents of the output file, if it was opened. *)
Record run_text : Type := mk_run_text {
  t_status : Z;
  t_stdout : text;
  t_file : option text
}.

(** The rows of the output file, in the order written. *)
Definition print_lines (os : list out_line) : option (list text) := mapM print_line os.

(** The contents of the output file. *)
Definition print_file (f : out_file) : option (option text) :=
  match f with
  | NotOpened => Some None
  | Empty => Some (Some [])
  | Written os => rows ← print_lines os; Some (Some (header_line ++ concat rows))
  end.

Definition print_outcome (r : outcome) : option run_text :=
  match r with
  | Exit status msgs f =>
      file ← print_file f;
      Some (mk_run_text status (concat (map print_message msgs)) file)
  | Undefined => None
  end.

(** The program, from the arguments and the input file to the texts it
    writes; [None] when its behaviour is undefined. *)
Definition main_text (w : world) : option run_text := print_outcome (main_file w).

(** What [%f] of [sscanf] reads in what [%f] of [printf] wrote: the
    binary32 value nearest to the value rounded to millionths. *)
Definition reread (x : float) : float :=
  match x with
  | S754_finite neg m e => float_of_parts neg (millionths m e) (-6) 0
  | _ => x
  end.

(** The variables that [sscanf] assigns on a row that was written from
    the variables [v]. *)
Definition reread_vars (v : scan_vars) : scan_vars :=
  mk_scan_vars (v_rec_id v) (v_sen_id v) (v_date v) (v_time v) (reread (v_arx v))
    (reread (v_ary v)) (reread (v_arz v)) (reread (v_grx v)) (reread (v_gry v))
    (reread (v_grz v)).

(** ** Laws of the digits *)

Section Digits.
Implicit Types (n d : Z) (w : nat) (ds s rest : text).

Lemma print_digit_facts d :
  (0 <= d < 10)%Z ->
  isdigit (print_digit d) = true /\ (Z.of_N (code (print_digit d)) - 48)%Z = d
  /\ (is_zero_digit (print_digit d) = true <-> d = 0%Z).
Proof.
  intros Hd.
  assert (d = 0 \/ d = 1 \/ d = 2 \/ d = 3 \/ d = 4 \/ d = 5 \/ d = 6 \/ d = 7
          \/ d = 8 \/ d = 9)%Z as Hcases by lia.
  by repeat (destruct Hcases as [->|Hcases]); [..|subst d].
Qed.

Lemma digits_value_snoc ds c :
  digits_value (ds ++ [c]) = (digits_value ds * 10 + (Z.of_N (code c) - 48))%Z.
Proof. unfold digits_value. by rewrite fold_left_app. Qed.

Lemma digits_value_app ds1 ds2 :
  digits_value (ds1 ++ ds2)
  = (digits_value ds1 * 10 ^ Z.of_nat (length ds2) + digits_value ds2)%Z.
Proof.
  induction ds2 as [|c ds2 IH] using rev_ind.
  - rewrite app_nil_r. cbn. lia.
  - rewrite app_assoc, !digits_value_snoc, IH, length_app, Nat2Z.inj_add.
    rewrite Z.pow_add_r by lia. cbn [length]. lia.
Qed.

Lemma digits_fixed_length w n : length (digits_fixed w n) = w.
Proof.
  revert n. induction w as [|w IH]; intros n; [done|].
  cbn. rewrite length_app, IH. cbn. lia.
Qed.

Lemma digits_fixed_digits w n : forallb isdigit (digits_fixed w n) = true.
Proof.
  revert n. induction w as [|w IH]; intros n; [done|].
  cbn. rewrite forallb_app, IH. cbn.
  by destruct (print_digit_facts (n mod 10)) as [-> _]; [apply Z.mod_pos_bound|].
Qed.

(** The digits written are those of the number. *)
Lemma digits_fixed_value w n :
  (0 <= n)%Z -> digits_value (digits_fixed w n) = (n mod 10 ^ Z.of_nat w)%Z.
Proof.
  revert n. induction w as [|w IH]; intros n Hn.
  - cbn. by rewrite Z.mod_1_r.
  - cbn [digits_fixed]. rewrite digits_value_snoc, IH by (apply Z.div_pos; lia).
    destruct (print_digit_facts (n mod 10)) as (_ & -> & _); [by apply Z.mod_pos_bound|].
    rewrite Nat2Z.inj_succ, Z.pow_succ_r by lia.
    rewrite Z.rem_mul_r by lia. lia.
Qed.

End Digits.

Section PrintNat.
Implicit Types (n d : Z) (w : nat) (ds s rest : text).

Lemma span_zero_value ds :
  digits_value (snd (span is_zero_digit ds)) = digits_value ds.
Proof.
  induction ds as [|c ds IH]; [done|]. cbn [span].
  destruct (is_zero_digit c) eqn:Hc; [|done].
  apply bool_decide_eq_true in Hc as ->.
  destruct (span is_zero_digit ds) as [l r]. cbn [snd] in *. rewrite IH.
  change ("0"%char :: ds) with (["0"%char] ++ ds). rewrite digits_value_app. cbn. lia.
Qed.

Lemma span_snd_digits p ds :
  forallb isdigit ds = true -> forallb isdigit (snd (span p ds)) = true.
Proof.
  induction ds as [|c ds IH]; [done|]. cbn. intros [Hc Hds]%andb_true_iff.
  destruct (p c); [|by cbn; rewrite Hc].
  destruct (span p ds) as [l r]. by apply IH.
Qed.

(** A number below [10^w] has at most [w] digits. *)
Lemma log2_digits n : (0 <= n)%Z -> (n < 10 ^ Z.of_nat (S (Z.to_nat (Z.log2 n))))%Z.
Proof.
  intros Hn. rewrite Nat2Z.inj_succ, Z2Nat.id by apply Z.log2_nonneg.
  destruct (Z.eq_dec n 0%Z) as [->|Hne]; [done|].
  pose proof (Z.log2_spec n ltac:(lia)) as [_ Hlt].
  eapply Z.lt_le_trans; [exact Hlt|].
  apply Z.pow_le_mono_l. pose proof (Z.log2_nonneg n). lia.
Qed.

Lemma print_nat_ok n : (0 <= n)%Z -> digits_ok (print_nat n) = true.
Proof.
  intros Hn. unfold print_nat, digits_ok.
  pose proof (span_snd_digits is_zero_digit _
                (digits_fixed_digits (S (Z.to_nat (Z.log2 n))) n)) as Hds.
  destruct (snd (span is_zero_digit _)) as [|c ds]; [done|].
  rewrite Hds. cbn in *. by apply andb_true_iff in Hds as [-> _].
Qed.

Lemma print_nat_value n : (0 <= n)%Z -> digits_value (print_nat n) = n.
Proof.
  intros Hn. unfold print_nat.
  pose proof (span_zero_value (digits_fixed (S (Z.to_nat (Z.log2 n))) n)) as Hv.
  rewrite digits_fixed_value in Hv by done.
  rewrite Z.mod_small in Hv by (split; [done|by apply log2_digits]).
  destruct (snd (span is_zero_digit _)); [|done]. by rewrite <- Hv.
Qed.

End PrintNat.

(** ** Printing and reading back *)

Section PrintScan.
Implicit Types (n z : Z) (x : float) (rest : text).

Lemma round_div_nonneg num den : (0 <= num)%Z -> (0 < den)%Z -> (0 <= round_div num den)%Z.
Proof.
  intros Hn Hd. unfold round_div. pose proof (Z.div_pos num den Hn Hd).
  destruct (_ ?= _)%Z; [destruct (Z.even _)|..]; lia.
Qed.

(** The rounding is to a nearest integer. *)
Lemma round_div_nearest num den :
  (0 < den)%Z -> (2 * Z.abs (round_div num den * den - num) <= den)%Z.
Proof.
  intros Hd. unfold round_div.
  pose proof (Z.div_mod num den ltac:(lia)) as Hnum.
  pose proof (Z.mod_pos_bound num den Hd) as Hr.
  set (q := (num / den)%Z) in *. set (r := (num mod den)%Z) in *. cbv zeta.
  destruct (Z.compare_spec (2 * r) den); [destruct (Z.even q)|..]; lia.
Qed.

Lemma millionths_nonneg m e : (0 <= millionths m e)%Z.
Proof.
  unfold millionths. destruct (0 <=? e)%Z eqn:He.
  - apply Z.leb_le in He. pose proof (Z.pow_pos_nonneg 2 e). lia.
  - apply Z.leb_gt in He. apply round_div_nonneg; [lia|]. apply Z.pow_pos_nonneg; lia.
Qed.

(** The text of a number of millionths is a decimal constant, of that
    value. *)
Lemma print_millionths_number neg n :
  (0 <= n)%Z ->
  let x := mk_number neg (print_nat (n / 10 ^ 6))
             (Some (digits_fixed FRAC_DIGITS (n mod 10 ^ 6))) in
  print_millionths neg n = number_text x /\ number_ok x = true
  /\ number_value x = float_of_parts neg n (-6) 0.
Proof.
  intros Hn. cbv zeta. split; [done|]. unfold number_ok, number_value.
  cbn [n_neg n_int n_frac default from_option id].
  rewrite print_nat_ok, digits_fixed_digits by (apply Z.div_pos; lia).
  split; [done|]. rewrite digits_value_app, print_nat_value by (apply Z.div_pos; lia).
  rewrite digits_fixed_value, digits_fixed_length by (apply Z.mod_pos_bound; lia).
  f_equal. change (10 ^ Z.of_nat FRAC_DIGITS)%Z with (10 ^ 6)%Z.
  rewrite Z.mod_mod by lia. pose proof (Z.div_mod n (10 ^ 6)). lia.
Qed.

(** [%d] reads what [%d] wrote, modulo 2^32. *)
Lemma print_scan_int_gen z rest :
  stops isdigit rest = true -> scan_int (print_int z ++ rest) = Some (wrap32 z, rest).
Proof.
  intros Hrest. unfold print_int. destruct (z <? 0)%Z eqn:Hz.
  - apply Z.ltb_lt in Hz.
    change ("-"%char :: print_nat (- z)) with (sign_text true ++ print_nat (- z)).
    rewrite <- app_assoc, scan_int_signed, print_nat_value by auto using print_nat_ok with lia.
    do 3 f_equal. lia.
  - apply Z.ltb_ge in Hz.
    by rewrite scan_int_digits, print_nat_value by auto using print_nat_ok.
Qed.

(** [%f] reads [inf] and [nan] as written. *)
Lemma scan_float_inf neg rest :
  number_end rest = true ->
  scan_float (sign_text neg ++ text_of "inf" ++ rest) = Some (S754_infinity neg, rest).
Proof.
  intros Hrest.
  assert (scan_float (sign_text neg ++ text_of "inf" ++ rest)
          = match rest with
            | c :: _ =>
                if decide (tolower c = "i"%char) then
                  s3 ← strip_nocase (text_of "inity") rest; Some (S754_infinity neg, s3)
                else Some (S754_infinity neg, rest)
            | [] => Some (S754_infinity neg, rest)
            end) as -> by by destruct neg.
  destruct rest as [|c rest]; [done|]. cbn in Hrest.
  destruct (ends_number_special c Hrest) as [Hi _]. by rewrite decide_False.
Qed.

Lemma scan_float_nan rest :
  number_end rest = true -> scan_float (text_of "nan" ++ rest) = Some (NaN, rest).
Proof.
  intros Hrest.
  assert (scan_float (text_of "nan" ++ rest)
          = (s3 ← scan_nan_tail rest; Some (NaN, s3))) as -> by done.
  destruct rest as [|c rest]; [done|]. cbn in Hrest.
  destruct (ends_number_special c Hrest) as [_ Hp]. cbn. by rewrite decide_False.
Qed.

Lemma print_scan_float_gen x rest :
  number_end rest = true -> scan_float (print_float x ++ rest) = Some (reread x, rest).
Proof.
  intros Hrest. destruct x as [neg|neg| |neg m e]; cbn [print_float reread].
  - destruct (print_millionths_number neg 0 ltac:(done)) as (-> & Hok & _).
    by rewrite scan_float_number.
  - by rewrite <- app_assoc, scan_float_inf.
  - by apply scan_float_nan.
  - destruct (print_millionths_number neg _ (millionths_nonneg m e)) as (-> & Hok & <-).
    by rewrite scan_float_number.
Qed.

End PrintScan.

Section Lines.
Implicit Types (z : Z) (x : float) (rest : text) (v vv : scan_vars)
  (fmt : list directive) (out : output_row float).

Lemma print_int_not_space z rest : starts not_space (print_int z ++ rest) = true.
Proof.
  unfold print_int. destruct (z <? 0)%Z eqn:Hz; [done|]. apply Z.ltb_ge in Hz.
  by apply digits_not_space, print_nat_ok.
Qed.

Lemma print_float_not_space x rest : starts not_space (print_float x ++ rest) = true.
Proof.
  destruct x as [neg|neg| |neg m e]; cbn [print_float]; [|by destruct neg|done|].
  - destruct (print_millionths_number neg 0 ltac:(done)) as (-> & Hok & _).
    by apply number_not_space.
  - destruct (print_millionths_number neg _ (millionths_nonneg m e)) as (-> & Hok & _).
    by apply number_not_space.
Qed.

#[local] Hint Resolve print_int_not_space print_float_not_space : scanf.

Lemma sscanf_print_int assign fmt z rest n v :
  stops isdigit rest = true ->
  sscanf (D_int assign :: fmt) (print_int z ++ rest) n v
  = sscanf fmt rest (S n) (assign (wrap32 z) v).
Proof. intros Hrest. cbn [sscanf]. by rewrite print_scan_int_gen. Qed.

Lemma sscanf_print_float assign fmt x rest n v :
  number_end rest = true ->
  sscanf (D_float assign :: fmt) (print_float x ++ rest) n v
  = sscanf fmt rest (S n) (assign (reread x) v).
Proof. intros Hrest. cbn [sscanf]. by rewrite print_scan_float_gen. Qed.

Lemma wrap32_as_int z : (0 <= z < 2 ^ 32)%Z -> wrap32 (as_int z) = z.
Proof.
  intros Hz. unfold as_int, wrap32, u32_modulus.
  destruct (z <? 2 ^ 31)%Z; [by rewrite Z.mod_small|].
  rewrite <- (Z.mod_add _ 1) by lia. rewrite Z.mod_small; lia.
Qed.

Lemma print_line_label v out label :
  out_step_type out = Some label ->
  print_line (out_line_of v out)
  = Some (print_int (as_int (v_rec_id v)) ++ comma_space
          ++ print_int (as_int (v_sen_id v)) ++ comma_space
          ++ v_date v ++ comma_space ++ v_time v ++ comma_space
          ++ print_float (v_arx v) ++ comma_space ++ print_float (v_ary v) ++ comma_space
          ++ print_float (v_arz v) ++ comma_space ++ print_float (v_grx v) ++ comma_space
          ++ print_float (v_gry v) ++ comma_space ++ print_float (v_grz v) ++ comma_space
          ++ print_float (out_timestamp out) ++ comma_space
          ++ print_int (as_int (out_step_count out)) ++ comma_space ++ text_of label
          ++ comma_space ++ print_int (out_step_type_num out) ++ [newline]).
Proof.
  intros Hlabel. unfold print_line, out_line_of. cbn [o_step_type]. rewrite Hlabel.
  cbn [mbind option_bind o_rec_id o_sen_id o_date o_time o_acc_gyr o_timestamp
       o_step_count o_step_type_num app map concat].
  by rewrite <- !app_assoc.
Qed.

Lemma sscanf_printed vv rest v :
  field_ok (v_date vv) = true -> field_ok (v_time vv) = true ->
  sscanf line_format
    (print_int (as_int (v_rec_id vv)) ++ comma_space
     ++ print_int (as_int (v_sen_id vv)) ++ comma_space
     ++ v_date vv ++ comma_space ++ v_time vv ++ comma_space
     ++ print_float (v_arx vv) ++ comma_space ++ print_float (v_ary vv) ++ comma_space
     ++ print_float (v_arz vv) ++ comma_space ++ print_float (v_grx vv) ++ comma_space
     ++ print_float (v_gry vv) ++ comma_space ++ print_float (v_grz vv) ++ comma_space
     ++ rest) 0 v
  = Scanned 10 (mk_scan_vars (wrap32 (as_int (v_rec_id vv))) (wrap32 (as_int (v_sen_id vv)))
                  (v_date vv) (v_time vv) (reread (v_arx vv)) (reread (v_ary vv))
                  (reread (v_arz vv)) (reread (v_grx vv)) (reread (v_gry vv))
                  (reread (v_grz vv))).
Proof.
  intros Hdate Htime. unfold line_format. cbn [app].
  rewrite sscanf_print_int, sscanf_sep, sscanf_print_int, sscanf_sep by auto with scanf.
  rewrite sscanf_set, sscanf_sep, sscanf_set, sscanf_sep by auto with scanf.
  rewrite sscanf_print_float, sscanf_sep by auto with scanf.
  rewrite sscanf_print_float, sscanf_sep by auto with scanf.
  rewrite sscanf_print_float, sscanf_sep by auto with scanf.
  rewrite sscanf_print_float, sscanf_sep by auto with scanf.
  rewrite sscanf_print_float, sscanf_sep by auto with scanf.
  by rewrite sscanf_print_float by auto with scanf.
Qed.

End Lines.

#[export] Hint Resolve print_int_not_space print_float_not_space : scanf.

(** C16. A row that the program wrote is read back by its own [sscanf].
    Whenever the label is defined and the date and time fit their arrays,
    the row of lines 181-183 is a text on which the format of line 163
    assigns all ten variables: the identifiers, date and time as they were
    and each reading as the binary32 value nearest to its six decimals. *)
Theorem output_line_rereads vv out label v :
  out_step_type out = Some label ->
  (0 <= v_rec_id vv < 2 ^ 32)%Z -> (0 <= v_sen_id vv < 2 ^ 32)%Z ->
  field_ok (v_date vv) = true -> field_ok (v_time vv) = true ->
  exists line, print_line (out_line_of vv out) = Some line
    /\ sscanf line_format line 0 v = Scanned 10 (reread_vars vv).
Proof.
  intros Hlabel Hrec Hsen Hdate Htime. eexists. split; [by apply print_line_label|].
  rewrite sscanf_printed by done. by rewrite !wrap32_as_int.
Qed.

Section Labels.
Implicit Types (m : main_state float) (v : scan_vars) (o : out_line) (os : list out_line).

Lemma line_step_label m v chunk m' v' o :
  line_step (m, v) chunk = Some (m', v', o) -> class_inv (prog m) ->
  class_inv (prog m') /\ is_Some (print_line o).
Proof.
  unfold line_step. destruct (sscanf _ _ _ _) as [k vk|]; [|done].
  pose proof (main_step_prog m (row_of_vars vk)) as Hprog.
  destruct (main_step_output m (row_of_vars vk)) as (_ & _ & Hname & _ & Hchoose).
  destruct (main_step m (row_of_vars vk)) as [m1 o1]. cbn [fst snd] in *.
  intros [= <- <- <-] Hm.
  assert (class_inv (prog m1)) as Hm1 by (rewrite Hprog; by apply step_prog_class).
  split; [done|]. unfold print_line, out_line_of. cbn [o_step_type].
  by rewrite Hname, Hchoose, (choose_name_eq _ _ Hm1).
Qed.

Lemma line_loop_labels chunks m v m' os :
  line_loop (m, v) chunks = Some (m', os) -> class_inv (prog m) ->
  Forall (fun o => is_Some (print_line o)) os.
Proof.
  revert m v m' os. induction chunks as [|chunk chunks IH]; intros m v m' os.
  { intros [= _ <-] _. constructor. }
  cbn [line_loop]. destruct (line_step (m, v) chunk) as [[[m1 v1] o1]|] eqn:Hstep; [|done].
  cbn. destruct (line_loop (m1, v1) chunks) as [[m2 os2]|] eqn:Hloop; [|done].
  intros [= <- <-] Hm. destruct (line_step_label _ _ _ _ _ _ Hstep Hm) as [Hm1 Ho].
  constructor; [done|]. by eapply IH.
Qed.

Lemma print_lines_loop chunks m v m' os :
  line_loop (m, v) chunks = Some (m', os) -> class_inv (prog m) ->
  is_Some (print_lines os).
Proof. intros Hloop Hm. by eapply mapM_is_Some, line_loop_labels. Qed.

Lemma print_lines_length os lines : print_lines os = Some lines -> length lines = length os.
Proof. intros Hlines. symmetry. by eapply length_mapM. Qed.

Lemma main_file_written w status msgs os :
  main_file w = Exit status msgs (Written os) -> is_Some (print_lines os).
Proof.
  unfold main_file. repeat case_match; try done. intros [= _ _ <-].
  by eapply print_lines_loop.
Qed.

(** The texts of a run that reached the summary. *)
Lemma print_outcome_summary os sm lines :
  print_lines os = Some lines ->
  print_outcome (exit_with_summary os sm)
  = let '(ts, total, walk, run, hop) := sm in
    Some (mk_run_text 0
            (print_message (Summary ts (as_int total) (as_int walk) (as_int run)
                              (as_int hop)) ++ print_message Done)
            (Some (header_line ++ concat lines))).
Proof.
  intros Hlines. destruct sm as [[[[ts total] walk] run] hop].
  cbn [exit_with_summary print_outcome print_file]. rewrite Hlines.
  cbn [mbind option_bind map concat]. by rewrite app_nil_r.
Qed.

End Labels.

(** C19. The program writes a definite text whenever its behaviour is
    defined: the only runs without one are those in which a date or time
    overflows its array. In particular the pointer [step_type] is
    assigned before every [fprintf] that prints through it. *)
Theorem main_text_defined w : main_text w = None <-> main_file w = Undefined.
Proof.
  unfold main_text. destruct (main_file w) as [status msgs f|] eqn:Hw; [|done].
  split; [|done]. cbn [print_outcome].
  destruct f as [| |os]; [done..|]. cbn [print_file].
  by destruct (main_file_written _ _ _ _ Hw) as [t ->].
Qed.

(** C21. The texts of the program on a well-formed file. For an input
    file of two header lines and well-formed rows, each line short enough
    for the line buffer, and an output file that can be opened, the
    program exits with status 0; its output file is the header of line
    158 followed by one line per input row, the text of the fields read
    and of what [main] prints for the parsed rows; its standard output is
    the summary of [main] on the parsed rows and [Done.]. *)
Theorem main_text_refines w prog inp out h1 h2 rows :
  argv w = [prog; inp; out] ->
  open_read w inp = Some (csv_file h1 h2 (map Row rows)) ->
  open_write w out = true ->
  is_line h1 = true -> is_line h2 = true -> forallb row_ok rows = true ->
  let r := main (map row_of_csv rows) in
  let '(ts, total, walk, run, hop) := snd r in
  exists lines,
    print_lines (zip_with out_line_of (map vars_of rows) (fst r)) = Some lines
    /\ length lines = length rows
    /\ main_text w
       = Some (mk_run_text 0
                 (print_message (Summary ts (as_int total) (as_int walk) (as_int run)
                                   (as_int hop)) ++ print_message Done)
                 (Some (header_line ++ concat lines))).
Proof.
  intros Hargv Hin Hout Hh1 Hh2 Hrows. cbv zeta.
  pose proof (main_file_lines w prog inp out h1 h2 (map Row rows)
                Hargv Hin Hout Hh1 Hh2 (rows_ok_lines _ Hrows)) as Hw.
  rewrite vars_after_rows, map_map in Hw. fold row_of_csv in Hw.
  pose proof (main_length (map row_of_csv rows)) as Hlen.
  destruct (main _) as [os sm]. cbn [fst snd] in *. unfold exit_with in Hw.
  cbn [fst snd] in Hw. unfold main_text. rewrite Hw.
  destruct sm as [[[[ts total] walk] run] hop].
  destruct (main_file_written _ _ _ _ Hw) as [lines Hlines]. exists lines.
  split; [done|]. rewrite (print_outcome_summary _ _ lines Hlines).
  split; [|done]. rewrite (print_lines_length _ _ Hlines), length_zip_with, !length_map.
  rewrite length_map in Hlen. lia.
Qed.

(** [%d] reads what [%d] wrote. An [int] written by [printf] and
    followed by a character that is not a digit is read by [sscanf] as the
    same [int], kept here as its 32 bits. *)
Theorem print_scan_int z rest :
  stops isdigit rest = true -> scan_int (print_int z ++ rest) = Some (wrap32 z, rest).
Proof. apply print_scan_int_gen. Qed.

(** [%f] reads what [%f] wrote, to six decimals. A binary32 value
    written by [printf] and followed by a character that cannot continue a
    number is read by [sscanf] as the binary32 value nearest to its six
    decimals; an infinity and a NaN are read as they are. *)
Theorem print_scan_float x rest :
  number_end rest = true -> scan_float (print_float x ++ rest) = Some (reread x, rest).
Proof. apply print_scan_float_gen. Qed.

(** The six decimals of [%f] are those nearest to the value: the
    number of millionths printed for [m * 2^e] differs from
    [m * 2^e * 10^6] by one half at most, and it is exact when [0 <= e]. *)
Theorem millionths_nearest m e :
  let scale := (2 ^ Z.max 0 (- e))%Z in
  (2 * Z.abs (millionths m e * scale - Z.pos m * 2 ^ Z.max 0 e * 10 ^ 6) <= scale)%Z.
Proof.
  cbv zeta. unfold millionths. change (10 ^ Z.of_nat FRAC_DIGITS)%Z with (10 ^ 6)%Z.
  destruct (0 <=? e)%Z eqn:He.
  - apply Z.leb_le in He. rewrite (Z.max_l 0 (- e)), (Z.max_r 0 e) by lia.
    change (2 ^ 0)%Z with 1%Z. lia.
  - apply Z.leb_gt in He. rewrite (Z.max_r 0 (- e)), (Z.max_l 0 e) by lia.
    change (2 ^ 0)%Z with 1%Z. rewrite Z.mul_1_r.
    apply round_div_nearest, Z.pow_pos_nonneg; lia.
Qed.

(** Of two numbers of millionths that are as near, the even one is
    printed: 1/128 = 0.0078125 and 3/128 = 0.0234375. *)
Example print_float_ties :
  print_float (sc_lit (1 # 128)) = text_of "0.007812"
  /\ print_float (sc_lit (3 # 128)) = text_of "0.023438".
Proof. by vm_compute. Qed.

(** The clock of [Binary32.float_clock_drifts] as it is printed, after
    104 and after 1040 rows. *)
Example printed_clock :
  print_float (S754_finite false 16777200 (-24)) = text_of "0.999999"
  /\ print_float (S754_finite false 10485691 (-20)) = text_of "9.999934".
Proof. by vm_compute. Qed.

(** Six decimals keep 9.81 and lose the sampling interval, 1/104. *)
Example six_decimals :
  reread (sc_lit (981 # 100)) = sc_lit (981 # 100)
  /\ print_float (SENSOR_SAMP_INTVL : float) = text_of "0.009615"
  /\ reread (SENSOR_SAMP_INTVL : float) <> SENSOR_SAMP_INTVL.
Proof. by vm_compute. Qed.


(** ** Witnesses *)

Lemma print_scan_int_witness :
  scan_int (print_int (-104) ++ text_of ", 3") = Some (wrap32 (-104), text_of ", 3").
Proof. by apply (print_scan_int (-104) (text_of ", 3")). Defined.

Lemma print_scan_float_witness :
  scan_float (print_float (sc_lit (981 # 100)) ++ text_of ", 0")
  = Some (reread (sc_lit (981 # 100)), text_of ", 0").
Proof. by apply (print_scan_float (sc_lit (981 # 100)) (text_of ", 0")). Defined.

Lemma output_line_rereads_witness :
  exists line,
    print_line (out_line_of (vars_of (sample_row "12" "81"))
      (mk_output_row (sc_lit (1 # 104)) 0 (Some "WALKING"%string) 1)) = Some line
    /\ sscanf line_format line 0 scan_vars_init
       = Scanned 10 (reread_vars (vars_of (sample_row "12" "81"))).
Proof.
  by apply (output_line_rereads (vars_of (sample_row "12" "81"))
              (mk_output_row (sc_lit (1 # 104)) 0 (Some "WALKING"%string) 1)
              "WALKING"%string scan_vars_init).
Defined.

Lemma main_text_refines_witness :
  let r := main (map row_of_csv sample_rows) in
  let '(ts, total, walk, run, hop) := snd r in
  exists lines,
    print_lines (zip_with out_line_of (map vars_of sample_rows) (fst r)) = Some lines
    /\ length lines = length sample_rows
    /\ main_text (world_with (csv_file sample_header sample_header (map Row sample_rows)))
       = Some (mk_run_text 0
                 (print_message (Summary ts (as_int total) (as_int walk) (as_int run)
                                   (as_int hop)) ++ print_message Done)
                 (Some (header_line ++ concat lines))).
Proof.
  by apply (main_text_refines
              (world_with (csv_file sample_header sample_header (map Row sample_rows)))
              (text_of "pedometer") (text_of "in.csv") (text_of "out.csv")
              sample_header sample_header sample_rows).
Defined.
